(** * dodp: a DAISY Online Delivery Protocol client

    A shallow embedding of the SOAP transport of the [dodp] package:
    the envelope types, [body.UnmarshalXML], the three revisions of
    [Client.call] found in the repository, and the operation facade.

    The Go standard library is not part of the repository.  What the
    package observes of [encoding/xml] is modelled at the level of the
    token interface ([Decoder.Token], [Decoder.Skip],
    [Decoder.DecodeElement], [Decoder.Decode], [Unmarshal]).  A text
    is the list of the tokens that the lexer of the decoder reads from
    it, with the names as they are written; the resolution of name
    spaces by [Decoder.Token], the names and declarations that the
    printer writes and its treatment of the characters that XML
    excludes are part of the model.  What the package observes of
    [net/http] and [compress/gzip] is a parameter of the development. *)

From Equations Require Import Equations.
From Stdlib Require Import String Ascii List ZArith Bool Arith Lia.
From Stdlib Require Decimal DecimalString DecimalZ.
Import ListNotations.
Set Warnings "-register-all".
Open Scope string_scope.


(** ** encoding/xml: names, tokens, errors *)

(** [xml.Name]: a name space and a local name.  In a token that
    [Decoder.Token] returns the name space is the URI that the prefix
    of the name is bound to; in a token of a text as it is written it
    is the prefix itself. *)
Record Name : Type := mkName { Space : string; Local : string }.

Definition Name_eqb (a b : Name) : bool :=
  String.eqb (Space a) (Space b) && String.eqb (Local a) (Local b).

Lemma Name_eqb_refl (n : Name) : Name_eqb n n = true.
Proof.
  unfold Name_eqb. now rewrite !String.eqb_refl.
Qed.

Lemma Name_eqb_eq (a b : Name) : Name_eqb a b = true <-> a = b.
Proof.
  destruct a as [sa la], b as [sb lb]; unfold Name_eqb; simpl.
  rewrite andb_true_iff, !String.eqb_eq. split.
  - intros [-> ->]; reflexivity.
  - intros H; injection H; auto.
Qed.

(** [xml.Attr] *)
Record Attr : Type := mkAttr { AttrName : Name; AttrValue : string }.

(** [xml.Token]: the six token kinds [Decoder.Token] can return. *)
Inductive Token : Type :=
| StartElement (n : Name) (attrs : list Attr)
| EndElement (n : Name)
| CharData (s : string)
| Comment (s : string)
| ProcInst (target inst : string)
| Directive (s : string).

Definition isStartElement (t : Token) : bool :=
  match t with StartElement _ _ => true | _ => false end.

Definition isEndElement (t : Token) : bool :=
  match t with EndElement _ => true | _ => false end.

(** SOAP fault (declared next to the envelope types). *)
Record Fault : Type := mkFault { Fault_XMLName : Name; Faultstring : string }.

(** Go's [error] values, as far as the package can tell them apart. *)
Inductive error : Type :=
| EOF                                  (* io.EOF *)
| SyntaxError (msg : string)           (* xml.SyntaxError *)
| UnmarshalError (msg : string)        (* xml.UnmarshalError, strconv errors *)
| MarshalError (msg : string)          (* errors of xml.Encoder *)
| ReadError (msg : string)             (* an io.Reader failing: gzip, network *)
| RequestError (msg : string)          (* http.NewRequest *)
| TransportError (msg : string)        (* http.Client.Do *)
| StatusError (status : string)        (* errors.New(resp.Status) *)
| FaultError (f : Fault)               (* a pointer to a Fault *)
| Wrapped (prefix : string) (e : error) (* fmt.Errorf(prefix + "%w", e) *).

(** [Fault.Error]: the message of a fault is its fault string. *)
Definition Fault_Error (f : Fault) : string := Faultstring f.

(** The [Error()] method of each error value. *)
Fixpoint Error (e : error) : string :=
  match e with
  | EOF => "EOF"
  | SyntaxError m => "XML syntax error: " ++ m
  | UnmarshalError m => m
  | MarshalError m => m
  | ReadError m => m
  | RequestError m => m
  | TransportError m => m
  | StatusError s => s
  | FaultError f => Fault_Error f
  | Wrapped p e' => p ++ Error e'
  end.

(** [errors.As(err, &fault)] with [fault a pointer to a Fault]: follows the [%w] chain. *)
Fixpoint errors_As_Fault (e : error) : option Fault :=
  match e with
  | FaultError f => Some f
  | Wrapped _ e' => errors_As_Fault e'
  | _ => None
  end.

(** [errors.As] on the error of a call; nil is no fault. *)
Definition asFault (e : option error) : option Fault :=
  match e with
  | Some err => errors_As_Fault err
  | None => None
  end.

(** A decode error: anything the XML decoder or the reader below it
    can report. *)
Definition isDecodeError (e : error) : bool :=
  match e with
  | EOF | SyntaxError _ | UnmarshalError _ | ReadError _ => true
  | _ => false
  end.

(** ** encoding/xml: the decoder

    A decoder is the list of tokens its input still holds, the error
    its reader reports once those are consumed ([EOF] for a complete
    input), and the stack of open elements.  The stack also carries
    the end-of-input marks that [unmarshalInterface] places around a
    call to a type's [UnmarshalXML]. *)
Inductive stkItem : Type :=
| stkStart (n : Name)
| stkEOF.

Record Decoder : Type := mkDecoder {
  input : list Token;
  inputErr : error;
  stk : list stkItem
}.

(** xml.NewDecoder(r) *)
Definition NewDecoder (toks : list Token) (e : error) : Decoder :=
  mkDecoder toks e [].

Definition unexpectedEOF : error := SyntaxError "unexpected EOF".

(** The quotation mark is character 34. *)
Definition dq : string := String (ascii_of_nat 34) EmptyString.

(** The message of [Decoder.popElement] for an end tag that does not
    close the element that is open. *)
Definition closedBy (m n : Name) : string :=
  if String.eqb (Local m) (Local n) then
    "element <" ++ Local m ++ "> in space " ++ Space m ++ " closed by </" ++ Local n
    ++ "> in space " ++ (if String.eqb (Space n) "" then dq ++ dq else Space n)
  else "element <" ++ Local m ++ "> closed by </" ++ Local n ++ ">".

(** [Decoder.Token]: the next token, or an error. *)
Definition Decoder_Token (d : Decoder) : (Token + error) * Decoder :=
  match stk d with
  | stkEOF :: _ => (inr EOF, d)
  | s =>
    match input d with
    | [] =>
      match inputErr d, s with
      | EOF, _ :: _ => (inr unexpectedEOF, d)
      | e, _ => (inr e, d)
      end
    | t :: rest =>
      match t with
      | StartElement n _ =>
        (inl t, mkDecoder rest (inputErr d) (stkStart n :: s))
      | EndElement n =>
        match s with
        | stkStart m :: s' =>
          if Name_eqb m n
          then (inl t, mkDecoder rest (inputErr d) s')
          else (inr (SyntaxError (closedBy m n)), d)
        | _ => (inr (SyntaxError ("unexpected end element </" ++ Local n ++ ">")), d)
        end
      | _ => (inl t, mkDecoder rest (inputErr d) s)
      end
    end
  end.

Lemma Token_consumes {d d' : Decoder} {t : Token} :
  Decoder_Token d = (inl t, d') ->
  input d = t :: input d' /\ inputErr d' = inputErr d.
Proof.
  unfold Decoder_Token.
  destruct (stk d) as [|[m|] s] eqn:Hs; destruct (input d) as [|t0 rest] eqn:Hi;
    try (destruct (inputErr d); discriminate); try discriminate.
  - destruct t0; inversion 1; subst; simpl; auto.
  - destruct t0; try (inversion 1; subst; simpl; auto; fail).
    destruct (Name_eqb m n); inversion 1; subst; simpl; auto.
Qed.

Lemma Token_shrinks {d d' : Decoder} {t : Token} :
  Decoder_Token d = (inl t, d') -> length (input d') < length (input d).
Proof.
  intros H. apply Token_consumes in H as [-> _]. simpl. lia.
Qed.

(** Matching on a computed value while remembering where it came from. *)
Definition inspect {A : Type} (a : A) : {b : A | a = b} := exist _ a eq_refl.

(** [Decoder.Skip]: read tokens up to the end of the current element. *)
Equations? Skip_loop (d : Decoder) (depth : nat) : option error * Decoder
  by wf (length (input d)) lt :=
  Skip_loop d depth with inspect (Decoder_Token d) := {
    | exist _ (inr err, d') _ => (Some err, d')
    | exist _ (inl tok, d') Htok =>
      match tok with
      | StartElement _ _ => Skip_loop d' (S depth)
      | EndElement _ =>
        match depth with
        | 0 => (None, d')
        | S k => Skip_loop d' k
        end
      | _ => Skip_loop d' depth
      end
  }.
Proof.
  all: eapply Token_shrinks; eauto.
Qed.

Definition Decoder_Skip (d : Decoder) : option error * Decoder := Skip_loop d 0.

Lemma Skip_loop_eq (d : Decoder) (depth : nat) :
  Skip_loop d depth =
  match Decoder_Token d with
  | (inr err, d') => (Some err, d')
  | (inl tok, d') =>
      match tok with
      | StartElement _ _ => Skip_loop d' (S depth)
      | EndElement _ =>
        match depth with
        | 0 => (None, d')
        | S k => Skip_loop d' k
        end
      | _ => Skip_loop d' depth
      end
  end.
Proof.
  funelim (Skip_loop d depth); rewrite ?Htok, ?e; reflexivity.
Qed.

(** ** Documents as trees

    The content of an element whose tags nest properly is a list of
    nodes.  [flatten] gives the tokens a decoder reads from it and
    [parseNodes] rebuilds the nodes from such tokens. *)
Inductive Node : Type :=
| Elem (n : Name) (attrs : list Attr) (children : list Node)
| Text (s : string)
| NComment (s : string)
| NProcInst (target inst : string)
| NDirective (s : string).

Fixpoint flatten (n : Node) : list Token :=
  match n with
  | Elem nm attrs children =>
    StartElement nm attrs :: flat_map flatten children ++ [EndElement nm]
  | Text s => [CharData s]
  | NComment s => [Comment s]
  | NProcInst t i => [ProcInst t i]
  | NDirective s => [Directive s]
  end.

Definition flattenAll (ns : list Node) : list Token := flat_map flatten ns.

(** The open elements of [parseNodes]: name, attributes and the
    children read so far (latest first) of each enclosing element. *)
Definition Frame : Type := (Name * list Attr * list Node)%type.

Fixpoint parseNodes (ts : list Token) (open : list Frame) (cur : list Node)
  : option (list Node) :=
  match ts with
  | [] => match open with [] => Some (rev cur) | _ => None end
  | StartElement n a :: ts' => parseNodes ts' ((n, a, cur) :: open) []
  | EndElement _ :: ts' =>
    match open with
    | (n, a, prev) :: open' => parseNodes ts' open' (Elem n a (rev cur) :: prev)
    | [] => None
    end
  | CharData s :: ts' => parseNodes ts' open (Text s :: cur)
  | Comment s :: ts' => parseNodes ts' open (NComment s :: cur)
  | ProcInst t i :: ts' => parseNodes ts' open (NProcInst t i :: cur)
  | Directive s :: ts' => parseNodes ts' open (NDirective s :: cur)
  end.

(** The character data directly inside an element, concatenated. *)
Fixpoint charData (children : list Node) : string :=
  match children with
  | [] => ""
  | Text s :: rest => s ++ charData rest
  | _ :: rest => charData rest
  end.

(** The part of [Decoder.unmarshal] that is common to every destination:
    after the start tag of an element has been read, read on to its end
    tag, collecting the content of the element. *)
Equations? readNodes (d : Decoder) (open : list Frame) (cur : list Node)
  : (list Node + error) * Decoder
  by wf (length (input d)) lt :=
  readNodes d open cur with inspect (Decoder_Token d) := {
    | exist _ (inr err, d') _ => (inr err, d')
    | exist _ (inl tok, d') Htok =>
      match tok with
      | StartElement n a => readNodes d' ((n, a, cur) :: open) []
      | EndElement _ =>
        match open with
        | [] => (inl (rev cur), d')
        | (n, a, prev) :: open' => readNodes d' open' (Elem n a (rev cur) :: prev)
        end
      | CharData s => readNodes d' open (Text s :: cur)
      | Comment s => readNodes d' open (NComment s :: cur)
      | ProcInst t i => readNodes d' open (NProcInst t i :: cur)
      | Directive s => readNodes d' open (NDirective s :: cur)
      end
  }.
Proof.
  all: eapply Token_shrinks; eauto.
Qed.

Lemma readNodes_eq (d : Decoder) (open : list Frame) (cur : list Node) :
  readNodes d open cur =
  match Decoder_Token d with
  | (inr err, d') => (inr err, d')
  | (inl tok, d') =>
      match tok with
      | StartElement n a => readNodes d' ((n, a, cur) :: open) []
      | EndElement _ =>
        match open with
        | [] => (inl (rev cur), d')
        | (n, a, prev) :: open' => readNodes d' open' (Elem n a (rev cur) :: prev)
        end
      | CharData s => readNodes d' open (Text s :: cur)
      | Comment s => readNodes d' open (NComment s :: cur)
      | ProcInst t i => readNodes d' open (NProcInst t i :: cur)
      | Directive s => readNodes d' open (NDirective s :: cur)
      end
  end.
Proof.
  funelim (readNodes d open cur); rewrite ?Htok, ?e; reflexivity.
Qed.

(** ** unicode/utf8, strings and strconv

    A Go string is a sequence of bytes, and so is a [string] here; a
    rune is its code point. *)
Definition RuneError : N := 65533.

Definition between (lo hi b : N) : bool := (lo <=? b)%N && (b <=? hi)%N.

(** The six bits a continuation byte carries. *)
Definition low6 (b : N) : N := N.land b 63.

(** [utf8.DecodeRuneInString]: the rune a string starts with and the
    number of bytes of its encoding; an encoding that is invalid or cut
    short gives [RuneError] and the width one, the empty string the
    width zero. *)
Definition DecodeRuneInString (s : string) : N * nat :=
  match s with
  | EmptyString => (RuneError, 0)
  | String c0 s1 =>
    let b0 := N_of_ascii c0 in
    if (b0 <? 128)%N then (b0, 1)
    else if (b0 <? 194)%N then (RuneError, 1)
    else if (b0 <? 224)%N then
      match s1 with
      | String c1 _ =>
        let b1 := N_of_ascii c1 in
        if between 128 191 b1
        then (N.lor (N.shiftl (N.land b0 31) 6) (low6 b1), 2)
        else (RuneError, 1)
      | EmptyString => (RuneError, 1)
      end
    else if (b0 <? 240)%N then
      match s1 with
      | String c1 (String c2 _) =>
        let b1 := N_of_ascii c1 in
        let b2 := N_of_ascii c2 in
        if between (if (b0 =? 224)%N then 160 else 128)
                   (if (b0 =? 237)%N then 159 else 191) b1
           && between 128 191 b2
        then (N.lor (N.shiftl (N.land b0 15) 12)
                    (N.lor (N.shiftl (low6 b1) 6) (low6 b2)), 3)
        else (RuneError, 1)
      | _ => (RuneError, 1)
      end
    else if (b0 <? 245)%N then
      match s1 with
      | String c1 (String c2 (String c3 _)) =>
        let b1 := N_of_ascii c1 in
        let b2 := N_of_ascii c2 in
        let b3 := N_of_ascii c3 in
        if between (if (b0 =? 240)%N then 144 else 128)
                   (if (b0 =? 244)%N then 143 else 191) b1
           && between 128 191 b2 && between 128 191 b3
        then (N.lor (N.shiftl (N.land b0 7) 18)
                    (N.lor (N.shiftl (low6 b1) 12)
                           (N.lor (N.shiftl (low6 b2) 6) (low6 b3))), 4)
        else (RuneError, 1)
      | _ => (RuneError, 1)
      end
    else (RuneError, 1)
  end.

(** [s[n:]], for [n] within the string. *)
Fixpoint dropBytes (n : nat) (s : string) : string :=
  match n, s with
  | S k, String _ s' => dropBytes k s'
  | _, _ => s
  end.

(** [s[:n]] *)
Fixpoint takeBytes (n : nat) (s : string) : string :=
  match n, s with
  | S k, String c s' => String c (takeBytes k s')
  | _, _ => EmptyString
  end.

Fixpoint revOnto (s acc : string) : string :=
  match s with
  | EmptyString => acc
  | String c s' => revOnto s' (String c acc)
  end.

(** The bytes of a string, last first. *)
Definition reversed (s : string) : string := revOnto s EmptyString.

(** A byte that is not a continuation byte ([utf8.RuneStart]). *)
Definition RuneStart (c : ascii) : bool := negb (N.land (N_of_ascii c) 192 =? 128)%N.

(** [utf8.DecodeLastRuneInString], given the bytes of the string last
    first: the rune is looked for among the last four bytes, from the
    nearest byte before the last that can start a rune, and must end
    with the string. *)
Definition DecodeLastRune (r : string) : N * nat :=
  let whole (bytes : string) : N * nat :=
    let (rune, width) := DecodeRuneInString bytes in
    if Nat.eqb width (String.length bytes) then (rune, width) else (RuneError, 1) in
  match r with
  | EmptyString => (RuneError, 0)
  | String c0 r1 =>
    if (N_of_ascii c0 <? 128)%N then (N_of_ascii c0, 1)
    else
      match r1 with
      | EmptyString => (RuneError, 1)
      | String c1 r2 =>
        if RuneStart c1 then whole (String c1 (String c0 EmptyString))
        else
          match r2 with
          | EmptyString => (RuneError, 1)
          | String c2 r3 =>
            if RuneStart c2 then whole (String c2 (String c1 (String c0 EmptyString)))
            else
              match r3 with
              | EmptyString => (RuneError, 1)
              | String c3 _ =>
                if RuneStart c3
                then whole (String c3 (String c2 (String c1 (String c0 EmptyString))))
                else (RuneError, 1)
              end
          end
      end
  end.

(** [unicode.IsSpace]: the white space of Unicode. *)
Definition IsSpace (r : N) : bool :=
  between 9 13 r || (r =? 32)%N || (r =? 133)%N || (r =? 160)%N || (r =? 5760)%N
  || between 8192 8202 r || (r =? 8232)%N || (r =? 8233)%N || (r =? 8239)%N
  || (r =? 8287)%N || (r =? 12288)%N.

(** [strings.TrimLeftFunc(s, unicode.IsSpace)]; the fuel is the length
    of the string. *)
Fixpoint trimLeft (fuel : nat) (s : string) : string :=
  match fuel with
  | 0 => s
  | S f =>
    let (rune, width) := DecodeRuneInString s in
    match width with
    | 0 => s
    | _ => if IsSpace rune then trimLeft f (dropBytes width s) else s
    end
  end.

(** [strings.TrimRightFunc(s, unicode.IsSpace)], on the bytes of the
    string last first. *)
Fixpoint trimRight (fuel : nat) (r : string) : string :=
  match fuel with
  | 0 => r
  | S f =>
    let (rune, width) := DecodeLastRune r in
    match width with
    | 0 => r
    | _ => if IsSpace rune then trimRight f (dropBytes width r) else r
    end
  end.

(** strings.TrimSpace *)
Definition TrimSpace (s : string) : string :=
  let l := trimLeft (String.length s) s in
  reversed (trimRight (String.length l) (reversed l)).

(** The digits of [strconv.Quote]'s escapes. *)
Definition lowerhex (n : N) : string :=
  String (match n with
          | 0 => "0" | 1 => "1" | 2 => "2" | 3 => "3" | 4 => "4" | 5 => "5" | 6 => "6"
          | 7 => "7" | 8 => "8" | 9 => "9" | 10 => "a" | 11 => "b" | 12 => "c"
          | 13 => "d" | 14 => "e" | _ => "f"
          end)%N%char EmptyString.

Definition hex2 (n : N) : string :=
  lowerhex (N.land (N.shiftr n 4) 15) ++ lowerhex (N.land n 15).

Definition hex4 (n : N) : string := hex2 (N.shiftr n 8) ++ hex2 (N.land n 255).

Definition bs : string := String (ascii_of_nat 92) EmptyString.

(** [strconv.IsPrint] for the runes of Latin-1; the tables that Go
    consults for the runes above them are not part of the model, which
    takes every such rune to be printable. *)
Definition IsPrint (r : N) : bool :=
  if (r <=? 255)%N then between 32 126 r || (between 161 255 r && negb (r =? 173)%N)
  else true.

(** What [strconv.Quote] writes for one rune that is [width] bytes at
    the start of [s]. *)
Definition quotedRune (rune : N) (width : nat) (s : string) : string :=
  if ((rune =? RuneError)%N && Nat.eqb width 1)%bool then
    match s with
    | String c _ => bs ++ "x" ++ hex2 (N_of_ascii c)
    | EmptyString => EmptyString
    end
  else if ((rune =? 34) || (rune =? 92))%N%bool then bs ++ takeBytes width s
  else if IsPrint rune then takeBytes width s
  else if (rune =? 7)%N then bs ++ "a"
  else if (rune =? 8)%N then bs ++ "b"
  else if (rune =? 12)%N then bs ++ "f"
  else if (rune =? 10)%N then bs ++ "n"
  else if (rune =? 13)%N then bs ++ "r"
  else if (rune =? 9)%N then bs ++ "t"
  else if (rune =? 11)%N then bs ++ "v"
  else if ((rune <? 32) || (rune =? 127))%N%bool then bs ++ "x" ++ hex2 rune
  else bs ++ "u" ++ hex4 rune.

Fixpoint quoted (fuel : nat) (s : string) : string :=
  match fuel with
  | 0 => EmptyString
  | S f =>
    let (rune, width) := DecodeRuneInString s in
    match width with
    | 0 => EmptyString
    | _ => quotedRune rune width s ++ quoted f (dropBytes width s)
    end
  end.

(** strconv.Quote *)
Definition Quote (s : string) : string := dq ++ quoted (String.length s) s ++ dq.

(** The message of a [strconv.NumError]. *)
Definition NumError (fn num msg : string) : error :=
  UnmarshalError ("strconv." ++ fn ++ ": parsing " ++ Quote num ++ ": " ++ msg).

(** strconv.FormatBool and strconv.ParseBool *)
Definition FormatBool (b : bool) : string := if b then "true" else "false".

Definition ParseBool (s : string) : error + bool :=
  if existsb (String.eqb s) ["1"; "t"; "T"; "TRUE"; "true"; "True"] then inr true
  else if existsb (String.eqb s) ["0"; "f"; "F"; "FALSE"; "false"; "False"] then inr false
  else inl (NumError "ParseBool" s "invalid syntax").

(** strconv.FormatInt(v, 10) and strconv.ParseInt(s, 10, bits) *)
Definition FormatInt (z : Z) : string := DecimalString.NilZero.string_of_int (Z.to_int z).

Definition inRange (bits z : Z) : bool :=
  (- 2 ^ (bits - 1) <=? z)%Z && (z <? 2 ^ (bits - 1))%Z.

Definition ParseInt (s : string) (bits : Z) : error + Z :=
  let digits :=
    match s with
    | String "+" r => option_map Decimal.Pos (DecimalString.NilZero.uint_of_string r)
    | _ => DecimalString.NilZero.int_of_string s
    end in
  match digits with
  | None => inl (NumError "ParseInt" s "invalid syntax")
  | Some d =>
    let z := Z.of_int d in
    if inRange bits z then inr z
    else inl (NumError "ParseInt" s "value out of range")
  end.

(** ** encoding/xml: Go types, described by their struct tags

    The package hands its message structs to [encoding/xml], which
    reads their shape by reflection.  A [Ty] is what reflection sees:
    the kind of a type and, for a struct, the tag of its [XMLName]
    field and the declaration of every other field. *)
Record XMLNameTag : Type := mkXMLName { xmlns : string; xname : string }.

Inductive FieldMode : Type := fElement | fAttr.

Record FieldTag : Type :=
  mkTag { tagName : string; tagMode : FieldMode; omitEmpty : bool }.

Record FieldDecl : Type := mkField { goName : string; tag : option FieldTag }.

Inductive Ty : Type :=
| TString
| TBool
| TInt (bits : Z)
| TStruct (goType : string) (x : XMLNameTag) (fs : Fields)
| TPtr (elem : Ty)
| TSlice (elem : Ty)
with Fields : Type :=
| FNil
| FCons (d : FieldDecl) (t : Ty) (rest : Fields).

Scheme Ty_Fields_ind := Induction for Ty Sort Prop
  with Fields_Ty_ind := Induction for Fields Sort Prop.

(** The values of a type.  A struct is its [XMLName] followed by its
    fields in declaration order; a pointer is [None] when nil. *)
Fixpoint denote (t : Ty) : Type :=
  match t with
  | TString => string
  | TBool => bool
  | TInt _ => Z
  | TStruct _ _ fs => (Name * denoteFields fs)%type
  | TPtr t' => option (denote t')
  | TSlice t' => list (denote t')
  end
with denoteFields (fs : Fields) : Type :=
  match fs with
  | FNil => unit
  | FCons _ t rest => (denote t * denoteFields rest)%type
  end.

Definition zeroName : Name := mkName "" "".

(** The zero value of a type: what [T{}] and [new(T)] hold. *)
Fixpoint zero (t : Ty) : denote t :=
  match t return denote t with
  | TString => ""
  | TBool => false
  | TInt _ => 0%Z
  | TStruct _ _ fs => (zeroName, zeroFields fs)
  | TPtr _ => None
  | TSlice _ => []
  end
with zeroFields (fs : Fields) : denoteFields fs :=
  match fs return denoteFields fs with
  | FNil => tt
  | FCons _ t rest => (zero t, zeroFields rest)
  end.

(** [typeinfo.go]: what a struct field's tag says. *)
Record fieldInfo : Type := mkFinfo {
  fi_name : string;
  fi_xmlns : string;
  fi_mode : FieldMode;
  fi_omitEmpty : bool
}.

(** [lookupXMLName]: the tag of the [XMLName] field of a struct type,
    or of the struct a pointer leads to, when it names the element. *)
Fixpoint lookupXMLName (t : Ty) : option XMLNameTag :=
  match t with
  | TStruct _ x _ => if String.eqb (xname x) "" then None else Some x
  | TPtr t' => lookupXMLName t'
  | _ => None
  end.

(** [structFieldInfo]: a field without a tag is named by the [XMLName]
    of its type, or else by its Go name; a tagged element field
    inherits the name space of the enclosing struct's [XMLName]. *)
Definition finfoOf (enc : XMLNameTag) (d : FieldDecl) (t : Ty) : fieldInfo :=
  match tag d with
  | None =>
    match lookupXMLName t with
    | Some x => mkFinfo (xname x) (xmlns x) fElement false
    | None => mkFinfo (goName d) "" fElement false
    end
  | Some tg =>
    mkFinfo (tagName tg)
            (match tagMode tg with fElement => xmlns enc | fAttr => "" end)
            (tagMode tg) (omitEmpty tg)
  end.

Definition FieldMode_eqb (a b : FieldMode) : bool :=
  match a, b with
  | fElement, fElement | fAttr, fAttr => true
  | _, _ => false
  end.

(** [structFieldInfo] rejects a tagged element field whose name differs
    from the [XMLName] of its type. *)
Definition tagConflict (d : FieldDecl) (t : Ty) : bool :=
  match tag d, lookupXMLName t with
  | Some tg, Some x =>
    FieldMode_eqb (tagMode tg) fElement && negb (String.eqb (xname x) (tagName tg))
  | _, _ => false
  end.

(** [addFieldInfo] rejects two fields of one struct with the same mode,
    the same name and compatible name spaces. *)
Definition fieldConflict (a b : fieldInfo) : bool :=
  FieldMode_eqb (fi_mode a) (fi_mode b)
  && (String.eqb (fi_xmlns a) "" || String.eqb (fi_xmlns b) ""
      || String.eqb (fi_xmlns a) (fi_xmlns b))
  && String.eqb (fi_name a) (fi_name b).

Fixpoint getTypeInfo_fields (enc : XMLNameTag) (fs : Fields) (seen : list fieldInfo)
  : option error :=
  match fs with
  | FNil => None
  | FCons d t rest =>
    let fi := finfoOf enc d t in
    if tagConflict d t then
      Some (UnmarshalError ("xml: name " ++ fi_name fi ++ " in tag of field "
                             ++ goName d ++ " conflicts with the XMLName of its type"))
    else if existsb (fieldConflict fi) seen then
      Some (UnmarshalError ("xml: field " ++ goName d ++ " conflicts with another field"))
    else getTypeInfo_fields enc rest (fi :: seen)
  end.

(** [getTypeInfo]: the error, if any, of reading a struct type. *)
Definition getTypeInfo (x : XMLNameTag) (fs : Fields) : option error :=
  getTypeInfo_fields x fs [].

(** [copyValue]: store character data or an attribute value. *)
Definition copyScalar (t : Ty) : denote t -> string -> denote t * option error :=
  match t return denote t -> string -> denote t * option error with
  | TString => fun _ src => (src, None)
  | TBool => fun v src =>
    match src with
    | EmptyString => (false, None)
    | _ => match ParseBool (TrimSpace src) with
           | inr b => (b, None)
           | inl e => (v, Some e)
           end
    end
  | TInt bits => fun v src =>
    match src with
    | EmptyString => (0%Z, None)
    | _ => match ParseInt (TrimSpace src) bits with
           | inr z => (z, None)
           | inl e => (v, Some e)
           end
    end
  | _ => fun v _ => (v, Some (UnmarshalError "cannot unmarshal into this type"))
  end.

Definition copyValue (t : Ty) : denote t -> string -> denote t * option error :=
  match t return denote t -> string -> denote t * option error with
  | TPtr t' => fun v src =>
    let cur := match v with Some c => c | None => zero t' end in
    let (r, e) := copyScalar t' cur src in (Some r, e)
  | t' => copyScalar t'
  end.

(** [Decoder.unmarshalAttr] *)
Fixpoint unmarshalAttr (t : Ty) : denote t -> Attr -> denote t * option error :=
  match t return denote t -> Attr -> denote t * option error with
  | TPtr t' => fun v a =>
    let cur := match v with Some c => c | None => zero t' end in
    let (r, e) := unmarshalAttr t' cur a in (Some r, e)
  | TSlice t' => fun v a =>
    let (r, e) := unmarshalAttr t' (zero t') a in
    match e with
    | None => (app v [r], None)
    | Some err => (v, Some err)
    end
  | t' => fun v a => copyValue t' v (AttrValue a)
  end.

(** One attribute of a start tag, offered to every attribute field. *)
Fixpoint assignAttr (enc : XMLNameTag) (fs : Fields)
  : denoteFields fs -> Attr -> denoteFields fs * option error :=
  match fs return denoteFields fs -> Attr -> denoteFields fs * option error with
  | FNil => fun vals _ => (vals, None)
  | FCons d t rest => fun vals a =>
    let fi := finfoOf enc d t in
    if FieldMode_eqb (fi_mode fi) fAttr
       && String.eqb (Local (AttrName a)) (fi_name fi)
       && (String.eqb (fi_xmlns fi) "" || String.eqb (fi_xmlns fi) (Space (AttrName a)))
    then
      let (v', e) := unmarshalAttr t (fst vals) a in
      match e with
      | Some err => ((v', snd vals), Some err)
      | None =>
        let (r, e') := assignAttr enc rest (snd vals) a in ((v', r), e')
      end
    else
      let (r, e') := assignAttr enc rest (snd vals) a in ((fst vals, r), e')
  end.

Fixpoint assignAttrs (enc : XMLNameTag) (fs : Fields) (vals : denoteFields fs)
  (attrs : list Attr) : denoteFields fs * option error :=
  match attrs with
  | [] => (vals, None)
  | a :: rest =>
    let (vals', e) := assignAttr enc fs vals a in
    match e with
    | Some err => (vals', Some err)
    | None => assignAttrs enc fs vals' rest
    end
  end.

(** The loop of [Decoder.unmarshal] over the content of a struct
    element: every child element is offered to the fields through
    [path]; the first error ends the loop. *)
Fixpoint childrenLoop {V : Type}
  (path : V -> Name -> list Attr -> list Node -> V * option error)
  (cs : list Node) (vals : V) : V * option error :=
  match cs with
  | [] => (vals, None)
  | Elem cn ca cch :: cs' =>
    let (vals', e) := path vals cn ca cch in
    match e with
    | Some err => (vals', Some err)
    | None => childrenLoop path cs' vals'
    end
  | _ :: cs' => childrenLoop path cs' vals
  end.

(** How the decoder words the name space of an element it refuses. *)
Definition haveSpace (space : string) : string :=
  if String.eqb space "" then "no name space" else space.

(** [Decoder.unmarshal], once the content of the element is known.
    A struct checks the element against its [XMLName] tag, records the
    element name, takes its attribute fields from the start tag and
    offers every child element to its element fields; a child that no
    field matches is skipped.  A scalar takes the character data of the
    element. *)
Fixpoint unmarshal (t : Ty)
  : denote t -> Name -> list Attr -> list Node -> denote t * option error :=
  match t return denote t -> Name -> list Attr -> list Node
                 -> denote t * option error with
  | TStruct _ x fs => fun v n attrs children =>
    match getTypeInfo x fs with
    | Some e => (v, Some e)
    | None =>
      if negb (String.eqb (xname x) "") && negb (String.eqb (xname x) (Local n)) then
        (v, Some (UnmarshalError ("expected element type <" ++ xname x
                                   ++ "> but have <" ++ Local n ++ ">")))
      else if negb (String.eqb (xmlns x) "") && negb (String.eqb (xmlns x) (Space n)) then
        (v, Some (UnmarshalError ("expected element <" ++ xname x ++ "> in name space "
                                   ++ xmlns x ++ " but have " ++ haveSpace (Space n))))
      else
        let (vals1, e1) := assignAttrs x fs (snd v) attrs in
        match e1 with
        | Some err => ((n, vals1), Some err)
        | None =>
          let (vals2, e2) := childrenLoop (unmarshalPath x fs) children vals1 in
          ((n, vals2), e2)
        end
    end
  | TPtr t' => fun v n attrs children =>
    let cur := match v with Some c => c | None => zero t' end in
    let (r, e) := unmarshal t' cur n attrs children in (Some r, e)
  | TSlice t' => fun v n attrs children =>
    let (r, e) := unmarshal t' (zero t') n attrs children in
    match e with
    | None => (app v [r], None)
    | Some err => (v, Some err)
    end
  | TString => fun v _ _ children => copyScalar TString v (charData children)
  | TBool => fun v _ _ children => copyScalar TBool v (charData children)
  | TInt bits => fun v _ _ children => copyScalar (TInt bits) v (charData children)
  end
(** [Decoder.unmarshalPath]: the first element field whose name (and
    name space, if it has one) is that of the child decodes it. *)
with unmarshalPath (enc : XMLNameTag) (fs : Fields)
  : denoteFields fs -> Name -> list Attr -> list Node
    -> denoteFields fs * option error :=
  match fs return denoteFields fs -> Name -> list Attr -> list Node
                  -> denoteFields fs * option error with
  | FNil => fun vals _ _ _ => (vals, None)
  | FCons d t rest => fun vals cn ca cch =>
    let fi := finfoOf enc d t in
    if FieldMode_eqb (fi_mode fi) fElement
       && (String.eqb (fi_xmlns fi) "" || String.eqb (fi_xmlns fi) (Space cn))
       && String.eqb (fi_name fi) (Local cn)
    then
      let (v', e) := unmarshal t (fst vals) cn ca cch in ((v', snd vals), e)
    else
      let (r, e) := unmarshalPath enc rest (snd vals) cn ca cch in
      ((fst vals, r), e)
  end.

(** [Decoder.DecodeElement(v, &start)], [v] pointing to a destination
    of type [t].  The destination is described after the element has
    been read to its end tag; when the token stream fails inside the
    element, the error is returned and the model leaves the destination
    as it was. *)
Definition Decoder_DecodeElement (t : Ty) (d : Decoder) (v : denote t)
  (n : Name) (attrs : list Attr) : denote t * option error * Decoder :=
  match readNodes d [] [] with
  | (inr err, d') => (v, Some err, d')
  | (inl children, d') =>
    let (r, e) := unmarshal t v n attrs children in (r, e, d')
  end.

(** ** encoding/xml: marshalling *)

(** [isEmptyValue], for the [omitempty] flag *)
Definition isEmptyValue (t : Ty) : denote t -> bool :=
  match t return denote t -> bool with
  | TString => fun s => String.eqb s ""
  | TBool => fun b => negb b
  | TInt _ => fun z => (z =? 0)%Z
  | TStruct _ _ _ => fun _ => false
  | TPtr _ => fun p => match p with None => true | Some _ => false end
  | TSlice _ => fun l => match l with [] => true | _ => false end
  end.

(** [printer.marshalSimple]: the text of a scalar *)
Definition marshalSimple (t : Ty) : denote t -> error + string :=
  match t return denote t -> error + string with
  | TString => fun s => inr s
  | TBool => fun b => inr (FormatBool b)
  | TInt _ => fun z => inr (FormatInt z)
  | _ => fun _ => inl (MarshalError "xml: unsupported type")
  end.

(** [printer.marshalAttr]: the attributes a field contributes *)
Fixpoint marshalAttr (t : Ty) : denote t -> Name -> error + list Attr :=
  match t return denote t -> Name -> error + list Attr with
  | TPtr t' => fun p nm =>
    match p with
    | None => inr []
    | Some v => marshalAttr t' v nm
    end
  | TSlice t' => fun l nm =>
    (fix each (l : list (denote t')) : error + list Attr :=
       match l with
       | [] => inr []
       | v :: l' =>
         match marshalAttr t' v nm with
         | inl e => inl e
         | inr a =>
           match each l' with
           | inl e => inl e
           | inr b => inr (app a b)
           end
         end
       end) l
  | t' => fun v nm =>
    match marshalSimple t' v with
    | inl e => inl e
    | inr s => inr [mkAttr nm s]
    end
  end.

Fixpoint marshalAttrs (enc : XMLNameTag) (fs : Fields)
  : denoteFields fs -> error + list Attr :=
  match fs return denoteFields fs -> error + list Attr with
  | FNil => fun _ => inr []
  | FCons d t rest => fun vals =>
    let fi := finfoOf enc d t in
    if FieldMode_eqb (fi_mode fi) fAttr
       && negb (fi_omitEmpty fi && isEmptyValue t (fst vals))
    then
      match marshalAttr t (fst vals) (mkName (fi_xmlns fi) (fi_name fi)) with
      | inl e => inl e
      | inr a =>
        match marshalAttrs enc rest (snd vals) with
        | inl e => inl e
        | inr b => inr (app a b)
        end
      end
    else marshalAttrs enc rest (snd vals)
  end.

(** The text between the tags of a scalar: nothing for the empty string. *)
Definition textNodes (s : string) : list Node :=
  match s with
  | EmptyString => []
  | _ => [Text s]
  end.

(** [printer.marshalValue]: the elements a value is written as.  The
    names are the ones the encoder writes: an element carries a name
    space only where the encoder declares one. *)
Fixpoint marshalValue (t : Ty) : denote t -> fieldInfo -> error + list Node :=
  match t return denote t -> fieldInfo -> error + list Node with
  | TPtr t' => fun p fi =>
    match p with
    | None => inr []
    | Some v => marshalValue t' v fi
    end
  | TSlice t' => fun l fi =>
    if fi_omitEmpty fi && isEmptyValue (TSlice t') l then inr []
    else
      (fix each (l : list (denote t')) : error + list Node :=
         match l with
         | [] => inr []
         | v :: l' =>
           match marshalValue t' v fi with
           | inl e => inl e
           | inr a =>
             match each l' with
             | inl e => inl e
             | inr b => inr (app a b)
             end
           end
         end) l
  | TStruct g x fs => fun v fi =>
    match getTypeInfo x fs with
    | Some e => inl e
    | None =>
      let nm :=
        if negb (String.eqb (xname x) "") then mkName (xmlns x) (xname x)
        else if negb (String.eqb (Local (fst v)) "") then fst v
        else if negb (String.eqb (fi_name fi) "") then mkName (fi_xmlns fi) (fi_name fi)
        else mkName "" g in
      match marshalAttrs x fs (snd v) with
      | inl e => inl e
      | inr attrs =>
        match marshalFields x fs (snd v) with
        | inl e => inl e
        | inr children => inr [Elem nm attrs children]
        end
      end
    end
  | TString => fun v fi =>
    if fi_omitEmpty fi && isEmptyValue TString v then inr []
    else inr [Elem (mkName (fi_xmlns fi) (fi_name fi)) [] (textNodes v)]
  | TBool => fun v fi =>
    if fi_omitEmpty fi && isEmptyValue TBool v then inr []
    else inr [Elem (mkName (fi_xmlns fi) (fi_name fi)) [] [Text (FormatBool v)]]
  | TInt bits => fun v fi =>
    if fi_omitEmpty fi && isEmptyValue (TInt bits) v then inr []
    else inr [Elem (mkName (fi_xmlns fi) (fi_name fi)) [] [Text (FormatInt v)]]
  end
(** [printer.marshalStruct]: the element fields, in declaration order *)
with marshalFields (enc : XMLNameTag) (fs : Fields)
  : denoteFields fs -> error + list Node :=
  match fs return denoteFields fs -> error + list Node with
  | FNil => fun _ => inr []
  | FCons d t rest => fun vals =>
    let fi := finfoOf enc d t in
    if FieldMode_eqb (fi_mode fi) fElement then
      match marshalValue t (fst vals) fi with
      | inl e => inl e
      | inr a =>
        match marshalFields enc rest (snd vals) with
        | inl e => inl e
        | inr b => inr (app a b)
        end
      end
    else marshalFields enc rest (snd vals)
  end.

(** ** encoding/xml: the text of a document

    [EscapeText] and [EscapeString] write a string rune by rune: the
    characters of markup as entities, and the Unicode replacement
    character in place of a rune that XML does not allow or of a byte
    that is no valid UTF-8.  A decoder reads the entities back as the
    characters they stand for, so what it reads of a written string is
    the string with those runes replaced. *)
Definition isInCharacterRange (r : N) : bool :=
  (r =? 9)%N || (r =? 10)%N || (r =? 13)%N || between 32 55295 r
  || between 57344 65533 r || between 65536 1114111 r.

(** The UTF-8 encoding of U+FFFD. *)
Definition replacementChar : string :=
  String (ascii_of_nat 239) (String (ascii_of_nat 191) (String (ascii_of_nat 189) EmptyString)).

Fixpoint escaped (fuel : nat) (s : string) : string :=
  match fuel with
  | 0 => EmptyString
  | S f =>
    let (rune, width) := DecodeRuneInString s in
    match width with
    | 0 => EmptyString
    | _ =>
      (if negb (isInCharacterRange rune) || ((rune =? RuneError)%N && Nat.eqb width 1)
       then replacementChar else takeBytes width s)
      ++ escaped f (dropBytes width s)
    end
  end.

(** A string as a decoder reads it after [EscapeText] wrote it. *)
Definition EscapeText (s : string) : string := escaped (String.length s) s.

(** [Decoder.nsname]: a written name is split at its colon into a
    prefix and a local name, unless it has several colons or nothing
    on one side of the colon. *)
Fixpoint cutColon (s : string) : option (string * string) :=
  match s with
  | EmptyString => None
  | String c s' =>
    if Ascii.eqb c ":" then Some (EmptyString, s')
    else match cutColon s' with
         | Some (before, after) => Some (String c before, after)
         | None => None
         end
  end.

Definition nsname (s : string) : Name :=
  match cutColon s with
  | None => mkName "" s
  | Some (prefix, local) =>
    match cutColon local with
    | Some _ => mkName "" s
    | None =>
      if String.eqb prefix "" || String.eqb local "" then mkName "" s
      else mkName prefix local
    end
  end.

(** The declaration of a default name space. *)
Definition xmlnsAttr (ns : string) : Attr := mkAttr (mkName "" "xmlns") ns.

(** [printer.writeStart] and the text the printer writes between the
    tags, as the tokens of the text: the name of an element is written
    without a prefix, followed by the declaration of its name space as
    the default one if it has a name space; the attributes follow
    under their names (no attribute of the package is in a name
    space); strings are escaped. *)
Definition printAttr (a : Attr) : Attr :=
  mkAttr (nsname (Local (AttrName a))) (EscapeText (AttrValue a)).

Fixpoint print (n : Node) : Node :=
  match n with
  | Elem nm attrs children =>
    Elem (nsname (Local nm))
         (app (if String.eqb (Space nm) "" then [] else [xmlnsAttr (Space nm)])
              (map printAttr attrs))
         (map print children)
  | Text s => Text (EscapeText s)
  | other => other
  end.

(** ** encoding/xml: name spaces

    In the tokens of a text as it is written the [Space] of a name is
    its prefix.  [Decoder.Token] resolves the names it returns: the
    [xmlns] attributes of a start tag bind prefixes, and the default
    name space, for the element and what it holds. *)
Definition Bindings : Type := list (string * string).

Fixpoint lookupNs (ns : Bindings) (prefix : string) : option string :=
  match ns with
  | [] => None
  | (p, uri) :: rest => if String.eqb p prefix then Some uri else lookupNs rest prefix
  end.

(** The bindings in force inside an element with the attributes
    [attrs], under the bindings [ns]. *)
Fixpoint declare (ns : Bindings) (attrs : list Attr) : Bindings :=
  match attrs with
  | [] => ns
  | a :: rest =>
    let n := AttrName a in
    if String.eqb (Space n) "xmlns" then declare ((Local n, AttrValue a) :: ns) rest
    else if String.eqb (Space n) "" && String.eqb (Local n) "xmlns"
         then declare ((EmptyString, AttrValue a) :: ns) rest
         else declare ns rest
  end.

Definition xmlURL : string := "http://www.w3.org/XML/1998/namespace".

(** [Decoder.translate]; the decoders of the package have no
    [DefaultSpace]. *)
Definition translate (ns : Bindings) (isElementName : bool) (n : Name) : Name :=
  if String.eqb (Space n) "xmlns" then n
  else if String.eqb (Space n) "" && negb isElementName then n
  else if String.eqb (Space n) "" && String.eqb (Local n) "xmlns" then n
  else
    let space := if String.eqb (Space n) "xml" then xmlURL else Space n in
    match lookupNs ns space with
    | Some uri => mkName uri (Local n)
    | None => mkName space (Local n)
    end.

Definition translateAttr (ns : Bindings) (a : Attr) : Attr :=
  mkAttr (translate ns false (AttrName a)) (AttrValue a).

(** A document as [Decoder.Token] reports it, from the document as it
    is written, under the bindings [ns]. *)
Fixpoint resolve (ns : Bindings) (n : Node) : Node :=
  match n with
  | Elem nm attrs children =>
    Elem (translate (declare ns attrs) true nm)
         (map (translateAttr (declare ns attrs)) attrs)
         (map (resolve (declare ns attrs)) children)
  | other => other
  end.

(** The same on tokens.  [open] holds, for every element that is open,
    its name as written and the bindings to return to at its end tag.
    An end tag whose written name is not that of the open element ends
    the tokens with the syntax error of [Decoder.popElement]. *)
Fixpoint resolveTokens (open : list (Name * Bindings)) (ns : Bindings)
  (ts : list Token) : list Token * option error :=
  match ts with
  | [] => ([], None)
  | StartElement n attrs :: rest =>
    let (out, e) := resolveTokens ((n, ns) :: open) (declare ns attrs) rest in
    (StartElement (translate (declare ns attrs) true n)
                  (map (translateAttr (declare ns attrs)) attrs) :: out, e)
  | EndElement n :: rest =>
    match open with
    | (m, outer) :: open' =>
      if Name_eqb m n then
        let (out, e) := resolveTokens open' outer rest in
        (EndElement (translate ns true n) :: out, e)
      else ([], Some (SyntaxError (closedBy m n)))
    | [] =>
      let (out, e) := resolveTokens [] ns rest in
      (EndElement (translate ns true n) :: out, e)
    end
  | t :: rest =>
    let (out, e) := resolveTokens open ns rest in (t :: out, e)
  end.

(** ** encoding/xml: decoding a struct around a field of its own

    [Decoder.unmarshal] on a struct reads the tokens of the element up
    to its end tag.  A child element named like an element field is
    handed to that field; any other child is skipped.  The envelope
    types of the package have a single field, [Body], and no attribute
    or character data fields; [onField] is how that field decodes. *)
Lemma Token_error {d d' : Decoder} {e : error} :
  Decoder_Token d = (inr e, d') -> d' = d.
Proof.
  unfold Decoder_Token.
  destruct (stk d) as [|[m|] s0]; destruct (input d) as [|t0 rest];
    repeat match goal with
           | |- context [match ?x with _ => _ end] => destruct x
           end; now inversion 1.
Qed.

(** Induction on the number of tokens a decoder still holds. *)
Lemma decoder_ind (P : Decoder -> Prop) :
  (forall d, (forall d', length (input d') < length (input d) -> P d') -> P d) ->
  forall d, P d.
Proof.
  intros IH d.
  remember (length (input d)) as n eqn:Hn.
  revert d Hn. induction n as [n IHn] using lt_wf_ind.
  intros d ->. apply IH. intros d' Hlt. eapply IHn; eauto.
Qed.

Lemma Skip_loop_le (d : Decoder) (depth : nat) :
  length (input (snd (Skip_loop d depth))) <= length (input d).
Proof.
  revert depth. induction d as [d IH] using decoder_ind. intros depth.
  rewrite Skip_loop_eq.
  destruct (Decoder_Token d) as [[tok|err] d'] eqn:Htok.
  - pose proof (Token_shrinks Htok) as Hlt.
    destruct tok; try destruct depth; simpl; try lia;
      (etransitivity; [apply IH; assumption | lia]).
  - apply Token_error in Htok as ->. simpl. lia.
Qed.

Lemma readNodes_le (d : Decoder) (open : list Frame) (cur : list Node) :
  length (input (snd (readNodes d open cur))) <= length (input d).
Proof.
  revert open cur. induction d as [d IH] using decoder_ind. intros open cur.
  rewrite readNodes_eq.
  destruct (Decoder_Token d) as [[tok|err] d'] eqn:Htok.
  - pose proof (Token_shrinks Htok) as Hlt.
    destruct tok; try destruct open as [|[[? ?] ?] ?]; simpl; try lia;
      (etransitivity; [apply IH; assumption | lia]).
  - apply Token_error in Htok as ->. simpl. lia.
Qed.

Lemma DecodeElement_le (t : Ty) (d : Decoder) (v : denote t) (n : Name)
  (attrs : list Attr) :
  length (input (snd (Decoder_DecodeElement t d v n attrs))) <= length (input d).
Proof.
  unfold Decoder_DecodeElement.
  pose proof (readNodes_le d [] []) as H.
  destruct (readNodes d [] []) as [[children|err] d']; simpl in *.
  - destruct (unmarshal _ _ _ _ _); simpl; assumption.
  - assumption.
Qed.

Section StructLoop.
  Variable S : Type.
  Variable fieldName : string.
  Variable onField : Decoder -> S -> Name -> list Attr -> S * option error * Decoder.
  Hypothesis onField_le : forall d s n a,
    length (input (snd (onField d s n a))) <= length (input d).

Equations? structLoop (d : Decoder) (s : S) : S * option error * Decoder
    by wf (length (input d)) lt :=
    structLoop d s with inspect (Decoder_Token d) := {
      | exist _ (inr err, d') _ => (s, Some err, d')
      | exist _ (inl (StartElement n a), d') Htok
          with inspect (String.eqb fieldName (Local n)) := {
          | exist _ true _ with inspect (onField d' s n a) := {
              | exist _ (s', Some err, d'') _ => (s', Some err, d'')
              | exist _ (s', None, d'') Hf => structLoop d'' s'
            }
          | exist _ false _ with inspect (Decoder_Skip d') := {
              | exist _ (Some err, d'') _ => (s, Some err, d'')
              | exist _ (None, d'') Hs => structLoop d'' s
            }
        }
      | exist _ (inl (EndElement _), d') _ => (s, None, d')
      | exist _ (inl _, d') Htok => structLoop d' s
    }.
  Proof.
    - apply Token_shrinks in Htok.
      pose proof (onField_le d' s n a) as H. rewrite Hf in H. simpl in H. lia.
    - apply Token_shrinks in Htok.
      pose proof (Skip_loop_le d' 0) as H. unfold Decoder_Skip in Hs.
      rewrite Hs in H. simpl in H. lia.
    - eapply Token_shrinks; eauto.
    - eapply Token_shrinks; eauto.
    - eapply Token_shrinks; eauto.
    - eapply Token_shrinks; eauto.
  Qed.
End StructLoop.

Arguments structLoop {S} fieldName onField onField_le d s.

Lemma structLoop_eq (S : Type) (fieldName : string)
  (onField : Decoder -> S -> Name -> list Attr -> S * option error * Decoder)
  (onField_le : forall d s n a,
      length (input (snd (onField d s n a))) <= length (input d))
  (d : Decoder) (s : S) :
  structLoop fieldName onField onField_le d s =
  match Decoder_Token d with
  | (inr err, d') => (s, Some err, d')
  | (inl (StartElement n a), d') =>
    if String.eqb fieldName (Local n) then
      match onField d' s n a with
      | (s', Some err, d'') => (s', Some err, d'')
      | (s', None, d'') => structLoop fieldName onField onField_le d'' s'
      end
    else
      match Decoder_Skip d' with
      | (Some err, d'') => (s, Some err, d'')
      | (None, d'') => structLoop fieldName onField onField_le d'' s
      end
  | (inl (EndElement _), d') => (s, None, d')
  | (inl _, d') => structLoop fieldName onField onField_le d' s
  end.
Proof.
  funelim (structLoop fieldName onField onField_le d s);
    rewrite ?Htok, ?e, ?e0, ?e1, ?Hf, ?Hs; try reflexivity.
Qed.

(** The first loop of [Decoder.unmarshal] when it is given no start
    element: read tokens up to the first start tag. *)
Equations? findStart (d : Decoder) : (Name * list Attr + error) * Decoder
  by wf (length (input d)) lt :=
  findStart d with inspect (Decoder_Token d) := {
    | exist _ (inr err, d') _ => (inr err, d')
    | exist _ (inl (StartElement n a), d') _ => (inl (n, a), d')
    | exist _ (inl _, d') Htok => findStart d'
  }.
Proof.
  all: eapply Token_shrinks; eauto.
Qed.

Lemma findStart_eq (d : Decoder) :
  findStart d =
  match Decoder_Token d with
  | (inr err, d') => (inr err, d')
  | (inl (StartElement n a), d') => (inl (n, a), d')
  | (inl _, d') => findStart d'
  end.
Proof.
  funelim (findStart d); rewrite ?Htok, ?e; reflexivity.
Qed.

(** [Decoder.pushEOF]: after the element on top of the stack is closed,
    [Token] reports [EOF] until [popEOF] is called. *)
Fixpoint pushEOF_stk (s : list stkItem) : list stkItem :=
  match s with
  | stkStart n :: rest => stkStart n :: stkEOF :: rest
  | item :: rest => item :: pushEOF_stk rest
  | [] => []
  end.

Definition pushEOF (d : Decoder) : Decoder :=
  mkDecoder (input d) (inputErr d) (pushEOF_stk (stk d)).

(** [Decoder.popEOF]: remove the mark if it is on top of the stack. *)
Definition popEOF (d : Decoder) : bool * Decoder :=
  match stk d with
  | stkEOF :: rest => (true, mkDecoder (input d) (inputErr d) rest)
  | _ => (false, d)
  end.

(** [Decoder.unmarshalInterface]: run the [UnmarshalXML] method of a
    value on the element that has just been opened. *)
Definition unmarshalInterface {S : Type}
  (UnmarshalXML : S -> Decoder -> Name -> list Attr -> S * option error * Decoder)
  (typeName : string) (d : Decoder) (s : S) (n : Name) (attrs : list Attr)
  : S * option error * Decoder :=
  let '(s', err, d') := UnmarshalXML s (pushEOF d) n attrs in
  match err with
  | Some e => (s', Some e, snd (popEOF d'))
  | None =>
    let (ok, d'') := popEOF d' in
    if ok then (s', None, d'')
    else (s', Some (UnmarshalError ("xml: " ++ typeName
            ++ ".UnmarshalXML did not consume entire <" ++ Local n ++ "> element")), d'')
  end.

(** ** The package: envelope, body, fault *)

Definition soapNS : string := "http://schemas.xmlsoap.org/soap/envelope/".
Definition daisyNS : string := "http://www.daisy.org/ns/daisy-online/".

(** [type Fault struct], as [encoding/xml] sees it. *)
Definition Fault_T : Ty :=
  TStruct "Fault" (mkXMLName "" "Fault")
    (FCons (mkField "Faultstring" (Some (mkTag "faultstring" fElement false))) TString
     FNil).

Definition Fault_of (v : denote Fault_T) : Fault :=
  mkFault (fst v) (fst (snd v)).

Definition Fault_to (f : Fault) : denote Fault_T :=
  (Fault_XMLName f, (Faultstring f, tt)).


(** ** io, compress/gzip, net/http

    A body on the wire is a sequence of bytes.  The package never looks
    at the bytes themselves: it hands them to the XML decoder, possibly
    through a gzip reader.  A [Reader] is a byte stream as the lexer of
    the XML decoder sees it: the tokens of its text as it is written,
    names with their prefixes, and the error that reading ends with
    ([EOF] after a complete text, a syntax error, or the failure of
    the reader below). *)
Record Reader : Type := mkReader { content : list Token; readErr : error }.

(** A body is either text, or a gzip stream: then [gzHeader] is the
    error of reading the gzip header, if any, and [gzData] what the
    gzip reader yields.  A stream cut short or damaged ends [gzData]
    with a read error at the point where the gzip reader notices: the
    check sum of a gzip stream follows the compressed data. *)
Inductive Payload : Type :=
| Plain (r : Reader)
| Gzip (gzHeader : option error) (gzData : Reader).

Definition gzip_ErrHeader : error := ReadError "gzip: invalid header".
Definition gzip_ErrChecksum : error := ReadError "gzip: invalid checksum".
Definition io_ErrUnexpectedEOF : error := ReadError "unexpected EOF".

(** The body read as it is. *)
Definition asReader (p : Payload) : Reader :=
  match p with
  | Plain r => r
  | Gzip _ _ => mkReader [] (SyntaxError "illegal character code")
  end.

(** gzip.NewReader *)
Definition gzip_NewReader (p : Payload) : error + Reader :=
  match p with
  | Plain (mkReader [] EOF) => inl EOF
  | Plain _ => inl gzip_ErrHeader
  | Gzip (Some e) _ => inl e
  | Gzip None r => inr r
  end.

(** What [Decoder.Token] makes of a text: its tokens with their names
    resolved, up to the error it ends with. *)
Definition resolved (r : Reader) : Reader :=
  let (ts, e) := resolveTokens [] [] (content r) in
  mkReader ts (match e with Some err => err | None => readErr r end).

(** xml.NewDecoder(reader) *)
Definition xml_NewDecoder (r : Reader) : Decoder :=
  NewDecoder (content (resolved r)) (readErr (resolved r)).

(** A decoder whose tokens are those of the text: [Decoder.unmarshal]
    keeps the text it reads for a field with the flag [innerxml], and
    the struct that has such a field here names no name space, so that
    the names it looks for are found as they are written.  The names it
    stores are resolved where it stores them. *)
Definition xml_NewDecoder_saving (r : Reader) : Decoder :=
  NewDecoder (content r) (readErr r).

(** textproto.CanonicalMIMEHeaderKey, for ASCII keys *)
Definition upper (c : ascii) : ascii :=
  let n := nat_of_ascii c in
  if ((97 <=? n) && (n <=? 122))%nat then ascii_of_nat (n - 32) else c.

Definition lower (c : ascii) : ascii :=
  let n := nat_of_ascii c in
  if ((65 <=? n) && (n <=? 90))%nat then ascii_of_nat (n + 32) else c.

Fixpoint canonical (up : bool) (s : string) : string :=
  match s with
  | EmptyString => EmptyString
  | String c s' =>
    String (if up then upper c else lower c) (canonical (Ascii.eqb c "-") s')
  end.

Definition CanonicalMIMEHeaderKey (s : string) : string := canonical true s.

(** http.Header: the values of each canonical key, in the order added *)
Definition Header : Type := list (string * list string).

Fixpoint Header_add (h : Header) (key value : string) : Header :=
  match h with
  | [] => [(key, [value])]
  | (k, vs) :: rest =>
    if String.eqb k key then (k, app vs [value]) :: rest
    else (k, vs) :: Header_add rest key value
  end.

Definition Header_Add (h : Header) (key value : string) : Header :=
  Header_add h (CanonicalMIMEHeaderKey key) value.

Fixpoint Header_get (h : Header) (key : string) : string :=
  match h with
  | [] => ""
  | (k, vs) :: rest =>
    if String.eqb k key then match vs with v :: _ => v | [] => "" end
    else Header_get rest key
  end.

Definition Header_Get (h : Header) (key : string) : string :=
  Header_get h (CanonicalMIMEHeaderKey key).

(** context.Context: the context of a request, if not nil *)
Inductive Context : Type :=
| context_TODO
| context_of (id : nat).

Record Request : Type := mkRequest {
  Method : string;
  URL : string;
  ReqHeader : Header;
  ReqBody : Reader;
  ReqContext : option Context
}.

Record Response : Type := mkResponse {
  StatusCode : Z;
  Status : string;
  RespHeader : Header;
  RespBody : Payload
}.

Definition http_MethodPost : string := "POST".
Definition http_StatusOK : Z := 200.

(** xml.Header, as tokens *)
Definition xml_Header : list Token :=
  [ProcInst "xml" ("version=" ++ dq ++ "1.0" ++ dq ++ " encoding=" ++ dq ++ "UTF-8" ++ dq);
   CharData (String (ascii_of_nat 10) EmptyString)].

(** What the package does to the world outside: requests handed to
    the HTTP client, and the release of its idle connections. *)
Inductive Event : Type :=
| EvDo (req : Request)
| EvCloseIdleConnections.

(** The HTTP client of a [Client] and the world behind it: the cookie
    jar, the connection pool, the network and the remote service.
    [RoundTrip] is one exchange through [http.Client.Do], with its time
    limit and the cancellation of the request's context. *)
Record Stack : Type := mkStack {
  NetState : Type;
  RoundTrip : NetState -> Request -> (error + Response) * NetState;
  CloseIdle : NetState -> NetState;
  url_Parse : string -> option error
}.

Record World (S : Stack) : Type := mkWorld { net : NetState S; trace : list Event }.

Arguments net {S} w.
Arguments trace {S} w.

(** Computations that act on the world. *)
Definition M (S : Stack) (A : Type) : Type := World S -> A * World S.

Definition ret {S : Stack} {A : Type} (a : A) : M S A := fun w => (a, w).

Definition bind {S : Stack} {A B : Type} (m : M S A) (k : A -> M S B) : M S B :=
  fun w => let (a, w') := m w in k a w'.

Declare Scope world_scope.
Delimit Scope world_scope with world.
Notation "x <- m ;; k" := (bind m (fun x => k))
  (at level 100, m at next level, right associativity) : world_scope.
Notation "' p <- m ;; k" := (bind m (fun p => k))
  (at level 100, p pattern, m at next level, right associativity) : world_scope.

(** [http.Client.Do] *)
Definition httpClient_Do {S : Stack} (req : Request) : M S (error + Response) :=
  fun w =>
    let (r, n) := RoundTrip S (net w) req in
    (r, mkWorld S n (app (trace w) [EvDo req])).

(** [http.Client.CloseIdleConnections] *)
Definition httpClient_CloseIdleConnections {S : Stack} : M S unit :=
  fun w => (tt, mkWorld S (CloseIdle S (net w)) (app (trace w) [EvCloseIdleConnections])).

(** [http.NewRequestWithContext] *)
Definition http_NewRequestWithContext (S : Stack) (ctx : option Context)
  (method url : string) (body : Reader) : error + Request :=
  match ctx with
  | None => inl (RequestError "net/http: nil Context")
  | Some _ =>
    match url_Parse S url with
    | Some e => inl e
    | None => inr (mkRequest method url [] body ctx)
    end
  end.

(** [http.NewRequest]: a request in the background context *)
Definition http_NewRequest (S : Stack) (method url : string) (body : Reader)
  : error + Request :=
  http_NewRequestWithContext S (Some context_TODO) method url body.

Definition Request_AddHeader (req : Request) (key value : string) : Request :=
  mkRequest (Method req) (URL req) (Header_Add (ReqHeader req) key value)
            (ReqBody req) (ReqContext req).

(** [xml.Decoder.Decode(v)] and [xml.Unmarshal(data, v)] for a
    destination of type [t] without methods of its own. *)
Definition Decoder_Decode (t : Ty) (d : Decoder) (v : denote t)
  : denote t * option error * Decoder :=
  match findStart d with
  | (inr err, d') => (v, Some err, d')
  | (inl (n, a), d') => Decoder_DecodeElement t d' v n a
  end.

Definition xml_Unmarshal (t : Ty) (data : list Token) (v : denote t)
  : denote t * option error :=
  fst (Decoder_Decode t (xml_NewDecoder (mkReader data EOF)) v).

(** The field [Content any] of the body types, as the encoder sees it. *)
Definition contentField : fieldInfo := mkFinfo "Content" "" fElement false.

(** ** Message types *)

Definition fld (goName : string) (tg : option FieldTag) (t : Ty) (rest : Fields) : Fields :=
  FCons (mkField goName tg) t rest.

Definition tagged (name : string) (m : FieldMode) (omit : bool) : option FieldTag :=
  Some (mkTag name m omit).

Definition untagged : option FieldTag := None.

Definition SupportedOptionalOperations_T : Ty :=
  TStruct "SupportedOptionalOperations" (mkXMLName "" "supportedOptionalOperations")
    (fld "Operation" (tagged "operation" fElement false) (TSlice TString)
     FNil).

Definition SupportedUplinkAudioCodecs_T : Ty :=
  TStruct "SupportedUplinkAudioCodecs" (mkXMLName "" "supportedUplinkAudioCodecs")
    (fld "Codec" (tagged "codec" fElement false) (TSlice TString)
     FNil).

Definition SupportedContentSelectionMethods_T : Ty :=
  TStruct "SupportedContentSelectionMethods" (mkXMLName "" "supportedContentSelectionMethods")
    (fld "Method" (tagged "method" fElement false) (TSlice TString)
     FNil).

Definition Audio_T : Ty :=
  TStruct "Audio" (mkXMLName "" "audio")
    (fld "URI" (tagged "uri" fAttr false) TString
    (fld "RangeBegin" (tagged "rangeBegin" fAttr false) (TInt 64)
    (fld "RangeEnd" (tagged "rangeEnd" fAttr false) (TInt 64)
    (fld "Size" (tagged "size" fAttr false) (TInt 64)
     FNil)))).

Definition SupportedContentProtectionFormats_T : Ty :=
  TStruct "SupportedContentProtectionFormats" (mkXMLName "" "supportedContentProtectionFormats")
    (fld "ProtectionFormat" (tagged "protectionFormat" fElement false) (TSlice TString)
     FNil).

Definition SupportedContentFormats_T : Ty :=
  TStruct "SupportedContentFormats" (mkXMLName "" "supportedContentFormats")
    (fld "ContentFormat" (tagged "contentFormat" fElement false) (TSlice TString)
     FNil).

Definition MimeType_T : Ty :=
  TStruct "MimeType" (mkXMLName "" "mimeType")
    (fld "Type" (tagged "type" fAttr false) TString
     FNil).

Definition Input_T : Ty :=
  TStruct "Input" (mkXMLName "" "input")
    (fld "Type" (tagged "type" fAttr false) TString
     FNil).

Definition Meta_T : Ty :=
  TStruct "Meta" (mkXMLName "" "meta")
    (fld "Name" (tagged "name" fAttr false) TString
    (fld "Content" (tagged "content" fAttr false) TString
     FNil)).

Definition Sample_T : Ty :=
  TStruct "Sample" (mkXMLName "" "sample")
    (fld "ID" (tagged "id" fAttr false) TString
     FNil).

Definition Resource_T : Ty :=
  TStruct "Resource" (mkXMLName "" "resource")
    (fld "URI" (tagged "uri" fAttr false) TString
    (fld "MimeType" (tagged "mimeType" fAttr false) TString
    (fld "Size" (tagged "size" fAttr false) (TInt 64)
    (fld "LocalURI" (tagged "localURI" fAttr false) TString
    (fld "LastModifiedDate" (tagged "lastModifiedDate" fAttr false) TString
     FNil))))).

Definition UserResponse_T : Ty :=
  TStruct "UserResponse" (mkXMLName "" "userResponse")
    (fld "QuestionID" (tagged "questionID" fAttr false) TString
    (fld "Value" (tagged "value" fAttr true) TString
    (fld "Data" (tagged "data" fElement true) TString
     FNil))).

Definition InputTypes_T : Ty :=
  TStruct "InputTypes" (mkXMLName "" "inputTypes")
    (fld "Input" (tagged "input" fElement false) (TSlice Input_T)
     FNil).

Definition Label_T : Ty :=
  TStruct "Label" (mkXMLName "" "label")
    (fld "Lang" (tagged "lang" fAttr false) TString
    (fld "Dir" (tagged "dir" fAttr false) TString
    (fld "Text" (tagged "text" fElement false) TString
    (fld "Audio" untagged Audio_T
     FNil)))).

Definition SupportedMimeTypes_T : Ty :=
  TStruct "SupportedMimeTypes" (mkXMLName "" "supportedMimeTypes")
    (fld "MimeType" (tagged "mimeType" fElement false) (TSlice MimeType_T)
     FNil).

Definition SupportedInputTypes_T : Ty :=
  TStruct "SupportedInputTypes" (mkXMLName "" "supportedInputTypes")
    (fld "Input" (tagged "input" fElement false) (TSlice Input_T)
     FNil).

Definition ContentItem_T : Ty :=
  TStruct "ContentItem" (mkXMLName "" "contentItem")
    (fld "ID" (tagged "id" fAttr false) TString
    (fld "LastModifiedDate" (tagged "lastModifiedDate" fAttr false) TString
    (fld "Label" untagged Label_T
     FNil))).

Definition Metadata_T : Ty :=
  TStruct "Metadata" (mkXMLName "" "metadata")
    (fld "Title" (tagged "title" fElement false) TString
    (fld "Identifier" (tagged "identifier" fElement false) TString
    (fld "Publisher" (tagged "publisher" fElement false) TString
    (fld "Format" (tagged "format" fElement false) TString
    (fld "Date" (tagged "date" fElement false) TString
    (fld "Source" (tagged "source" fElement false) TString
    (fld "Type" (tagged "type" fElement false) (TSlice TString)
    (fld "Subject" (tagged "subject" fElement false) (TSlice TString)
    (fld "Rights" (tagged "rights" fElement false) (TSlice TString)
    (fld "Relation" (tagged "relation" fElement false) (TSlice TString)
    (fld "Language" (tagged "language" fElement false) (TSlice TString)
    (fld "Description" (tagged "description" fElement false) (TSlice TString)
    (fld "Creator" (tagged "creator" fElement false) (TSlice TString)
    (fld "Coverage" (tagged "coverage" fElement false) (TSlice TString)
    (fld "Contributor" (tagged "contributor" fElement false) (TSlice TString)
    (fld "Narrator" (tagged "narrator" fElement false) (TSlice TString)
    (fld "Size" (tagged "size" fElement false) (TInt 64)
    (fld "Meta" (tagged "meta" fElement false) (TSlice Meta_T)
     FNil)))))))))))))))))).

Definition Resources_T : Ty :=
  TStruct "Resources" (mkXMLName "" "resources")
    (fld "ReturnBy" (tagged "returnBy" fAttr false) TString
    (fld "LastModifiedDate" (tagged "lastModifiedDate" fAttr false) TString
    (fld "Resources" (tagged "resource" fElement false) (TSlice Resource_T)
     FNil))).

Definition UserResponses_T : Ty :=
  TStruct "UserResponses" (mkXMLName "" "userResponses")
    (fld "UserResponse" (tagged "userResponse" fElement false) (TSlice UserResponse_T)
     FNil).

Definition Choice_T : Ty :=
  TStruct "Choice" (mkXMLName "" "choice")
    (fld "ID" (tagged "id" fAttr false) TString
    (fld "Label" untagged Label_T
     FNil)).

Definition InputQuestion_T : Ty :=
  TStruct "InputQuestion" (mkXMLName "" "inputQuestion")
    (fld "ID" (tagged "id" fAttr false) TString
    (fld "InputTypes" untagged InputTypes_T
    (fld "Label" untagged Label_T
     FNil))).

Definition Announcement_T : Ty :=
  TStruct "Announcement" (mkXMLName "" "announcement")
    (fld "ID" (tagged "id" fAttr false) TString
    (fld "Type" (tagged "type" fAttr false) TString
    (fld "Priority" (tagged "priority" fAttr false) (TInt 32)
    (fld "Label" untagged Label_T
     FNil)))).

Definition Service_T : Ty :=
  TStruct "Service" (mkXMLName "" "service")
    (fld "ID" (tagged "id" fAttr false) TString
    (fld "Label" untagged Label_T
     FNil)).

Definition ServiceProvider_T : Ty :=
  TStruct "ServiceProvider" (mkXMLName "" "serviceProvider")
    (fld "ID" (tagged "id" fAttr false) TString
    (fld "Label" untagged Label_T
     FNil)).

Definition Config_T : Ty :=
  TStruct "Config" (mkXMLName "" "config")
    (fld "SupportsMultipleSelections" (tagged "supportsMultipleSelections" fElement false) TBool
    (fld "PreferredUILanguage" (tagged "preferredUILanguage" fElement false) TString
    (fld "SupportedContentFormats" untagged SupportedContentFormats_T
    (fld "SupportedContentProtectionFormats" untagged SupportedContentProtectionFormats_T
    (fld "SupportedMimeTypes" untagged SupportedMimeTypes_T
    (fld "SupportedInputTypes" untagged SupportedInputTypes_T
    (fld "RequiresAudioLabels" (tagged "requiresAudioLabels" fElement false) TBool
     FNil))))))).

Definition ContentList_T : Ty :=
  TStruct "ContentList" (mkXMLName "" "contentList")
    (fld "TotalItems" (tagged "totalItems" fAttr false) (TInt 32)
    (fld "FirstItem" (tagged "firstItem" fAttr false) (TInt 32)
    (fld "LastItem" (tagged "lastItem" fAttr false) (TInt 32)
    (fld "ID" (tagged "id" fAttr false) TString
    (fld "Label" untagged Label_T
    (fld "ContentItems" (tagged "contentItem" fElement false) (TSlice ContentItem_T)
     FNil)))))).

Definition ContentMetadata_T : Ty :=
  TStruct "ContentMetadata" (mkXMLName "" "contentMetadata")
    (fld "Category" (tagged "category" fAttr false) TString
    (fld "RequiresReturn" (tagged "requiresReturn" fAttr false) TBool
    (fld "Sample" untagged Sample_T
    (fld "Metadata" untagged Metadata_T
     FNil)))).

Definition Choices_T : Ty :=
  TStruct "Choices" (mkXMLName "" "choices")
    (fld "Choice" (tagged "choice" fElement false) (TSlice Choice_T)
     FNil).

Definition Announcements_T : Ty :=
  TStruct "Announcements" (mkXMLName "" "announcements")
    (fld "Announcement" (tagged "announcement" fElement false) (TSlice Announcement_T)
     FNil).

Definition ServiceAttributes_T : Ty :=
  TStruct "ServiceAttributes" (mkXMLName "" "serviceAttributes")
    (fld "ServiceProvider" untagged ServiceProvider_T
    (fld "Service" untagged Service_T
    (fld "SupportedContentSelectionMethods" untagged SupportedContentSelectionMethods_T
    (fld "SupportsServerSideBack" (tagged "supportsServerSideBack" fElement false) TBool
    (fld "SupportsSearch" (tagged "supportsSearch" fElement false) TBool
    (fld "SupportedUplinkAudioCodecs" untagged SupportedUplinkAudioCodecs_T
    (fld "SupportsAudioLabels" (tagged "supportsAudioLabels" fElement false) TBool
    (fld "SupportedOptionalOperations" untagged SupportedOptionalOperations_T
     FNil)))))))).

Definition ReadingSystemAttributes_T : Ty :=
  TStruct "ReadingSystemAttributes" (mkXMLName "" "readingSystemAttributes")
    (fld "Manufacturer" (tagged "manufacturer" fElement false) TString
    (fld "Model" (tagged "model" fElement false) TString
    (fld "Version" (tagged "version" fElement false) TString
    (fld "Config" untagged Config_T
     FNil)))).

Definition MultipleChoiceQuestion_T : Ty :=
  TStruct "MultipleChoiceQuestion" (mkXMLName "" "multipleChoiceQuestion")
    (fld "ID" (tagged "id" fAttr false) TString
    (fld "AllowMultipleSelections" (tagged "allowMultipleSelections" fAttr false) TBool
    (fld "Label" untagged Label_T
    (fld "Choices" untagged Choices_T
     FNil)))).

Definition Questions_T : Ty :=
  TStruct "Questions" (mkXMLName "" "questions")
    (fld "MultipleChoiceQuestion" (tagged "multipleChoiceQuestion" fElement false) (TSlice MultipleChoiceQuestion_T)
    (fld "InputQuestion" (tagged "inputQuestion" fElement false) (TSlice InputQuestion_T)
    (fld "ContentListRef" (tagged "contentListRef" fElement false) TString
    (fld "Label" untagged Label_T
     FNil)))).


Definition HiliteEnd_T : Ty :=
  TStruct "HiliteEnd" (mkXMLName "" "hiliteEnd")
    (fld "NcxRef" (tagged "ncxRef" fElement false) TString
    (fld "URI" (tagged "URI" fElement false) TString
    (fld "TimeOffset" (tagged "timeOffset" fElement false) TString
    (fld "CharOffset" (tagged "charOffset" fElement false) TString
     FNil)))).

Definition HiliteStart_T : Ty :=
  TStruct "HiliteStart" (mkXMLName "" "hiliteStart")
    (fld "NcxRef" (tagged "ncxRef" fElement false) TString
    (fld "URI" (tagged "URI" fElement false) TString
    (fld "TimeOffset" (tagged "timeOffset" fElement false) TString
    (fld "CharOffset" (tagged "charOffset" fElement false) TString
     FNil)))).

Definition Lastmark_T : Ty :=
  TStruct "Lastmark" (mkXMLName "" "lastmark")
    (fld "NcxRef" (tagged "ncxRef" fElement false) TString
    (fld "URI" (tagged "URI" fElement false) TString
    (fld "TimeOffset" (tagged "timeOffset" fElement false) TString
    (fld "CharOffset" (tagged "charOffset" fElement false) TString
     FNil)))).

Definition Note_T : Ty :=
  TStruct "Note" (mkXMLName "" "note")
    (fld "Text" (tagged "text" fElement true) TString
     FNil).

Definition Title_T : Ty :=
  TStruct "Title" (mkXMLName "" "title")
    (fld "Text" (tagged "text" fElement false) TString
     FNil).

Definition Bookmark_T : Ty :=
  TStruct "Bookmark" (mkXMLName "" "bookmark")
    (fld "NcxRef" (tagged "ncxRef" fElement false) TString
    (fld "URI" (tagged "URI" fElement false) TString
    (fld "TimeOffset" (tagged "timeOffset" fElement false) TString
    (fld "CharOffset" (tagged "charOffset" fElement false) TString
    (fld "Note" untagged Note_T
    (fld "Label" (tagged "label" fAttr false) TString
    (fld "Lang" (tagged "lang" fAttr false) TString
     FNil))))))).

Definition Hilite_T : Ty :=
  TStruct "Hilite" (mkXMLName "" "hilite")
    (fld "HiliteStart" untagged HiliteStart_T
    (fld "HiliteEnd" untagged HiliteEnd_T
    (fld "Note" untagged Note_T
    (fld "Label" (tagged "label" fAttr false) TString
     FNil)))).

Definition BookmarkSet_T : Ty :=
  TStruct "BookmarkSet" (mkXMLName "http://www.daisy.org/z3986/2005/bookmark/" "bookmarkSet")
    (fld "Title" untagged Title_T
    (fld "UID" (tagged "uid" fElement false) TString
    (fld "Lastmark" untagged Lastmark_T
    (fld "Bookmark" (tagged "bookmark" fElement true) (TSlice Bookmark_T)
    (fld "Hilite" (tagged "hilite" fElement true) (TSlice Hilite_T)
     FNil))))).

(** ** The transport that decodes the body as a stream *)

Module Streaming.

  (** SOAP message body.  [Content] is an interface holding a pointer
      to a value of type [t]: the payload of a request, or the
      destination of a response; [None] is the nil interface. *)
Record body (t : Ty) : Type :=
    mkBody { body_XMLName : Name; Content : option (denote t) }.

  (** SOAP message envelope *)
Record envelope (t : Ty) : Type :=
    mkEnvelope { envelope_XMLName : Name; Body : body t }.

  Arguments body_XMLName {t} b.
  Arguments Content {t} b.
  Arguments mkEnvelope {t} envelope_XMLName Body.
  Arguments envelope_XMLName {t} e.
  Arguments Body {t} e.

Definition zero_envelope (t : Ty) : envelope t :=
    mkEnvelope zeroName (mkBody t zeroName None).

Definition set_Content {t : Ty} (b : body t) (c : option (denote t)) : body t :=
    mkBody t (body_XMLName b) c.

Definition set_Body {t : Ty} (e : envelope t) (b : body t) : envelope t :=
    mkEnvelope (envelope_XMLName e) b.

  (** [d.DecodeElement(b.Content, &v)]: a nil interface is refused. *)
Definition DecodeElement_Content (t : Ty) (d : Decoder) (c : option (denote t))
    (n : Name) (attrs : list Attr) : option (denote t) * option error * Decoder :=
    match c with
    | None => (None, Some (UnmarshalError "non-pointer passed to Unmarshal"), d)
    | Some v =>
      let '(v', e, d') := Decoder_DecodeElement t d v n attrs in (Some v', e, d')
    end.

  (** [body.UnmarshalXML]: only the first element inside the body is
      unmarshalled as content; all other elements are ignored. *)
Equations? body_UnmarshalXML {t : Ty} (b : body t) (d : Decoder)
    (start : Name) (attrs : list Attr) : body t * option error * Decoder
    by wf (length (input d)) lt :=
    body_UnmarshalXML b d start attrs with inspect (Decoder_Token d) := {
      | exist _ (inr EOF, d') _ => (b, None, d')
      | exist _ (inr err, d') _ => (b, Some err, d')
      | exist _ (inl (StartElement n a), d') _ =>
        let '(c, e, d'') := DecodeElement_Content t d' (Content b) n a in
        match e with
        | Some err => (set_Content b c, Some err, d'')
        | None =>
          let (e', d3) := Decoder_Skip d'' in (set_Content b c, e', d3)
        end
      | exist _ (inl _, d') Htok => body_UnmarshalXML b d' start attrs
    }.
  Proof.
    all: eapply Token_shrinks; eauto.
  Qed.

Lemma body_UnmarshalXML_eq {t : Ty} (b : body t) (d : Decoder)
    (start : Name) (attrs : list Attr) :
    body_UnmarshalXML b d start attrs =
    match Decoder_Token d with
    | (inr EOF, d') => (b, None, d')
    | (inr err, d') => (b, Some err, d')
    | (inl (StartElement n a), d') =>
      let '(c, e, d'') := DecodeElement_Content t d' (Content b) n a in
      match e with
      | Some err => (set_Content b c, Some err, d'')
      | None =>
        let (e', d3) := Decoder_Skip d'' in (set_Content b c, e', d3)
      end
    | (inl _, d') => body_UnmarshalXML b d' start attrs
    end.
  Proof.
    funelim (body_UnmarshalXML b d start attrs); rewrite ?Htok, ?e; reflexivity.
  Qed.

Lemma body_UnmarshalXML_le {t : Ty} (b : body t) (d : Decoder)
    (start : Name) (attrs : list Attr) :
    length (input (snd (body_UnmarshalXML b d start attrs))) <= length (input d).
  Proof.
    induction d as [d IH] using decoder_ind.
    rewrite body_UnmarshalXML_eq.
    destruct (Decoder_Token d) as [[tok|err] d'] eqn:Htok.
    - pose proof (Token_shrinks Htok) as Hlt.
      destruct tok; try (etransitivity; [apply IH; assumption | lia]).
      unfold DecodeElement_Content.
      destruct (Content b) as [v|]; [|simpl; lia].
      pose proof (DecodeElement_le t d' v n attrs0) as H1.
      destruct (Decoder_DecodeElement t d' v n attrs0) as [[v' e] d''].
      simpl in H1. destruct e as [err|]; [simpl; lia|].
      pose proof (Skip_loop_le d'' 0) as H2. unfold Decoder_Skip.
      destruct (Skip_loop d'' 0) as [e' d3]. simpl in *. lia.
    - apply Token_error in Htok as ->. destruct err; simpl; lia.
  Qed.

  (** How [Decoder.unmarshal] reaches [body.UnmarshalXML]: the [Body]
      field of the envelope is addressable and its pointer implements
      [xml.Unmarshaler]. *)
Definition unmarshal_body {t : Ty} (d : Decoder) (b : body t) (n : Name)
    (attrs : list Attr) : body t * option error * Decoder :=
    unmarshalInterface (@body_UnmarshalXML t) "*dodp.body" d b n attrs.

Lemma unmarshal_body_le {t : Ty} (d : Decoder) (b : body t) (n : Name)
    (attrs : list Attr) :
    length (input (snd (unmarshal_body d b n attrs))) <= length (input d).
  Proof.
    unfold unmarshal_body, unmarshalInterface.
    pose proof (body_UnmarshalXML_le b (pushEOF d) n attrs) as H.
    destruct (body_UnmarshalXML b (pushEOF d) n attrs) as [[b' e] d'].
    simpl in H.
    assert (Hpop : length (input (snd (popEOF d'))) = length (input d')).
    { unfold popEOF. destruct (stk d') as [|[m|] r]; reflexivity. }
    destruct e as [err|].
    - simpl. lia.
    - destruct (popEOF d') as [[|] d'']; simpl in *; lia.
  Qed.

  (** [Decoder.Decode(&respEnv)]: find the root element, check it
      against the [XMLName] tag of [envelope], record its name and
      decode the struct. *)
Definition Decode_envelope {t : Ty} (d : Decoder) (env : envelope t)
    : envelope t * option error * Decoder :=
    match findStart d with
    | (inr err, d') => (env, Some err, d')
    | (inl (n, _), d') =>
      if negb (String.eqb "Envelope" (Local n)) then
        (env, Some (UnmarshalError ("expected element type <Envelope> but have <"
                                     ++ Local n ++ ">")), d')
      else if negb (String.eqb soapNS (Space n)) then
        (env, Some (UnmarshalError ("expected element <Envelope> in name space "
                                     ++ soapNS ++ " but have " ++ haveSpace (Space n))), d')
      else
        let '(b, e, d'') :=
          structLoop "Body" (@unmarshal_body t) (@unmarshal_body_le t) d' (Body env) in
        (mkEnvelope n b, e, d'')
    end.

  (** [xml.Encoder.Encode(reqEnv)] followed by [Close]: the element
      names are those of the [XMLName] tags of [envelope] and [body];
      the result is the text of the document. *)
Definition Encode_envelope {t : Ty} (env : envelope t) : error + list Token :=
    let payload :=
      match Content (Body env) with
      | None => inr []
      | Some v => marshalValue t v contentField
      end in
    match payload with
    | inl e => inl e
    | inr c =>
      inr (flatten (print (Elem (mkName soapNS "Envelope") []
                                [Elem (mkName "" "Body") [] c])))
    end.

  (** DAISY Online client *)
Record Client : Type := mkClient {
    url : string;
    timeout : Z;
    ctx : option Context
  }.

  (** Creates an instance of a new DAISY Online client with context
      and the specified service URL. *)
Definition NewClientWithContext (ctx : option Context) (url : string) (timeout : Z)
    : Client := mkClient url timeout ctx.

Definition NewClient (url : string) (timeout : Z) : Client :=
    NewClientWithContext (Some context_TODO) url timeout.

  (** The value a destination pointer leads to once the envelope that
      held the pointer has been decoded. *)
Definition pointee {t : Ty} (env : envelope t) (before : denote t) : denote t :=
    match Content (Body env) with
    | Some v => v
    | None => before
    end.

  Section Calls.
    Variable S : Stack.

    (** [Client.call] *)
Definition call (c : Client) (action : string) (targs : Ty) (args : denote targs)
      (trs : Ty) (rs : denote trs) : M S (denote trs * option error) :=
      let reqEnv := set_Body (zero_envelope targs)
                             (set_Content (Body (zero_envelope targs)) (Some args)) in
      match Encode_envelope reqEnv with
      | inl err => ret (rs, Some err)
      | inr doc =>
        let buf := mkReader (app xml_Header doc) EOF in
        match http_NewRequestWithContext S (ctx c) http_MethodPost (url c) buf with
        | inl err => ret (rs, Some err)
        | inr req =>
          let req := Request_AddHeader req "Content-Type" "text/xml; charset=utf-8" in
          let req := Request_AddHeader req "Accept" "text/xml" in
          let req := Request_AddHeader req "Accept-Encoding" "gzip" in
          let req := Request_AddHeader req "SOAPAction" ("/" ++ action) in
          (r <- httpClient_Do req ;;
           match r with
           | inl err => ret (rs, Some err)
           | inr resp =>
             let reader :=
               if String.eqb (Header_Get (RespHeader resp) "Content-Encoding") "gzip"
               then gzip_NewReader (RespBody resp)
               else inr (asReader (RespBody resp)) in
             match reader with
             | inl err => ret (rs, Some err)
             | inr reader =>
               let dec := xml_NewDecoder reader in
               if negb (StatusCode resp =? http_StatusOK)%Z then
                 let fault := zero Fault_T in
                 let respEnv := set_Body (zero_envelope Fault_T)
                                  (set_Content (Body (zero_envelope Fault_T)) (Some fault)) in
                 let '(respEnv, err, _) := Decode_envelope dec respEnv in
                 match err with
                 | Some e => ret (rs, Some e)
                 | None =>
                   ret (rs, Some (Wrapped "fault: "
                                    (FaultError (Fault_of (pointee respEnv fault)))))
                 end
               else
                 let respEnv := set_Body (zero_envelope trs)
                                  (set_Content (Body (zero_envelope trs)) (Some rs)) in
                 let '(respEnv, err, _) := Decode_envelope dec respEnv in
                 ret (pointee respEnv rs, err)
             end
           end)%world
        end
      end.

    (** The type [Read] of the argument of [MarkAnnouncementsAsRead] is
        declared in a file that is not at hand. *)
    Variable Read_T : Ty.

    Local Open Scope world_scope.

Definition logOn_T : Ty :=
      TStruct "logOn" (mkXMLName daisyNS "logOn")
        (fld "Username" (tagged "username" fElement false) TString
        (fld "Password" (tagged "password" fElement false) TString
         FNil)).

Definition logOnResponse_T : Ty :=
      TStruct "logOnResponse" (mkXMLName daisyNS "logOnResponse")
        (fld "LogOnResult" (tagged "logOnResult" fElement false) TBool
         FNil).

Definition logOff_T : Ty :=
      TStruct "logOff" (mkXMLName daisyNS "logOff")
         FNil.

Definition logOffResponse_T : Ty :=
      TStruct "logOffResponse" (mkXMLName daisyNS "logOffResponse")
        (fld "LogOffResult" (tagged "logOffResult" fElement false) TBool
         FNil).

Definition getServiceAttributes_T : Ty :=
      TStruct "getServiceAttributes" (mkXMLName daisyNS "getServiceAttributes")
         FNil.

Definition getServiceAttributesResponse_T : Ty :=
      TStruct "getServiceAttributesResponse" (mkXMLName daisyNS "getServiceAttributesResponse")
        (fld "ServiceAttributes" (tagged "serviceAttributes" fElement false) ServiceAttributes_T
         FNil).

Definition setReadingSystemAttributes_T : Ty :=
      TStruct "setReadingSystemAttributes" (mkXMLName daisyNS "setReadingSystemAttributes")
        (fld "ReadingSystemAttributes" (tagged "readingSystemAttributes" fElement false) (TPtr ReadingSystemAttributes_T)
         FNil).

Definition setReadingSystemAttributesResponse_T : Ty :=
      TStruct "setReadingSystemAttributesResponse" (mkXMLName daisyNS "setReadingSystemAttributesResponse")
        (fld "SetReadingSystemAttributesResult" (tagged "setReadingSystemAttributesResult" fElement false) TBool
         FNil).

Definition getContentList_T : Ty :=
      TStruct "getContentList" (mkXMLName daisyNS "getContentList")
        (fld "ID" (tagged "id" fElement false) TString
        (fld "FirstItem" (tagged "firstItem" fElement false) (TInt 32)
        (fld "LastItem" (tagged "lastItem" fElement false) (TInt 32)
         FNil))).

Definition getContentListResponse_T : Ty :=
      TStruct "getContentListResponse" (mkXMLName daisyNS "getContentListResponse")
        (fld "ContentList" (tagged "contentList" fElement false) ContentList_T
         FNil).

Definition getContentMetadata_T : Ty :=
      TStruct "getContentMetadata" (mkXMLName daisyNS "getContentMetadata")
        (fld "ContentID" (tagged "contentID" fElement false) TString
         FNil).

Definition getContentMetadataResponse_T : Ty :=
      TStruct "getContentMetadataResponse" (mkXMLName daisyNS "getContentMetadataResponse")
        (fld "ContentMetadata" (tagged "contentMetadata" fElement false) ContentMetadata_T
         FNil).

Definition getContentResources_T : Ty :=
      TStruct "getContentResources" (mkXMLName daisyNS "getContentResources")
        (fld "ContentID" (tagged "contentID" fElement false) TString
         FNil).

Definition getContentResourcesResponse_T : Ty :=
      TStruct "getContentResourcesResponse" (mkXMLName daisyNS "getContentResourcesResponse")
        (fld "Resources" (tagged "resources" fElement false) Resources_T
         FNil).

Definition issueContent_T : Ty :=
      TStruct "issueContent" (mkXMLName daisyNS "issueContent")
        (fld "ContentID" (tagged "contentID" fElement false) TString
         FNil).

Definition issueContentResponse_T : Ty :=
      TStruct "issueContentResponse" (mkXMLName daisyNS "issueContentResponse")
        (fld "IssueContentResult" (tagged "issueContentResult" fElement false) TBool
         FNil).

Definition returnContent_T : Ty :=
      TStruct "returnContent" (mkXMLName daisyNS "returnContent")
        (fld "ContentID" (tagged "contentID" fElement false) TString
         FNil).

Definition returnContentResponse_T : Ty :=
      TStruct "returnContentResponse" (mkXMLName daisyNS "returnContentResponse")
        (fld "ReturnContentResult" (tagged "returnContentResult" fElement false) TBool
         FNil).

Definition getQuestions_T : Ty :=
      TStruct "getQuestions" (mkXMLName daisyNS "getQuestions")
        (fld "UserResponses" (tagged "userResponses" fElement false) (TPtr UserResponses_T)
         FNil).

Definition getQuestionsResponse_T : Ty :=
      TStruct "getQuestionsResponse" (mkXMLName daisyNS "getQuestionsResponse")
        (fld "Questions" (tagged "questions" fElement false) Questions_T
         FNil).

Definition getServiceAnnouncements_T : Ty :=
      TStruct "getServiceAnnouncements" (mkXMLName daisyNS "getServiceAnnouncements")
         FNil.

Definition getServiceAnnouncementsResponse_T : Ty :=
      TStruct "getServiceAnnouncementsResponse" (mkXMLName daisyNS "getServiceAnnouncementsResponse")
        (fld "Announcements" (tagged "announcements" fElement false) Announcements_T
         FNil).

Definition setBookmarks_T : Ty :=
      TStruct "setBookmarks" (mkXMLName daisyNS "setBookmarks")
        (fld "ContentID" (tagged "contentID" fElement false) TString
        (fld "BookmarkSet" (tagged "bookmarkSet" fElement false) (TPtr BookmarkSet_T)
         FNil)).

Definition setBookmarksResponse_T : Ty :=
      TStruct "setBookmarksResponse" (mkXMLName daisyNS "setBookmarksResponse")
        (fld "SetBookmarksResult" (tagged "setBookmarksResult" fElement false) TBool
         FNil).

Definition getBookmarks_T : Ty :=
      TStruct "getBookmarks" (mkXMLName daisyNS "getBookmarks")
        (fld "ContentID" (tagged "contentID" fElement false) TString
         FNil).

Definition getBookmarksResponse_T : Ty :=
      TStruct "getBookmarksResponse" (mkXMLName daisyNS "getBookmarksResponse")
        (fld "BookmarkSet" (tagged "bookmarkSet" fElement false) BookmarkSet_T
         FNil).

Definition markAnnouncementsAsRead_T : Ty :=
      TStruct "markAnnouncementsAsRead" (mkXMLName daisyNS "markAnnouncementsAsRead")
        (fld "Read" (tagged "read" fElement false) (TPtr Read_T)
         FNil).

Definition markAnnouncementsAsReadResponse_T : Ty :=
      TStruct "markAnnouncementsAsReadResponse" (mkXMLName daisyNS "markAnnouncementsAsReadResponse")
        (fld "MarkAnnouncementsAsReadResult" (tagged "markAnnouncementsAsReadResult" fElement false) TBool
         FNil).

    (** Logs a Reading System on to a Service. *)
Definition LogOn (c : Client) (username : string) (password : string) : M S (bool * option error) :=
      let action := "logOn" in
      let req : denote logOn_T := (zeroName, (username, (password, tt))) in
      let resp := zero logOnResponse_T in
      '(resp, err) <- call c action logOn_T req logOnResponse_T resp ;;
      match err with
      | Some e => ret (false, Some (Wrapped (action ++ " operation: ") e))
      | None => ret (fst (snd resp), None)
      end.

    (** Logs a Reading System off a Service. *)
Definition LogOff (c : Client) : M S (bool * option error) :=
      let action := "logOff" in
      let req : denote logOff_T := (zeroName, tt) in
      let resp := zero logOffResponse_T in
      '(resp, err) <- call c action logOff_T req logOffResponse_T resp ;;
      match err with
      | Some e => ret (false, Some (Wrapped (action ++ " operation: ") e))
      | None =>
        _ <- httpClient_CloseIdleConnections ;;
        ret (fst (snd resp), None)
      end.

    (** Retrieves Service properties. *)
Definition GetServiceAttributes (c : Client) : M S (option (denote ServiceAttributes_T) * option error) :=
      let action := "getServiceAttributes" in
      let req : denote getServiceAttributes_T := (zeroName, tt) in
      let resp := zero getServiceAttributesResponse_T in
      '(resp, err) <- call c action getServiceAttributes_T req getServiceAttributesResponse_T resp ;;
      match err with
      | Some e => ret (None, Some (Wrapped (action ++ " operation: ") e))
      | None => ret (Some (fst (snd resp)), None)
      end.

    (** Sends Reading System properties to a Service. *)
Definition SetReadingSystemAttributes (c : Client) (readingSystemAttributes : option (denote ReadingSystemAttributes_T)) : M S (bool * option error) :=
      let action := "setReadingSystemAttributes" in
      let req : denote setReadingSystemAttributes_T := (zeroName, (readingSystemAttributes, tt)) in
      let resp := zero setReadingSystemAttributesResponse_T in
      '(resp, err) <- call c action setReadingSystemAttributes_T req setReadingSystemAttributesResponse_T resp ;;
      match err with
      | Some e => ret (false, Some (Wrapped (action ++ " operation: ") e))
      | None => ret (fst (snd resp), None)
      end.

    (** Retrieves a list of Content items. *)
Definition GetContentList (c : Client) (id : string) (firstItem : Z) (lastItem : Z) : M S (option (denote ContentList_T) * option error) :=
      let action := "getContentList" in
      let req : denote getContentList_T := (zeroName, (id, (firstItem, (lastItem, tt)))) in
      let resp := zero getContentListResponse_T in
      '(resp, err) <- call c action getContentList_T req getContentListResponse_T resp ;;
      match err with
      | Some e => ret (None, Some (Wrapped (action ++ " operation: ") e))
      | None => ret (Some (fst (snd resp)), None)
      end.

    (** Retrieves the contentMetadata of the specified Content item. *)
Definition GetContentMetadata (c : Client) (contentID : string) : M S (option (denote ContentMetadata_T) * option error) :=
      let action := "getContentMetadata" in
      let req : denote getContentMetadata_T := (zeroName, (contentID, tt)) in
      let resp := zero getContentMetadataResponse_T in
      '(resp, err) <- call c action getContentMetadata_T req getContentMetadataResponse_T resp ;;
      match err with
      | Some e => ret (None, Some (Wrapped (action ++ " operation: ") e))
      | None => ret (Some (fst (snd resp)), None)
      end.

    (** Retrieves the resources list for the specified Content item. *)
Definition GetContentResources (c : Client) (contentID : string) : M S (option (denote Resources_T) * option error) :=
      let action := "getContentResources" in
      let req : denote getContentResources_T := (zeroName, (contentID, tt)) in
      let resp := zero getContentResourcesResponse_T in
      '(resp, err) <- call c action getContentResources_T req getContentResourcesResponse_T resp ;;
      match err with
      | Some e => ret (None, Some (Wrapped (action ++ " operation: ") e))
      | None => ret (Some (fst (snd resp)), None)
      end.

    (** Requests a Service to issue the specified Content item. *)
Definition IssueContent (c : Client) (contentID : string) : M S (bool * option error) :=
      let action := "issueContent" in
      let req : denote issueContent_T := (zeroName, (contentID, tt)) in
      let resp := zero issueContentResponse_T in
      '(resp, err) <- call c action issueContent_T req issueContentResponse_T resp ;;
      match err with
      | Some e => ret (false, Some (Wrapped (action ++ " operation: ") e))
      | None => ret (fst (snd resp), None)
      end.

    (** Notifies the Service that the specified Content item has been deleted. *)
Definition ReturnContent (c : Client) (contentID : string) : M S (bool * option error) :=
      let action := "returnContent" in
      let req : denote returnContent_T := (zeroName, (contentID, tt)) in
      let resp := zero returnContentResponse_T in
      '(resp, err) <- call c action returnContent_T req returnContentResponse_T resp ;;
      match err with
      | Some e => ret (false, Some (Wrapped (action ++ " operation: ") e))
      | None => ret (fst (snd resp), None)
      end.

    (** Retrieves a question of the dynamic menu system. *)
Definition GetQuestions (c : Client) (userResponses : option (denote UserResponses_T)) : M S (option (denote Questions_T) * option error) :=
      let action := "getQuestions" in
      let req : denote getQuestions_T := (zeroName, (userResponses, tt)) in
      let resp := zero getQuestionsResponse_T in
      '(resp, err) <- call c action getQuestions_T req getQuestionsResponse_T resp ;;
      match err with
      | Some e => ret (None, Some (Wrapped (action ++ " operation: ") e))
      | None => ret (Some (fst (snd resp)), None)
      end.

    (** Retrieves any announcements that a User has not yet read. *)
Definition GetServiceAnnouncements (c : Client) : M S (option (denote Announcements_T) * option error) :=
      let action := "getServiceAnnouncements" in
      let req : denote getServiceAnnouncements_T := (zeroName, tt) in
      let resp := zero getServiceAnnouncementsResponse_T in
      '(resp, err) <- call c action getServiceAnnouncements_T req getServiceAnnouncementsResponse_T resp ;;
      match err with
      | Some e => ret (None, Some (Wrapped (action ++ " operation: ") e))
      | None => ret (Some (fst (snd resp)), None)
      end.

    (** Requests that a Service store the supplied bookmarks for a Content item. *)
Definition SetBookmarks (c : Client) (contentID : string) (bookmarkSet : option (denote BookmarkSet_T)) : M S (bool * option error) :=
      let action := "setBookmarks" in
      let req : denote setBookmarks_T := (zeroName, (contentID, (bookmarkSet, tt))) in
      let resp := zero setBookmarksResponse_T in
      '(resp, err) <- call c action setBookmarks_T req setBookmarksResponse_T resp ;;
      match err with
      | Some e => ret (false, Some (Wrapped (action ++ " operation: ") e))
      | None => ret (fst (snd resp), None)
      end.

    (** Retrieves the bookmarks for a Content item from a Service. *)
Definition GetBookmarks (c : Client) (contentID : string) : M S (option (denote BookmarkSet_T) * option error) :=
      let action := "getBookmarks" in
      let req : denote getBookmarks_T := (zeroName, (contentID, tt)) in
      let resp := zero getBookmarksResponse_T in
      '(resp, err) <- call c action getBookmarks_T req getBookmarksResponse_T resp ;;
      match err with
      | Some e => ret (None, Some (Wrapped (action ++ " operation: ") e))
      | None => ret (Some (fst (snd resp)), None)
      end.

    (** Marks the specified announcement(s) as read. *)
Definition MarkAnnouncementsAsRead (c : Client) (read : option (denote Read_T)) : M S (bool * option error) :=
      let action := "markAnnouncementsAsRead" in
      let req : denote markAnnouncementsAsRead_T := (zeroName, (read, tt)) in
      let resp := zero markAnnouncementsAsReadResponse_T in
      '(resp, err) <- call c action markAnnouncementsAsRead_T req markAnnouncementsAsReadResponse_T resp ;;
      match err with
      | Some e => ret (false, Some (Wrapped (action ++ " operation: ") e))
      | None => ret (fst (snd resp), None)
      end.

  End Calls.

End Streaming.

(** ** The transport that keeps the body as raw XML *)

Module InnerXml.

  (** [envelopeResponse]: the envelope of a response, whose body keeps
      the XML inside it undecoded (the [innerxml] flag). *)
Record envelopeResponse : Type := mkEnvelopeResponse {
    envelopeResponse_XMLName : Name;
    Body_XMLName : Name;
    Body_Content : list Token
  }.

Definition zero_envelopeResponse : envelopeResponse :=
    mkEnvelopeResponse zeroName zeroName [].

  (** How [Decoder.unmarshal] decodes the [Body] field: it records the
      name of the element, resolved under the bindings [ns] of the
      envelope and those of its own start tag, and saves the text
      between the tags of the element as it is written; the struct has
      no other field, so every child is skipped. *)
Definition unmarshal_Body (ns : Bindings) (d : Decoder) (b : Name * list Token)
    (n : Name) (attrs : list Attr) : (Name * list Token) * option error * Decoder :=
    match readNodes d [] [] with
    | (inr err, d') => (b, Some err, d')
    | (inl children, d') =>
      ((translate (declare ns attrs) true n, flattenAll children), None, d')
    end.

Lemma unmarshal_Body_le (ns : Bindings) (d : Decoder) (b : Name * list Token)
    (n : Name) (attrs : list Attr) :
    length (input (snd (unmarshal_Body ns d b n attrs))) <= length (input d).
  Proof.
    unfold unmarshal_Body.
    pose proof (readNodes_le d [] []) as H.
    destruct (readNodes d [] []) as [[children|err] d']; exact H.
  Qed.

  (** [Decoder.Decode(&envresp)], for a decoder on the text as it is
      written *)
Definition Decode_envelopeResponse (d : Decoder) (env : envelopeResponse)
    : envelopeResponse * option error * Decoder :=
    match findStart d with
    | (inr err, d') => (env, Some err, d')
    | (inl (n, a), d') =>
      if negb (String.eqb "Envelope" (Local n)) then
        (env, Some (UnmarshalError ("expected element type <Envelope> but have <"
                                     ++ Local n ++ ">")), d')
      else
        let '(b, e, d'') :=
          structLoop "Body" (unmarshal_Body (declare [] a)) (unmarshal_Body_le (declare [] a)) d'
                     (Body_XMLName env, Body_Content env) in
        (mkEnvelopeResponse (translate (declare [] a) true n) (fst b) (snd b), e, d'')
    end.

  (** The envelope of a request.  Its tags write the prefix [SOAP-ENV]
      and declare it through the attribute [NS]. *)
Record body (t : Ty) : Type :=
    mkBody { body_XMLName : Name; body_NS : string; Content : option (denote t) }.

Record envelope (t : Ty) : Type :=
    mkEnvelope { envelope_XMLName : Name; NS : string; Body : body t }.

  Arguments body_XMLName {t} b.
  Arguments body_NS {t} b.
  Arguments Content {t} b.
  Arguments mkEnvelope {t} envelope_XMLName NS Body.
  Arguments envelope_XMLName {t} e.
  Arguments NS {t} e.
  Arguments Body {t} e.

  (** [xml.Encoder.Encode(env)]: the text of the document.  The tags
      of [envelope] and [body] write the prefix [SOAP-ENV], which the
      attribute [NS] of the envelope declares; the [NS] of the body
      declares the default name space of the content. *)
Definition Encode_envelope {t : Ty} (env : envelope t) : error + list Token :=
    let payload :=
      match Content (Body env) with
      | None => inr []
      | Some v => marshalValue t v contentField
      end in
    match payload with
    | inl e => inl e
    | inr c =>
      inr (flatten
             (print (Elem (mkName "" "SOAP-ENV:Envelope")
                          [mkAttr (mkName "" "xmlns:SOAP-ENV") (NS env)]
                          [Elem (mkName "" "SOAP-ENV:Body")
                                [mkAttr (mkName "" "xmlns") (body_NS (Body env))]
                                c])))
    end.

  (** DAISY Online client *)
Record Client : Type := mkClient { url : string; timeout : Z }.

  (** Creates an instance of a new DAISY Online client with the
      specified service URL. *)
Definition NewClient (url : string) (timeout : Z) : Client := mkClient url timeout.

  Section Calls.
    Variable S : Stack.

    (** [Client.call] *)
Definition call (c : Client) (method : string) (targs : Ty) (args : denote targs)
      (trs : Ty) (rs : denote trs) : M S (denote trs * option error) :=
      let env := mkEnvelope zeroName soapNS (mkBody targs zeroName daisyNS (Some args)) in
      match Encode_envelope env with
      | inl err => ret (rs, Some err)
      | inr doc =>
        let buf := mkReader (app xml_Header doc) EOF in
        match http_NewRequest S http_MethodPost (url c) buf with
        | inl err => ret (rs, Some err)
        | inr req =>
          let req := Request_AddHeader req "Content-Type" "text/xml; charset=utf-8" in
          let req := Request_AddHeader req "Accept" "text/xml" in
          let req := Request_AddHeader req "Accept-Encoding" "gzip" in
          let req := Request_AddHeader req "SOAPAction" ("/" ++ method) in
          (r <- httpClient_Do req ;;
           match r with
           | inl err => ret (rs, Some err)
           | inr resp =>
             let reader :=
               if String.eqb (Header_Get (RespHeader resp) "Content-Encoding") "gzip"
               then gzip_NewReader (RespBody resp)
               else inr (asReader (RespBody resp)) in
             match reader with
             | inl err => ret (rs, Some err)
             | inr reader =>
               let '(envresp, err, _) :=
                 Decode_envelopeResponse (xml_NewDecoder_saving reader)
                                         zero_envelopeResponse in
               match err with
               | Some e => ret (rs, Some e)
               | None =>
                 if negb (StatusCode resp =? http_StatusOK)%Z then
                   let fault := zero Fault_T in
                   let (fault, err) := xml_Unmarshal Fault_T (Body_Content envresp) fault in
                   match err with
                   | Some e => ret (rs, Some e)
                   | None => ret (rs, Some (FaultError (Fault_of fault)))
                   end
                 else
                   ret (xml_Unmarshal trs (Body_Content envresp) rs)
               end
             end
           end)%world
        end
      end.

    Local Open Scope world_scope.

Definition getServiceAnnouncements_T : Ty :=
      TStruct "getServiceAnnouncements" (mkXMLName "" "getServiceAnnouncements")
         FNil.

Definition getServiceAnnouncementsResponse_T : Ty :=
      TStruct "getServiceAnnouncementsResponse" (mkXMLName "" "getServiceAnnouncementsResponse")
        (fld "Announcements" (tagged "announcements" fElement false) Announcements_T
         FNil).

Definition getQuestions_T : Ty :=
      TStruct "getQuestions" (mkXMLName "" "getQuestions")
        (fld "UserResponses" (tagged "userResponses" fElement false) (TPtr UserResponses_T)
         FNil).

Definition getQuestionsResponse_T : Ty :=
      TStruct "getQuestionsResponse" (mkXMLName "" "getQuestionsResponse")
        (fld "Questions" (tagged "questions" fElement false) Questions_T
         FNil).

Definition returnContent_T : Ty :=
      TStruct "returnContent" (mkXMLName "" "returnContent")
        (fld "ContentID" (tagged "contentID" fElement false) TString
         FNil).

Definition returnContentResponse_T : Ty :=
      TStruct "returnContentResponse" (mkXMLName "" "returnContentResponse")
        (fld "ReturnContentResult" (tagged "returnContentResult" fElement false) TBool
         FNil).

Definition issueContent_T : Ty :=
      TStruct "issueContent" (mkXMLName "" "issueContent")
        (fld "ContentID" (tagged "contentID" fElement false) TString
         FNil).

Definition issueContentResponse_T : Ty :=
      TStruct "issueContentResponse" (mkXMLName "" "issueContentResponse")
        (fld "IssueContentResult" (tagged "issueContentResult" fElement false) TBool
         FNil).

Definition getContentResources_T : Ty :=
      TStruct "getContentResources" (mkXMLName "" "getContentResources")
        (fld "ContentID" (tagged "contentID" fElement false) TString
         FNil).

Definition getContentResourcesResponse_T : Ty :=
      TStruct "getContentResourcesResponse" (mkXMLName "" "getContentResourcesResponse")
        (fld "Resources" (tagged "resources" fElement false) Resources_T
         FNil).

Definition getContentMetadata_T : Ty :=
      TStruct "getContentMetadata" (mkXMLName "" "getContentMetadata")
        (fld "ContentID" (tagged "contentID" fElement false) TString
         FNil).

Definition getContentMetadataResponse_T : Ty :=
      TStruct "getContentMetadataResponse" (mkXMLName "" "getContentMetadataResponse")
        (fld "ContentMetadata" (tagged "contentMetadata" fElement false) ContentMetadata_T
         FNil).

Definition getContentList_T : Ty :=
      TStruct "getContentList" (mkXMLName "" "getContentList")
        (fld "ID" (tagged "id" fElement false) TString
        (fld "FirstItem" (tagged "firstItem" fElement false) (TInt 64)
        (fld "LastItem" (tagged "lastItem" fElement false) (TInt 64)
         FNil))).

Definition getContentListResponse_T : Ty :=
      TStruct "getContentListResponse" (mkXMLName "" "getContentListResponse")
        (fld "ContentList" (tagged "contentList" fElement false) ContentList_T
         FNil).

Definition logOn_T : Ty :=
      TStruct "logOn" (mkXMLName "" "logOn")
        (fld "Username" (tagged "username" fElement false) TString
        (fld "Password" (tagged "password" fElement false) TString
         FNil)).

Definition logOnResponse_T : Ty :=
      TStruct "logOnResponse" (mkXMLName "" "logOnResponse")
        (fld "LogOnResult" (tagged "logOnResult" fElement false) TBool
         FNil).

Definition getServiceAttributes_T : Ty :=
      TStruct "getServiceAttributes" (mkXMLName "" "getServiceAttributes")
         FNil.

Definition getServiceAttributesResponse_T : Ty :=
      TStruct "getServiceAttributesResponse" (mkXMLName "" "getServiceAttributesResponse")
        (fld "ServiceAttributes" (tagged "serviceAttributes" fElement false) ServiceAttributes_T
         FNil).

Definition setReadingSystemAttributes_T : Ty :=
      TStruct "setReadingSystemAttributes" (mkXMLName "" "setReadingSystemAttributes")
        (fld "ReadingSystemAttributes" (tagged "readingSystemAttributes" fElement false) (TPtr ReadingSystemAttributes_T)
         FNil).

Definition setReadingSystemAttributesResponse_T : Ty :=
      TStruct "setReadingSystemAttributesResponse" (mkXMLName "" "setReadingSystemAttributesResponse")
        (fld "SetReadingSystemAttributesResult" (tagged "setReadingSystemAttributesResult" fElement false) TBool
         FNil).

Definition logOff_T : Ty :=
      TStruct "logOff" (mkXMLName "" "logOff")
         FNil.

Definition logOffResponse_T : Ty :=
      TStruct "logOffResponse" (mkXMLName "" "logOffResponse")
        (fld "LogOffResult" (tagged "logOffResult" fElement false) TBool
         FNil).

    (** Logs a Reading System on to a Service. *)
Definition LogOn (c : Client) (username : string) (password : string) : M S (bool * option error) :=
      let req : denote logOn_T := (zeroName, (username, (password, tt))) in
      let resp := zero logOnResponse_T in
      '(resp, err) <- call c "logOn" logOn_T req logOnResponse_T resp ;;
      match err with
      | Some e => ret (false, Some e)
      | None => ret (fst (snd resp), None)
      end.

    (** Logs a Reading System off a Service. *)
Definition LogOff (c : Client) : M S (bool * option error) :=
      let req : denote logOff_T := (zeroName, tt) in
      let resp := zero logOffResponse_T in
      '(resp, err) <- call c "logOff" logOff_T req logOffResponse_T resp ;;
      match err with
      | Some e => ret (false, Some e)
      | None =>
        _ <- httpClient_CloseIdleConnections ;;
        ret (fst (snd resp), None)
      end.

    (** Retrieves Service properties. *)
Definition GetServiceAttributes (c : Client) : M S (option (denote ServiceAttributes_T) * option error) :=
      let req : denote getServiceAttributes_T := (zeroName, tt) in
      let resp := zero getServiceAttributesResponse_T in
      '(resp, err) <- call c "getServiceAttributes" getServiceAttributes_T req getServiceAttributesResponse_T resp ;;
      match err with
      | Some e => ret (None, Some e)
      | None => ret (Some (fst (snd resp)), None)
      end.

    (** Sends Reading System properties to a Service. *)
Definition SetReadingSystemAttributes (c : Client) (readingSystemAttributes : option (denote ReadingSystemAttributes_T)) : M S (bool * option error) :=
      let req : denote setReadingSystemAttributes_T := (zeroName, (readingSystemAttributes, tt)) in
      let resp := zero setReadingSystemAttributesResponse_T in
      '(resp, err) <- call c "setReadingSystemAttributes" setReadingSystemAttributes_T req setReadingSystemAttributesResponse_T resp ;;
      match err with
      | Some e => ret (false, Some e)
      | None => ret (fst (snd resp), None)
      end.

    (** Retrieves a list of Content items. *)
Definition GetContentList (c : Client) (id : string) (firstItem : Z) (lastItem : Z) : M S (option (denote ContentList_T) * option error) :=
      let req : denote getContentList_T := (zeroName, (id, (firstItem, (lastItem, tt)))) in
      let resp := zero getContentListResponse_T in
      '(resp, err) <- call c "getContentList" getContentList_T req getContentListResponse_T resp ;;
      match err with
      | Some e => ret (None, Some e)
      | None => ret (Some (fst (snd resp)), None)
      end.

    (** Retrieves the contentMetadata of the specified Content item. *)
Definition GetContentMetadata (c : Client) (contentID : string) : M S (option (denote ContentMetadata_T) * option error) :=
      let req : denote getContentMetadata_T := (zeroName, (contentID, tt)) in
      let resp := zero getContentMetadataResponse_T in
      '(resp, err) <- call c "getContentMetadata" getContentMetadata_T req getContentMetadataResponse_T resp ;;
      match err with
      | Some e => ret (None, Some e)
      | None => ret (Some (fst (snd resp)), None)
      end.

    (** Retrieves the resources list for the specified Content item. *)
Definition GetContentResources (c : Client) (contentID : string) : M S (option (denote Resources_T) * option error) :=
      let req : denote getContentResources_T := (zeroName, (contentID, tt)) in
      let resp := zero getContentResourcesResponse_T in
      '(resp, err) <- call c "getContentResources" getContentResources_T req getContentResourcesResponse_T resp ;;
      match err with
      | Some e => ret (None, Some e)
      | None => ret (Some (fst (snd resp)), None)
      end.

    (** Requests a Service to issue the specified Content item. *)
Definition IssueContent (c : Client) (contentID : string) : M S (bool * option error) :=
      let req : denote issueContent_T := (zeroName, (contentID, tt)) in
      let resp := zero issueContentResponse_T in
      '(resp, err) <- call c "issueContent" issueContent_T req issueContentResponse_T resp ;;
      match err with
      | Some e => ret (false, Some e)
      | None => ret (fst (snd resp), None)
      end.

    (** Notifies the Service that the specified Content item has been deleted. *)
Definition ReturnContent (c : Client) (contentID : string) : M S (bool * option error) :=
      let req : denote returnContent_T := (zeroName, (contentID, tt)) in
      let resp := zero returnContentResponse_T in
      '(resp, err) <- call c "returnContent" returnContent_T req returnContentResponse_T resp ;;
      match err with
      | Some e => ret (false, Some e)
      | None => ret (fst (snd resp), None)
      end.

    (** Retrieves a question of the dynamic menu system. *)
Definition GetQuestions (c : Client) (userResponses : option (denote UserResponses_T)) : M S (option (denote Questions_T) * option error) :=
      let req : denote getQuestions_T := (zeroName, (userResponses, tt)) in
      let resp := zero getQuestionsResponse_T in
      '(resp, err) <- call c "getQuestions" getQuestions_T req getQuestionsResponse_T resp ;;
      match err with
      | Some e => ret (None, Some e)
      | None => ret (Some (fst (snd resp)), None)
      end.

    (** Retrieves any announcements that a User has not yet read. *)
Definition GetServiceAnnouncements (c : Client) : M S (option (denote Announcements_T) * option error) :=
      let req : denote getServiceAnnouncements_T := (zeroName, tt) in
      let resp := zero getServiceAnnouncementsResponse_T in
      '(resp, err) <- call c "getServiceAnnouncements" getServiceAnnouncements_T req getServiceAnnouncementsResponse_T resp ;;
      match err with
      | Some e => ret (None, Some e)
      | None => ret (Some (fst (snd resp)), None)
      end.

  End Calls.

End InnerXml.

(** ** The first transport *)

Inductive Outcome (A : Type) : Type :=
| Returned (a : A)
| Panicked (v : error).

Arguments Returned {A} a.
Arguments Panicked {A} v.

Module Legacy.

  (** [envelopeResponse]: the envelope of a response, whose body keeps
      the XML inside it undecoded (the [innerxml] flag). *)
Record envelopeResponse : Type := mkEnvelopeResponse {
    envelopeResponse_XMLName : Name;
    Body_XMLName : Name;
    Body_Content : list Token
  }.

Definition zero_envelopeResponse : envelopeResponse :=
    mkEnvelopeResponse zeroName zeroName [].

  (** How [Decoder.unmarshal] decodes the [Body] field: it records the
      name of the element, resolved under the bindings [ns] of the
      envelope and those of its own start tag, and saves the text
      between the tags of the element as it is written; the struct has
      no other field, so every child is skipped. *)
Definition unmarshal_Body (ns : Bindings) (d : Decoder) (b : Name * list Token)
    (n : Name) (attrs : list Attr) : (Name * list Token) * option error * Decoder :=
    match readNodes d [] [] with
    | (inr err, d') => (b, Some err, d')
    | (inl children, d') =>
      ((translate (declare ns attrs) true n, flattenAll children), None, d')
    end.

Lemma unmarshal_Body_bound (ns : Bindings) (d : Decoder) (b : Name * list Token)
    (n : Name) (attrs : list Attr) :
    length (input (snd (unmarshal_Body ns d b n attrs))) <= length (input d).
  Proof.
    unfold unmarshal_Body.
    pose proof (readNodes_le d [] []) as H.
    destruct (readNodes d [] []) as [[children|err] d']; exact H.
  Qed.

  (** [Decoder.Decode(&envresp)], for a decoder on the text as it is
      written *)
Definition Decode_envelopeResponse (d : Decoder) (env : envelopeResponse)
    : envelopeResponse * option error * Decoder :=
    match findStart d with
    | (inr err, d') => (env, Some err, d')
    | (inl (n, a), d') =>
      if negb (String.eqb "Envelope" (Local n)) then
        (env, Some (UnmarshalError ("expected element type <Envelope> but have <"
                                     ++ Local n ++ ">")), d')
      else
        let '(b, e, d'') :=
          structLoop "Body" (unmarshal_Body (declare [] a)) (unmarshal_Body_bound (declare [] a)) d'
                     (Body_XMLName env, Body_Content env) in
        (mkEnvelopeResponse (translate (declare [] a) true n) (fst b) (snd b), e, d'')
    end.

  (** The envelope of a request.  The body takes its name from the
      value of its [XMLName] field, which has no tag. *)
Record envelopeBody (t : Ty) : Type :=
    mkEnvelopeBody { envelopeBody_XMLName : Name; Content : option (denote t) }.

Record envelope (t : Ty) : Type :=
    mkEnvelope { envelope_XMLName : Name; NS : string; Body : envelopeBody t }.

  Arguments envelopeBody_XMLName {t} e.
  Arguments Content {t} e.
  Arguments mkEnvelope {t} envelope_XMLName NS Body.
  Arguments envelope_XMLName {t} e.
  Arguments NS {t} e.
  Arguments Body {t} e.

  (** [xml.Marshal(env)]: the text of the document.  The body takes
      its name from the value of its [XMLName] field if that has a
      local name, and else from the field that holds it. *)
Definition Marshal_envelope {t : Ty} (env : envelope t) : error + list Token :=
    let payload :=
      match Content (Body env) with
      | None => inr []
      | Some v => marshalValue t v contentField
      end in
    match payload with
    | inl e => inl e
    | inr c =>
      let bn := envelopeBody_XMLName (Body env) in
      inr (flatten
             (print (Elem (mkName "" "SOAP-ENV:Envelope")
                          [mkAttr (mkName "" "xmlns:SOAP-ENV") (NS env)]
                          [Elem (if String.eqb (Local bn) "" then mkName "" "Body" else bn)
                                [] c])))
    end.

Record Client : Type := mkClient { url : string }.

Definition NewClient (url : string) : Client := mkClient url.

  Section Calls.
    Variable S : Stack.

    (** [Client.call] *)
Definition call (c : Client) (method : string) (targs : Ty) (args : denote targs)
      (trs : Ty) (rs : denote trs) : M S (Outcome (denote trs * option error)) :=
      let env := mkEnvelope zeroName soapNS
                   (mkEnvelopeBody targs (mkName daisyNS "SOAP-ENV:Body") (Some args)) in
      match Marshal_envelope env with
      | inl err => ret (Panicked err)
      | inr doc =>
        let XMLDoc := app xml_Header doc in
        match http_NewRequest S http_MethodPost (url c) (mkReader XMLDoc EOF) with
        | inl err => ret (Returned (rs, Some err))
        | inr req =>
          let req := Request_AddHeader req "Content-Type" "text/xml; charset=utf-8" in
          let req := Request_AddHeader req "Accept" "text/xml" in
          let req := Request_AddHeader req "SOAPAction" ("/" ++ method) in
          (r <- httpClient_Do req ;;
           match r with
           | inl err => ret (Returned (rs, Some err))
           | inr resp =>
             if negb (StatusCode resp =? http_StatusOK)%Z then
               ret (Returned (rs, Some (StatusError (Status resp))))
             else
               let d := xml_NewDecoder_saving (asReader (RespBody resp)) in
               let '(envresp, err, _) := Decode_envelopeResponse d zero_envelopeResponse in
               match err with
               | Some e => ret (Returned (rs, Some e))
               | None => ret (Returned (xml_Unmarshal trs (Body_Content envresp) rs))
               end
           end)%world
        end
      end.

    Local Open Scope world_scope.

Definition GetServiceAnnouncements_T : Ty :=
      TStruct "GetServiceAnnouncements" (mkXMLName "" "getServiceAnnouncements")
         FNil.

Definition GetServiceAnnouncementsResponse_T : Ty :=
      TStruct "GetServiceAnnouncementsResponse" (mkXMLName "" "getServiceAnnouncementsResponse")
        (fld "Announcements" (tagged "announcements" fElement false) Announcements_T
         FNil).

Definition GetQuestions_T : Ty :=
      TStruct "GetQuestions" (mkXMLName "" "getQuestions")
        (fld "UserResponses" (tagged "userResponses" fElement false) (TPtr UserResponses_T)
         FNil).

Definition GetQuestionsResponse_T : Ty :=
      TStruct "GetQuestionsResponse" (mkXMLName "" "getQuestionsResponse")
        (fld "Questions" (tagged "questions" fElement false) Questions_T
         FNil).

Definition ReturnContent_T : Ty :=
      TStruct "ReturnContent" (mkXMLName "" "returnContent")
        (fld "ContentID" (tagged "contentID" fElement false) TString
         FNil).

Definition ReturnContentResponse_T : Ty :=
      TStruct "ReturnContentResponse" (mkXMLName "" "returnContentResponse")
        (fld "ReturnContentResult" (tagged "returnContentResult" fElement false) TBool
         FNil).

Definition IssueContent_T : Ty :=
      TStruct "IssueContent" (mkXMLName "" "issueContent")
        (fld "ContentID" (tagged "contentID" fElement false) TString
         FNil).

Definition IssueContentResponse_T : Ty :=
      TStruct "IssueContentResponse" (mkXMLName "" "issueContentResponse")
        (fld "IssueContentResult" (tagged "issueContentResult" fElement false) TBool
         FNil).

Definition GetContentResources_T : Ty :=
      TStruct "GetContentResources" (mkXMLName "" "getContentResources")
        (fld "ContentID" (tagged "contentID" fElement false) TString
         FNil).

Definition GetContentResourcesResponse_T : Ty :=
      TStruct "GetContentResourcesResponse" (mkXMLName "" "getContentResourcesResponse")
        (fld "Resources" (tagged "resources" fElement false) Resources_T
         FNil).

Definition GetContentMetadata_T : Ty :=
      TStruct "GetContentMetadata" (mkXMLName "" "getContentMetadata")
        (fld "ContentID" (tagged "contentID" fElement false) TString
         FNil).

Definition GetContentMetadataResponse_T : Ty :=
      TStruct "GetContentMetadataResponse" (mkXMLName "" "getContentMetadataResponse")
        (fld "ContentMetadata" (tagged "contentMetadata" fElement false) ContentMetadata_T
         FNil).

Definition GetContentList_T : Ty :=
      TStruct "GetContentList" (mkXMLName "" "getContentList")
        (fld "ID" (tagged "id" fElement false) TString
        (fld "FirstItem" (tagged "firstItem" fElement false) (TInt 64)
        (fld "LastItem" (tagged "lastItem" fElement false) (TInt 64)
         FNil))).

Definition GetContentListResponse_T : Ty :=
      TStruct "GetContentListResponse" (mkXMLName "" "getContentListResponse")
        (fld "ContentList" (tagged "contentList" fElement false) ContentList_T
         FNil).

Definition LogOn_T : Ty :=
      TStruct "LogOn" (mkXMLName "" "logOn")
        (fld "Username" (tagged "username" fElement false) TString
        (fld "Password" (tagged "password" fElement false) TString
         FNil)).

Definition LogOnResponse_T : Ty :=
      TStruct "LogOnResponse" (mkXMLName "" "logOnResponse")
        (fld "LogOnResult" (tagged "logOnResult" fElement false) TBool
         FNil).

Definition GetServiceAttributes_T : Ty :=
      TStruct "GetServiceAttributes" (mkXMLName "" "getServiceAttributes")
         FNil.

Definition GetServiceAttributesResponse_T : Ty :=
      TStruct "GetServiceAttributesResponse" (mkXMLName "" "getServiceAttributesResponse")
        (fld "ServiceAttributes" (tagged "serviceAttributes" fElement false) ServiceAttributes_T
         FNil).

Definition SetReadingSystemAttributes_T : Ty :=
      TStruct "SetReadingSystemAttributes" (mkXMLName "" "setReadingSystemAttributes")
        (fld "ReadingSystemAttributes" (tagged "readingSystemAttributes" fElement false) (TPtr ReadingSystemAttributes_T)
         FNil).

Definition SetReadingSystemAttributesResponse_T : Ty :=
      TStruct "SetReadingSystemAttributesResponse" (mkXMLName "" "setReadingSystemAttributesResponse")
        (fld "SetReadingSystemAttributesResult" (tagged "setReadingSystemAttributesResult" fElement false) TBool
         FNil).

Definition LogOff_T : Ty :=
      TStruct "LogOff" (mkXMLName "" "logOff")
         FNil.

Definition LogOffResponse_T : Ty :=
      TStruct "LogOffResponse" (mkXMLName "" "logOffResponse")
        (fld "LogOffResult" (tagged "logOffResult" fElement false) TBool
         FNil).

    (** Logs a Reading System on to a Service. *)
Definition LogOn (c : Client) (username : string) (password : string) : M S (Outcome (bool * option error)) :=
      let req : denote LogOn_T := (zeroName, (username, (password, tt))) in
      let resp := zero LogOnResponse_T in
      out <- call c "logOn" LogOn_T req LogOnResponse_T resp ;;
      match out with
      | Panicked v => ret (Panicked v)
      | Returned (resp, Some e) => ret (Returned (false, Some e))
      | Returned (resp, None) => ret (Returned (fst (snd resp), None))
      end.

    (** Logs a Reading System off a Service. *)
Definition LogOff (c : Client) : M S (Outcome (bool * option error)) :=
      let req : denote LogOff_T := (zeroName, tt) in
      let resp := zero LogOffResponse_T in
      out <- call c "logOff" LogOff_T req LogOffResponse_T resp ;;
      match out with
      | Panicked v => ret (Panicked v)
      | Returned (resp, Some e) => ret (Returned (false, Some e))
      | Returned (resp, None) => ret (Returned (fst (snd resp), None))
      end.

    (** Retrieves Service properties. *)
Definition GetServiceAttributes (c : Client) : M S (Outcome (option (denote ServiceAttributes_T) * option error)) :=
      let req : denote GetServiceAttributes_T := (zeroName, tt) in
      let resp := zero GetServiceAttributesResponse_T in
      out <- call c "getServiceAttributes" GetServiceAttributes_T req GetServiceAttributesResponse_T resp ;;
      match out with
      | Panicked v => ret (Panicked v)
      | Returned (resp, Some e) => ret (Returned (None, Some e))
      | Returned (resp, None) => ret (Returned (Some (fst (snd resp)), None))
      end.

    (** Sends Reading System properties to a Service. *)
Definition SetReadingSystemAttributes (c : Client) (readingSystemAttributes : option (denote ReadingSystemAttributes_T)) : M S (Outcome (bool * option error)) :=
      let req : denote SetReadingSystemAttributes_T := (zeroName, (readingSystemAttributes, tt)) in
      let resp := zero SetReadingSystemAttributesResponse_T in
      out <- call c "setReadingSystemAttributes" SetReadingSystemAttributes_T req SetReadingSystemAttributesResponse_T resp ;;
      match out with
      | Panicked v => ret (Panicked v)
      | Returned (resp, Some e) => ret (Returned (false, Some e))
      | Returned (resp, None) => ret (Returned (fst (snd resp), None))
      end.

    (** Retrieves a list of Content items. *)
Definition GetContentList (c : Client) (id : string) (firstItem : Z) (lastItem : Z) : M S (Outcome (option (denote ContentList_T) * option error)) :=
      let req : denote GetContentList_T := (zeroName, (id, (firstItem, (lastItem, tt)))) in
      let resp := zero GetContentListResponse_T in
      out <- call c "getContentList" GetContentList_T req GetContentListResponse_T resp ;;
      match out with
      | Panicked v => ret (Panicked v)
      | Returned (resp, Some e) => ret (Returned (None, Some e))
      | Returned (resp, None) => ret (Returned (Some (fst (snd resp)), None))
      end.

    (** Retrieves the contentMetadata of the specified Content item. *)
Definition GetContentMetadata (c : Client) (contentID : string) : M S (Outcome (option (denote ContentMetadata_T) * option error)) :=
      let req : denote GetContentMetadata_T := (zeroName, (contentID, tt)) in
      let resp := zero GetContentMetadataResponse_T in
      out <- call c "getContentMetadata" GetContentMetadata_T req GetContentMetadataResponse_T resp ;;
      match out with
      | Panicked v => ret (Panicked v)
      | Returned (resp, Some e) => ret (Returned (None, Some e))
      | Returned (resp, None) => ret (Returned (Some (fst (snd resp)), None))
      end.

    (** Retrieves the resources list for the specified Content item. *)
Definition GetContentResources (c : Client) (contentID : string) : M S (Outcome (option (denote Resources_T) * option error)) :=
      let req : denote GetContentResources_T := (zeroName, (contentID, tt)) in
      let resp := zero GetContentResourcesResponse_T in
      out <- call c "getContentResources" GetContentResources_T req GetContentResourcesResponse_T resp ;;
      match out with
      | Panicked v => ret (Panicked v)
      | Returned (resp, Some e) => ret (Returned (None, Some e))
      | Returned (resp, None) => ret (Returned (Some (fst (snd resp)), None))
      end.

    (** Requests a Service to issue the specified Content item. *)
Definition IssueContent (c : Client) (contentID : string) : M S (Outcome (bool * option error)) :=
      let req : denote IssueContent_T := (zeroName, (contentID, tt)) in
      let resp := zero IssueContentResponse_T in
      out <- call c "issueContent" IssueContent_T req IssueContentResponse_T resp ;;
      match out with
      | Panicked v => ret (Panicked v)
      | Returned (resp, Some e) => ret (Returned (false, Some e))
      | Returned (resp, None) => ret (Returned (fst (snd resp), None))
      end.

    (** Notifies the Service that the specified Content item has been deleted. *)
Definition ReturnContent (c : Client) (contentID : string) : M S (Outcome (bool * option error)) :=
      let req : denote ReturnContent_T := (zeroName, (contentID, tt)) in
      let resp := zero ReturnContentResponse_T in
      out <- call c "returnContent" ReturnContent_T req ReturnContentResponse_T resp ;;
      match out with
      | Panicked v => ret (Panicked v)
      | Returned (resp, Some e) => ret (Returned (false, Some e))
      | Returned (resp, None) => ret (Returned (fst (snd resp), None))
      end.

    (** Retrieves a question of the dynamic menu system. *)
Definition GetQuestions (c : Client) (userResponses : option (denote UserResponses_T)) : M S (Outcome (option (denote Questions_T) * option error)) :=
      let req : denote GetQuestions_T := (zeroName, (userResponses, tt)) in
      let resp := zero GetQuestionsResponse_T in
      out <- call c "getQuestions" GetQuestions_T req GetQuestionsResponse_T resp ;;
      match out with
      | Panicked v => ret (Panicked v)
      | Returned (resp, Some e) => ret (Returned (None, Some e))
      | Returned (resp, None) => ret (Returned (Some (fst (snd resp)), None))
      end.

    (** Retrieves any announcements that a User has not yet read. *)
Definition GetServiceAnnouncements (c : Client) : M S (Outcome (option (denote Announcements_T) * option error)) :=
      let req : denote GetServiceAnnouncements_T := (zeroName, tt) in
      let resp := zero GetServiceAnnouncementsResponse_T in
      out <- call c "getServiceAnnouncements" GetServiceAnnouncements_T req GetServiceAnnouncementsResponse_T resp ;;
      match out with
      | Panicked v => ret (Panicked v)
      | Returned (resp, Some e) => ret (Returned (None, Some e))
      | Returned (resp, None) => ret (Returned (Some (fst (snd resp)), None))
      end.

    (** Performs the session initialization sequence *)
Definition Authentication (client : Client)
      (readingSystemAttributes : option (denote ReadingSystemAttributes_T))
      (username password : string)
      : M S (Outcome (option (denote ServiceAttributes_T) * option error)) :=
      out <- LogOn client username password ;;
      match out with
      | Panicked v => ret (Panicked v)
      | Returned (_, Some err) => ret (Returned (None, Some err))
      | Returned (_, None) =>
        out <- GetServiceAttributes client ;;
        match out with
        | Panicked v => ret (Panicked v)
        | Returned (_, Some err) => ret (Returned (None, Some err))
        | Returned (serviceAttributes, None) =>
          out <- SetReadingSystemAttributes client readingSystemAttributes ;;
          match out with
          | Panicked v => ret (Panicked v)
          | Returned (_, Some err) => ret (Returned (None, Some err))
          | Returned (_, None) => ret (Returned (serviceAttributes, None))
          end
        end
      end.

  End Calls.

End Legacy.
(** * Properties *)

(** Induction on documents: a property of an element may use the
    property of each of its children. *)
Lemma Node_ind' (P : Node -> Prop) :
  (forall n attrs children, Forall P children -> P (Elem n attrs children)) ->
  (forall s, P (Text s)) ->
  (forall s, P (NComment s)) ->
  (forall t i, P (NProcInst t i)) ->
  (forall s, P (NDirective s)) ->
  forall n, P n.
Proof.
  intros HE HT HC HP HD.
  fix IH 1. intros [n attrs children|s|s|t i|s].
  - apply HE. induction children as [|c cs IHcs]; constructor.
    + apply IH.
    + exact IHcs.
  - apply HT.
  - apply HC.
  - apply HP.
  - apply HD.
Qed.

(** The top of the stack lets [Token] read on. *)
Definition readable (s : list stkItem) : Prop :=
  match s with
  | stkEOF :: _ => False
  | _ => True
  end.

Lemma Token_start (n : Name) (a : list Attr) (ts : list Token) (e : error)
  (s : list stkItem) :
  readable s ->
  Decoder_Token (mkDecoder (StartElement n a :: ts) e s)
  = (inl (StartElement n a), mkDecoder ts e (stkStart n :: s)).
Proof.
  unfold Decoder_Token; simpl. destruct s as [|[m|] s']; simpl; tauto.
Qed.

Lemma Token_end (n : Name) (ts : list Token) (e : error) (s : list stkItem) :
  Decoder_Token (mkDecoder (EndElement n :: ts) e (stkStart n :: s))
  = (inl (EndElement n), mkDecoder ts e s).
Proof.
  unfold Decoder_Token; simpl. now rewrite Name_eqb_refl.
Qed.

Definition isLeafToken (t : Token) : bool :=
  negb (isStartElement t) && negb (isEndElement t).

Lemma Token_leaf (t : Token) (ts : list Token) (e : error) (s : list stkItem) :
  readable s -> isLeafToken t = true ->
  Decoder_Token (mkDecoder (t :: ts) e s) = (inl t, mkDecoder ts e s).
Proof.
  unfold Decoder_Token; simpl.
  destruct s as [|[m|] s']; simpl; try tauto; destruct t; simpl; try discriminate; auto.
Qed.

Lemma readNodes_flatten (n : Node) :
  forall (ts : list Token) (e : error) (s : list stkItem)
         (open : list Frame) (cur : list Node),
    readable s ->
    readNodes (mkDecoder (flatten n ++ ts) e s) open cur
    = readNodes (mkDecoder ts e s) open (n :: cur).
Proof.
  induction n as [nm attrs children IH|x|x|x y|x] using Node_ind';
    intros ts e s open cur Hs.
  - simpl. rewrite readNodes_eq, Token_start by assumption.
    assert (Hch : forall cur',
      readNodes (mkDecoder (flat_map flatten children ++ EndElement nm :: ts) e
                           (stkStart nm :: s)) ((nm, attrs, cur) :: open) cur'
      = readNodes (mkDecoder ts e s) open (Elem nm attrs (rev cur' ++ children) :: cur)).
    { induction IH as [|c cs Hc _ IHcs]; intros cur'.
      - simpl. rewrite readNodes_eq, Token_end. now rewrite app_nil_r.
      - simpl. rewrite <- app_assoc, Hc by exact I.
        rewrite IHcs. simpl. now rewrite <- app_assoc. }
    rewrite <- app_assoc. simpl. rewrite Hch. reflexivity.
  - simpl. rewrite readNodes_eq, Token_leaf by auto. reflexivity.
  - simpl. rewrite readNodes_eq, Token_leaf by auto. reflexivity.
  - simpl. rewrite readNodes_eq, Token_leaf by auto. reflexivity.
  - simpl. rewrite readNodes_eq, Token_leaf by auto. reflexivity.
Qed.

Lemma readNodes_flattenAll (ns : list Node) :
  forall (ts : list Token) (e : error) (s : list stkItem)
         (open : list Frame) (cur : list Node),
    readable s ->
    readNodes (mkDecoder (flattenAll ns ++ ts) e s) open cur
    = readNodes (mkDecoder ts e s) open (rev ns ++ cur).
Proof.
  induction ns as [|n ns IH]; intros ts e s open cur Hs; [reflexivity|].
  unfold flattenAll in *. simpl. rewrite <- app_assoc, readNodes_flatten by assumption.
  rewrite IH by assumption. now rewrite <- app_assoc.
Qed.

(** Reading the content of an element whose tags nest properly gives
    its nodes and leaves the decoder after its end tag. *)
Lemma readNodes_element (ns : list Node) (n : Name) (ts : list Token) (e : error)
  (s : list stkItem) :
  readNodes (mkDecoder (flattenAll ns ++ EndElement n :: ts) e (stkStart n :: s)) [] []
  = (inl ns, mkDecoder ts e s).
Proof.
  rewrite readNodes_flattenAll by exact I.
  rewrite readNodes_eq, Token_end. now rewrite app_nil_r, rev_involutive.
Qed.

Lemma Skip_flatten (n : Node) :
  forall (ts : list Token) (e : error) (s : list stkItem) (depth : nat),
    readable s ->
    Skip_loop (mkDecoder (flatten n ++ ts) e s) depth
    = Skip_loop (mkDecoder ts e s) depth.
Proof.
  induction n as [nm attrs children IH|x|x|x y|x] using Node_ind';
    intros ts e s depth Hs.
  - simpl. rewrite Skip_loop_eq, Token_start by assumption.
    assert (Hch :
      Skip_loop (mkDecoder (flat_map flatten children ++ EndElement nm :: ts) e
                           (stkStart nm :: s)) (S depth)
      = Skip_loop (mkDecoder ts e s) depth).
    { induction IH as [|c cs Hc _ IHcs].
      - simpl. rewrite Skip_loop_eq, Token_end. reflexivity.
      - simpl. rewrite <- app_assoc, Hc by exact I. exact IHcs. }
    rewrite <- app_assoc. simpl. exact Hch.
  - simpl. rewrite Skip_loop_eq, Token_leaf by auto. reflexivity.
  - simpl. rewrite Skip_loop_eq, Token_leaf by auto. reflexivity.
  - simpl. rewrite Skip_loop_eq, Token_leaf by auto. reflexivity.
  - simpl. rewrite Skip_loop_eq, Token_leaf by auto. reflexivity.
Qed.

Lemma Skip_flattenAll (ns : list Node) :
  forall (ts : list Token) (e : error) (s : list stkItem) (depth : nat),
    readable s ->
    Skip_loop (mkDecoder (flattenAll ns ++ ts) e s) depth
    = Skip_loop (mkDecoder ts e s) depth.
Proof.
  induction ns as [|n ns IH]; intros ts e s depth Hs; [reflexivity|].
  unfold flattenAll in *. simpl. rewrite <- app_assoc, Skip_flatten by assumption.
  now apply IH.
Qed.

(** Skipping the rest of an element whose tags nest properly leaves the
    decoder after its end tag. *)
Lemma Skip_element (ns : list Node) (n : Name) (ts : list Token) (e : error)
  (s : list stkItem) :
  Decoder_Skip (mkDecoder (flattenAll ns ++ EndElement n :: ts) e (stkStart n :: s))
  = (None, mkDecoder ts e s).
Proof.
  unfold Decoder_Skip. rewrite Skip_flattenAll by exact I.
  now rewrite Skip_loop_eq, Token_end.
Qed.

(** Nodes that are not elements. *)
Definition isElem (n : Node) : bool :=
  match n with Elem _ _ _ => true | _ => false end.

Definition leaves (ns : list Node) : Prop := forallb (fun n => negb (isElem n)) ns = true.

(** The first element among the nodes, and the nodes after it. *)
Fixpoint firstElem (ns : list Node) : option (Name * list Attr * list Node * list Node) :=
  match ns with
  | [] => None
  | Elem n a ch :: rest => Some (n, a, ch, rest)
  | _ :: rest => firstElem rest
  end.

Lemma findStart_nodes (ns : list Node) :
  forall (ts : list Token) (e : error) (s : list stkItem),
    readable s ->
    findStart (mkDecoder (flattenAll ns ++ ts) e s)
    = match firstElem ns with
      | None => findStart (mkDecoder ts e s)
      | Some (n, a, ch, rest) =>
        (inl (n, a),
         mkDecoder (flattenAll ch ++ EndElement n :: flattenAll rest ++ ts) e
                   (stkStart n :: s))
      end.
Proof.
  induction ns as [|n ns IH]; intros ts e s Hs; [reflexivity|].
  destruct n as [nm attrs ch|x|x|x y|x]; unfold flattenAll in *; simpl.
  - rewrite findStart_eq, Token_start by assumption.
    now rewrite <- !app_assoc.
  - rewrite findStart_eq, Token_leaf by auto. now apply IH.
  - rewrite findStart_eq, Token_leaf by auto. now apply IH.
  - rewrite findStart_eq, Token_leaf by auto. now apply IH.
  - rewrite findStart_eq, Token_leaf by auto. now apply IH.
Qed.

(** What the struct loop computes on the children of an element, given
    what its field computes on the content of a child. *)
Section StructLoopOnTrees.
  Variable S : Type.
  Variable fieldName : string.
  Variable onField : Decoder -> S -> Name -> list Attr -> S * option error * Decoder.
  Hypothesis onField_le : forall d s n a,
    length (input (snd (onField d s n a))) <= length (input d).
  Variable fieldSpec : S -> Name -> list Attr -> list Node -> S * option error.
  Hypothesis onField_spec :
    forall (st : S) (n : Name) (a : list Attr) (ch : list Node) (ts : list Token)
           (e : error) (s : list stkItem),
      let r := onField (mkDecoder (flattenAll ch ++ EndElement n :: ts) e (stkStart n :: s))
                       st n a in
      fst r = fieldSpec st n a ch /\
      (snd (fieldSpec st n a ch) = None -> snd r = mkDecoder ts e s).

Fixpoint structSpec (st : S) (children : list Node) : S * option error :=
    match children with
    | [] => (st, None)
    | Elem n a ch :: rest =>
      if String.eqb fieldName (Local n) then
        let (st', e) := fieldSpec st n a ch in
        match e with
        | Some err => (st', Some err)
        | None => structSpec st' rest
        end
      else structSpec st rest
    | _ :: rest => structSpec st rest
    end.

Lemma structLoop_nodes (children : list Node) :
    forall (st : S) (n : Name) (ts : list Token) (e : error) (s : list stkItem),
      let r := structLoop fieldName onField onField_le
                 (mkDecoder (flattenAll children ++ EndElement n :: ts) e (stkStart n :: s))
                 st in
      fst r = structSpec st children /\
      (snd (structSpec st children) = None -> snd r = mkDecoder ts e s).
  Proof.
    induction children as [|c cs IH]; intros st n ts e s.
    - cbv zeta. simpl. rewrite structLoop_eq, Token_end. simpl. auto.
    - cbv zeta.
      destruct c as [cn ca ch|x|x|x y|x]; unfold flattenAll in *; simpl;
        try (rewrite structLoop_eq, Token_leaf by (simpl; auto); apply IH).
      rewrite structLoop_eq, Token_start by exact I.
      rewrite <- !app_assoc. simpl.
      destruct (String.eqb fieldName (Local cn)).
      + pose proof (onField_spec st cn ca ch
                      (flat_map flatten cs ++ EndElement n :: ts) e (stkStart n :: s))
          as [H1 H2].
        cbv zeta in H1, H2. unfold flattenAll in *.
        destruct (onField _ st cn ca) as [[st' err] d''] eqn:Hon.
        simpl in H1, H2. rewrite <- H1.
        destruct err as [err|]; simpl.
        * split; [reflexivity | discriminate].
        * rewrite H2 by (rewrite <- H1; reflexivity). apply IH.
      + pose proof (Skip_element ch cn (flat_map flatten cs ++ EndElement n :: ts) e
                                 (stkStart n :: s)) as Hs.
        unfold flattenAll in Hs. rewrite Hs. apply IH.
  Qed.
End StructLoopOnTrees.


Arguments structSpec {S} fieldName fieldSpec st children.
Arguments structLoop_nodes {S} fieldName onField onField_le fieldSpec onField_spec
  children st n ts e s.

(** ** The body extractor on documents *)

(** What [body.UnmarshalXML] makes of the content of a body: the first
    element, if there is one, is decoded into the destination that
    [Content] points to. *)
Definition extract {t : Ty} (b : Streaming.body t) (children : list Node)
  : Streaming.body t * option error :=
  match firstElem children with
  | None => (b, None)
  | Some (n, a, ch, _) =>
    match Streaming.Content b with
    | None => (Streaming.set_Content b None,
               Some (UnmarshalError "non-pointer passed to Unmarshal"))
    | Some v =>
      let (v', e) := unmarshal t v n a ch in
      (Streaming.set_Content b (Some v'), e)
    end
  end.

Lemma DecodeElement_element (t : Ty) (v : denote t) (n : Name) (a : list Attr)
  (ch : list Node) (ts : list Token) (e : error) (s : list stkItem) :
  Decoder_DecodeElement t
    (mkDecoder (flattenAll ch ++ EndElement n :: ts) e (stkStart n :: s)) v n a
  = (fst (unmarshal t v n a ch), snd (unmarshal t v n a ch), mkDecoder ts e s).
Proof.
  unfold Decoder_DecodeElement. rewrite readNodes_element.
  now destruct (unmarshal t v n a ch).
Qed.

Lemma body_UnmarshalXML_nodes {t : Ty} (children : list Node) :
  forall (b : Streaming.body t) (start : Name) (attrs : list Attr) (bn : Name)
         (ts : list Token) (e : error) (s : list stkItem),
    let r := Streaming.body_UnmarshalXML b
               (mkDecoder (flattenAll children ++ EndElement bn :: ts) e
                          (stkStart bn :: stkEOF :: s)) start attrs in
    fst r = extract b children /\
    (snd (extract b children) = None -> snd r = mkDecoder ts e (stkEOF :: s)).
Proof.
  induction children as [|c cs IH]; intros b start attrs bn ts e s; cbv zeta.
  - simpl. rewrite Streaming.body_UnmarshalXML_eq, Token_end.
    rewrite Streaming.body_UnmarshalXML_eq. simpl. auto.
  - destruct c as [cn ca ch|x|x|x y|x]; unfold flattenAll in *; simpl;
      try (rewrite Streaming.body_UnmarshalXML_eq, Token_leaf by (simpl; auto);
           apply IH).
    rewrite Streaming.body_UnmarshalXML_eq, Token_start by exact I.
    rewrite <- !app_assoc. simpl.
    unfold extract, Streaming.DecodeElement_Content. simpl.
    destruct (Streaming.Content b) as [v|]; [|simpl; split; [reflexivity|discriminate]].
    pose proof (DecodeElement_element t v cn ca ch
                  (flat_map flatten cs ++ EndElement bn :: ts) e
                  (stkStart bn :: stkEOF :: s)) as Hd.
    unfold flattenAll in Hd. rewrite Hd.
    destruct (unmarshal t v cn ca ch) as [v' [err|]]; simpl.
    + split; [reflexivity|discriminate].
    + pose proof (Skip_element cs bn ts e (stkEOF :: s)) as Hs.
      unfold flattenAll in Hs. rewrite Hs. simpl. auto.
Qed.

Lemma unmarshal_body_nodes {t : Ty} (b : Streaming.body t) (n : Name) (a : list Attr)
  (children : list Node) (ts : list Token) (e : error) (s : list stkItem) :
  let r := Streaming.unmarshal_body
             (mkDecoder (flattenAll children ++ EndElement n :: ts) e (stkStart n :: s))
             b n a in
  fst r = extract b children /\
  (snd (extract b children) = None -> snd r = mkDecoder ts e s).
Proof.
  cbv zeta. unfold Streaming.unmarshal_body, unmarshalInterface, pushEOF. simpl.
  pose proof (body_UnmarshalXML_nodes children b n a n ts e s) as [H1 H2].
  cbv zeta in H1, H2.
  destruct (Streaming.body_UnmarshalXML b _ n a) as [[b' err] d'].
  simpl in H1, H2. rewrite <- H1.
  destruct err as [err|]; simpl.
  - split; [reflexivity|discriminate].
  - rewrite H2 by (rewrite <- H1; reflexivity). simpl. auto.
Qed.

(** What decoding makes of the children of an envelope: every child
    named [Body] is handed to the extractor. *)
Definition decodeBodies {t : Ty} (b : Streaming.body t) (children : list Node)
  : Streaming.body t * option error :=
  structSpec "Body" (fun b _ _ ch => extract b ch) b children.

Definition notNil {A : Type} (p : option A) : bool :=
  match p with Some _ => true | None => false end.

(** [Decode] on a document whose first element is named [n] and has
    the given children: the element must be an envelope, and its
    children named [Body] are decoded. *)
Definition decodeRoot {t : Ty} (env : Streaming.envelope t) (n : Name)
  (children : list Node) : Streaming.envelope t * option error :=
  if negb (String.eqb "Envelope" (Local n)) then
    (env, Some (UnmarshalError ("expected element type <Envelope> but have <"
                                 ++ Local n ++ ">")))
  else if negb (String.eqb soapNS (Space n)) then
    (env, Some (UnmarshalError ("expected element <Envelope> in name space "
                                 ++ soapNS ++ " but have " ++ haveSpace (Space n))))
  else
    let (b, e) := decodeBodies (Streaming.Body env) children in
    (Streaming.mkEnvelope n b, e).

Lemma Decode_envelope_document {t : Ty} (env : Streaming.envelope t) (doc : list Node)
  (ts : list Token) (e : error) {n : Name} {a : list Attr} {ch rest : list Node} :
  firstElem doc = Some (n, a, ch, rest) ->
  fst (Streaming.Decode_envelope (NewDecoder (flattenAll doc ++ ts) e) env)
  = decodeRoot env n ch.
Proof.
  intros Hdoc.
  unfold Streaming.Decode_envelope, decodeRoot, NewDecoder.
  rewrite findStart_nodes, Hdoc by exact I.
  destruct (negb (String.eqb "Envelope" (Local n))); [reflexivity|].
  destruct (negb (String.eqb soapNS (Space n))); [reflexivity|].
  pose proof (structLoop_nodes "Body" (@Streaming.unmarshal_body t)
                (@Streaming.unmarshal_body_le t) (fun b _ _ ch => extract b ch)
                (fun st n a ch ts e s => unmarshal_body_nodes st n a ch ts e s)
                ch (Streaming.Body env) n (flattenAll rest ++ ts) e []) as [H1 _].
  cbv zeta in H1.
  destruct (structLoop _ _ _ _ _) as [[b e'] d'']. simpl in H1.
  unfold decodeBodies. rewrite <- H1. reflexivity.
Qed.

Lemma firstElem_leaves (pre : list Node) (n : Name) (a : list Attr) (ch rest : list Node) :
  leaves pre -> firstElem (pre ++ Elem n a ch :: rest) = Some (n, a, ch, rest).
Proof.
  unfold leaves. induction pre as [|p pre IH]; simpl; [reflexivity|].
  rewrite andb_true_iff. intros [Hp Hpre]. destruct p; try discriminate; auto.
Qed.

Lemma firstElem_none (ns : list Node) : leaves ns -> firstElem ns = None.
Proof.
  unfold leaves. induction ns as [|p ns IH]; simpl; [reflexivity|].
  rewrite andb_true_iff. intros [Hp Hns]. destruct p; try discriminate; auto.
Qed.

(** ** Texts and the documents they are read as *)

Lemma translate_Local (ns : Bindings) (b : bool) (n : Name) :
  Local (translate ns b n) = Local n.
Proof.
  unfold translate.
  destruct (String.eqb (Space n) "xmlns"); [reflexivity|].
  destruct (String.eqb (Space n) "" && negb b); [reflexivity|].
  destruct (String.eqb (Space n) "" && String.eqb (Local n) "xmlns"); [reflexivity|].
  cbv zeta. now destruct (lookupNs ns _).
Qed.

(** The tokens of a text whose tags nest properly resolve without an
    error, to the tokens of the document it is read as. *)
Lemma resolveTokens_flatten (n : Node) :
  forall (open : list (Name * Bindings)) (ns : Bindings) (rest : list Token),
    resolveTokens open ns (app (flatten n) rest)
    = (app (flatten (resolve ns n)) (fst (resolveTokens open ns rest)),
       snd (resolveTokens open ns rest)).
Proof.
  induction n as [nm attrs children IH|x|x|x y|x] using Node_ind';
    intros open ns rest.
  - assert (Hch : forall ns',
      resolveTokens ((nm, ns) :: open) ns'
                    (app (flat_map flatten children) (EndElement nm :: rest))
      = (app (flat_map flatten (map (resolve ns') children))
             (EndElement (translate ns' true nm) :: fst (resolveTokens open ns rest)),
         snd (resolveTokens open ns rest))).
    { intros ns'. induction IH as [|c cs Hc _ IHcs].
      - cbn [flat_map map app resolveTokens]. rewrite Name_eqb_refl.
        now destruct (resolveTokens open ns rest).
      - cbn [flat_map map]. rewrite <- !app_assoc, Hc, IHcs. reflexivity. }
    cbn [flatten resolve]. rewrite <- !app_comm_cons, <- !app_assoc.
    cbn [app resolveTokens]. rewrite Hch. reflexivity.
  - cbn. now destruct (resolveTokens open ns rest).
  - cbn. now destruct (resolveTokens open ns rest).
  - cbn. now destruct (resolveTokens open ns rest).
  - cbn. now destruct (resolveTokens open ns rest).
Qed.

Lemma resolveTokens_flattenAll (nodes : list Node) :
  forall (open : list (Name * Bindings)) (ns : Bindings) (rest : list Token),
    resolveTokens open ns (app (flattenAll nodes) rest)
    = (app (flattenAll (map (resolve ns) nodes)) (fst (resolveTokens open ns rest)),
       snd (resolveTokens open ns rest)).
Proof.
  induction nodes as [|n nodes IH]; intros open ns rest.
  - cbn. now destruct (resolveTokens open ns rest).
  - unfold flattenAll in *. cbn [flat_map map].
    rewrite <- !app_assoc, resolveTokens_flatten, IH. reflexivity.
Qed.

Lemma resolved_document (written : list Node) (ts : list Token) (e : error) :
  resolved (mkReader (app (flattenAll written) ts) e)
  = mkReader (app (flattenAll (map (resolve []) written))
                  (content (resolved (mkReader ts e))))
             (readErr (resolved (mkReader ts e))).
Proof.
  unfold resolved. cbn [content readErr]. rewrite resolveTokens_flattenAll.
  now destruct (resolveTokens [] [] ts) as [out [err|]].
Qed.

(** A prefix of the tokens resolves to a prefix of what they resolve to. *)
Lemma resolveTokens_firstn (k : nat) :
  forall (ts : list Token) (open : list (Name * Bindings)) (ns : Bindings),
    snd (resolveTokens open ns ts) = None ->
    resolveTokens open ns (firstn k ts)
    = (firstn k (fst (resolveTokens open ns ts)), None).
Proof.
  induction k as [|k IH]; intros ts open ns Hok; [reflexivity|].
  destruct ts as [|t ts]; [reflexivity|].
  destruct t as [n attrs|n|x|x|x y|x]; cbn [firstn resolveTokens] in *.
  - specialize (IH ts ((n, ns) :: open) (declare ns attrs)).
    destruct (resolveTokens ((n, ns) :: open) (declare ns attrs) ts) as [out e].
    cbn [fst snd] in *. now rewrite IH.
  - destruct open as [|[m outer] open'].
    + specialize (IH ts [] ns).
      destruct (resolveTokens [] ns ts) as [out e].
      cbn [fst snd] in *. now rewrite IH.
    + destruct (Name_eqb m n); [|discriminate].
      specialize (IH ts open' outer).
      destruct (resolveTokens open' outer ts) as [out e].
      cbn [fst snd] in *. now rewrite IH.
  - specialize (IH ts open ns). destruct (resolveTokens open ns ts) as [out e].
    cbn [fst snd] in *. now rewrite IH.
  - specialize (IH ts open ns). destruct (resolveTokens open ns ts) as [out e].
    cbn [fst snd] in *. now rewrite IH.
  - specialize (IH ts open ns). destruct (resolveTokens open ns ts) as [out e].
    cbn [fst snd] in *. now rewrite IH.
  - specialize (IH ts open ns). destruct (resolveTokens open ns ts) as [out e].
    cbn [fst snd] in *. now rewrite IH.
Qed.

Lemma flatten_resolve_length (n : Node) :
  forall ns, length (flatten (resolve ns n)) = length (flatten n).
Proof.
  induction n as [nm attrs children IH|x|x|x y|x] using Node_ind'; intros ns;
    try reflexivity.
  cbn [flatten resolve length]. rewrite !length_app. cbn [length]. f_equal. f_equal.
  generalize (declare ns attrs) as ns'. intros ns'.
  induction IH as [|c cs Hc _ IHcs]; [reflexivity|].
  cbn [flat_map map]. rewrite !length_app, Hc, IHcs. reflexivity.
Qed.

Lemma flattenAll_resolve_length (nodes : list Node) (ns : Bindings) :
  length (flattenAll (map (resolve ns) nodes)) = length (flattenAll nodes).
Proof.
  induction nodes as [|n nodes IH]; [reflexivity|].
  unfold flattenAll in *. cbn [flat_map map].
  now rewrite !length_app, flatten_resolve_length, IH.
Qed.

Lemma leaves_resolve (ns : Bindings) (nodes : list Node) :
  leaves (map (resolve ns) nodes) <-> leaves nodes.
Proof.
  unfold leaves. induction nodes as [|n nodes IH]; [tauto|].
  cbn [map forallb]. rewrite !andb_true_iff, IH. now destruct n.
Qed.

Lemma firstElem_resolve (ns : Bindings) (nodes : list Node) :
  firstElem (map (resolve ns) nodes)
  = match firstElem nodes with
    | None => None
    | Some (n, a, ch, rest) =>
      Some (translate (declare ns a) true n, map (translateAttr (declare ns a)) a,
            map (resolve (declare ns a)) ch, map (resolve ns) rest)
    end.
Proof.
  induction nodes as [|n nodes IH]; [reflexivity|]. now destruct n.
Qed.

(** The text behind a document that holds an element. *)
Lemma resolve_Elem_inv (ns : Bindings) (w : Node) (n : Name) (a : list Attr)
  (ch : list Node) :
  resolve ns w = Elem n a ch ->
  exists wn wa wch,
    w = Elem wn wa wch /\ translate (declare ns wa) true wn = n
    /\ map (translateAttr (declare ns wa)) wa = a
    /\ map (resolve (declare ns wa)) wch = ch.
Proof.
  destruct w as [wn wa wch|x|x|x y|x]; try discriminate.
  cbn [resolve]. intros H. injection H as H1 H2 H3. now exists wn, wa, wch.
Qed.

Lemma map_resolve_inv (ns : Bindings) (written pre post : list Node) (x : Node) :
  map (resolve ns) written = app pre (x :: post) ->
  exists wpre wx wpost,
    written = app wpre (wx :: wpost) /\ map (resolve ns) wpre = pre
    /\ resolve ns wx = x /\ map (resolve ns) wpost = post.
Proof.
  intros H. apply map_eq_app in H as (wpre & tl & -> & Hpre & Htl).
  apply map_eq_cons in Htl as (wx & wpost & -> & Hx & Hpost).
  now exists wpre, wx, wpost.
Qed.

(** ** Exchanges *)

(** The request can be built and sent: the client has a context, its
    URL parses and the payload can be marshalled. *)
Definition Streaming_sendable (S : Stack) (c : Streaming.Client) (targs : Ty)
  (args : denote targs) : Prop :=
  notNil (Streaming.ctx c) = true /\
  url_Parse S (Streaming.url c) = None /\
  exists nodes, marshalValue targs args contentField = inr nodes.

(** The service answers whatever request it is sent with [resp]. *)
Definition answers (S : Stack) (w : World S) (resp : Response) : Prop :=
  forall req, fst (RoundTrip S (net w) req) = inr resp.

(** The reader a call decodes the response from: the body, through a
    gzip reader if the response declares that content encoding. *)
Definition responseReader (resp : Response) : error + Reader :=
  if String.eqb (Header_Get (RespHeader resp) "Content-Encoding") "gzip"
  then gzip_NewReader (RespBody resp)
  else inr (asReader (RespBody resp)).

(** What [Streaming.call] makes of a response. *)
Definition Streaming_receive (trs : Ty) (rs : denote trs) (resp : Response)
  : denote trs * option error :=
  match responseReader resp with
  | inl err => (rs, Some err)
  | inr reader =>
    let dec := xml_NewDecoder reader in
    if negb (StatusCode resp =? http_StatusOK)%Z then
      let fault := zero Fault_T in
      let respEnv := Streaming.mkEnvelope zeroName (Streaming.mkBody Fault_T zeroName (Some fault)) in
      let '(respEnv, err, _) := Streaming.Decode_envelope dec respEnv in
      match err with
      | Some e => (rs, Some e)
      | None =>
        (rs, Some (Wrapped "fault: " (FaultError (Fault_of (Streaming.pointee respEnv fault)))))
      end
    else
      let respEnv := Streaming.mkEnvelope zeroName (Streaming.mkBody trs zeroName (Some rs)) in
      let '(respEnv, err, _) := Streaming.Decode_envelope dec respEnv in
      (Streaming.pointee respEnv rs, err)
  end.

Lemma Streaming_call_answered {S : Stack} {c : Streaming.Client} (action : string)
  {targs : Ty} {args : denote targs} (trs : Ty) (rs : denote trs)
  {w : World S} {resp : Response} :
  Streaming_sendable S c targs args -> answers S w resp ->
  fst (Streaming.call S c action targs args trs rs w) = Streaming_receive trs rs resp.
Proof.
  intros (Hctx & Hurl & nodes & Hm) Hans.
  unfold Streaming.call, Streaming.Encode_envelope. simpl. rewrite Hm.
  unfold http_NewRequestWithContext.
  destruct (Streaming.ctx c) as [cx|]; [|discriminate]. rewrite Hurl.
  unfold bind, httpClient_Do.
  match goal with |- context [RoundTrip S (net w) ?r] =>
    pose proof (Hans r) as Hr; destruct (RoundTrip S (net w) r) as [res n'] end.
  simpl in Hr. subst res. unfold Streaming_receive, responseReader.
  destruct (if String.eqb _ _ then _ else _) as [err|reader]; [reflexivity|].
  destruct (negb _).
  - simpl. destruct (Streaming.Decode_envelope _ _) as [[env' [err|]] d']; reflexivity.
  - simpl. destruct (Streaming.Decode_envelope _ _) as [[env' err] d']; reflexivity.
Qed.

(** Children of an envelope among which none is named [Body]. *)
Definition noBody (ns : list Node) : Prop :=
  forallb (fun n => match n with
                    | Elem m _ _ => negb (String.eqb "Body" (Local m))
                    | _ => true
                    end) ns = true.

Lemma structSpec_noBody {S : Type} (spec : S -> Name -> list Attr -> list Node -> S * option error)
  (ns rest : list Node) (st : S) :
  noBody ns -> structSpec "Body" spec st (ns ++ rest) = structSpec "Body" spec st rest.
Proof.
  unfold noBody. induction ns as [|n ns IH]; [reflexivity|].
  cbn [forallb]. rewrite andb_true_iff. intros [Hn Hns].
  destruct n as [m a ch|x|x|x y|x]; cbn [app structSpec]; auto.
  apply negb_true_iff in Hn. rewrite Hn. auto.
Qed.

(** An envelope with a single body: [before] and [after] are the other
    children of the envelope, [inner] the children of the body. *)
Definition envelopeNode (eattrs : list Attr) (before : list Node) (bn : Name)
  (battrs : list Attr) (inner after : list Node) : Node :=
  Elem (mkName soapNS "Envelope") eattrs (before ++ Elem bn battrs inner :: after).

Lemma decodeBodies_single {t : Ty} (b : Streaming.body t) (before : list Node) (bn : Name)
  (battrs : list Attr) (inner after : list Node) :
  Local bn = "Body" -> noBody before -> noBody after ->
  decodeBodies b (before ++ Elem bn battrs inner :: after) = extract b inner.
Proof.
  intros Hbn Hb Ha. unfold decodeBodies.
  rewrite structSpec_noBody by assumption. cbn [structSpec]. rewrite Hbn. simpl.
  destruct (extract b inner) as [b' [err|]]; [reflexivity|].
  rewrite <- (app_nil_r after), structSpec_noBody by assumption. reflexivity.
Qed.

Lemma noBody_resolve (ns : Bindings) (nodes : list Node) :
  noBody (map (resolve ns) nodes) <-> noBody nodes.
Proof.
  unfold noBody. induction nodes as [|n nodes IH]; [tauto|].
  cbn [map forallb]. rewrite !andb_true_iff, IH.
  destruct n; cbn [resolve]; rewrite ?translate_Local; tauto.
Qed.

(** A response whose reader yields the text [written], possibly
    followed by more tokens and ending in any way. *)
Definition yieldsText (resp : Response) (written : list Node) : Prop :=
  exists (ts : list Token) (e : error),
    responseReader resp = inr (mkReader (flattenAll written ++ ts) e).

(** A response whose reader yields a text that [Decoder.Token] reads as
    the document [pre ++ envelope :: post], possibly followed by more
    tokens and ending in any way. *)
Definition yieldsEnvelope (resp : Response) (pre : list Node) (envelope : Node)
  (post : list Node) : Prop :=
  exists written : list Node,
    yieldsText resp written /\ map (resolve []) written = app pre (envelope :: post).

(** What [xml.NewDecoder] reads from such a response. *)
Lemma yieldsEnvelope_decoder (resp : Response) (pre : list Node) (envelope : Node)
  (post : list Node) :
  yieldsEnvelope resp pre envelope post ->
  exists (r : Reader) (ts : list Token) (e : error),
    responseReader resp = inr r
    /\ xml_NewDecoder r = NewDecoder (flattenAll (pre ++ envelope :: post) ++ ts) e.
Proof.
  intros (written & (ts & e & Hr) & Hw).
  exists (mkReader (flattenAll written ++ ts) e),
         (content (resolved (mkReader ts e))), (readErr (resolved (mkReader ts e))).
  split; [exact Hr|].
  unfold xml_NewDecoder. rewrite resolved_document, Hw. reflexivity.
Qed.

(** The text behind an envelope with a single body. *)
Definition envelopeText (en : Name) (eattrs : list Attr) (before : list Node) (bn : Name)
  (battrs : list Attr) (inner after : list Node) : Node :=
  Elem en eattrs (before ++ Elem bn battrs inner :: after).

Lemma envelopeNode_text (written pre post : list Node) (eattrs : list Attr)
  (before : list Node) (bn : Name) (battrs : list Attr) (inner after : list Node) :
  map (resolve []) written
  = app pre (envelopeNode eattrs before bn battrs inner after :: post) ->
  leaves pre -> Local bn = "Body" -> noBody before -> noBody after ->
  exists wpre wpost en ea wbefore wbn wba winner wafter,
    written = app wpre (envelopeText en ea wbefore wbn wba winner wafter :: wpost)
    /\ leaves wpre /\ Local en = "Envelope" /\ Local wbn = "Body"
    /\ noBody wbefore /\ noBody wafter
    /\ map (resolve (declare (declare [] ea) wba)) winner = inner
    /\ map (translateAttr (declare (declare [] ea) wba)) wba = battrs
    /\ translate (declare (declare [] ea) wba) true wbn = bn.
Proof.
  intros H Hpre Hbn Hb Ha.
  apply map_resolve_inv in H as (wpre & wx & wpost & -> & H1 & H2 & H3).
  apply resolve_Elem_inv in H2 as (en & ea & wch & -> & Hen & Hea & Hch).
  apply map_resolve_inv in Hch as (wbefore & wb & wafter & -> & H4 & H5 & H6).
  apply resolve_Elem_inv in H5 as (wbn & wba & winner & -> & Hwbn & Hwba & Hin).
  exists wpre, wpost, en, ea, wbefore, wbn, wba, winner, wafter.
  subst. repeat split; try reflexivity.
  - now apply leaves_resolve in Hpre.
  - rewrite <- (translate_Local (declare [] ea) true en), Hen. reflexivity.
  - now rewrite translate_Local in Hbn.
  - now apply noBody_resolve in Hb.
  - now apply noBody_resolve in Ha.
Qed.

Lemma Streaming_receive_ok (trs : Ty) (rs : denote trs) (resp : Response)
  (pre post : list Node) (eattrs : list Attr) (before : list Node) (bn : Name)
  (battrs : list Attr) (inner after : list Node) :
  StatusCode resp = http_StatusOK ->
  yieldsEnvelope resp pre (envelopeNode eattrs before bn battrs inner after) post ->
  leaves pre -> Local bn = "Body" -> noBody before -> noBody after ->
  Streaming_receive trs rs resp
  = match firstElem inner with
    | None => (rs, None)
    | Some (n, a, ch, _) => unmarshal trs rs n a ch
    end.
Proof.
  intros Hst Hy Hpre Hbn Hb Ha.
  destruct (yieldsEnvelope_decoder _ _ _ _ Hy) as (r & ts & e & Hr & Hdec).
  unfold Streaming_receive. rewrite Hr, Hst. simpl negb. cbv iota zeta.
  rewrite Hdec.
  pose proof (Decode_envelope_document
                (Streaming.mkEnvelope zeroName (Streaming.mkBody trs zeroName (Some rs)))
                (pre ++ envelopeNode eattrs before bn battrs inner after :: post) ts e
                (firstElem_leaves pre _ _ _ post Hpre)) as Hd.
  destruct (Streaming.Decode_envelope _ _) as [[env' err] d']. simpl in Hd.
  unfold decodeRoot in Hd. simpl in Hd.
  rewrite decodeBodies_single in Hd by assumption.
  unfold extract in Hd. simpl in Hd.
  destruct (firstElem inner) as [[[[n a] ch] sibs]|].
  - destruct (unmarshal trs rs n a ch) as [v' e']. inversion Hd; subst. reflexivity.
  - inversion Hd; subst. reflexivity.
Qed.

(** ** The transports that keep the body as raw XML, on documents *)

Lemma findStart_end (e : error) :
  findStart (mkDecoder [] e []) = (inr e, mkDecoder [] e []).
Proof.
  rewrite findStart_eq. unfold Decoder_Token. simpl. now destruct e.
Qed.

(** [xml.Unmarshal] decodes the first element of the data, read on
    its own, and reports [EOF] when there is none. *)
Lemma xml_Unmarshal_nodes (t : Ty) (v : denote t) (nodes : list Node) :
  xml_Unmarshal t (flattenAll nodes) v
  = match firstElem (map (resolve []) nodes) with
    | None => (v, Some EOF)
    | Some (n, a, ch, _) => unmarshal t v n a ch
    end.
Proof.
  unfold xml_Unmarshal, Decoder_Decode, xml_NewDecoder.
  rewrite <- (app_nil_r (flattenAll nodes)), resolved_document.
  cbn [content readErr resolved resolveTokens]. unfold NewDecoder.
  rewrite findStart_nodes by exact I.
  destruct (firstElem (map (resolve []) nodes)) as [[[[n a] ch] rest]|].
  - rewrite DecodeElement_element. now destruct (unmarshal t v n a ch).
  - now rewrite findStart_end.
Qed.

(** The name, resolved under [ns], and the text of the last child
    named [Body]. *)
Definition bodySpec (ns : Bindings) (b : Name * list Token) (n : Name) (a : list Attr)
  (ch : list Node) : (Name * list Token) * option error :=
  ((translate (declare ns a) true n, flattenAll ch), None).

Definition lastBody (ns : Bindings) (b : Name * list Token) (children : list Node)
  : Name * list Token :=
  fst (structSpec "Body" (bodySpec ns) b children).

Lemma structSpec_total (ns : Bindings) (b : Name * list Token) (children : list Node) :
  snd (structSpec "Body" (bodySpec ns) b children) = None.
Proof.
  revert b. induction children as [|c cs IH]; intros b; [reflexivity|].
  destruct c as [m a ch|x|x|x y|x]; cbn [structSpec]; auto.
  destruct (String.eqb "Body" (Local m)); auto. unfold bodySpec at 1. apply IH.
Qed.

Section RawBody.
  Variable ns : Bindings.
  Variable unmarshal_Body :
    Decoder -> Name * list Token -> Name -> list Attr
    -> (Name * list Token) * option error * Decoder.
  Hypothesis unmarshal_Body_def : forall d b n attrs,
    unmarshal_Body d b n attrs
    = match readNodes d [] [] with
      | (inr err, d') => (b, Some err, d')
      | (inl children, d') =>
        ((translate (declare ns attrs) true n, flattenAll children), None, d')
      end.
  Variable unmarshal_Body_le : forall d b n a,
    length (input (snd (unmarshal_Body d b n a))) <= length (input d).

Lemma unmarshal_Body_nodes (b : Name * list Token) (n : Name) (a : list Attr)
    (ch : list Node) (ts : list Token) (e : error) (s : list stkItem) :
    let r := unmarshal_Body (mkDecoder (flattenAll ch ++ EndElement n :: ts) e (stkStart n :: s))
                            b n a in
    fst r = bodySpec ns b n a ch /\
    (snd (bodySpec ns b n a ch) = None -> snd r = mkDecoder ts e s).
  Proof.
    cbv zeta. rewrite unmarshal_Body_def, readNodes_element. simpl. auto.
  Qed.

Lemma rawBody_nodes (b : Name * list Token) (doc : list Node) (ts : list Token)
    (e : error) (n : Name) (a : list Attr) (ch rest : list Node) :
    let r := structLoop "Body" unmarshal_Body unmarshal_Body_le
               (mkDecoder (flattenAll ch ++ EndElement n :: ts) e [stkStart n]) b in
    fst r = (lastBody ns b ch, None).
  Proof.
    cbv zeta.
    pose proof (structLoop_nodes "Body" unmarshal_Body unmarshal_Body_le
                  (bodySpec ns)
                  (fun st n a ch ts e s => unmarshal_Body_nodes st n a ch ts e s)
                  ch b n ts e []) as [H1 _].
    cbv zeta in H1. rewrite H1. unfold lastBody.
    pose proof (structSpec_total ns b ch) as Ht.
    destruct (structSpec _ _ b ch) as [b' err]. simpl in *. now subst.
  Qed.
End RawBody.

(** [Decode(&envresp)] on a document whose first element is an
    envelope: the content of its last body, undecoded. *)
Lemma InnerXml_Decode_document (env : InnerXml.envelopeResponse) (doc : list Node)
  (ts : list Token) (e : error) {n : Name} {a : list Attr} {ch rest : list Node} :
  firstElem doc = Some (n, a, ch, rest) -> Local n = "Envelope" ->
  fst (InnerXml.Decode_envelopeResponse (NewDecoder (flattenAll doc ++ ts) e) env)
  = (InnerXml.mkEnvelopeResponse (translate (declare [] a) true n)
       (fst (lastBody (declare [] a) (InnerXml.Body_XMLName env, InnerXml.Body_Content env) ch))
       (snd (lastBody (declare [] a) (InnerXml.Body_XMLName env, InnerXml.Body_Content env) ch)),
     None).
Proof.
  intros Hdoc Hn.
  unfold InnerXml.Decode_envelopeResponse, NewDecoder.
  rewrite findStart_nodes, Hdoc, Hn by exact I. simpl negb. cbv iota.
  pose proof (rawBody_nodes (declare [] a) (InnerXml.unmarshal_Body (declare [] a))
                (fun d b n a => eq_refl) (InnerXml.unmarshal_Body_le (declare [] a))
                (InnerXml.Body_XMLName env, InnerXml.Body_Content env) doc
                (flattenAll rest ++ ts) e n a ch rest) as H.
  cbv zeta in H.
  destruct (structLoop _ _ _ _ _) as [[b e'] d'']. simpl in H.
  inversion H; subst. reflexivity.
Qed.

Lemma Legacy_Decode_document (env : Legacy.envelopeResponse) (doc : list Node)
  (ts : list Token) (e : error) {n : Name} {a : list Attr} {ch rest : list Node} :
  firstElem doc = Some (n, a, ch, rest) -> Local n = "Envelope" ->
  fst (Legacy.Decode_envelopeResponse (NewDecoder (flattenAll doc ++ ts) e) env)
  = (Legacy.mkEnvelopeResponse (translate (declare [] a) true n)
       (fst (lastBody (declare [] a) (Legacy.Body_XMLName env, Legacy.Body_Content env) ch))
       (snd (lastBody (declare [] a) (Legacy.Body_XMLName env, Legacy.Body_Content env) ch)),
     None).
Proof.
  intros Hdoc Hn.
  unfold Legacy.Decode_envelopeResponse, NewDecoder.
  rewrite findStart_nodes, Hdoc, Hn by exact I. simpl negb. cbv iota.
  pose proof (rawBody_nodes (declare [] a) (Legacy.unmarshal_Body (declare [] a))
                (fun d b n a => eq_refl) (Legacy.unmarshal_Body_bound (declare [] a))
                (Legacy.Body_XMLName env, Legacy.Body_Content env) doc
                (flattenAll rest ++ ts) e n a ch rest) as H.
  cbv zeta in H.
  destruct (structLoop _ _ _ _ _) as [[b e'] d'']. simpl in H.
  inversion H; subst. reflexivity.
Qed.

Lemma lastBody_single (ns : Bindings) (b : Name * list Token) (before : list Node)
  (bn : Name) (battrs : list Attr) (inner after : list Node) :
  Local bn = "Body" -> noBody before -> noBody after ->
  lastBody ns b (before ++ Elem bn battrs inner :: after)
  = (translate (declare ns battrs) true bn, flattenAll inner).
Proof.
  intros Hbn Hb Ha. unfold lastBody.
  rewrite structSpec_noBody by assumption. cbn [structSpec]. rewrite Hbn. simpl.
  rewrite <- (app_nil_r after), structSpec_noBody by assumption. reflexivity.
Qed.

Definition InnerXml_sendable (S : Stack) (c : InnerXml.Client) (targs : Ty)
  (args : denote targs) : Prop :=
  url_Parse S (InnerXml.url c) = None /\
  exists nodes, marshalValue targs args contentField = inr nodes.

Definition Legacy_sendable (S : Stack) (c : Legacy.Client) (targs : Ty)
  (args : denote targs) : Prop :=
  url_Parse S (Legacy.url c) = None /\
  exists nodes, marshalValue targs args contentField = inr nodes.

(** What [InnerXml.call] makes of a response. *)
Definition InnerXml_receive (trs : Ty) (rs : denote trs) (resp : Response)
  : denote trs * option error :=
  match responseReader resp with
  | inl err => (rs, Some err)
  | inr reader =>
    let '(envresp, err, _) :=
      InnerXml.Decode_envelopeResponse (xml_NewDecoder_saving reader)
                                       InnerXml.zero_envelopeResponse in
    match err with
    | Some e => (rs, Some e)
    | None =>
      if negb (StatusCode resp =? http_StatusOK)%Z then
        let (fault, err) :=
          xml_Unmarshal Fault_T (InnerXml.Body_Content envresp) (zero Fault_T) in
        match err with
        | Some e => (rs, Some e)
        | None => (rs, Some (FaultError (Fault_of fault)))
        end
      else xml_Unmarshal trs (InnerXml.Body_Content envresp) rs
    end
  end.

Lemma InnerXml_call_answered {S : Stack} {c : InnerXml.Client} (method : string)
  {targs : Ty} {args : denote targs} (trs : Ty) (rs : denote trs)
  {w : World S} {resp : Response} :
  InnerXml_sendable S c targs args -> answers S w resp ->
  fst (InnerXml.call S c method targs args trs rs w) = InnerXml_receive trs rs resp.
Proof.
  intros (Hurl & nodes & Hm) Hans.
  unfold InnerXml.call, InnerXml.Encode_envelope. simpl. rewrite Hm.
  unfold http_NewRequest, http_NewRequestWithContext. rewrite Hurl.
  unfold bind, httpClient_Do.
  match goal with |- context [RoundTrip S (net w) ?r] =>
    pose proof (Hans r) as Hr; destruct (RoundTrip S (net w) r) as [res n'] end.
  simpl in Hr. subst res. unfold InnerXml_receive, responseReader.
  destruct (if String.eqb _ _ then _ else _) as [err|reader]; [reflexivity|].
  destruct (InnerXml.Decode_envelopeResponse _ _) as [[env' [err|]] d']; [reflexivity|].
  destruct (negb _).
  - destruct (xml_Unmarshal Fault_T _ _) as [f [err|]]; reflexivity.
  - reflexivity.
Qed.

(** What [Legacy.call] makes of a response. *)
Definition Legacy_receive (trs : Ty) (rs : denote trs) (resp : Response)
  : denote trs * option error :=
  if negb (StatusCode resp =? http_StatusOK)%Z then
    (rs, Some (StatusError (Status resp)))
  else
    let '(envresp, err, _) :=
      Legacy.Decode_envelopeResponse (xml_NewDecoder_saving (asReader (RespBody resp)))
                                     Legacy.zero_envelopeResponse in
    match err with
    | Some e => (rs, Some e)
    | None => xml_Unmarshal trs (Legacy.Body_Content envresp) rs
    end.

Lemma Legacy_call_answered {S : Stack} {c : Legacy.Client} (method : string)
  {targs : Ty} {args : denote targs} (trs : Ty) (rs : denote trs)
  {w : World S} {resp : Response} :
  Legacy_sendable S c targs args -> answers S w resp ->
  fst (Legacy.call S c method targs args trs rs w)
  = Returned (Legacy_receive trs rs resp).
Proof.
  intros (Hurl & nodes & Hm) Hans.
  unfold Legacy.call, Legacy.Marshal_envelope. simpl. rewrite Hm.
  unfold http_NewRequest, http_NewRequestWithContext. rewrite Hurl.
  unfold bind, httpClient_Do.
  match goal with |- context [RoundTrip S (net w) ?r] =>
    pose proof (Hans r) as Hr; destruct (RoundTrip S (net w) r) as [res n'] end.
  simpl in Hr. subst res. unfold Legacy_receive.
  destruct (negb _); [reflexivity|].
  destruct (Legacy.Decode_envelopeResponse _ _) as [[env' [err|]] d']; reflexivity.
Qed.

(** ** Errors of decoding are not faults *)

(** An error that is not, and does not wrap, a [Fault]. *)
Definition plain (e : error) : bool :=
  match errors_As_Fault e with
  | Some _ => false
  | None => true
  end.

Definition plainOpt (e : option error) : bool :=
  match e with
  | Some err => plain err
  | None => true
  end.

Lemma Token_plain {d d' : Decoder} {e : error} :
  plain (inputErr d) = true -> Decoder_Token d = (inr e, d') -> plain e = true.
Proof.
  unfold Decoder_Token. intros Hp.
  destruct (stk d) as [|[m|] s0]; destruct (input d) as [|t0 rest];
    repeat match goal with
           | |- context [match ?x with _ => _ end] => destruct x eqn:?
           end; inversion 1; subst; auto.
Qed.

Lemma Token_inputErr {d d' : Decoder} {r : Token + error} :
  Decoder_Token d = (r, d') -> inputErr d' = inputErr d.
Proof.
  destruct r as [t|e]; intros H.
  - now apply Token_consumes in H.
  - now apply Token_error in H as ->.
Qed.

Lemma Skip_loop_plain (d : Decoder) (depth : nat) :
  plain (inputErr d) = true ->
  inputErr (snd (Skip_loop d depth)) = inputErr d /\
  plainOpt (fst (Skip_loop d depth)) = true.
Proof.
  revert depth. induction d as [d IH] using decoder_ind. intros depth Hp.
  rewrite Skip_loop_eq.
  destruct (Decoder_Token d) as [[tok|err] d'] eqn:Htok.
  - pose proof (Token_shrinks Htok) as Hlt.
    pose proof (Token_inputErr Htok) as He.
    assert (Hp' : plain (inputErr d') = true) by now rewrite He.
    destruct tok; try destruct depth; simpl; auto;
      rewrite <- He; apply IH; assumption.
  - simpl. split; [eapply Token_inputErr; eauto | eapply Token_plain; eauto].
Qed.

Lemma readNodes_plain (d : Decoder) (open : list Frame) (cur : list Node) :
  plain (inputErr d) = true ->
  inputErr (snd (readNodes d open cur)) = inputErr d /\
  match fst (readNodes d open cur) with
  | inr e => plain e = true
  | inl _ => True
  end.
Proof.
  revert open cur. induction d as [d IH] using decoder_ind. intros open cur Hp.
  rewrite readNodes_eq.
  destruct (Decoder_Token d) as [[tok|err] d'] eqn:Htok.
  - pose proof (Token_shrinks Htok) as Hlt.
    pose proof (Token_inputErr Htok) as He.
    assert (Hp' : plain (inputErr d') = true) by now rewrite He.
    destruct tok; try destruct open as [|[[? ?] ?] ?]; simpl; auto;
      rewrite <- He; apply IH; assumption.
  - simpl. split; [eapply Token_inputErr; eauto | eapply Token_plain; eauto].
Qed.

Lemma findStart_plain (d : Decoder) :
  plain (inputErr d) = true ->
  inputErr (snd (findStart d)) = inputErr d /\
  match fst (findStart d) with
  | inr e => plain e = true
  | inl _ => True
  end.
Proof.
  induction d as [d IH] using decoder_ind. intros Hp.
  rewrite findStart_eq.
  destruct (Decoder_Token d) as [[tok|err] d'] eqn:Htok.
  - pose proof (Token_shrinks Htok) as Hlt.
    pose proof (Token_inputErr Htok) as He.
    assert (Hp' : plain (inputErr d') = true) by now rewrite He.
    destruct tok; simpl; auto; rewrite <- He; apply IH; assumption.
  - simpl. split; [eapply Token_inputErr; eauto | eapply Token_plain; eauto].
Qed.

Lemma ParseBool_plain (s : string) (e : error) : ParseBool s = inl e -> plain e = true.
Proof.
  unfold ParseBool. repeat destruct (existsb _ _); inversion 1; reflexivity.
Qed.

Lemma ParseInt_plain (s : string) (bits : Z) (e : error) :
  ParseInt s bits = inl e -> plain e = true.
Proof.
  unfold ParseInt.
  destruct (match s with String _ _ => _ | _ => _ end) as [d|];
    [destruct (inRange _ _)|]; inversion 1; reflexivity.
Qed.

Lemma copyScalar_plain (t : Ty) (v : denote t) (src : string) :
  plainOpt (snd (copyScalar t v src)) = true.
Proof.
  destruct t; simpl; try reflexivity.
  - destruct src; [reflexivity|].
    destruct (ParseBool _) eqn:H; [|reflexivity]. simpl. eapply ParseBool_plain; eauto.
  - destruct src; [reflexivity|].
    destruct (ParseInt _ _) eqn:H; [|reflexivity]. simpl. eapply ParseInt_plain; eauto.
Qed.

Lemma copyValue_plain (t : Ty) (v : denote t) (src : string) :
  plainOpt (snd (copyValue t v src)) = true.
Proof.
  destruct t; try apply copyScalar_plain.
  simpl.
  match goal with |- context [copyScalar ?a ?b ?c] =>
    pose proof (copyScalar_plain a b c) as H; destruct (copyScalar a b c) end.
  exact H.
Qed.

Lemma unmarshalAttr_plain (t : Ty) : forall (v : denote t) (a : Attr),
  plainOpt (snd (unmarshalAttr t v a)) = true.
Proof.
  induction t using Ty_Fields_ind
    with (P0 := fun _ => True); intros; auto;
    try (apply (copyValue_plain TString));
    try (apply (copyValue_plain TBool));
    try (apply (copyValue_plain (TInt _)));
    try (apply (copyValue_plain (TStruct _ _ _))).
  - simpl.
    match goal with |- context [unmarshalAttr t ?b ?c] =>
      pose proof (IHt b c) as H; destruct (unmarshalAttr t b c) end.
    exact H.
  - simpl.
    match goal with |- context [unmarshalAttr t ?b ?c] =>
      pose proof (IHt b c) as H; destruct (unmarshalAttr t b c) as [r [err|]] end;
    simpl in *; auto.
Qed.

Lemma assignAttr_plain (enc : XMLNameTag) (fs : Fields) :
  forall (vals : denoteFields fs) (a : Attr),
    plainOpt (snd (assignAttr enc fs vals a)) = true.
Proof.
  induction fs as [|d t rest IH]; intros vals a; [reflexivity|].
  simpl. destruct (_ && _ && _).
  - pose proof (unmarshalAttr_plain t (fst vals) a) as H.
    destruct (unmarshalAttr t (fst vals) a) as [v' [err|]]; [exact H|].
    specialize (IH (snd vals) a). now destruct (assignAttr enc rest (snd vals) a).
  - specialize (IH (snd vals) a). now destruct (assignAttr enc rest (snd vals) a).
Qed.

Lemma assignAttrs_plain (enc : XMLNameTag) (fs : Fields) (attrs : list Attr) :
  forall vals : denoteFields fs,
    plainOpt (snd (assignAttrs enc fs vals attrs)) = true.
Proof.
  induction attrs as [|a attrs IH]; intros vals; [reflexivity|].
  simpl. pose proof (assignAttr_plain enc fs vals a) as H.
  destruct (assignAttr enc fs vals a) as [vals' [err|]]; [exact H|]. apply IH.
Qed.

Lemma getTypeInfo_plain (x : XMLNameTag) (fs : Fields) :
  plainOpt (getTypeInfo x fs) = true.
Proof.
  unfold getTypeInfo. generalize (@nil fieldInfo).
  induction fs as [|d t rest IH]; intros seen; [reflexivity|].
  simpl. destruct (tagConflict d t); [reflexivity|].
  destruct (existsb _ seen); [reflexivity|]. apply IH.
Qed.

Lemma unmarshal_plain (t : Ty) :
  forall (v : denote t) (n : Name) (attrs : list Attr) (children : list Node),
    plainOpt (snd (unmarshal t v n attrs children)) = true.
Proof.
  induction t using Ty_Fields_ind
    with (P0 := fun fs => forall enc (vals : denoteFields fs) n attrs children,
                  plainOpt (snd (unmarshalPath enc fs vals n attrs children)) = true);
    intros.
  - apply (copyScalar_plain TString).
  - apply (copyScalar_plain TBool).
  - apply (copyScalar_plain (TInt bits)).
  - simpl. pose proof (getTypeInfo_plain x fs) as Hg.
    destruct (getTypeInfo x fs) as [err|]; [exact Hg|].
    destruct (_ && _); [reflexivity|]. destruct (_ && _); [reflexivity|].
    pose proof (assignAttrs_plain x fs attrs (snd v)) as Ha.
    destruct (assignAttrs x fs (snd v) attrs) as [vals1 [err|]]; [exact Ha|].
    clear Ha.
    assert (Hl : forall cs vals,
               plainOpt (snd (childrenLoop (unmarshalPath x fs) cs vals)) = true).
    { induction cs as [|c cs IHcs]; intros vals; [reflexivity|].
      destruct c as [cn ca cch|y|y|y z|y]; simpl; auto.
      pose proof (IHt x vals cn ca cch) as Hc.
      destruct (unmarshalPath x fs vals cn ca cch) as [vals' [err|]]; [exact Hc|].
      apply IHcs. }
    specialize (Hl children vals1).
    now destruct (childrenLoop (unmarshalPath x fs) children vals1).
  - simpl.
    match goal with |- context [unmarshal t ?b n attrs children] =>
      pose proof (IHt b n attrs children) as H;
      destruct (unmarshal t b n attrs children) end.
    exact H.
  - simpl.
    pose proof (IHt (zero t) n attrs children) as H.
    destruct (unmarshal t (zero t) n attrs children) as [r [err|]]; simpl in *; auto.
  - reflexivity.
  - simpl. destruct (_ && _ && _).
    + pose proof (IHt (fst vals) n attrs children) as H.
      now destruct (unmarshal t (fst vals) n attrs children).
    + match goal with |- context [unmarshalPath enc ?r (snd vals) n attrs children] =>
        pose proof (IHt0 enc (snd vals) n attrs children) as H;
        now destruct (unmarshalPath enc r (snd vals) n attrs children) end.
Qed.

Lemma DecodeElement_plain (t : Ty) (d : Decoder) (v : denote t) (n : Name)
  (attrs : list Attr) :
  plain (inputErr d) = true ->
  inputErr (snd (Decoder_DecodeElement t d v n attrs)) = inputErr d /\
  plainOpt (snd (fst (Decoder_DecodeElement t d v n attrs))) = true.
Proof.
  intros Hp. unfold Decoder_DecodeElement.
  pose proof (readNodes_plain d [] [] Hp) as [H1 H2].
  destruct (readNodes d [] []) as [[children|err] d']; simpl in *.
  - pose proof (unmarshal_plain t v n attrs children) as Hu.
    destruct (unmarshal t v n attrs children). simpl in *. auto.
  - auto.
Qed.

Lemma Decoder_Decode_plain (t : Ty) (d : Decoder) (v : denote t) :
  plain (inputErr d) = true ->
  plainOpt (snd (fst (Decoder_Decode t d v))) = true.
Proof.
  intros Hp. unfold Decoder_Decode.
  pose proof (findStart_plain d Hp) as [H1 H2].
  destruct (findStart d) as [[[n a]|err] d']; simpl in *; [|assumption].
  apply DecodeElement_plain. now rewrite H1.
Qed.

Lemma resolveTokens_plain (ts : list Token) :
  forall (open : list (Name * Bindings)) (ns : Bindings),
    plainOpt (snd (resolveTokens open ns ts)) = true.
Proof.
  induction ts as [|t ts IH]; intros open ns; [reflexivity|].
  destruct t as [n attrs|n|x|x|x y|x]; cbn [resolveTokens].
  - specialize (IH ((n, ns) :: open) (declare ns attrs)).
    now destruct (resolveTokens ((n, ns) :: open) (declare ns attrs) ts).
  - destruct open as [|[m outer] open'].
    + specialize (IH [] ns). now destruct (resolveTokens [] ns ts).
    + destruct (Name_eqb m n); [|reflexivity].
      specialize (IH open' outer). now destruct (resolveTokens open' outer ts).
  - specialize (IH open ns). now destruct (resolveTokens open ns ts).
  - specialize (IH open ns). now destruct (resolveTokens open ns ts).
  - specialize (IH open ns). now destruct (resolveTokens open ns ts).
  - specialize (IH open ns). now destruct (resolveTokens open ns ts).
Qed.

Lemma xml_NewDecoder_plain (r : Reader) :
  plain (readErr r) = true -> plain (inputErr (xml_NewDecoder r)) = true.
Proof.
  intros Hp. unfold xml_NewDecoder, resolved, NewDecoder.
  pose proof (resolveTokens_plain (content r) [] []) as H.
  destruct (resolveTokens [] [] (content r)) as [out [err|]]; cbn in *; assumption.
Qed.

Lemma xml_Unmarshal_plain (t : Ty) (data : list Token) (v : denote t) :
  plainOpt (snd (xml_Unmarshal t data v)) = true.
Proof.
  unfold xml_Unmarshal. apply Decoder_Decode_plain. now apply xml_NewDecoder_plain.
Qed.

Section StructLoopPlain.
  Variable S : Type.
  Variable fieldName : string.
  Variable onField : Decoder -> S -> Name -> list Attr -> S * option error * Decoder.
  Hypothesis onField_le : forall d s n a,
    length (input (snd (onField d s n a))) <= length (input d).
  Hypothesis onField_plain : forall d s n a,
    plain (inputErr d) = true ->
    inputErr (snd (onField d s n a)) = inputErr d /\
    plainOpt (snd (fst (onField d s n a))) = true.

Lemma structLoop_plain (d : Decoder) (st : S) :
    plain (inputErr d) = true ->
    plainOpt (snd (fst (structLoop fieldName onField onField_le d st))) = true.
  Proof.
    revert st. induction d as [d IH] using decoder_ind. intros st Hp.
    rewrite structLoop_eq.
    destruct (Decoder_Token d) as [[tok|err] d'] eqn:Htok.
    - pose proof (Token_shrinks Htok) as Hlt.
      pose proof (Token_inputErr Htok) as He.
      assert (Hp' : plain (inputErr d') = true) by now rewrite He.
      destruct tok; simpl; auto.
      destruct (String.eqb fieldName (Local n)).
      + pose proof (onField_plain d' st n attrs Hp') as [H1 H2].
        pose proof (onField_le d' st n attrs) as Hle.
        destruct (onField d' st n attrs) as [[st' [err|]] d'']; simpl in *; auto.
        apply IH; [lia | now rewrite H1].
      + pose proof (Skip_loop_plain d' 0 Hp') as [H1 H2].
        pose proof (Skip_loop_le d' 0) as Hle.
        unfold Decoder_Skip.
        destruct (Skip_loop d' 0) as [[err|] d'']; simpl in *; auto.
        apply IH; [lia | now rewrite H1].
    - simpl. eapply Token_plain; eauto.
  Qed.
End StructLoopPlain.

Arguments structLoop_plain {S} fieldName onField onField_le onField_plain d st.

Lemma body_UnmarshalXML_plain {t : Ty} (b : Streaming.body t) (d : Decoder)
  (start : Name) (attrs : list Attr) :
  plain (inputErr d) = true ->
  inputErr (snd (Streaming.body_UnmarshalXML b d start attrs)) = inputErr d /\
  plainOpt (snd (fst (Streaming.body_UnmarshalXML b d start attrs))) = true.
Proof.
  induction d as [d IH] using decoder_ind. intros Hp.
  rewrite Streaming.body_UnmarshalXML_eq.
  destruct (Decoder_Token d) as [[tok|err] d'] eqn:Htok.
  - pose proof (Token_shrinks Htok) as Hlt.
    pose proof (Token_inputErr Htok) as He.
    assert (Hp' : plain (inputErr d') = true) by now rewrite He.
    destruct tok; try (rewrite <- He; apply IH; assumption).
    unfold Streaming.DecodeElement_Content.
    destruct (Streaming.Content b) as [v|]; [|simpl; auto].
    pose proof (DecodeElement_plain t d' v n attrs0 Hp') as [H1 H2].
    destruct (Decoder_DecodeElement t d' v n attrs0) as [[v' [err|]] d''];
      simpl in *; [split; congruence|].
    pose proof (Skip_loop_plain d'' 0) as Hs. unfold Decoder_Skip.
    destruct (Skip_loop d'' 0) as [e' d3]. simpl in *.
    rewrite H1 in Hs. destruct (Hs Hp') as [H3 H4]. split; congruence.
  - pose proof (Token_plain Hp Htok) as Hpe.
    pose proof (Token_inputErr Htok) as He.
    destruct err; simpl in *; auto.
Qed.

Lemma unmarshal_body_plain {t : Ty} (d : Decoder) (b : Streaming.body t) (n : Name)
  (attrs : list Attr) :
  plain (inputErr d) = true ->
  inputErr (snd (Streaming.unmarshal_body d b n attrs)) = inputErr d /\
  plainOpt (snd (fst (Streaming.unmarshal_body d b n attrs))) = true.
Proof.
  intros Hp. unfold Streaming.unmarshal_body, unmarshalInterface.
  pose proof (body_UnmarshalXML_plain b (pushEOF d) n attrs Hp) as [H1 H2].
  destruct (Streaming.body_UnmarshalXML b (pushEOF d) n attrs) as [[b' err] d'].
  simpl in *.
  assert (Hpop : inputErr (snd (popEOF d')) = inputErr d').
  { unfold popEOF. destruct (stk d') as [|[m|] r]; reflexivity. }
  destruct err as [err|]; simpl.
  - split; [congruence | assumption].
  - destruct (popEOF d') as [[|] d'']; simpl in *; split; solve [congruence | reflexivity].
Qed.

Lemma Decode_envelope_plain {t : Ty} (d : Decoder) (env : Streaming.envelope t) :
  plain (inputErr d) = true ->
  plainOpt (snd (fst (Streaming.Decode_envelope d env))) = true.
Proof.
  intros Hp. unfold Streaming.Decode_envelope.
  pose proof (findStart_plain d Hp) as [H1 H2].
  destruct (findStart d) as [[[n a]|err] d']; simpl in *; [|assumption].
  destruct (negb _); [reflexivity|]. destruct (negb _); [reflexivity|].
  pose proof (structLoop_plain "Body" (@Streaming.unmarshal_body t)
                (@Streaming.unmarshal_body_le t)
                (fun d s n a => unmarshal_body_plain d s n a)
                d' (Streaming.Body env)) as H.
  destruct (structLoop _ _ _ _ _) as [[b e] d'']. simpl in *.
  apply H. now rewrite H1.
Qed.

Section RawBodyPlain.
  Variable ns : Bindings.
  Variable unmarshal_Body :
    Decoder -> Name * list Token -> Name -> list Attr
    -> (Name * list Token) * option error * Decoder.
  Hypothesis unmarshal_Body_def : forall d b n attrs,
    unmarshal_Body d b n attrs
    = match readNodes d [] [] with
      | (inr err, d') => (b, Some err, d')
      | (inl children, d') =>
        ((translate (declare ns attrs) true n, flattenAll children), None, d')
      end.

Lemma unmarshal_Body_plain (d : Decoder) (b : Name * list Token) (n : Name)
    (a : list Attr) :
    plain (inputErr d) = true ->
    inputErr (snd (unmarshal_Body d b n a)) = inputErr d /\
    plainOpt (snd (fst (unmarshal_Body d b n a))) = true.
  Proof.
    intros Hp. rewrite unmarshal_Body_def.
    pose proof (readNodes_plain d [] [] Hp) as [H1 H2].
    destruct (readNodes d [] []) as [[children|err] d']; simpl in *; auto.
  Qed.
End RawBodyPlain.

Lemma InnerXml_Decode_plain (d : Decoder) (env : InnerXml.envelopeResponse) :
  plain (inputErr d) = true ->
  plainOpt (snd (fst (InnerXml.Decode_envelopeResponse d env))) = true.
Proof.
  intros Hp. unfold InnerXml.Decode_envelopeResponse.
  pose proof (findStart_plain d Hp) as [H1 H2].
  destruct (findStart d) as [[[n a]|err] d']; simpl in *; [|assumption].
  destruct (negb _); [reflexivity|].
  pose proof (structLoop_plain "Body" (InnerXml.unmarshal_Body (declare [] a))
                (InnerXml.unmarshal_Body_le (declare [] a))
                (unmarshal_Body_plain (declare [] a) (InnerXml.unmarshal_Body (declare [] a))
                                      (fun d b n a => eq_refl))
                d' (InnerXml.Body_XMLName env, InnerXml.Body_Content env)) as H.
  destruct (structLoop _ _ _ _ _) as [[b e] d'']. simpl in *.
  apply H. now rewrite H1.
Qed.

Lemma Legacy_Decode_plain (d : Decoder) (env : Legacy.envelopeResponse) :
  plain (inputErr d) = true ->
  plainOpt (snd (fst (Legacy.Decode_envelopeResponse d env))) = true.
Proof.
  intros Hp. unfold Legacy.Decode_envelopeResponse.
  pose proof (findStart_plain d Hp) as [H1 H2].
  destruct (findStart d) as [[[n a]|err] d']; simpl in *; [|assumption].
  destruct (negb _); [reflexivity|].
  pose proof (structLoop_plain "Body" (Legacy.unmarshal_Body (declare [] a))
                (Legacy.unmarshal_Body_bound (declare [] a))
                (unmarshal_Body_plain (declare [] a) (Legacy.unmarshal_Body (declare [] a))
                                      (fun d b n a => eq_refl))
                d' (Legacy.Body_XMLName env, Legacy.Body_Content env)) as H.
  destruct (structLoop _ _ _ _ _) as [[b e] d'']. simpl in *.
  apply H. now rewrite H1.
Qed.

(** The errors a body can produce when it is read are not faults: they
    come from the network and from the gzip reader. *)
Definition plainPayload (p : Payload) : bool :=
  match p with
  | Plain r => plain (readErr r)
  | Gzip h r => plainOpt h && plain (readErr r)
  end.

Lemma responseReader_plain (resp : Response) :
  plainPayload (RespBody resp) = true ->
  match responseReader resp with
  | inl e => plain e = true
  | inr r => plain (readErr r) = true
  end.
Proof.
  unfold responseReader, plainPayload.
  destruct (String.eqb _ _); destruct (RespBody resp) as [[ts e]|[h|] r]; simpl;
    rewrite ?andb_true_iff; try tauto; try reflexivity.
  destruct ts; [destruct e|]; reflexivity.
Qed.

(** On status 200 no transport returns a fault. *)
Lemma Streaming_receive_200_plain (trs : Ty) (rs : denote trs) (resp : Response) :
  StatusCode resp = http_StatusOK -> plainPayload (RespBody resp) = true ->
  plainOpt (snd (Streaming_receive trs rs resp)) = true.
Proof.
  intros Hst Hp. unfold Streaming_receive.
  pose proof (responseReader_plain resp Hp) as Hr.
  destruct (responseReader resp) as [err|reader]; [exact Hr|].
  rewrite Hst. simpl negb. cbv iota.
  match goal with |- context [Streaming.Decode_envelope ?d ?e] =>
    pose proof (Decode_envelope_plain d e (xml_NewDecoder_plain reader Hr)) as H;
    destruct (Streaming.Decode_envelope d e) as [[env' err] d'] end.
  exact H.
Qed.

Lemma InnerXml_receive_200_plain (trs : Ty) (rs : denote trs) (resp : Response) :
  StatusCode resp = http_StatusOK -> plainPayload (RespBody resp) = true ->
  plainOpt (snd (InnerXml_receive trs rs resp)) = true.
Proof.
  intros Hst Hp. unfold InnerXml_receive.
  pose proof (responseReader_plain resp Hp) as Hr.
  destruct (responseReader resp) as [err|reader]; [exact Hr|].
  match goal with |- context [InnerXml.Decode_envelopeResponse ?d ?e] =>
    pose proof (InnerXml_Decode_plain d e Hr) as H;
    destruct (InnerXml.Decode_envelopeResponse d e) as [[env' [err|]] d'] end;
    [exact H|].
  rewrite Hst. simpl negb. cbv iota. apply xml_Unmarshal_plain.
Qed.

Lemma Legacy_receive_200_plain (trs : Ty) (rs : denote trs) (resp : Response) :
  StatusCode resp = http_StatusOK -> plainPayload (RespBody resp) = true ->
  plainOpt (snd (Legacy_receive trs rs resp)) = true.
Proof.
  intros Hst Hp. unfold Legacy_receive.
  rewrite Hst. simpl negb. cbv iota.
  assert (Hr : plain (readErr (asReader (RespBody resp))) = true).
  { unfold plainPayload in Hp. destruct (RespBody resp); simpl; auto. }
  match goal with |- context [Legacy.Decode_envelopeResponse ?d ?e] =>
    pose proof (Legacy_Decode_plain d e Hr) as H;
    destruct (Legacy.Decode_envelopeResponse d e) as [[env' [err|]] d'] end;
    [exact H|].
  apply xml_Unmarshal_plain.
Qed.

(** The first transport reads the body as it is. *)
Definition yieldsTextRaw (resp : Response) (written : list Node) : Prop :=
  exists (ts : list Token) (e : error),
    asReader (RespBody resp) = mkReader (flattenAll written ++ ts) e.

Definition yieldsEnvelopeRaw (resp : Response) (pre : list Node) (envelope : Node)
  (post : list Node) : Prop :=
  exists written : list Node,
    yieldsTextRaw resp written /\ map (resolve []) written = app pre (envelope :: post).

(** The other two transports on a response whose text holds an
    envelope: [xml.Unmarshal] reads the text of the body on its own, so
    that the names in it are resolved without the bindings that the
    envelope and the body declare. *)
Lemma InnerXml_receive_ok (trs : Ty) (rs : denote trs) (resp : Response)
  (pre post : list Node) (en : Name) (eattrs : list Attr) (before : list Node)
  (bn : Name) (battrs : list Attr) (inner after : list Node) :
  StatusCode resp = http_StatusOK ->
  yieldsText resp (pre ++ envelopeText en eattrs before bn battrs inner after :: post) ->
  leaves pre -> Local en = "Envelope" -> Local bn = "Body" ->
  noBody before -> noBody after ->
  InnerXml_receive trs rs resp
  = match firstElem (map (resolve []) inner) with
    | None => (rs, Some EOF)
    | Some (n, a, ch, _) => unmarshal trs rs n a ch
    end.
Proof.
  intros Hst (ts & e & Hr) Hpre Hen Hbn Hb Ha.
  unfold InnerXml_receive. rewrite Hr, Hst.
  unfold xml_NewDecoder_saving. cbn [content readErr].
  pose proof (InnerXml_Decode_document InnerXml.zero_envelopeResponse
                (pre ++ envelopeText en eattrs before bn battrs inner after :: post) ts e
                (firstElem_leaves pre _ _ _ post Hpre) Hen) as Hd.
  destruct (InnerXml.Decode_envelopeResponse _ _) as [[env' err] d']. simpl in Hd.
  rewrite lastBody_single in Hd by assumption. simpl in Hd.
  inversion Hd; subst. simpl. apply xml_Unmarshal_nodes.
Qed.

Lemma Legacy_receive_ok (trs : Ty) (rs : denote trs) (resp : Response)
  (pre post : list Node) (en : Name) (eattrs : list Attr) (before : list Node)
  (bn : Name) (battrs : list Attr) (inner after : list Node) :
  StatusCode resp = http_StatusOK ->
  yieldsTextRaw resp (pre ++ envelopeText en eattrs before bn battrs inner after :: post) ->
  leaves pre -> Local en = "Envelope" -> Local bn = "Body" ->
  noBody before -> noBody after ->
  Legacy_receive trs rs resp
  = match firstElem (map (resolve []) inner) with
    | None => (rs, Some EOF)
    | Some (n, a, ch, _) => unmarshal trs rs n a ch
    end.
Proof.
  intros Hst (ts & e & Hr) Hpre Hen Hbn Hb Ha.
  unfold Legacy_receive. rewrite Hr, Hst.
  unfold xml_NewDecoder_saving. cbn [content readErr].
  pose proof (Legacy_Decode_document Legacy.zero_envelopeResponse
                (pre ++ envelopeText en eattrs before bn battrs inner after :: post) ts e
                (firstElem_leaves pre _ _ _ post Hpre) Hen) as Hd.
  simpl negb. cbv iota.
  destruct (Legacy.Decode_envelopeResponse _ _) as [[env' err] d']. simpl in Hd.
  rewrite lastBody_single in Hd by assumption. simpl in Hd.
  inversion Hd; subst. simpl. apply xml_Unmarshal_nodes.
Qed.

(** * The claims *)

(** C2.  A response with status 200 is never classified as a fault.
    Whatever the body holds, the error a call returns neither is nor
    wraps a [Fault]; and when the body of the envelope holds an
    element, whatever its name (be it [Fault]), that element is decoded
    into the destination of the caller.  This holds for the three
    transports of the repository.  The streaming transport decodes the
    element as the decoder of the response reads it.  The two
    transports that keep the body as raw XML accept an envelope of any
    name space and decode the element as [xml.Unmarshal] reads it from
    the text of the body alone: the prefixes and the default name
    space that the envelope or the body declares are not bound
    there. *)
Theorem status_200_is_never_a_fault (S : Stack) (w : World S) (resp : Response)
  (action : string) (targs : Ty) (args : denote targs) (trs : Ty) (rs : denote trs) :
  answers S w resp ->
  StatusCode resp = http_StatusOK ->
  plainPayload (RespBody resp) = true ->
  (forall c, Streaming_sendable S c targs args ->
     asFault (snd (fst (Streaming.call S c action targs args trs rs w))) = None
     /\ forall pre post eattrs before bn battrs inner after n a ch sibs,
          yieldsEnvelope resp pre (envelopeNode eattrs before bn battrs inner after) post ->
          leaves pre -> Local bn = "Body" -> noBody before -> noBody after ->
          firstElem inner = Some (n, a, ch, sibs) ->
          fst (Streaming.call S c action targs args trs rs w) = unmarshal trs rs n a ch)
  /\
  (forall c, InnerXml_sendable S c targs args ->
     asFault (snd (fst (InnerXml.call S c action targs args trs rs w))) = None
     /\ forall pre post en eattrs before bn battrs inner after n a ch sibs,
          yieldsText resp
            (pre ++ envelopeText en eattrs before bn battrs inner after :: post) ->
          leaves pre -> Local en = "Envelope" -> Local bn = "Body" ->
          noBody before -> noBody after ->
          firstElem (map (resolve []) inner) = Some (n, a, ch, sibs) ->
          fst (InnerXml.call S c action targs args trs rs w) = unmarshal trs rs n a ch)
  /\
  (forall c, Legacy_sendable S c targs args ->
     exists out,
       fst (Legacy.call S c action targs args trs rs w) = Returned out
       /\ asFault (snd out) = None
       /\ forall pre post en eattrs before bn battrs inner after n a ch sibs,
            yieldsTextRaw resp
              (pre ++ envelopeText en eattrs before bn battrs inner after :: post) ->
            leaves pre -> Local en = "Envelope" -> Local bn = "Body" ->
            noBody before -> noBody after ->
            firstElem (map (resolve []) inner) = Some (n, a, ch, sibs) ->
            out = unmarshal trs rs n a ch).
Proof.
  intros Hans Hst Hp.
  assert (Hplain : forall e, plainOpt e = true -> asFault e = None).
  { intros [e|]; [|reflexivity]. unfold plainOpt, plain. simpl.
    now destruct (errors_As_Fault e). }
  repeat split.
  - rewrite (Streaming_call_answered action trs rs H Hans).
    apply Hplain. now apply Streaming_receive_200_plain.
  - intros. rewrite (Streaming_call_answered action trs rs H Hans).
    erewrite Streaming_receive_ok by eassumption.
    now rewrite H5.
  - rewrite (InnerXml_call_answered action trs rs H Hans).
    apply Hplain. now apply InnerXml_receive_200_plain.
  - intros. rewrite (InnerXml_call_answered action trs rs H Hans).
    erewrite InnerXml_receive_ok by eassumption.
    now rewrite H6.
  - intros c Hs. exists (Legacy_receive trs rs resp). repeat split.
    + now apply Legacy_call_answered.
    + apply Hplain. now apply Legacy_receive_200_plain.
    + intros. erewrite Legacy_receive_ok by eassumption. now rewrite H5.
Qed.

(** C3.  First element wins.  The body extractor decodes the first
    element of the body into the destination and skips everything
    after it: the destination and the error are those of decoding
    that element alone, they are the same whatever siblings follow,
    and when the element decodes without error the decoder is left
    just after the end tag of the body. *)
Theorem first_element_wins {t : Ty} (b : Streaming.body t) (v : denote t)
  (pre : list Node) (n : Name) (a : list Attr) (ch sibs : list Node)
  (start : Name) (attrs : list Attr) (bn : Name) (ts : list Token) (e : error)
  (s : list stkItem) :
  Streaming.Content b = Some v ->
  leaves pre ->
  let run := fun siblings =>
    Streaming.body_UnmarshalXML b
      (mkDecoder (flattenAll (pre ++ Elem n a ch :: siblings) ++ EndElement bn :: ts) e
                 (stkStart bn :: stkEOF :: s)) start attrs in
  fst (run sibs)
  = (Streaming.set_Content b (Some (fst (unmarshal t v n a ch))),
     snd (unmarshal t v n a ch))
  /\ fst (run sibs) = fst (run [])
  /\ (snd (unmarshal t v n a ch) = None ->
      snd (run sibs) = mkDecoder ts e (stkEOF :: s)).
Proof.
  intros Hv Hpre run.
  assert (Hx : forall siblings,
             extract b (pre ++ Elem n a ch :: siblings)
             = (Streaming.set_Content b (Some (fst (unmarshal t v n a ch))),
                snd (unmarshal t v n a ch))).
  { intros siblings. unfold extract. rewrite firstElem_leaves, Hv by assumption.
    now destruct (unmarshal t v n a ch). }
  assert (Hrun : forall siblings,
             fst (run siblings)
             = (Streaming.set_Content b (Some (fst (unmarshal t v n a ch))),
                snd (unmarshal t v n a ch))).
  { intros siblings. rewrite <- (Hx siblings). unfold run.
    apply (body_UnmarshalXML_nodes (pre ++ Elem n a ch :: siblings)). }
  repeat split.
  - apply Hrun.
  - now rewrite !Hrun.
  - intros Hok. unfold run.
    apply (body_UnmarshalXML_nodes (pre ++ Elem n a ch :: sibs)).
    now rewrite (Hx sibs).
Qed.

(** C6.  An empty body is not an error.  On a body that holds no
    element the extractor returns no error and leaves the body value,
    and with it the destination, as it was; a call that receives
    status 200 and an envelope with such a body returns no error and
    the destination unchanged. *)
Theorem empty_body_leaves_destination (inner : list Node) :
  leaves inner ->
  (forall (t : Ty) (b : Streaming.body t) (start : Name) (attrs : list Attr) (bn : Name)
          (ts : list Token) (e : error) (s : list stkItem),
     Streaming.body_UnmarshalXML b
       (mkDecoder (flattenAll inner ++ EndElement bn :: ts) e (stkStart bn :: stkEOF :: s))
       start attrs
     = (b, None, mkDecoder ts e (stkEOF :: s)))
  /\
  (forall (S : Stack) (w : World S) (resp : Response) (c : Streaming.Client)
          (action : string) (targs : Ty) (args : denote targs) (trs : Ty) (rs : denote trs)
          (pre post : list Node) (eattrs : list Attr) (before : list Node) (bn : Name)
          (battrs : list Attr) (after : list Node),
     Streaming_sendable S c targs args ->
     answers S w resp ->
     StatusCode resp = http_StatusOK ->
     yieldsEnvelope resp pre (envelopeNode eattrs before bn battrs inner after) post ->
     leaves pre -> Local bn = "Body" -> noBody before -> noBody after ->
     fst (Streaming.call S c action targs args trs rs w) = (rs, None)).
Proof.
  intros Hin. split.
  - intros t b start attrs bn ts e s.
    pose proof (body_UnmarshalXML_nodes inner b start attrs bn ts e s) as [H1 H2].
    cbv zeta in H1, H2. unfold extract in H1, H2.
    rewrite firstElem_none in H1, H2 by assumption.
    destruct (Streaming.body_UnmarshalXML b _ start attrs) as [[b' err] d'].
    simpl in *. rewrite H2 by reflexivity. now inversion H1.
  - intros S w resp c action targs args trs rs pre post eattrs before bn battrs after
           Hs Hans Hst Hy Hpre Hbn Hb Ha.
    rewrite (Streaming_call_answered action trs rs Hs Hans).
    erewrite Streaming_receive_ok by eassumption.
    now rewrite firstElem_none.
Qed.

(** The Fault decoding of each transport: the error of reading and
    decoding the response, or the fault that its body holds. *)
Definition Streaming_decodeFault (resp : Response) : error + Fault :=
  match responseReader resp with
  | inl err => inl err
  | inr reader =>
    let fault := zero Fault_T in
    let respEnv :=
      Streaming.mkEnvelope zeroName (Streaming.mkBody Fault_T zeroName (Some fault)) in
    match Streaming.Decode_envelope (xml_NewDecoder reader) respEnv with
    | (_, Some err, _) => inl err
    | (respEnv', None, _) => inr (Fault_of (Streaming.pointee respEnv' fault))
    end
  end.

Definition InnerXml_decodeFault (resp : Response) : error + Fault :=
  match responseReader resp with
  | inl err => inl err
  | inr reader =>
    match InnerXml.Decode_envelopeResponse (xml_NewDecoder_saving reader)
                                           InnerXml.zero_envelopeResponse with
    | (_, Some err, _) => inl err
    | (envresp, None, _) =>
      match xml_Unmarshal Fault_T (InnerXml.Body_Content envresp) (zero Fault_T) with
      | (_, Some err) => inl err
      | (fault, None) => inr (Fault_of fault)
      end
    end
  end.

Lemma append_empty_r (s : string) : s ++ "" = s.
Proof.
  induction s as [|c s IH]; simpl; congruence.
Qed.

(** Decoding the element [<Fault><faultstring>msg</faultstring></Fault>]. *)
Definition faultNode (fn fsn : Name) (msg : string) : Node :=
  Elem fn [] [Elem fsn [] [Text msg]].

Lemma unmarshal_faultNode (ns1 ns2 msg : string) :
  unmarshal Fault_T (zero Fault_T) (mkName ns1 "Fault") []
            [Elem (mkName ns2 "faultstring") [] [Text msg]]
  = ((mkName ns1 "Fault", (msg, tt)), None).
Proof.
  cbn. now rewrite append_empty_r.
Qed.

(** The text behind such an element. *)
Lemma faultNode_text (ns : Bindings) (w : Node) (fn fsn : Name) (msg : string) :
  resolve ns w = faultNode fn fsn msg ->
  exists wfn wfsn,
    w = faultNode wfn wfsn msg /\ Local wfn = Local fn /\ Local wfsn = Local fsn.
Proof.
  unfold faultNode. intros H.
  apply resolve_Elem_inv in H as (wfn & wa & wch & -> & Hfn & Ha & Hch).
  destruct wa; [|discriminate]. cbn [declare] in *.
  destruct wch as [|c [|c' wch]]; try discriminate.
  cbn [map] in Hch. injection Hch as Hc.
  apply resolve_Elem_inv in Hc as (wfsn & wa & wt & -> & Hfsn & Ha' & Ht).
  destruct wa; [|discriminate]. cbn [declare] in *.
  destruct wt as [|t [|t' wt]]; try discriminate.
  cbn [map] in Ht. injection Ht as Ht. destruct t; try discriminate.
  cbn [resolve] in Ht. injection Ht as ->.
  exists wfn, wfsn. repeat split.
  - now rewrite <- Hfn, translate_Local.
  - now rewrite <- Hfsn, translate_Local.
Qed.

Lemma Streaming_decodeFault_document (resp : Response)
  (pre post : list Node) (eattrs : list Attr) (before : list Node) (bn : Name)
  (battrs : list Attr) (ns1 ns2 msg : string) (sibs after : list Node) :
  yieldsEnvelope resp pre
    (envelopeNode eattrs before bn battrs
       (faultNode (mkName ns1 "Fault") (mkName ns2 "faultstring") msg :: sibs) after) post ->
  leaves pre -> Local bn = "Body" -> noBody before -> noBody after ->
  Streaming_decodeFault resp = inr (mkFault (mkName ns1 "Fault") msg).
Proof.
  intros Hy Hpre Hbn Hb Ha.
  destruct (yieldsEnvelope_decoder _ _ _ _ Hy) as (r & ts & e & Hr & Hdec).
  unfold Streaming_decodeFault. rewrite Hr. cbv zeta. rewrite Hdec.
  match goal with |- context [Streaming.Decode_envelope ?d ?env] =>
    pose proof (Decode_envelope_document env
                  (pre ++ envelopeNode eattrs before bn battrs
                     (faultNode (mkName ns1 "Fault") (mkName ns2 "faultstring") msg :: sibs)
                     after :: post) ts e
                  (firstElem_leaves pre _ _ _ post Hpre)) as Hd;
    destruct (Streaming.Decode_envelope d env) as [[env' err] d'] end.
  simpl in Hd. unfold decodeRoot in Hd. simpl in Hd.
  rewrite decodeBodies_single in Hd by assumption.
  unfold extract, faultNode in Hd. cbn [firstElem Streaming.Content] in Hd.
  rewrite unmarshal_faultNode in Hd. inversion Hd; subst. reflexivity.
Qed.

(** The transport that keeps the body as raw XML reads the name of the
    fault from the text of the body alone. *)
Lemma InnerXml_decodeFault_text (resp : Response)
  (pre post : list Node) (en : Name) (eattrs : list Attr) (before : list Node)
  (bn : Name) (battrs : list Attr) (fn fsn : Name) (msg : string)
  (sibs after : list Node) :
  yieldsText resp
    (pre ++ envelopeText en eattrs before bn battrs (faultNode fn fsn msg :: sibs) after
         :: post) ->
  leaves pre -> Local en = "Envelope" -> Local bn = "Body" ->
  noBody before -> noBody after ->
  Local fn = "Fault" -> Local fsn = "faultstring" ->
  InnerXml_decodeFault resp = inr (mkFault (translate [] true fn) msg).
Proof.
  intros (ts & e & Hr) Hpre Hen Hbn Hb Ha Hfn Hfsn.
  unfold InnerXml_decodeFault. rewrite Hr.
  unfold xml_NewDecoder_saving. cbn [content readErr].
  match goal with |- context [InnerXml.Decode_envelopeResponse ?d ?env] =>
    pose proof (InnerXml_Decode_document env
                  (pre ++ envelopeText en eattrs before bn battrs
                     (faultNode fn fsn msg :: sibs) after :: post) ts e
                  (firstElem_leaves pre _ _ _ post Hpre) Hen) as Hd;
    destruct (InnerXml.Decode_envelopeResponse d env) as [[env' err] d'] end.
  cbn [fst] in Hd. rewrite lastBody_single in Hd by assumption. cbn [fst snd] in Hd.
  apply pair_equal_spec in Hd as [-> ->]. cbn [InnerXml.Body_Content].
  rewrite xml_Unmarshal_nodes. unfold faultNode. cbn [map resolve firstElem declare].
  pose proof (translate_Local [] true fn) as H1.
  pose proof (translate_Local [] true fsn) as H2.
  destruct (translate [] true fn) as [s1 l1], (translate [] true fsn) as [s2 l2].
  cbn [Local] in H1, H2. rewrite Hfn in H1. rewrite Hfsn in H2. subst l1 l2.
  rewrite unmarshal_faultNode. reflexivity.
Qed.

Lemma InnerXml_decodeFault_document (resp : Response)
  (pre post : list Node) (eattrs : list Attr) (before : list Node) (bn : Name)
  (battrs : list Attr) (ns1 ns2 msg : string) (sibs after : list Node) :
  yieldsEnvelope resp pre
    (envelopeNode eattrs before bn battrs
       (faultNode (mkName ns1 "Fault") (mkName ns2 "faultstring") msg :: sibs) after) post ->
  leaves pre -> Local bn = "Body" -> noBody before -> noBody after ->
  exists fn, Local fn = "Fault" /\ InnerXml_decodeFault resp = inr (mkFault fn msg).
Proof.
  intros (written & Hy & Hw) Hpre Hbn Hb Ha.
  destruct (envelopeNode_text _ _ _ _ _ _ _ _ _ Hw Hpre Hbn Hb Ha)
    as (wpre & wpost & en & ea & wbefore & wbn & wba & winner & wafter
        & -> & H1 & H2 & H3 & H4 & H5 & H6 & _).
  destruct winner as [|wf wsibs]; [discriminate|].
  cbn [map] in H6. injection H6 as Hf _.
  apply faultNode_text in Hf as (wfn & wfsn & -> & Hfn & Hfsn).
  exists (translate [] true wfn). split.
  - now rewrite translate_Local.
  - now apply (InnerXml_decodeFault_text resp wpre wpost en ea wbefore wbn wba wfn wfsn
                 msg wsibs wafter).
Qed.

(** What the two later transports make of a response whose status is
    not 200. *)
Lemma Streaming_receive_other_status (resp : Response) (trs : Ty) (rs : denote trs) :
  (StatusCode resp =? http_StatusOK)%Z = false ->
  Streaming_receive trs rs resp
  = (rs, Some match Streaming_decodeFault resp with
              | inl err => err
              | inr fault => Wrapped "fault: " (FaultError fault)
              end).
Proof.
  intros Hst. unfold Streaming_receive, Streaming_decodeFault.
  destruct (responseReader resp) as [err|reader]; [reflexivity|].
  rewrite Hst. simpl negb. cbv iota zeta.
  destruct (Streaming.Decode_envelope _ _) as [[env' [err|]] d']; reflexivity.
Qed.

Lemma InnerXml_receive_other_status (resp : Response) (trs : Ty) (rs : denote trs) :
  (StatusCode resp =? http_StatusOK)%Z = false ->
  InnerXml_receive trs rs resp
  = (rs, Some match InnerXml_decodeFault resp with
              | inl err => err
              | inr fault => FaultError fault
              end).
Proof.
  intros Hst. unfold InnerXml_receive, InnerXml_decodeFault.
  destruct (responseReader resp) as [err|reader]; [reflexivity|].
  destruct (InnerXml.Decode_envelopeResponse _ _) as [[env' [err|]] d']; [reflexivity|].
  rewrite Hst. simpl negb. cbv iota.
  destruct (xml_Unmarshal Fault_T _ _) as [f [err|]]; reflexivity.
Qed.

(** C1, as the code has it.  When the status of the response is not
    200 every transport returns an error and leaves the destination
    alone.  The two transports that declare a [Fault] type route the
    body through Fault decoding: the error is the fault that the body
    holds (wrapped with the prefix [fault: ] by the streaming
    transport), or else the error of reading and decoding the body.
    The first transport does not look at the body: its error is the
    status line of the response. *)
Theorem other_status_is_an_error (S : Stack) (w : World S) (resp : Response)
  (action : string) (targs : Ty) (args : denote targs) (trs : Ty) (rs : denote trs) :
  answers S w resp ->
  (StatusCode resp =? http_StatusOK)%Z = false ->
  (forall c, Streaming_sendable S c targs args ->
     fst (Streaming.call S c action targs args trs rs w)
     = (rs, Some match Streaming_decodeFault resp with
                 | inl err => err
                 | inr fault => Wrapped "fault: " (FaultError fault)
                 end))
  /\
  (forall c, InnerXml_sendable S c targs args ->
     fst (InnerXml.call S c action targs args trs rs w)
     = (rs, Some match InnerXml_decodeFault resp with
                 | inl err => err
                 | inr fault => FaultError fault
                 end))
  /\
  (forall c, Legacy_sendable S c targs args ->
     fst (Legacy.call S c action targs args trs rs w)
     = Returned (rs, Some (StatusError (Status resp)))).
Proof.
  intros Hans Hst. repeat split.
  - intros c Hs. rewrite (Streaming_call_answered action trs rs Hs Hans).
    now apply Streaming_receive_other_status.
  - intros c Hs. rewrite (InnerXml_call_answered action trs rs Hs Hans).
    now apply InnerXml_receive_other_status.
  - intros c Hs. rewrite (Legacy_call_answered action trs rs Hs Hans).
    unfold Legacy_receive. now rewrite Hst.
Qed.

(** ** A service with one answer *)

(** A service that answers every request with [resp]; every URL parses. *)
Definition fixedService (resp : Response) : Stack :=
  mkStack unit (fun _ _ => (inr resp, tt)) (fun n => n) (fun _ => None).

Definition startWorld (resp : Response) : World (fixedService resp) :=
  mkWorld (fixedService resp) tt [].

Lemma fixedService_answers (resp : Response) :
  answers (fixedService resp) (startWorld resp) resp.
Proof.
  intros req. reflexivity.
Qed.

(** The text of an envelope in the SOAP name space whose body holds
    [inner]: it declares the prefix [SOAP-ENV] for that name space. *)
Definition soapPrefix : Attr := mkAttr (mkName "xmlns" "SOAP-ENV") soapNS.

Definition soapEnvelope (inner : list Node) : Node :=
  envelopeText (mkName "SOAP-ENV" "Envelope") [soapPrefix] []
               (mkName "SOAP-ENV" "Body") [] inner [].

(** The bindings inside the body of such an envelope. *)
Definition soapBindings : Bindings := [("SOAP-ENV", soapNS)].

(** A response sent as the text [doc]. *)
Definition plainResponse (code : Z) (status : string) (doc : list Node) : Response :=
  mkResponse code status [] (Plain (mkReader (flattenAll doc) EOF)).

Lemma plainResponse_text (code : Z) (status : string) (doc : list Node) :
  yieldsText (plainResponse code status doc) doc.
Proof.
  exists [], EOF. rewrite app_nil_r. reflexivity.
Qed.

Lemma plainResponse_textRaw (code : Z) (status : string) (doc : list Node) :
  yieldsTextRaw (plainResponse code status doc) doc.
Proof.
  exists [], EOF. rewrite app_nil_r. reflexivity.
Qed.

Lemma plainResponse_yields (code : Z) (status : string) (envelope : Node) :
  yieldsEnvelope (plainResponse code status [envelope]) [] (resolve [] envelope) [].
Proof.
  exists [envelope]. split; [apply plainResponse_text | reflexivity].
Qed.

(** The fault of the sign-on scenario. *)
Definition invalidCredentials : Node :=
  faultNode (mkName "" "Fault") (mkName "" "faultstring") "Invalid credentials".

Lemma Streaming_LogOn_eq (S : Stack) (c : Streaming.Client) (username password : string)
  (w : World S) :
  fst (Streaming.LogOn S c username password w)
  = match fst (Streaming.call S c "logOn" Streaming.logOn_T
                 (zeroName, (username, (password, tt)))
                 Streaming.logOnResponse_T (zero Streaming.logOnResponse_T) w) with
    | (_, Some e) => (false, Some (Wrapped "logOn operation: " e))
    | (resp, None) => (fst (snd resp), None)
    end.
Proof.
  unfold Streaming.LogOn, bind.
  destruct (Streaming.call _ _ _ _ _ _ _ w) as [[resp [e|]] w']; reflexivity.
Qed.

Lemma InnerXml_LogOn_eq (S : Stack) (c : InnerXml.Client) (username password : string)
  (w : World S) :
  fst (InnerXml.LogOn S c username password w)
  = match fst (InnerXml.call S c "logOn" InnerXml.logOn_T
                 (zeroName, (username, (password, tt)))
                 InnerXml.logOnResponse_T (zero InnerXml.logOnResponse_T) w) with
    | (_, Some e) => (false, Some e)
    | (resp, None) => (fst (snd resp), None)
    end.
Proof.
  unfold InnerXml.LogOn, bind.
  destruct (InnerXml.call _ _ _ _ _ _ _ w) as [[resp [e|]] w']; reflexivity.
Qed.

(** C5, as the code has it.  Sign-on against a service that answers
    with status 500 and an envelope whose body holds the single element
    [<Fault><faultstring>Invalid credentials</faultstring></Fault>]
    yields [false] and an error that carries a [Fault] whose message is
    [Invalid credentials].  With the transport that keeps the body as
    raw XML the error is that fault and its message is exactly
    [Invalid credentials]; with the streaming transport the fault is
    wrapped and the message of the error is
    [logOn operation: fault: Invalid credentials]. *)
Theorem sign_on_invalid_credentials (S : Stack) (w : World S) (resp : Response)
  (username password : string)
  (pre post : list Node) (eattrs : list Attr) (before : list Node) (bn : Name)
  (battrs : list Attr) (ns1 ns2 : string) (after : list Node) :
  answers S w resp ->
  StatusCode resp = 500%Z ->
  yieldsEnvelope resp pre
    (envelopeNode eattrs before bn battrs
       [faultNode (mkName ns1 "Fault") (mkName ns2 "faultstring") "Invalid credentials"]
       after) post ->
  leaves pre -> Local bn = "Body" -> noBody before -> noBody after ->
  (forall c : InnerXml.Client,
     url_Parse S (InnerXml.url c) = None ->
     exists e,
       fst (InnerXml.LogOn S c username password w) = (false, Some e)
       /\ Error e = "Invalid credentials"
       /\ option_map Fault_Error (errors_As_Fault e) = Some "Invalid credentials")
  /\
  (forall c : Streaming.Client,
     notNil (Streaming.ctx c) = true ->
     url_Parse S (Streaming.url c) = None ->
     exists e,
       fst (Streaming.LogOn S c username password w) = (false, Some e)
       /\ Error e = "logOn operation: fault: Invalid credentials"
       /\ option_map Fault_Error (errors_As_Fault e) = Some "Invalid credentials").
Proof.
  intros Hans Hst Hy Hpre Hbn Hb Ha.
  assert (Hne : (StatusCode resp =? http_StatusOK)%Z = false) by now rewrite Hst.
  split.
  - intros c Hurl.
    assert (Hs : InnerXml_sendable S c InnerXml.logOn_T
                   (zeroName, (username, (password, tt)))).
    { split; [assumption|]. eexists. reflexivity. }
    rewrite InnerXml_LogOn_eq.
    rewrite (InnerXml_call_answered "logOn" InnerXml.logOnResponse_T
               (zero InnerXml.logOnResponse_T) Hs Hans).
    rewrite (InnerXml_receive_other_status resp _ _ Hne).
    destruct (InnerXml_decodeFault_document resp _ _ _ _ _ _ _ _ _ _ _ Hy Hpre Hbn Hb Ha)
      as (fn & _ & ->).
    eexists. repeat split.
  - intros c Hctx Hurl.
    assert (Hs : Streaming_sendable S c Streaming.logOn_T
                   (zeroName, (username, (password, tt)))).
    { split; [assumption|]. split; [assumption|]. eexists. reflexivity. }
    rewrite Streaming_LogOn_eq.
    rewrite (Streaming_call_answered "logOn" Streaming.logOnResponse_T
               (zero Streaming.logOnResponse_T) Hs Hans).
    rewrite (Streaming_receive_other_status resp _ _ Hne).
    erewrite Streaming_decodeFault_document by eassumption.
    eexists. repeat split.
Qed.

(** ** Requests and events *)

(** The headers of a request for [action], with and without the
    announcement that gzip is accepted.  [Header.Add] stores the action
    header under its canonical key. *)
Definition fixedHeaders (action : string) : Header :=
  [("Content-Type", ["text/xml; charset=utf-8"]);
   ("Accept", ["text/xml"]);
   ("Accept-Encoding", ["gzip"]);
   ("Soapaction", ["/" ++ action])].

Definition firstHeaders (action : string) : Header :=
  [("Content-Type", ["text/xml; charset=utf-8"]);
   ("Accept", ["text/xml"]);
   ("Soapaction", ["/" ++ action])].

(** The events of a call are no event, or one request: a POST to [url]
    with the headers [hdr]. *)
Definition oneRequest (url : string) (hdr : Header) (sent : list Event) : Prop :=
  sent = [] \/
  exists req, sent = [EvDo req]
              /\ Method req = "POST" /\ URL req = url /\ ReqHeader req = hdr.

Ltac split_matches :=
  repeat match goal with
         | |- context [match ?x with _ => _ end] => destruct x
         | |- context [if ?x then _ else _] => destruct x
         end.

Lemma Streaming_call_trace (S : Stack) (c : Streaming.Client) (action : string)
  (targs : Ty) (args : denote targs) (trs : Ty) (rs : denote trs) (w : World S) :
  exists sent,
    trace (snd (Streaming.call S c action targs args trs rs w)) = app (trace w) sent
    /\ oneRequest (Streaming.url c) (fixedHeaders action) sent
    /\ (Streaming_sendable S c targs args -> sent <> []).
Proof.
  unfold Streaming.call, Streaming_sendable.
  destruct (Streaming.Encode_envelope _) as [err|doc] eqn:Henc.
  { exists []. simpl. rewrite app_nil_r. repeat split; [now left|].
    intros (_ & _ & nodes & Hm). unfold Streaming.Encode_envelope in Henc.
    simpl in Henc. rewrite Hm in Henc. discriminate. }
  unfold http_NewRequestWithContext.
  destruct (Streaming.ctx c) as [cx|].
  2:{ exists []. simpl. rewrite app_nil_r. repeat split; [now left|].
      intros (H & _). discriminate. }
  destruct (url_Parse S (Streaming.url c)) as [err|] eqn:Hurl.
  { exists []. simpl. rewrite app_nil_r. repeat split; [now left|].
    intros (_ & H & _). discriminate. }
  eexists [EvDo _]. unfold bind, httpClient_Do.
  destruct (RoundTrip S (net w) _) as [[err|resp] n']; simpl.
  - repeat split; [|discriminate]. right. eexists. repeat split.
  - split_matches; simpl;
      (repeat split; [|discriminate]; right; eexists; repeat split).
Qed.

Lemma InnerXml_call_trace (S : Stack) (c : InnerXml.Client) (method : string)
  (targs : Ty) (args : denote targs) (trs : Ty) (rs : denote trs) (w : World S) :
  exists sent,
    trace (snd (InnerXml.call S c method targs args trs rs w)) = app (trace w) sent
    /\ oneRequest (InnerXml.url c) (fixedHeaders method) sent
    /\ (InnerXml_sendable S c targs args -> sent <> []).
Proof.
  unfold InnerXml.call, InnerXml_sendable.
  destruct (InnerXml.Encode_envelope _) as [err|doc] eqn:Henc.
  { exists []. simpl. rewrite app_nil_r. repeat split; [now left|].
    intros (_ & nodes & Hm). unfold InnerXml.Encode_envelope in Henc.
    simpl in Henc. rewrite Hm in Henc. discriminate. }
  unfold http_NewRequest, http_NewRequestWithContext.
  destruct (url_Parse S (InnerXml.url c)) as [err|] eqn:Hurl.
  { exists []. simpl. rewrite app_nil_r. repeat split; [now left|].
    intros (H & _). discriminate. }
  eexists [EvDo _]. unfold bind, httpClient_Do.
  destruct (RoundTrip S (net w) _) as [[err|resp] n']; simpl.
  - repeat split; [|discriminate]. right. eexists. repeat split.
  - split_matches; simpl;
      (repeat split; [|discriminate]; right; eexists; repeat split).
Qed.

Lemma Legacy_call_trace (S : Stack) (c : Legacy.Client) (method : string)
  (targs : Ty) (args : denote targs) (trs : Ty) (rs : denote trs) (w : World S) :
  exists sent,
    trace (snd (Legacy.call S c method targs args trs rs w)) = app (trace w) sent
    /\ oneRequest (Legacy.url c) (firstHeaders method) sent
    /\ (Legacy_sendable S c targs args -> sent <> []).
Proof.
  unfold Legacy.call, Legacy_sendable.
  destruct (Legacy.Marshal_envelope _) as [err|doc] eqn:Henc.
  { exists []. simpl. rewrite app_nil_r. repeat split; [now left|].
    intros (_ & nodes & Hm). unfold Legacy.Marshal_envelope in Henc.
    simpl in Henc. rewrite Hm in Henc. discriminate. }
  unfold http_NewRequest, http_NewRequestWithContext.
  destruct (url_Parse S (Legacy.url c)) as [err|] eqn:Hurl.
  { exists []. simpl. rewrite app_nil_r. repeat split; [now left|].
    intros (H & _). discriminate. }
  eexists [EvDo _]. unfold bind, httpClient_Do.
  destruct (RoundTrip S (net w) _) as [[err|resp] n']; simpl.
  - repeat split; [|discriminate]. right. eexists. repeat split.
  - split_matches; simpl;
      (repeat split; [|discriminate]; right; eexists; repeat split).
Qed.

(** C8, as the code has it.  A call issues at most one request, and
    exactly one when the request can be built: a POST to the URL of
    the client whose headers are exactly [Content-Type: text/xml;
    charset=utf-8], [Accept: text/xml], [Accept-Encoding: gzip] and the
    action header with the value [/] followed by the operation name.
    The first transport sends the same request without the
    [Accept-Encoding] header. *)
Theorem one_post_with_fixed_headers (S : Stack) (action : string)
  (targs : Ty) (args : denote targs) (trs : Ty) (rs : denote trs) (w : World S) :
  (forall c, exists sent,
     trace (snd (Streaming.call S c action targs args trs rs w)) = app (trace w) sent
     /\ oneRequest (Streaming.url c) (fixedHeaders action) sent
     /\ (Streaming_sendable S c targs args -> sent <> []))
  /\
  (forall c, exists sent,
     trace (snd (InnerXml.call S c action targs args trs rs w)) = app (trace w) sent
     /\ oneRequest (InnerXml.url c) (fixedHeaders action) sent
     /\ (InnerXml_sendable S c targs args -> sent <> []))
  /\
  (forall c, exists sent,
     trace (snd (Legacy.call S c action targs args trs rs w)) = app (trace w) sent
     /\ oneRequest (Legacy.url c) (firstHeaders action) sent
     /\ (Legacy_sendable S c targs args -> sent <> []))
  /\
  Header_Get (fixedHeaders action) "SOAPAction" = "/" ++ action
  /\ Header_Get (fixedHeaders action) "Accept-Encoding" = "gzip"
  /\ Header_Get (firstHeaders action) "Accept-Encoding" = "".
Proof.
  repeat split.
  - intros c. apply Streaming_call_trace.
  - intros c. apply InnerXml_call_trace.
  - intros c. apply Legacy_call_trace.
Qed.

Definition isRelease (e : Event) : bool :=
  match e with
  | EvCloseIdleConnections => true
  | EvDo _ => false
  end.

(** A computation that adds events to the trace, none of which
    releases the idle connections. *)
Definition neverReleases {S : Stack} {A : Type} (m : M S A) : Prop :=
  forall w, exists sent,
    trace (snd (m w)) = app (trace w) sent /\ existsb isRelease sent = false.

(** A computation that releases the idle connections as its last step
    when it returns no error, and not at all when it returns one. *)
Definition releasesOnSuccess {S : Stack} {A : Type} (m : M S (A * option error)) : Prop :=
  forall w, exists sent,
    existsb isRelease sent = false /\
    trace (snd (m w))
    = app (trace w) match snd (fst (m w)) with
                    | None => app sent [EvCloseIdleConnections]
                    | Some _ => sent
                    end.

Lemma oneRequest_no_release (url : string) (hdr : Header) (sent : list Event) :
  oneRequest url hdr sent -> existsb isRelease sent = false.
Proof.
  intros [->|(req & -> & _)]; reflexivity.
Qed.

Lemma Streaming_call_events (S : Stack) (c : Streaming.Client) (action : string)
  (targs : Ty) (args : denote targs) (trs : Ty) (rs : denote trs) :
  neverReleases (Streaming.call S c action targs args trs rs).
Proof.
  intros w.
  destruct (Streaming_call_trace S c action targs args trs rs w) as (sent & Ht & H & _).
  exists sent. split; [assumption | eapply oneRequest_no_release; eauto].
Qed.

Lemma InnerXml_call_events (S : Stack) (c : InnerXml.Client) (action : string)
  (targs : Ty) (args : denote targs) (trs : Ty) (rs : denote trs) :
  neverReleases (InnerXml.call S c action targs args trs rs).
Proof.
  intros w.
  destruct (InnerXml_call_trace S c action targs args trs rs w) as (sent & Ht & H & _).
  exists sent. split; [assumption | eapply oneRequest_no_release; eauto].
Qed.

Lemma Legacy_call_events (S : Stack) (c : Legacy.Client) (action : string)
  (targs : Ty) (args : denote targs) (trs : Ty) (rs : denote trs) :
  neverReleases (Legacy.call S c action targs args trs rs).
Proof.
  intros w.
  destruct (Legacy_call_trace S c action targs args trs rs w) as (sent & Ht & H & _).
  exists sent. split; [assumption | eapply oneRequest_no_release; eauto].
Qed.

Lemma ret_events {S : Stack} {A : Type} (a : A) : neverReleases (@ret S A a).
Proof.
  intros w. exists []. simpl. now rewrite app_nil_r.
Qed.

Lemma bind_events {S : Stack} {A B : Type} (m : M S A) (k : A -> M S B) :
  neverReleases m -> (forall a, neverReleases (k a)) -> neverReleases (bind m k).
Proof.
  intros Hm Hk w. unfold bind.
  destruct (Hm w) as (s1 & H1 & Hq1). destruct (m w) as [a w1]. simpl in H1.
  destruct (Hk a w1) as (s2 & H2 & Hq2).
  exists (app s1 s2). rewrite H2, H1, app_assoc. split; [reflexivity|].
  now rewrite existsb_app, Hq1, Hq2.
Qed.

(** An operation that only calls adds the events of its call. *)
Ltac facade_events call_events :=
  apply bind_events; [apply call_events|];
  intros a;
  repeat match goal with
         | |- context [match ?x with _ => _ end] => destruct x
         end;
  apply ret_events.

(** C9, as the code has it.  In the two later transports the sign-off
    operation releases the idle connections of the client as its last
    step when its call returns no error, and releases nothing when the
    call fails; no other operation releases them.  In the first
    transport no operation releases them, sign-off included. *)
Theorem sign_off_releases_idle_connections (S : Stack) :
  (forall c, releasesOnSuccess (Streaming.LogOff S c))
  /\ (forall c, releasesOnSuccess (InnerXml.LogOff S c))
  /\
  (forall (c : Streaming.Client) (username : string) (password : string), neverReleases (Streaming.LogOn S c username password))
  /\
  (forall (c : Streaming.Client), neverReleases (Streaming.GetServiceAttributes S c))
  /\
  (forall (c : Streaming.Client) (readingSystemAttributes : option (denote ReadingSystemAttributes_T)), neverReleases (Streaming.SetReadingSystemAttributes S c readingSystemAttributes))
  /\
  (forall (c : Streaming.Client) (id : string) (firstItem : Z) (lastItem : Z), neverReleases (Streaming.GetContentList S c id firstItem lastItem))
  /\
  (forall (c : Streaming.Client) (contentID : string), neverReleases (Streaming.GetContentMetadata S c contentID))
  /\
  (forall (c : Streaming.Client) (contentID : string), neverReleases (Streaming.GetContentResources S c contentID))
  /\
  (forall (c : Streaming.Client) (contentID : string), neverReleases (Streaming.IssueContent S c contentID))
  /\
  (forall (c : Streaming.Client) (contentID : string), neverReleases (Streaming.ReturnContent S c contentID))
  /\
  (forall (c : Streaming.Client) (userResponses : option (denote UserResponses_T)), neverReleases (Streaming.GetQuestions S c userResponses))
  /\
  (forall (c : Streaming.Client), neverReleases (Streaming.GetServiceAnnouncements S c))
  /\
  (forall (c : Streaming.Client) (contentID : string) (bookmarkSet : option (denote BookmarkSet_T)), neverReleases (Streaming.SetBookmarks S c contentID bookmarkSet))
  /\
  (forall (c : Streaming.Client) (contentID : string), neverReleases (Streaming.GetBookmarks S c contentID))
  /\
  (forall (Read_T : Ty) (c : Streaming.Client) (read : option (denote Read_T)), neverReleases (Streaming.MarkAnnouncementsAsRead S Read_T c read))
  /\
  (forall (c : InnerXml.Client) (username : string) (password : string), neverReleases (InnerXml.LogOn S c username password))
  /\
  (forall (c : InnerXml.Client), neverReleases (InnerXml.GetServiceAttributes S c))
  /\
  (forall (c : InnerXml.Client) (readingSystemAttributes : option (denote ReadingSystemAttributes_T)), neverReleases (InnerXml.SetReadingSystemAttributes S c readingSystemAttributes))
  /\
  (forall (c : InnerXml.Client) (id : string) (firstItem : Z) (lastItem : Z), neverReleases (InnerXml.GetContentList S c id firstItem lastItem))
  /\
  (forall (c : InnerXml.Client) (contentID : string), neverReleases (InnerXml.GetContentMetadata S c contentID))
  /\
  (forall (c : InnerXml.Client) (contentID : string), neverReleases (InnerXml.GetContentResources S c contentID))
  /\
  (forall (c : InnerXml.Client) (contentID : string), neverReleases (InnerXml.IssueContent S c contentID))
  /\
  (forall (c : InnerXml.Client) (contentID : string), neverReleases (InnerXml.ReturnContent S c contentID))
  /\
  (forall (c : InnerXml.Client) (userResponses : option (denote UserResponses_T)), neverReleases (InnerXml.GetQuestions S c userResponses))
  /\
  (forall (c : InnerXml.Client), neverReleases (InnerXml.GetServiceAnnouncements S c))
  /\
  (forall (c : Legacy.Client) (username : string) (password : string), neverReleases (Legacy.LogOn S c username password))
  /\
  (forall (c : Legacy.Client), neverReleases (Legacy.LogOff S c))
  /\
  (forall (c : Legacy.Client), neverReleases (Legacy.GetServiceAttributes S c))
  /\
  (forall (c : Legacy.Client) (readingSystemAttributes : option (denote ReadingSystemAttributes_T)), neverReleases (Legacy.SetReadingSystemAttributes S c readingSystemAttributes))
  /\
  (forall (c : Legacy.Client) (id : string) (firstItem : Z) (lastItem : Z), neverReleases (Legacy.GetContentList S c id firstItem lastItem))
  /\
  (forall (c : Legacy.Client) (contentID : string), neverReleases (Legacy.GetContentMetadata S c contentID))
  /\
  (forall (c : Legacy.Client) (contentID : string), neverReleases (Legacy.GetContentResources S c contentID))
  /\
  (forall (c : Legacy.Client) (contentID : string), neverReleases (Legacy.IssueContent S c contentID))
  /\
  (forall (c : Legacy.Client) (contentID : string), neverReleases (Legacy.ReturnContent S c contentID))
  /\
  (forall (c : Legacy.Client) (userResponses : option (denote UserResponses_T)), neverReleases (Legacy.GetQuestions S c userResponses))
  /\
  (forall (c : Legacy.Client), neverReleases (Legacy.GetServiceAnnouncements S c))
  /\
  (forall (c : Legacy.Client) (readingSystemAttributes : option (denote ReadingSystemAttributes_T)) (username password : string), neverReleases (Legacy.Authentication S c readingSystemAttributes username password)).
Proof.
  split; [|split].
  - intros c w. unfold Streaming.LogOff, bind.
    destruct (Streaming_call_events S c "logOff" Streaming.logOff_T (zeroName, tt)
                Streaming.logOffResponse_T (zero Streaming.logOffResponse_T) w)
      as (sent & Ht & Hq).
    exists sent. split; [assumption|].
    destruct (Streaming.call _ _ _ _ _ _ _ w) as [[resp [e|]] w']; simpl in *.
    + assumption.
    + now rewrite Ht, app_assoc.
  - intros c w. unfold InnerXml.LogOff, bind.
    destruct (InnerXml_call_events S c "logOff" InnerXml.logOff_T (zeroName, tt)
                InnerXml.logOffResponse_T (zero InnerXml.logOffResponse_T) w)
      as (sent & Ht & Hq).
    exists sent. split; [assumption|].
    destruct (InnerXml.call _ _ _ _ _ _ _ w) as [[resp [e|]] w']; simpl in *.
    + assumption.
    + now rewrite Ht, app_assoc.
  - repeat split; intros.
    + unfold Streaming.LogOn. facade_events Streaming_call_events.
    + unfold Streaming.GetServiceAttributes. facade_events Streaming_call_events.
    + unfold Streaming.SetReadingSystemAttributes. facade_events Streaming_call_events.
    + unfold Streaming.GetContentList. facade_events Streaming_call_events.
    + unfold Streaming.GetContentMetadata. facade_events Streaming_call_events.
    + unfold Streaming.GetContentResources. facade_events Streaming_call_events.
    + unfold Streaming.IssueContent. facade_events Streaming_call_events.
    + unfold Streaming.ReturnContent. facade_events Streaming_call_events.
    + unfold Streaming.GetQuestions. facade_events Streaming_call_events.
    + unfold Streaming.GetServiceAnnouncements. facade_events Streaming_call_events.
    + unfold Streaming.SetBookmarks. facade_events Streaming_call_events.
    + unfold Streaming.GetBookmarks. facade_events Streaming_call_events.
    + unfold Streaming.MarkAnnouncementsAsRead. facade_events Streaming_call_events.
    + unfold InnerXml.LogOn. facade_events InnerXml_call_events.
    + unfold InnerXml.GetServiceAttributes. facade_events InnerXml_call_events.
    + unfold InnerXml.SetReadingSystemAttributes. facade_events InnerXml_call_events.
    + unfold InnerXml.GetContentList. facade_events InnerXml_call_events.
    + unfold InnerXml.GetContentMetadata. facade_events InnerXml_call_events.
    + unfold InnerXml.GetContentResources. facade_events InnerXml_call_events.
    + unfold InnerXml.IssueContent. facade_events InnerXml_call_events.
    + unfold InnerXml.ReturnContent. facade_events InnerXml_call_events.
    + unfold InnerXml.GetQuestions. facade_events InnerXml_call_events.
    + unfold InnerXml.GetServiceAnnouncements. facade_events InnerXml_call_events.
    + unfold Legacy.LogOn. facade_events Legacy_call_events.
    + unfold Legacy.LogOff. facade_events Legacy_call_events.
    + unfold Legacy.GetServiceAttributes. facade_events Legacy_call_events.
    + unfold Legacy.SetReadingSystemAttributes. facade_events Legacy_call_events.
    + unfold Legacy.GetContentList. facade_events Legacy_call_events.
    + unfold Legacy.GetContentMetadata. facade_events Legacy_call_events.
    + unfold Legacy.GetContentResources. facade_events Legacy_call_events.
    + unfold Legacy.IssueContent. facade_events Legacy_call_events.
    + unfold Legacy.ReturnContent. facade_events Legacy_call_events.
    + unfold Legacy.GetQuestions. facade_events Legacy_call_events.
    + unfold Legacy.GetServiceAnnouncements. facade_events Legacy_call_events.
    + unfold Legacy.Authentication.
      apply bind_events; [unfold Legacy.LogOn; facade_events Legacy_call_events|].
      intros [[r [e|]]|v]; try apply ret_events.
      apply bind_events;
        [unfold Legacy.GetServiceAttributes; facade_events Legacy_call_events|].
      intros [[r' [e|]]|v]; try apply ret_events.
      apply bind_events;
        [unfold Legacy.SetReadingSystemAttributes; facade_events Legacy_call_events|].
      intros [[r'' [e|]]|v]; apply ret_events.
Qed.

(** ** Results that accompany an error *)

(** An operation whose result is [z] whenever it returns an error. *)
Definition zeroOnError {S : Stack} {A : Type} (z : A) (m : M S (A * option error)) : Prop :=
  forall w, snd (fst (m w)) <> None -> fst (fst (m w)) = z.

(** The same for the operations of the first transport, which return
    or panic. *)
Definition zeroOnErrorReturned {S : Stack} {A : Type} (z : A)
  (m : M S (Outcome (A * option error))) : Prop :=
  forall w r e, fst (m w) = Returned (r, Some e) -> r = z.

Ltac facade_zero :=
  intros w; unfold bind;
  match goal with
  | |- context [?call ?S ?c ?action ?targs ?args ?trs ?rs w] =>
    destruct (call S c action targs args trs rs w) as [[resp [e|]] w']
  end; simpl; [reflexivity | intros H; now contradiction H].

Ltac facade_zero_returned :=
  intros w r e; unfold bind;
  match goal with
  | |- context [?call ?S ?c ?action ?targs ?args ?trs ?rs w] =>
    destruct (call S c action targs args trs rs w) as [[[resp [e'|]]|v] w']
  end; simpl; intros H; inversion H; reflexivity.

(** C10.  Every operation of the facade returns the zero value of
    its result type together with an error: [false] for the operations
    that return a flag and a nil pointer for those that return a
    structure.  This holds for the operations of the three
    transports. *)
Theorem error_comes_with_zero_result (S : Stack) :
  (forall (c : Streaming.Client) (username : string) (password : string),
     zeroOnError false (Streaming.LogOn S c username password))
  /\
  (forall (c : Streaming.Client),
     zeroOnError false (Streaming.LogOff S c))
  /\
  (forall (c : Streaming.Client),
     zeroOnError (@None (denote ServiceAttributes_T)) (Streaming.GetServiceAttributes S c))
  /\
  (forall (c : Streaming.Client) (readingSystemAttributes : option (denote ReadingSystemAttributes_T)),
     zeroOnError false (Streaming.SetReadingSystemAttributes S c readingSystemAttributes))
  /\
  (forall (c : Streaming.Client) (id : string) (firstItem : Z) (lastItem : Z),
     zeroOnError (@None (denote ContentList_T)) (Streaming.GetContentList S c id firstItem lastItem))
  /\
  (forall (c : Streaming.Client) (contentID : string),
     zeroOnError (@None (denote ContentMetadata_T)) (Streaming.GetContentMetadata S c contentID))
  /\
  (forall (c : Streaming.Client) (contentID : string),
     zeroOnError (@None (denote Resources_T)) (Streaming.GetContentResources S c contentID))
  /\
  (forall (c : Streaming.Client) (contentID : string),
     zeroOnError false (Streaming.IssueContent S c contentID))
  /\
  (forall (c : Streaming.Client) (contentID : string),
     zeroOnError false (Streaming.ReturnContent S c contentID))
  /\
  (forall (c : Streaming.Client) (userResponses : option (denote UserResponses_T)),
     zeroOnError (@None (denote Questions_T)) (Streaming.GetQuestions S c userResponses))
  /\
  (forall (c : Streaming.Client),
     zeroOnError (@None (denote Announcements_T)) (Streaming.GetServiceAnnouncements S c))
  /\
  (forall (c : Streaming.Client) (contentID : string) (bookmarkSet : option (denote BookmarkSet_T)),
     zeroOnError false (Streaming.SetBookmarks S c contentID bookmarkSet))
  /\
  (forall (c : Streaming.Client) (contentID : string),
     zeroOnError (@None (denote BookmarkSet_T)) (Streaming.GetBookmarks S c contentID))
  /\
  (forall (Read_T : Ty) (c : Streaming.Client) (read : option (denote Read_T)),
     zeroOnError false (Streaming.MarkAnnouncementsAsRead S Read_T c read))
  /\
  (forall (c : InnerXml.Client) (username : string) (password : string),
     zeroOnError false (InnerXml.LogOn S c username password))
  /\
  (forall (c : InnerXml.Client),
     zeroOnError false (InnerXml.LogOff S c))
  /\
  (forall (c : InnerXml.Client),
     zeroOnError (@None (denote ServiceAttributes_T)) (InnerXml.GetServiceAttributes S c))
  /\
  (forall (c : InnerXml.Client) (readingSystemAttributes : option (denote ReadingSystemAttributes_T)),
     zeroOnError false (InnerXml.SetReadingSystemAttributes S c readingSystemAttributes))
  /\
  (forall (c : InnerXml.Client) (id : string) (firstItem : Z) (lastItem : Z),
     zeroOnError (@None (denote ContentList_T)) (InnerXml.GetContentList S c id firstItem lastItem))
  /\
  (forall (c : InnerXml.Client) (contentID : string),
     zeroOnError (@None (denote ContentMetadata_T)) (InnerXml.GetContentMetadata S c contentID))
  /\
  (forall (c : InnerXml.Client) (contentID : string),
     zeroOnError (@None (denote Resources_T)) (InnerXml.GetContentResources S c contentID))
  /\
  (forall (c : InnerXml.Client) (contentID : string),
     zeroOnError false (InnerXml.IssueContent S c contentID))
  /\
  (forall (c : InnerXml.Client) (contentID : string),
     zeroOnError false (InnerXml.ReturnContent S c contentID))
  /\
  (forall (c : InnerXml.Client) (userResponses : option (denote UserResponses_T)),
     zeroOnError (@None (denote Questions_T)) (InnerXml.GetQuestions S c userResponses))
  /\
  (forall (c : InnerXml.Client),
     zeroOnError (@None (denote Announcements_T)) (InnerXml.GetServiceAnnouncements S c))
  /\
  (forall (c : Legacy.Client) (username : string) (password : string),
     zeroOnErrorReturned false (Legacy.LogOn S c username password))
  /\
  (forall (c : Legacy.Client),
     zeroOnErrorReturned false (Legacy.LogOff S c))
  /\
  (forall (c : Legacy.Client),
     zeroOnErrorReturned (@None (denote ServiceAttributes_T)) (Legacy.GetServiceAttributes S c))
  /\
  (forall (c : Legacy.Client) (readingSystemAttributes : option (denote ReadingSystemAttributes_T)),
     zeroOnErrorReturned false (Legacy.SetReadingSystemAttributes S c readingSystemAttributes))
  /\
  (forall (c : Legacy.Client) (id : string) (firstItem : Z) (lastItem : Z),
     zeroOnErrorReturned (@None (denote ContentList_T)) (Legacy.GetContentList S c id firstItem lastItem))
  /\
  (forall (c : Legacy.Client) (contentID : string),
     zeroOnErrorReturned (@None (denote ContentMetadata_T)) (Legacy.GetContentMetadata S c contentID))
  /\
  (forall (c : Legacy.Client) (contentID : string),
     zeroOnErrorReturned (@None (denote Resources_T)) (Legacy.GetContentResources S c contentID))
  /\
  (forall (c : Legacy.Client) (contentID : string),
     zeroOnErrorReturned false (Legacy.IssueContent S c contentID))
  /\
  (forall (c : Legacy.Client) (contentID : string),
     zeroOnErrorReturned false (Legacy.ReturnContent S c contentID))
  /\
  (forall (c : Legacy.Client) (userResponses : option (denote UserResponses_T)),
     zeroOnErrorReturned (@None (denote Questions_T)) (Legacy.GetQuestions S c userResponses))
  /\
  (forall (c : Legacy.Client),
     zeroOnErrorReturned (@None (denote Announcements_T)) (Legacy.GetServiceAnnouncements S c)).
Proof.
  repeat split; intros.
  - unfold Streaming.LogOn. facade_zero.
  - unfold Streaming.LogOff. facade_zero.
  - unfold Streaming.GetServiceAttributes. facade_zero.
  - unfold Streaming.SetReadingSystemAttributes. facade_zero.
  - unfold Streaming.GetContentList. facade_zero.
  - unfold Streaming.GetContentMetadata. facade_zero.
  - unfold Streaming.GetContentResources. facade_zero.
  - unfold Streaming.IssueContent. facade_zero.
  - unfold Streaming.ReturnContent. facade_zero.
  - unfold Streaming.GetQuestions. facade_zero.
  - unfold Streaming.GetServiceAnnouncements. facade_zero.
  - unfold Streaming.SetBookmarks. facade_zero.
  - unfold Streaming.GetBookmarks. facade_zero.
  - unfold Streaming.MarkAnnouncementsAsRead. facade_zero.
  - unfold InnerXml.LogOn. facade_zero.
  - unfold InnerXml.LogOff. facade_zero.
  - unfold InnerXml.GetServiceAttributes. facade_zero.
  - unfold InnerXml.SetReadingSystemAttributes. facade_zero.
  - unfold InnerXml.GetContentList. facade_zero.
  - unfold InnerXml.GetContentMetadata. facade_zero.
  - unfold InnerXml.GetContentResources. facade_zero.
  - unfold InnerXml.IssueContent. facade_zero.
  - unfold InnerXml.ReturnContent. facade_zero.
  - unfold InnerXml.GetQuestions. facade_zero.
  - unfold InnerXml.GetServiceAnnouncements. facade_zero.
  - unfold Legacy.LogOn. facade_zero_returned.
  - unfold Legacy.LogOff. facade_zero_returned.
  - unfold Legacy.GetServiceAttributes. facade_zero_returned.
  - unfold Legacy.SetReadingSystemAttributes. facade_zero_returned.
  - unfold Legacy.GetContentList. facade_zero_returned.
  - unfold Legacy.GetContentMetadata. facade_zero_returned.
  - unfold Legacy.GetContentResources. facade_zero_returned.
  - unfold Legacy.IssueContent. facade_zero_returned.
  - unfold Legacy.ReturnContent. facade_zero_returned.
  - unfold Legacy.GetQuestions. facade_zero_returned.
  - unfold Legacy.GetServiceAnnouncements. facade_zero_returned.
Qed.

(** ** Decoding reads no further than it needs

    A decoder that succeeds on an input succeeds in the same way on
    any longer input: what follows the tokens it has read, and the
    way the input ends, are never looked at. *)
Definition extend (d : Decoder) (more : list Token) (e : error) : Decoder :=
  mkDecoder (app (input d) more) e (stk d).

Lemma Token_mono {d d' : Decoder} {t : Token} (more : list Token) (e : error) :
  Decoder_Token d = (inl t, d') ->
  Decoder_Token (extend d more e) = (inl t, extend d' more e).
Proof.
  unfold Decoder_Token, extend. simpl.
  destruct (stk d) as [|[m|] s0] eqn:Hs; destruct (input d) as [|t0 rest] eqn:Hi;
    simpl; try (destruct (inputErr d); discriminate); try discriminate.
  - destruct t0; inversion 1; subst; simpl; rewrite ?Hs; reflexivity.
  - destruct t0; try (inversion 1; subst; simpl; rewrite ?Hs; reflexivity).
    destruct (Name_eqb m n); inversion 1; subst; simpl. reflexivity.
Qed.

Definition marked (s : list stkItem) : Prop := In stkEOF s.

Lemma Token_marked {d d' : Decoder} {t : Token} :
  marked (stk d) -> Decoder_Token d = (inl t, d') -> marked (stk d').
Proof.
  unfold Decoder_Token, marked.
  destruct (stk d) as [|[m|] s0] eqn:Hs; destruct (input d) as [|t0 rest] eqn:Hi;
    simpl; try (destruct (inputErr d); discriminate); try discriminate;
    try tauto.
  destruct t0; try (inversion 2; subst; simpl; tauto).
  destruct (Name_eqb m n); inversion 2; subst; simpl.
  destruct H as [H|H]; [discriminate|assumption].
Qed.

Lemma Token_EOF_marked {d d' : Decoder} (more : list Token) (e : error) :
  marked (stk d) -> Decoder_Token d = (inr EOF, d') ->
  d' = d /\ Decoder_Token (extend d more e) = (inr EOF, extend d more e).
Proof.
  unfold Decoder_Token, marked, extend. simpl.
  destruct (stk d) as [|[m|] s0] eqn:Hs; simpl.
  - tauto.
  - intros _. destruct (input d) as [|t0 rest].
    + destruct (inputErr d); discriminate.
    + destruct t0; try discriminate. destruct (Name_eqb m n); discriminate.
  - intros _. inversion 1. auto.
Qed.

Lemma Skip_loop_mono (more : list Token) (e : error) (d : Decoder) :
  forall depth d',
    Skip_loop d depth = (None, d') ->
    Skip_loop (extend d more e) depth = (None, extend d' more e).
Proof.
  induction d as [d IH] using decoder_ind. intros depth d1.
  rewrite (Skip_loop_eq d), (Skip_loop_eq (extend d more e)).
  destruct (Decoder_Token d) as [[tok|err] d'] eqn:Htok; [|discriminate].
  rewrite (Token_mono more e Htok).
  pose proof (Token_shrinks Htok) as Hlt.
  destruct tok; try destruct depth; try (apply IH; assumption).
  inversion 1; subst. reflexivity.
Qed.

Lemma readNodes_mono (more : list Token) (e : error) (d : Decoder) :
  forall open cur ns d',
    readNodes d open cur = (inl ns, d') ->
    readNodes (extend d more e) open cur = (inl ns, extend d' more e).
Proof.
  induction d as [d IH] using decoder_ind. intros open cur ns d1.
  rewrite (readNodes_eq d), (readNodes_eq (extend d more e)).
  destruct (Decoder_Token d) as [[tok|err] d'] eqn:Htok; [|discriminate].
  rewrite (Token_mono more e Htok).
  pose proof (Token_shrinks Htok) as Hlt.
  destruct tok; try destruct open as [|[[? ?] ?] ?]; try (apply IH; assumption).
  inversion 1; subst. reflexivity.
Qed.

Lemma findStart_mono (more : list Token) (e : error) (d : Decoder) :
  forall r d',
    findStart d = (inl r, d') ->
    findStart (extend d more e) = (inl r, extend d' more e).
Proof.
  induction d as [d IH] using decoder_ind. intros r d1.
  rewrite (findStart_eq d), (findStart_eq (extend d more e)).
  destruct (Decoder_Token d) as [[tok|err] d'] eqn:Htok; [|discriminate].
  rewrite (Token_mono more e Htok).
  pose proof (Token_shrinks Htok) as Hlt.
  destruct tok; try (apply IH; assumption).
  inversion 1; subst. reflexivity.
Qed.

Lemma DecodeElement_mono {t : Ty} {d : Decoder} {v : denote t} {n : Name}
  {attrs : list Attr} (more : list Token) (e : error) {v' : denote t} {d' : Decoder} :
  Decoder_DecodeElement t d v n attrs = (v', None, d') ->
  Decoder_DecodeElement t (extend d more e) v n attrs = (v', None, extend d' more e).
Proof.
  unfold Decoder_DecodeElement.
  destruct (readNodes d [] []) as [[ns|err] d1] eqn:Hr; [|discriminate].
  rewrite (readNodes_mono more e _ _ _ _ _ Hr).
  destruct (unmarshal t v n attrs ns) as [r [err|]]; inversion 1; subst. reflexivity.
Qed.

Lemma body_UnmarshalXML_mono {t : Ty} (b : Streaming.body t) (start : Name)
  (attrs : list Attr) (more : list Token) (e : error) (d : Decoder) :
  forall b' d',
    marked (stk d) ->
    Streaming.body_UnmarshalXML b d start attrs = (b', None, d') ->
    Streaming.body_UnmarshalXML b (extend d more e) start attrs
    = (b', None, extend d' more e).
Proof.
  induction d as [d IH] using decoder_ind. intros b1 d1 Hm.
  rewrite (Streaming.body_UnmarshalXML_eq b d),
          (Streaming.body_UnmarshalXML_eq b (extend d more e)).
  destruct (Decoder_Token d) as [[tok|err] d'] eqn:Htok.
  - rewrite (Token_mono more e Htok).
    pose proof (Token_shrinks Htok) as Hlt.
    pose proof (Token_marked Hm Htok) as Hm'.
    destruct tok; try (apply IH; assumption).
    unfold Streaming.DecodeElement_Content.
    destruct (Streaming.Content b) as [v|]; [|discriminate].
    destruct (Decoder_DecodeElement t d' v n attrs0) as [[v' [err|]] d''] eqn:Hd;
      [discriminate|].
    rewrite (DecodeElement_mono more e Hd).
    unfold Decoder_Skip.
    destruct (Skip_loop d'' 0) as [[err|] d3] eqn:Hs; [discriminate|].
    rewrite (Skip_loop_mono more e _ _ _ Hs). inversion 1; subst. reflexivity.
  - destruct err; try discriminate.
    destruct (Token_EOF_marked more e Hm Htok) as [-> Hx]. rewrite Hx.
    inversion 1; subst. reflexivity.
Qed.

Lemma Token_start_top {d d' : Decoder} {n : Name} {a : list Attr} :
  Decoder_Token d = (inl (StartElement n a), d') -> stk d' = stkStart n :: stk d.
Proof.
  unfold Decoder_Token.
  destruct (stk d) as [|[m|] s0] eqn:Hs; destruct (input d) as [|t0 rest] eqn:Hi;
    simpl; try (destruct (inputErr d); discriminate); try discriminate.
  - destruct t0; inversion 1; subst; reflexivity.
  - destruct t0; try (inversion 1; subst; reflexivity).
    destruct (Name_eqb m n0); inversion 1.
Qed.

Lemma unmarshal_body_mono {t : Ty} (d : Decoder) (b : Streaming.body t) (n : Name)
  (attrs : list Attr) (more : list Token) (e : error) (m : Name) (s : list stkItem)
  (b' : Streaming.body t) (d' : Decoder) :
  stk d = stkStart m :: s ->
  Streaming.unmarshal_body d b n attrs = (b', None, d') ->
  Streaming.unmarshal_body (extend d more e) b n attrs = (b', None, extend d' more e).
Proof.
  intros Hs. unfold Streaming.unmarshal_body, unmarshalInterface.
  destruct (Streaming.body_UnmarshalXML b (pushEOF d) n attrs) as [[b1 [err|]] d1] eqn:Hb;
    [discriminate|].
  assert (Hm : marked (stk (pushEOF d))).
  { unfold pushEOF, marked. simpl. rewrite Hs. simpl. auto. }
  pose proof (body_UnmarshalXML_mono b n attrs more e (pushEOF d) b1 d1 Hm Hb) as Hx.
  change (extend (pushEOF d) more e) with (pushEOF (extend d more e)) in Hx.
  rewrite Hx.
  unfold popEOF. simpl.
  destruct (stk d1) as [|[x|] r]; inversion 1; subst. reflexivity.
Qed.

Section StructLoopMono.
  Variable S : Type.
  Variable fieldName : string.
  Variable onField : Decoder -> S -> Name -> list Attr -> S * option error * Decoder.
  Hypothesis onField_le : forall d s n a,
    length (input (snd (onField d s n a))) <= length (input d).
  Hypothesis onField_mono :
    forall d st n a more e m s st' d',
      stk d = stkStart m :: s ->
      onField d st n a = (st', None, d') ->
      onField (extend d more e) st n a = (st', None, extend d' more e).

Lemma structLoop_mono (more : list Token) (e : error) (d : Decoder) :
    forall st st' d',
      structLoop fieldName onField onField_le d st = (st', None, d') ->
      structLoop fieldName onField onField_le (extend d more e) st
      = (st', None, extend d' more e).
  Proof.
    induction d as [d IH] using decoder_ind. intros st st1 d1.
    rewrite (structLoop_eq _ _ _ _ d), (structLoop_eq _ _ _ _ (extend d more e)).
    destruct (Decoder_Token d) as [[tok|err] d'] eqn:Htok; [|discriminate].
    rewrite (Token_mono more e Htok).
    pose proof (Token_shrinks Htok) as Hlt.
    destruct tok; try (apply IH; assumption).
    - destruct (String.eqb fieldName (Local n)).
      + pose proof (onField_le d' st n attrs) as Hle.
        destruct (onField d' st n attrs) as [[st2 [err|]] d2] eqn:Hf; [discriminate|].
        rewrite (onField_mono d' st n attrs more e _ _ _ _ (Token_start_top Htok) Hf).
        simpl in Hle. apply IH. lia.
      + pose proof (Skip_loop_le d' 0) as Hle. unfold Decoder_Skip.
        destruct (Skip_loop d' 0) as [[err|] d2] eqn:Hs; [discriminate|].
        rewrite (Skip_loop_mono more e _ _ _ Hs).
        simpl in Hle. apply IH. lia.
    - inversion 1; subst. reflexivity.
  Qed.
End StructLoopMono.

Arguments structLoop_mono {S} fieldName onField onField_le onField_mono more e d st st' d'.

Lemma Decode_envelope_mono {t : Ty} (d : Decoder) (env env' : Streaming.envelope t)
  (more : list Token) (e : error) (d' : Decoder) :
  Streaming.Decode_envelope d env = (env', None, d') ->
  Streaming.Decode_envelope (extend d more e) env = (env', None, extend d' more e).
Proof.
  unfold Streaming.Decode_envelope.
  destruct (findStart d) as [[[n a]|err] d1] eqn:Hf; [|discriminate].
  rewrite (findStart_mono more e _ _ _ Hf).
  destruct (negb _); [discriminate|]. destruct (negb _); [discriminate|].
  destruct (structLoop _ _ _ d1 _) as [[b [err|]] d2] eqn:Hl; [discriminate|].
  rewrite (structLoop_mono "Body" (@Streaming.unmarshal_body t)
             (@Streaming.unmarshal_body_le t)
             (fun d st n a more e m s st' d' H1 H2 =>
                unmarshal_body_mono d st n a more e m s st' d' H1 H2)
             more e _ _ _ _ Hl).
  inversion 1; subst. reflexivity.
Qed.

Section RawBodyMono.
  Variable ns : Bindings.
  Variable unmarshal_Body :
    Decoder -> Name * list Token -> Name -> list Attr
    -> (Name * list Token) * option error * Decoder.
  Hypothesis unmarshal_Body_def : forall d b n attrs,
    unmarshal_Body d b n attrs
    = match readNodes d [] [] with
      | (inr err, d') => (b, Some err, d')
      | (inl children, d') =>
        ((translate (declare ns attrs) true n, flattenAll children), None, d')
      end.

Lemma unmarshal_Body_mono (d : Decoder) (st : Name * list Token) (n : Name)
    (a : list Attr) (more : list Token) (e : error) (m : Name) (s : list stkItem)
    (st' : Name * list Token) (d' : Decoder) :
    stk d = stkStart m :: s ->
    unmarshal_Body d st n a = (st', None, d') ->
    unmarshal_Body (extend d more e) st n a = (st', None, extend d' more e).
  Proof.
    intros _. rewrite !unmarshal_Body_def.
    destruct (readNodes d [] []) as [[nodes|err] d1] eqn:Hr; [|discriminate].
    rewrite (readNodes_mono more e _ _ _ _ _ Hr). inversion 1; subst. reflexivity.
  Qed.
End RawBodyMono.

Lemma InnerXml_Decode_mono (d : Decoder) (env env' : InnerXml.envelopeResponse)
  (more : list Token) (e : error) (d' : Decoder) :
  InnerXml.Decode_envelopeResponse d env = (env', None, d') ->
  InnerXml.Decode_envelopeResponse (extend d more e) env = (env', None, extend d' more e).
Proof.
  unfold InnerXml.Decode_envelopeResponse.
  destruct (findStart d) as [[[n a]|err] d1] eqn:Hf; [|discriminate].
  rewrite (findStart_mono more e _ _ _ Hf).
  destruct (negb _); [discriminate|].
  destruct (structLoop _ _ _ d1 _) as [[b [err|]] d2] eqn:Hl; [discriminate|].
  rewrite (structLoop_mono "Body" (InnerXml.unmarshal_Body (declare [] a))
             (InnerXml.unmarshal_Body_le (declare [] a))
             (unmarshal_Body_mono (declare [] a) (InnerXml.unmarshal_Body (declare [] a))
                                  (fun d b n a => eq_refl))
             more e _ _ _ _ Hl).
  inversion 1; subst. reflexivity.
Qed.

(** Where a successful decoding of a document leaves the decoder:
    just after the first element. *)
Lemma Decode_envelope_document_end {t : Ty} (env env' : Streaming.envelope t)
  (doc : list Node) (ts : list Token) (e : error) (d' : Decoder)
  {n : Name} {a : list Attr} {ch rest : list Node} :
  firstElem doc = Some (n, a, ch, rest) ->
  Streaming.Decode_envelope (NewDecoder (flattenAll doc ++ ts) e) env = (env', None, d') ->
  input d' = app (flattenAll rest) ts.
Proof.
  intros Hdoc.
  unfold Streaming.Decode_envelope, NewDecoder.
  rewrite findStart_nodes, Hdoc by exact I.
  destruct (negb _); [discriminate|]. destruct (negb _); [discriminate|].
  pose proof (structLoop_nodes "Body" (@Streaming.unmarshal_body t)
                (@Streaming.unmarshal_body_le t) (fun b _ _ ch => extract b ch)
                (fun st n a ch ts e s => unmarshal_body_nodes st n a ch ts e s)
                ch (Streaming.Body env) n (flattenAll rest ++ ts) e []) as [H1 H2].
  cbv zeta in H1, H2.
  destruct (structLoop _ _ _ _ _) as [[b [err|]] d'']; [discriminate|].
  simpl in H1, H2. inversion 1; subst.
  rewrite H2 by (rewrite <- H1; reflexivity). reflexivity.
Qed.

Lemma InnerXml_Decode_document_end (env env' : InnerXml.envelopeResponse)
  (doc : list Node) (ts : list Token) (e : error) (d' : Decoder)
  {n : Name} {a : list Attr} {ch rest : list Node} :
  firstElem doc = Some (n, a, ch, rest) ->
  InnerXml.Decode_envelopeResponse (NewDecoder (flattenAll doc ++ ts) e) env
  = (env', None, d') ->
  input d' = app (flattenAll rest) ts.
Proof.
  intros Hdoc.
  unfold InnerXml.Decode_envelopeResponse, NewDecoder.
  rewrite findStart_nodes, Hdoc by exact I.
  destruct (negb _); [discriminate|].
  pose proof (structLoop_nodes "Body" (InnerXml.unmarshal_Body (declare [] a))
                (InnerXml.unmarshal_Body_le (declare [] a))
                (bodySpec (declare [] a))
                (fun st n a0 ch ts e s =>
                   unmarshal_Body_nodes (declare [] a)
                                        (InnerXml.unmarshal_Body (declare [] a))
                                        (fun d b n a => eq_refl)
                                        st n a0 ch ts e s)
                ch (InnerXml.Body_XMLName env, InnerXml.Body_Content env) n
                (flattenAll rest ++ ts) e []) as [H1 H2].
  cbv zeta in H1, H2.
  destruct (structLoop _ _ _ _ _) as [[b [err|]] d'']; [discriminate|].
  simpl in H1, H2. inversion 1; subst.
  rewrite H2 by (rewrite <- H1; reflexivity). reflexivity.
Qed.

(** The tokens of a document that ends with its first element. *)
Definition documentTokens (pre : list Node) (root : Node) : list Token :=
  flattenAll (pre ++ [root]).

Lemma cut_short_leaves_tokens (k : nat) (ts : list Token) :
  k < length ts -> skipn k ts <> [].
Proof.
  intros Hk H. apply (f_equal (@length Token)) in H.
  rewrite length_skipn in H. simpl in H. lia.
Qed.

(** A document cut short before the end tag of its first element does
    not decode, however the input ends. *)
Lemma Decode_envelope_cut_short {t : Ty} (env : Streaming.envelope t)
  (pre : list Node) (n : Name) (a : list Attr) (ch : list Node) (k : nat) (e : error) :
  leaves pre ->
  k < length (documentTokens pre (Elem n a ch)) ->
  snd (fst (Streaming.Decode_envelope
              (NewDecoder (firstn k (documentTokens pre (Elem n a ch))) e) env)) <> None.
Proof.
  intros Hpre Hk Hnone.
  destruct (Streaming.Decode_envelope _ env) as [[env' err] d'] eqn:Hd.
  simpl in Hnone. subst err.
  apply (Decode_envelope_mono _ _ _ (skipn k (documentTokens pre (Elem n a ch))) EOF) in Hd.
  unfold extend, NewDecoder in Hd. simpl in Hd. rewrite firstn_skipn in Hd.
  unfold documentTokens in Hd at 1.
  rewrite <- (app_nil_r (flattenAll (pre ++ [Elem n a ch]))) in Hd.
  apply (Decode_envelope_document_end env env' (pre ++ [Elem n a ch]) [] EOF _
           (firstElem_leaves pre n a ch [] Hpre)) in Hd.
  simpl in Hd. apply app_eq_nil in Hd as [_ Hd].
  now apply (cut_short_leaves_tokens k _ Hk).
Qed.

Lemma InnerXml_Decode_cut_short (env : InnerXml.envelopeResponse)
  (pre : list Node) (n : Name) (a : list Attr) (ch : list Node) (k : nat) (e : error) :
  leaves pre ->
  k < length (documentTokens pre (Elem n a ch)) ->
  snd (fst (InnerXml.Decode_envelopeResponse
              (NewDecoder (firstn k (documentTokens pre (Elem n a ch))) e) env)) <> None.
Proof.
  intros Hpre Hk Hnone.
  destruct (InnerXml.Decode_envelopeResponse _ env) as [[env' err] d'] eqn:Hd.
  simpl in Hnone. subst err.
  apply (InnerXml_Decode_mono _ _ _ (skipn k (documentTokens pre (Elem n a ch))) EOF) in Hd.
  unfold extend, NewDecoder in Hd. simpl in Hd. rewrite firstn_skipn in Hd.
  unfold documentTokens in Hd at 1.
  rewrite <- (app_nil_r (flattenAll (pre ++ [Elem n a ch]))) in Hd.
  apply (InnerXml_Decode_document_end env env' (pre ++ [Elem n a ch]) [] EOF _
           (firstElem_leaves pre n a ch [] Hpre)) in Hd.
  simpl in Hd. apply app_eq_nil in Hd as [_ Hd].
  now apply (cut_short_leaves_tokens k _ Hk).
Qed.

(** The same response, sent as text. *)
Definition asText (resp : Response) (r : Reader) : Response :=
  mkResponse (StatusCode resp) (Status resp) [] (Plain r).

Lemma responseReader_asText (resp : Response) (r : Reader) :
  responseReader (asText resp r) = inr r.
Proof.
  reflexivity.
Qed.

Lemma Streaming_receive_reader (trs : Ty) (rs : denote trs) (resp resp' : Response) :
  StatusCode resp = StatusCode resp' ->
  responseReader resp = responseReader resp' ->
  Streaming_receive trs rs resp = Streaming_receive trs rs resp'.
Proof.
  intros Hst Hr. unfold Streaming_receive. now rewrite Hst, Hr.
Qed.

Lemma InnerXml_receive_reader (trs : Ty) (rs : denote trs) (resp resp' : Response) :
  StatusCode resp = StatusCode resp' ->
  responseReader resp = responseReader resp' ->
  InnerXml_receive trs rs resp = InnerXml_receive trs rs resp'.
Proof.
  intros Hst Hr. unfold InnerXml_receive. now rewrite Hst, Hr.
Qed.

(** What [xml.NewDecoder] reads from a text that is cut short. *)
Lemma xml_NewDecoder_cut_short (k : nat) (doc : list Node) (e : error) :
  xml_NewDecoder (mkReader (firstn k (flattenAll doc)) e)
  = NewDecoder (firstn k (flattenAll (map (resolve []) doc))) e.
Proof.
  unfold xml_NewDecoder, resolved. cbn [content readErr].
  pose proof (resolveTokens_flattenAll doc [] [] []) as H.
  rewrite app_nil_r in H. cbn [resolveTokens fst snd] in H. rewrite app_nil_r in H.
  rewrite resolveTokens_firstn by (rewrite H; reflexivity).
  rewrite H. reflexivity.
Qed.

Lemma Streaming_receive_cut_short (trs : Ty) (rs : denote trs) (resp : Response)
  (pre : list Node) (n : Name) (a : list Attr) (ch : list Node) (k : nat) (e : error) :
  responseReader resp = inr (mkReader (firstn k (documentTokens pre (Elem n a ch))) e) ->
  leaves pre -> k < length (documentTokens pre (Elem n a ch)) ->
  snd (Streaming_receive trs rs resp) <> None.
Proof.
  intros Hr Hpre Hk. unfold Streaming_receive. rewrite Hr.
  unfold documentTokens in *. cbv zeta. rewrite xml_NewDecoder_cut_short.
  rewrite <- (flattenAll_resolve_length _ []) in Hk.
  rewrite map_app in *. cbn [map resolve] in *.
  apply (leaves_resolve []) in Hpre.
  destruct (negb _).
  - match goal with |- context [Streaming.Decode_envelope ?d ?env] =>
      destruct (Streaming.Decode_envelope d env) as [[env' [err|]] d'] end;
      simpl; discriminate.
  - match goal with |- context [Streaming.Decode_envelope ?d ?env] =>
      pose proof (Decode_envelope_cut_short env _ _ _ _ k e Hpre Hk) as H end.
    unfold documentTokens in H.
    destruct (Streaming.Decode_envelope _ _) as [[env' err] d']. exact H.
Qed.

Lemma InnerXml_receive_cut_short (trs : Ty) (rs : denote trs) (resp : Response)
  (pre : list Node) (n : Name) (a : list Attr) (ch : list Node) (k : nat) (e : error) :
  responseReader resp = inr (mkReader (firstn k (documentTokens pre (Elem n a ch))) e) ->
  leaves pre -> k < length (documentTokens pre (Elem n a ch)) ->
  snd (InnerXml_receive trs rs resp) <> None.
Proof.
  intros Hr Hpre Hk. unfold InnerXml_receive. rewrite Hr.
  unfold xml_NewDecoder_saving. cbn [content readErr].
  match goal with |- context [InnerXml.Decode_envelopeResponse ?d ?env] =>
    pose proof (InnerXml_Decode_cut_short env pre n a ch k e Hpre Hk) as H;
    destruct (InnerXml.Decode_envelopeResponse d env) as [[env' [err|]] d'] end.
  - simpl. discriminate.
  - now contradiction H.
Qed.

(** C7, as the code has it.  When the response declares the content
    encoding [gzip] the two later transports read the body through a
    gzip reader before they decode anything.  If the gzip header cannot
    be read the call returns that error.  Otherwise the call returns
    what it would return for the decompressed text sent as it is; and
    if the decompressed stream ends, in whatever way, before the end
    tag of the envelope, the call returns an error.  A failure of the
    gzip stream that lies behind the end tag of the envelope is not
    looked for. *)
Theorem gzip_is_read_before_decoding (S : Stack) (w : World S) (resp : Response)
  (h : option error) (r : Reader)
  (action : string) (targs : Ty) (args : denote targs) (trs : Ty) (rs : denote trs) :
  answers S w resp ->
  Header_Get (RespHeader resp) "Content-Encoding" = "gzip" ->
  RespBody resp = Gzip h r ->
  (forall c, Streaming_sendable S c targs args ->
     match h with
     | Some err => fst (Streaming.call S c action targs args trs rs w) = (rs, Some err)
     | None =>
       (forall (S' : Stack) (w' : World S'),
          answers S' w' (asText resp r) -> Streaming_sendable S' c targs args ->
          fst (Streaming.call S c action targs args trs rs w)
          = fst (Streaming.call S' c action targs args trs rs w'))
       /\
       (forall pre n a ch k,
          content r = firstn k (documentTokens pre (Elem n a ch)) ->
          leaves pre -> k < length (documentTokens pre (Elem n a ch)) ->
          snd (fst (Streaming.call S c action targs args trs rs w)) <> None)
     end)
  /\
  (forall c, InnerXml_sendable S c targs args ->
     match h with
     | Some err => fst (InnerXml.call S c action targs args trs rs w) = (rs, Some err)
     | None =>
       (forall (S' : Stack) (w' : World S'),
          answers S' w' (asText resp r) -> InnerXml_sendable S' c targs args ->
          fst (InnerXml.call S c action targs args trs rs w)
          = fst (InnerXml.call S' c action targs args trs rs w'))
       /\
       (forall pre n a ch k,
          content r = firstn k (documentTokens pre (Elem n a ch)) ->
          leaves pre -> k < length (documentTokens pre (Elem n a ch)) ->
          snd (fst (InnerXml.call S c action targs args trs rs w)) <> None)
     end).
Proof.
  intros Hans Hgz Hbody.
  assert (Hr : responseReader resp = gzip_NewReader (Gzip h r)).
  { unfold responseReader. now rewrite Hgz, Hbody. }
  split; intros c Hs.
  - rewrite (Streaming_call_answered action trs rs Hs Hans).
    destruct h as [err|]; simpl in Hr.
    + unfold Streaming_receive. now rewrite Hr.
    + split.
      * intros S' w' Hans' Hs'.
        rewrite (Streaming_call_answered action trs rs Hs' Hans').
        apply Streaming_receive_reader; [reflexivity|].
        now rewrite responseReader_asText.
      * intros pre n a ch k Hc Hpre Hk.
        apply (Streaming_receive_cut_short trs rs resp pre n a ch k (readErr r));
          try assumption.
        rewrite Hr, <- Hc. now destruct r.
  - rewrite (InnerXml_call_answered action trs rs Hs Hans).
    destruct h as [err|]; simpl in Hr.
    + unfold InnerXml_receive. now rewrite Hr.
    + split.
      * intros S' w' Hans' Hs'.
        rewrite (InnerXml_call_answered action trs rs Hs' Hans').
        apply InnerXml_receive_reader; [reflexivity|].
        now rewrite responseReader_asText.
      * intros pre n a ch k Hc Hpre Hk.
        apply (InnerXml_receive_cut_short trs rs resp pre n a ch k (readErr r));
          try assumption.
        rewrite Hr, <- Hc. now destruct r.
Qed.

(** * Scenarios *)

Definition serviceURL : string := "http://service.example/daisyonline".

Definition streamingClient : Streaming.Client := Streaming.NewClient serviceURL 0.
Definition innerXmlClient : InnerXml.Client := InnerXml.NewClient serviceURL 0.
Definition legacyClient : Legacy.Client := Legacy.NewClient serviceURL.

(** The text of the element
    [<logOnResponse><logOnResult>..</logOnResult></logOnResponse>],
    which declares the name space of the protocol as its default name
    space. *)
Definition logOnResponseNode (result : string) : Node :=
  Elem (mkName "" "logOnResponse") [xmlnsAttr daisyNS]
       [Elem (mkName "" "logOnResult") [] [Text result]].

Definition logOffResponseNode (result : string) : Node :=
  Elem (mkName "" "logOffResponse") [xmlnsAttr daisyNS]
       [Elem (mkName "" "logOffResult") [] [Text result]].

(** Status 500 with the fault of the sign-on scenario. *)
Definition refused : Response :=
  plainResponse 500 "500 Internal Server Error" [soapEnvelope [invalidCredentials]].

(** Status 200 with a body that looks like a fault. *)
Definition acceptedFault : Response :=
  plainResponse 200 "200 OK" [soapEnvelope [invalidCredentials]].

(** Status 200 with the result of a sign-on or sign-off. *)
Definition signedOn : Response :=
  plainResponse 200 "200 OK" [soapEnvelope [logOnResponseNode "true"]].

Definition signedOff : Response :=
  plainResponse 200 "200 OK" [soapEnvelope [logOffResponseNode "true"]].

(** Status 200 and an envelope with an empty body. *)
Definition emptyAnswer : Response :=
  plainResponse 200 "200 OK" [soapEnvelope [Text " "]].

(** The sign-on result sent through gzip: [ending] is how the
    decompressed stream ends. *)
Definition gzipped (ending : error) : Response :=
  mkResponse 200 "200 OK" [("Content-Encoding", ["gzip"])]
             (Gzip None (mkReader (flattenAll [soapEnvelope [logOnResponseNode "true"]])
                                  ending)).

Definition logOnRequest : denote Streaming.logOn_T := (zeroName, ("u", ("p", tt))).

Lemma streamingClient_sendable (resp : Response) (targs : Ty) (args : denote targs)
  (nodes : list Node) :
  marshalValue targs args contentField = inr nodes ->
  Streaming_sendable (fixedService resp) streamingClient targs args.
Proof.
  intros H. split; [reflexivity|]. split; [reflexivity|]. now exists nodes.
Qed.

Lemma innerXmlClient_sendable (resp : Response) (targs : Ty) (args : denote targs)
  (nodes : list Node) :
  marshalValue targs args contentField = inr nodes ->
  InnerXml_sendable (fixedService resp) innerXmlClient targs args.
Proof.
  intros H. split; [reflexivity|]. now exists nodes.
Qed.

Lemma legacyClient_sendable (resp : Response) (targs : Ty) (args : denote targs)
  (nodes : list Node) :
  marshalValue targs args contentField = inr nodes ->
  Legacy_sendable (fixedService resp) legacyClient targs args.
Proof.
  intros H. split; [reflexivity|]. now exists nodes.
Qed.

(** The sign-on scenario of the specification: status 200 and a result
    of [true] yield [true] and no error, with every transport. *)
Example sign_on_accepted :
  fst (Streaming.LogOn (fixedService signedOn) streamingClient "u" "p" (startWorld signedOn))
  = (true, None)
  /\ fst (InnerXml.LogOn (fixedService signedOn) innerXmlClient "u" "p" (startWorld signedOn))
     = (true, None)
  /\ fst (Legacy.LogOn (fixedService signedOn) legacyClient "u" "p" (startWorld signedOn))
     = Returned (true, None).
Proof.
  repeat split; vm_compute; reflexivity.
Qed.

(** With the first transport a status other than 200 is reported by its
    status line: the fault in the body is not decoded, and the error is
    neither a fault nor an error of decoding. *)
Lemma first_transport_reports_status_line :
  exists e,
    fst (Legacy.call (fixedService refused) legacyClient "logOn"
           Legacy.LogOn_T logOnRequest
           Legacy.LogOnResponse_T (zero Legacy.LogOnResponse_T) (startWorld refused))
    = Returned (zero Legacy.LogOnResponse_T, Some e)
    /\ Error e = "500 Internal Server Error"
    /\ errors_As_Fault e = None
    /\ isDecodeError e = false.
Proof.
  eexists. split; [vm_compute; reflexivity|]. repeat split.
Qed.

(** With the streaming transport the error of a refused sign-on does
    not have the message [Invalid credentials]: the fault is wrapped. *)
Lemma streaming_sign_on_message_is_prefixed :
  exists e,
    fst (Streaming.LogOn (fixedService refused) streamingClient "u" "p" (startWorld refused))
    = (false, Some e)
    /\ Error e = "logOn operation: fault: Invalid credentials"
    /\ Error e <> "Invalid credentials".
Proof.
  eexists. split; [vm_compute; reflexivity|]. split; [reflexivity|discriminate].
Qed.

(** A gzip stream that fails its check sum, or that is cut short, after
    the end tag of the envelope is accepted: the call returns the result
    and no error. *)
Lemma damaged_gzip_is_accepted :
  fst (Streaming.LogOn (fixedService (gzipped gzip_ErrChecksum)) streamingClient "u" "p"
         (startWorld (gzipped gzip_ErrChecksum))) = (true, None)
  /\ fst (Streaming.LogOn (fixedService (gzipped io_ErrUnexpectedEOF)) streamingClient "u" "p"
            (startWorld (gzipped io_ErrUnexpectedEOF))) = (true, None)
  /\ fst (InnerXml.LogOn (fixedService (gzipped gzip_ErrChecksum)) innerXmlClient "u" "p"
            (startWorld (gzipped gzip_ErrChecksum))) = (true, None)
  /\ fst (InnerXml.LogOn (fixedService (gzipped io_ErrUnexpectedEOF)) innerXmlClient "u" "p"
            (startWorld (gzipped io_ErrUnexpectedEOF))) = (true, None).
Proof.
  repeat split; vm_compute; reflexivity.
Qed.

(** The request of the first transport does not announce that gzip is
    accepted. *)
Lemma first_transport_sends_three_headers :
  exists req,
    trace (snd (Legacy.call (fixedService signedOn) legacyClient "logOn"
                  Legacy.LogOn_T logOnRequest
                  Legacy.LogOnResponse_T (zero Legacy.LogOnResponse_T)
                  (startWorld signedOn)))
    = [EvDo req]
    /\ ReqHeader req = [("Content-Type", ["text/xml; charset=utf-8"]);
                        ("Accept", ["text/xml"]);
                        ("Soapaction", ["/logOn"])]
    /\ Header_Get (ReqHeader req) "Accept-Encoding" = "".
Proof.
  eexists. split; [vm_compute; reflexivity|]. split; reflexivity.
Qed.

(** Sign-off with the first transport succeeds without releasing the
    idle connections, and a sign-off that fails releases nothing with
    the streaming transport either. *)
Lemma sign_off_without_release :
  fst (Legacy.LogOff (fixedService signedOff) legacyClient (startWorld signedOff))
  = Returned (true, None)
  /\ existsb isRelease
       (trace (snd (Legacy.LogOff (fixedService signedOff) legacyClient
                      (startWorld signedOff)))) = false
  /\ existsb isRelease
       (trace (snd (Streaming.LogOff (fixedService refused) streamingClient
                      (startWorld refused)))) = false.
Proof.
  repeat split; vm_compute; reflexivity.
Qed.

(** The theorems above at the scenarios. *)
Lemma other_status_is_an_error_witness :
  answers (fixedService refused) (startWorld refused) refused
  /\ (StatusCode refused =? http_StatusOK)%Z = false
  /\ fst (Streaming.call (fixedService refused) streamingClient "logOn"
            Streaming.logOn_T logOnRequest
            Streaming.logOnResponse_T (zero Streaming.logOnResponse_T)
            (startWorld refused))
     = (zero Streaming.logOnResponse_T,
        Some match Streaming_decodeFault refused with
             | inl err => err
             | inr fault => Wrapped "fault: " (FaultError fault)
             end).
Proof.
  split; [apply fixedService_answers|]. split; [reflexivity|].
  apply (proj1 (other_status_is_an_error (fixedService refused) (startWorld refused)
                  refused "logOn" Streaming.logOn_T logOnRequest
                  Streaming.logOnResponse_T (zero Streaming.logOnResponse_T)
                  (fixedService_answers refused) eq_refl)).
  eapply streamingClient_sendable. reflexivity.
Defined.

Lemma status_200_is_never_a_fault_witness :
  answers (fixedService acceptedFault) (startWorld acceptedFault) acceptedFault
  /\ StatusCode acceptedFault = http_StatusOK
  /\ plainPayload (RespBody acceptedFault) = true
  /\ asFault (snd (fst (Streaming.call (fixedService acceptedFault) streamingClient "logOn"
                          Streaming.logOn_T logOnRequest
                          Streaming.logOnResponse_T (zero Streaming.logOnResponse_T)
                          (startWorld acceptedFault)))) = None.
Proof.
  split; [apply fixedService_answers|]. split; [reflexivity|]. split; [reflexivity|].
  apply (proj1 (status_200_is_never_a_fault (fixedService acceptedFault)
                  (startWorld acceptedFault) acceptedFault "logOn"
                  Streaming.logOn_T logOnRequest
                  Streaming.logOnResponse_T (zero Streaming.logOnResponse_T)
                  (fixedService_answers acceptedFault) eq_refl eq_refl)
               streamingClient).
  eapply streamingClient_sendable. reflexivity.
Defined.

(** A body whose first element is followed by two siblings, as the
    decoder reads it. *)
Definition threeChildren : list Node :=
  map (resolve soapBindings)
      [Text " "; logOnResponseNode "true"; logOnResponseNode "false";
       Elem (mkName "" "diagnostics") [] [Text "served in 3 ms"]].

Lemma first_element_wins_witness :
  fst (Streaming.body_UnmarshalXML
         (Streaming.mkBody Streaming.logOnResponse_T zeroName
                           (Some (zero Streaming.logOnResponse_T)))
         (mkDecoder (flattenAll threeChildren ++ [EndElement (mkName soapNS "Body")]) EOF
                    [stkStart (mkName soapNS "Body"); stkEOF])
         (mkName soapNS "Body") [])
  = (Streaming.mkBody Streaming.logOnResponse_T zeroName
                      (Some (mkName daisyNS "logOnResponse", (true, tt))),
     None).
Proof.
  apply (proj1 (first_element_wins
                  (Streaming.mkBody Streaming.logOnResponse_T zeroName
                                    (Some (zero Streaming.logOnResponse_T)))
                  (zero Streaming.logOnResponse_T)
                  [Text " "] (mkName daisyNS "logOnResponse") [xmlnsAttr daisyNS]
                  [Elem (mkName daisyNS "logOnResult") [] [Text "true"]]
                  [resolve soapBindings (logOnResponseNode "false");
                   Elem (mkName "" "diagnostics") [] [Text "served in 3 ms"]]
                  (mkName soapNS "Body") [] (mkName soapNS "Body") [] EOF []
                  eq_refl eq_refl)).
Defined.

Lemma sign_on_invalid_credentials_witness :
  exists e,
    fst (InnerXml.LogOn (fixedService refused) innerXmlClient "u" "p" (startWorld refused))
    = (false, Some e)
    /\ Error e = "Invalid credentials"
    /\ option_map Fault_Error (errors_As_Fault e) = Some "Invalid credentials".
Proof.
  apply (proj1 (sign_on_invalid_credentials (fixedService refused) (startWorld refused)
                  refused "u" "p" [] [] [soapPrefix] [] (mkName soapNS "Body") [] "" "" []
                  (fixedService_answers refused) eq_refl
                  (plainResponse_yields 500 "500 Internal Server Error"
                     (soapEnvelope [invalidCredentials]))
                  eq_refl eq_refl eq_refl eq_refl)
               innerXmlClient eq_refl).
Defined.

Lemma empty_body_leaves_destination_witness :
  leaves [Text " "]
  /\ fst (Streaming.call (fixedService emptyAnswer) streamingClient "logOn"
            Streaming.logOn_T logOnRequest
            Streaming.logOnResponse_T (zeroName, (true, tt)) (startWorld emptyAnswer))
     = ((zeroName, (true, tt)), None).
Proof.
  split; [reflexivity|].
  apply (proj2 (empty_body_leaves_destination [Text " "] eq_refl)
               (fixedService emptyAnswer) (startWorld emptyAnswer) emptyAnswer
               streamingClient "logOn" Streaming.logOn_T logOnRequest
               Streaming.logOnResponse_T (zeroName, (true, tt))
               [] [] [soapPrefix] [] (mkName soapNS "Body") [] []);
    try reflexivity.
  - eapply streamingClient_sendable. reflexivity.
  - apply fixedService_answers.
  - apply (plainResponse_yields 200 "200 OK" (soapEnvelope [Text " "])).
Defined.

(** A gzip stream whose header cannot be read. *)
Definition badGzip : Response :=
  mkResponse 200 "200 OK" [("Content-Encoding", ["gzip"])]
             (Gzip (Some gzip_ErrHeader) (mkReader [] EOF)).

Lemma gzip_is_read_before_decoding_witness :
  fst (Streaming.call (fixedService badGzip) streamingClient "logOn"
         Streaming.logOn_T logOnRequest
         Streaming.logOnResponse_T (zero Streaming.logOnResponse_T) (startWorld badGzip))
  = (zero Streaming.logOnResponse_T, Some gzip_ErrHeader).
Proof.
  apply (proj1 (gzip_is_read_before_decoding (fixedService badGzip) (startWorld badGzip)
                  badGzip (Some gzip_ErrHeader) (mkReader [] EOF) "logOn"
                  Streaming.logOn_T logOnRequest
                  Streaming.logOnResponse_T (zero Streaming.logOnResponse_T)
                  (fixedService_answers badGzip) eq_refl eq_refl)
               streamingClient).
  eapply streamingClient_sendable. reflexivity.
Defined.

(** * Further properties *)

(** ** What a successful decode keeps

    A property of the destination that every successful
    [Decoder.unmarshal] keeps is kept by a successful [Decode] of the
    envelope, whatever tokens the decoder holds. *)
Section DecodeKeeps.
  Variable t : Ty.
  Variable P : denote t -> Prop.
  Hypothesis unmarshal_keeps :
    forall v n a ch, P v -> snd (unmarshal t v n a ch) = None ->
                     P (fst (unmarshal t v n a ch)).

Definition holdsOn (c : option (denote t)) : Prop :=
    match c with
    | Some v => P v
    | None => True
    end.

Lemma DecodeElement_keeps (d : Decoder) (v : denote t) (n : Name) (a : list Attr) :
    P v ->
    snd (fst (Decoder_DecodeElement t d v n a)) = None ->
    P (fst (fst (Decoder_DecodeElement t d v n a))).
  Proof.
    intros Hv. unfold Decoder_DecodeElement.
    destruct (readNodes d [] []) as [[ch|err] d']; simpl; [|discriminate].
    pose proof (unmarshal_keeps v n a ch Hv) as H.
    destruct (unmarshal t v n a ch) as [r e]. simpl in *. exact H.
  Qed.

Lemma body_UnmarshalXML_keeps (d : Decoder) :
    forall (b : Streaming.body t) (start : Name) (attrs : list Attr),
      holdsOn (Streaming.Content b) ->
      snd (fst (Streaming.body_UnmarshalXML b d start attrs)) = None ->
      holdsOn (Streaming.Content (fst (fst (Streaming.body_UnmarshalXML b d start attrs)))).
  Proof.
    induction d as [d IH] using decoder_ind. intros b start attrs Hb.
    rewrite Streaming.body_UnmarshalXML_eq.
    destruct (Decoder_Token d) as [[tok|err] d'] eqn:Htok.
    - pose proof (Token_shrinks Htok) as Hlt.
      destruct tok; try (apply IH; assumption).
      unfold Streaming.DecodeElement_Content.
      destruct (Streaming.Content b) as [v|] eqn:Hc; [|simpl; discriminate].
      pose proof (DecodeElement_keeps d' v n attrs0 Hb) as H.
      destruct (Decoder_DecodeElement t d' v n attrs0) as [[v' e] d''].
      simpl in H. destruct e as [err|]; [simpl; discriminate|].
      destruct (Decoder_Skip d'') as [e' d3]. simpl. intros _. now apply H.
    - destruct err; simpl; try discriminate. intros _. exact Hb.
  Qed.

Lemma unmarshal_body_keeps (d : Decoder) (b : Streaming.body t) (n : Name)
    (attrs : list Attr) :
    holdsOn (Streaming.Content b) ->
    snd (fst (Streaming.unmarshal_body d b n attrs)) = None ->
    holdsOn (Streaming.Content (fst (fst (Streaming.unmarshal_body d b n attrs)))).
  Proof.
    intros Hb. unfold Streaming.unmarshal_body, unmarshalInterface.
    pose proof (body_UnmarshalXML_keeps (pushEOF d) b n attrs Hb) as H.
    destruct (Streaming.body_UnmarshalXML b (pushEOF d) n attrs) as [[b' e] d'].
    simpl in H. destruct e as [err|]; [simpl; discriminate|].
    destruct (popEOF d') as [[|] d'']; simpl; [|discriminate].
    intros _. now apply H.
  Qed.

Lemma bodies_keep (d : Decoder) :
    forall b : Streaming.body t,
      holdsOn (Streaming.Content b) ->
      let r := structLoop "Body" (@Streaming.unmarshal_body t)
                 (@Streaming.unmarshal_body_le t) d b in
      snd (fst r) = None -> holdsOn (Streaming.Content (fst (fst r))).
  Proof.
    induction d as [d IH] using decoder_ind. intros b Hb.
    cbv zeta. rewrite structLoop_eq.
    destruct (Decoder_Token d) as [[tok|err] d'] eqn:Htok; [|simpl; discriminate].
    pose proof (Token_shrinks Htok) as Hlt.
    destruct tok; try (apply IH; assumption); [|simpl; intros _; exact Hb].
    destruct (String.eqb "Body" (Local n)).
    - pose proof (unmarshal_body_keeps d' b n attrs Hb) as H.
      pose proof (Streaming.unmarshal_body_le d' b n attrs) as Hle.
      destruct (Streaming.unmarshal_body d' b n attrs) as [[b' e] d''].
      simpl in H, Hle. destruct e as [err|]; [simpl; discriminate|].
      apply IH; [lia | now apply H].
    - pose proof (Skip_loop_le d' 0) as Hle. unfold Decoder_Skip.
      destruct (Skip_loop d' 0) as [[err|] d'']; [simpl; discriminate|].
      simpl in Hle. apply IH; [lia | assumption].
  Qed.

Lemma Decode_envelope_keeps (d : Decoder) (env : Streaming.envelope t) :
    holdsOn (Streaming.Content (Streaming.Body env)) ->
    snd (fst (Streaming.Decode_envelope d env)) = None ->
    holdsOn (Streaming.Content
               (Streaming.Body (fst (fst (Streaming.Decode_envelope d env))))).
  Proof.
    intros Hb. unfold Streaming.Decode_envelope.
    destruct (findStart d) as [[[n a]|err] d']; [|simpl; discriminate].
    destruct (negb (String.eqb "Envelope" (Local n))); [simpl; discriminate|].
    destruct (negb (String.eqb soapNS (Space n))); [simpl; discriminate|].
    pose proof (bodies_keep d' (Streaming.Body env) Hb) as H. cbv zeta in H.
    destruct (structLoop _ _ _ d' (Streaming.Body env)) as [[b e] d''].
    simpl in *. exact H.
  Qed.

Lemma Streaming_call_keeps (S : Stack) (c : Streaming.Client) (action : string)
    (targs : Ty) (args : denote targs) (rs : denote t) (w : World S) :
    P rs ->
    snd (fst (Streaming.call S c action targs args t rs w)) = None ->
    P (fst (fst (Streaming.call S c action targs args t rs w))).
  Proof.
    intros Hrs. unfold Streaming.call.
    destruct (Streaming.Encode_envelope _) as [err|doc]; [simpl; discriminate|].
    destruct (http_NewRequestWithContext _ _ _ _ _) as [err|req]; [simpl; discriminate|].
    unfold bind, httpClient_Do.
    destruct (RoundTrip S (net w) _) as [[err|resp] n']; [simpl; discriminate|].
    destruct (if String.eqb _ "gzip" then _ else _) as [err|reader];
      [simpl; discriminate|].
    destruct (negb (StatusCode resp =? http_StatusOK)%Z).
    - destruct (Streaming.Decode_envelope _ _) as [[env' [err|]] d']; simpl; discriminate.
    - match goal with |- context [Streaming.Decode_envelope ?d ?env] =>
        pose proof (Decode_envelope_keeps d env Hrs) as H;
        destruct (Streaming.Decode_envelope d env) as [[env' e] d'] end.
      simpl in *. intros He. specialize (H He).
      unfold Streaming.pointee. destruct (Streaming.Content (Streaming.Body env')); assumption.
  Qed.
End DecodeKeeps.


(** ** The bookmark set of [GetBookmarks] *)

(** A struct without attribute fields takes nothing from a start tag. *)
Fixpoint noAttrFields (enc : XMLNameTag) (fs : Fields) : bool :=
  match fs with
  | FNil => true
  | FCons d t rest =>
    negb (FieldMode_eqb (fi_mode (finfoOf enc d t)) fAttr) && noAttrFields enc rest
  end.

Lemma assignAttr_noAttrFields (enc : XMLNameTag) (fs : Fields) :
  noAttrFields enc fs = true ->
  forall (vals : denoteFields fs) (a : Attr), assignAttr enc fs vals a = (vals, None).
Proof.
  induction fs as [|d t rest IH]; simpl; intros H vals a.
  - reflexivity.
  - apply andb_true_iff in H as [H1 H2]. apply negb_true_iff in H1.
    rewrite H1. simpl. rewrite (IH H2). now destruct vals.
Qed.

Lemma assignAttrs_noAttrFields (enc : XMLNameTag) (fs : Fields) (attrs : list Attr) :
  noAttrFields enc fs = true ->
  forall vals : denoteFields fs, assignAttrs enc fs vals attrs = (vals, None).
Proof.
  intros H. induction attrs as [|a rest IH]; simpl; intros vals.
  - reflexivity.
  - rewrite (assignAttr_noAttrFields enc fs H). apply IH.
Qed.

Lemma unmarshal_struct_eq (g : string) (x : XMLNameTag) (fs : Fields)
  (v : denote (TStruct g x fs)) (n : Name) (attrs : list Attr) (children : list Node) :
  unmarshal (TStruct g x fs) v n attrs children
  = match getTypeInfo x fs with
    | Some e => (v, Some e)
    | None =>
      if negb (String.eqb (xname x) "") && negb (String.eqb (xname x) (Local n)) then
        (v, Some (UnmarshalError ("expected element type <" ++ xname x
                                   ++ "> but have <" ++ Local n ++ ">")))
      else if negb (String.eqb (xmlns x) "") && negb (String.eqb (xmlns x) (Space n)) then
        (v, Some (UnmarshalError ("expected element <" ++ xname x ++ "> in name space "
                                   ++ xmlns x ++ " but have " ++ haveSpace (Space n))))
      else
        let (vals1, e1) := assignAttrs x fs (snd v) attrs in
        match e1 with
        | Some err => ((n, vals1), Some err)
        | None =>
          let (vals2, e2) := childrenLoop (unmarshalPath x fs) children vals1 in
          ((n, vals2), e2)
        end
    end.
Proof.
  reflexivity.
Qed.

(** The name space of the bookmark set, as its [XMLName] tag gives it. *)
Definition bookmarkNS : string := "http://www.daisy.org/z3986/2005/bookmark/".

(** A child of [getBookmarksResponse] that the field [BookmarkSet]
    accepts lies in the name space of the response, and the type
    [BookmarkSet] refuses an element of that name space. *)
Lemma BookmarkSet_refuses (v : denote BookmarkSet_T) (cn : Name) (ca : list Attr)
  (cch : list Node) :
  String.eqb daisyNS (Space cn) = true ->
  snd (unmarshal BookmarkSet_T v cn ca cch) <> None.
Proof.
  intros Hns. apply String.eqb_eq in Hns.
  unfold BookmarkSet_T. rewrite unmarshal_struct_eq.
  destruct (getTypeInfo _ _); [simpl; discriminate|].
  destruct (negb _ && negb (String.eqb _ (Local cn))); [simpl; discriminate|].
  rewrite <- Hns. simpl. discriminate.
Qed.

Definition getBookmarksResponse_fields : Fields :=
  fld "BookmarkSet" (tagged "bookmarkSet" fElement false) BookmarkSet_T FNil.

Lemma getBookmarksResponse_path (vals : denoteFields getBookmarksResponse_fields)
  (cn : Name) (ca : list Attr) (cch : list Node) :
  let r := unmarshalPath (mkXMLName daisyNS "getBookmarksResponse")
                         getBookmarksResponse_fields vals cn ca cch in
  snd r = None -> fst r = vals.
Proof.
  unfold getBookmarksResponse_fields, fld, tagged.
  cbn [unmarshalPath finfoOf tag tagMode tagName omitEmpty xmlns fi_mode fi_xmlns
       fi_name FieldMode_eqb andb].
  change (String.eqb daisyNS "") with false. cbn [orb].
  destruct (String.eqb daisyNS (Space cn)) eqn:Hns; cbn [andb].
  - destruct (String.eqb "bookmarkSet" (Local cn)).
    + match goal with |- context [let (_, _) := ?u in _] =>
        pose proof (BookmarkSet_refuses (fst vals) cn ca cch Hns : snd u <> None) as H;
        destruct u as [v' [e|]] end;
        [simpl; discriminate | now contradiction H].
    + destruct vals as [bs []]. reflexivity.
  - destruct vals as [bs []]. reflexivity.
Qed.

(** A loop over the children of an element changes nothing when no
    child changes anything. *)
Lemma childrenLoop_fixed {V : Type}
  (path : V -> Name -> list Attr -> list Node -> V * option error) (cs : list Node) :
  (forall vals cn ca cch, snd (path vals cn ca cch) = None ->
                          fst (path vals cn ca cch) = vals) ->
  forall vals, snd (childrenLoop path cs vals) = None ->
               fst (childrenLoop path cs vals) = vals.
Proof.
  intros Hpath. induction cs as [|c rest IH]; intros vals.
  - reflexivity.
  - destruct c as [cn ca cch| | | |]; try apply IH.
    cbn [childrenLoop]. pose proof (Hpath vals cn ca cch) as H.
    destruct (path vals cn ca cch) as [vals' [e|]]; [simpl; discriminate|].
    cbn [fst snd] in H. rewrite H by reflexivity. apply IH.
Qed.

Lemma getBookmarksResponse_keeps_empty (v : denote Streaming.getBookmarksResponse_T)
  (n : Name) (a : list Attr) (ch : list Node) :
  fst (snd v) = zero BookmarkSet_T ->
  snd (unmarshal Streaming.getBookmarksResponse_T v n a ch) = None ->
  fst (snd (fst (unmarshal Streaming.getBookmarksResponse_T v n a ch)))
  = zero BookmarkSet_T.
Proof.
  intros Hv. unfold Streaming.getBookmarksResponse_T.
  rewrite unmarshal_struct_eq.
  destruct (getTypeInfo _ _); [simpl; discriminate|].
  destruct (negb _ && negb (String.eqb _ (Local n))); [simpl; discriminate|].
  destruct (negb _ && negb (String.eqb _ (Space n))); [simpl; discriminate|].
  rewrite assignAttrs_noAttrFields by reflexivity.
  fold getBookmarksResponse_fields.
  pose proof (childrenLoop_fixed
                (unmarshalPath (mkXMLName daisyNS "getBookmarksResponse")
                               getBookmarksResponse_fields)
                ch getBookmarksResponse_path (snd v)) as H.
  match goal with |- context [childrenLoop ?p ch ?x] =>
    change (childrenLoop p ch x) with
      (childrenLoop (unmarshalPath (mkXMLName daisyNS "getBookmarksResponse")
                                   getBookmarksResponse_fields) ch (snd v)) end.
  destruct (childrenLoop (unmarshalPath (mkXMLName daisyNS "getBookmarksResponse")
                                        getBookmarksResponse_fields) ch (snd v))
    as [vals2 e2].
  cbn [fst snd] in *. intros He. rewrite (H He). exact Hv.
Qed.

(** [GetBookmarks] never yields the content of a bookmark set: whatever
    the service answers, the operation fails or returns an empty set.
    The field [BookmarkSet] of the response is tagged without a name
    space, so it inherits the name space of the response, while the
    type [BookmarkSet] insists on its own. *)
Theorem GetBookmarks_never_yields_bookmarks (S : Stack) (c : Streaming.Client)
  (contentID : string) (w : World S) :
  match fst (Streaming.GetBookmarks S c contentID w) with
  | (Some bs, None) => bs = zero BookmarkSet_T
  | (None, Some _) => True
  | _ => False
  end.
Proof.
  unfold Streaming.GetBookmarks, bind.
  pose proof (Streaming_call_keeps Streaming.getBookmarksResponse_T
                (fun v => fst (snd v) = zero BookmarkSet_T)
                getBookmarksResponse_keeps_empty
                S c "getBookmarks" Streaming.getBookmarks_T (zeroName, (contentID, tt))
                (zero Streaming.getBookmarksResponse_T) w eq_refl) as H.
  destruct (Streaming.call _ _ _ _ _ _ _ w) as [[resp [e|]] w']; simpl in *.
  - exact I.
  - now apply H.
Qed.

(** ** Requests that can always be encoded

    [xml.Marshal] and [Encoder.Encode] fail on a value only through its
    type: a struct whose tags [getTypeInfo] rejects, or an attribute
    field that holds a struct.  [encodable] is that check. *)
Fixpoint attrOK (t : Ty) : bool :=
  match t with
  | TString | TBool | TInt _ => true
  | TPtr t' => attrOK t'
  | TSlice t' => attrOK t'
  | TStruct _ _ _ => false
  end.

Definition isNil {A : Type} (o : option A) : bool :=
  match o with None => true | Some _ => false end.

Fixpoint encodable (t : Ty) : bool :=
  match t with
  | TStruct _ x fs => isNil (getTypeInfo x fs) && encodableFields x fs
  | TPtr t' => encodable t'
  | TSlice t' => encodable t'
  | _ => true
  end
with encodableFields (enc : XMLNameTag) (fs : Fields) : bool :=
  match fs with
  | FNil => true
  | FCons d t rest =>
    (match fi_mode (finfoOf enc d t) with
     | fAttr => attrOK t
     | fElement => encodable t
     end) && encodableFields enc rest
  end.

Lemma marshalAttr_total (t : Ty) :
  attrOK t = true ->
  forall (v : denote t) (nm : Name), exists a, marshalAttr t v nm = inr a.
Proof.
  induction t as [| |bits|g x fs|t IH|t IH]; simpl; intros H v nm;
    try discriminate; try (eexists; reflexivity).
  - destruct v as [v|]; [now apply IH | now exists []].
  - induction v as [|v l IHl]; [now exists []|].
    destruct (IH H v nm) as [a ->]. destruct IHl as [b ->]. now eexists.
Qed.

Lemma marshalValue_total (t : Ty) :
  encodable t = true ->
  forall (v : denote t) (fi : fieldInfo), exists nodes, marshalValue t v fi = inr nodes.
Proof.
  induction t using Ty_Fields_ind
    with (P0 := fun fs => forall enc, encodableFields enc fs = true ->
                  forall vals : denoteFields fs,
                    (exists a, marshalAttrs enc fs vals = inr a)
                    /\ (exists c, marshalFields enc fs vals = inr c));
    intros.
  - simpl. destruct (_ && _); eexists; reflexivity.
  - simpl. destruct (_ && _); eexists; reflexivity.
  - simpl. destruct (_ && _); eexists; reflexivity.
  - simpl in H. apply andb_true_iff in H as [Hg Hf].
    cbn [marshalValue]. destruct (getTypeInfo x fs); [discriminate|].
    destruct (IHt x Hf (snd v)) as [[a ->] [c ->]]. eexists; reflexivity.
  - simpl in *. destruct v as [v|]; [now apply IHt | now exists []].
  - cbn [marshalValue]. destruct (_ && _); [now exists []|].
    simpl in H. induction v as [|v l IHl]; [now exists []|].
    destruct (IHt H v fi) as [a ->]. destruct IHl as [b ->]. now eexists.
  - split; now exists [].
  - simpl in H. apply andb_true_iff in H as [Hd Hrest].
    destruct (IHt0 enc Hrest (snd vals)) as [[a Ha] [c Hc]].
    cbn [marshalAttrs marshalFields].
    destruct (fi_mode (finfoOf enc d t)) eqn:Hm; cbn [FieldMode_eqb andb].
    + split; [now exists a|].
      destruct (IHt Hd (fst vals) (finfoOf enc d t)) as [b ->]. rewrite Hc.
      now eexists.
    + split; [|now exists c].
      destruct (negb _); [|now exists a].
      destruct (marshalAttr_total t Hd (fst vals)
                  (mkName (fi_xmlns (finfoOf enc d t)) (fi_name (finfoOf enc d t))))
        as [b ->].
      rewrite Ha. now eexists.
Qed.

(** Every request of the streaming transport can be encoded when its
    payload type is encodable. *)
Lemma Streaming_sendable_encodable (S : Stack) (c : Streaming.Client) (targs : Ty)
  (args : denote targs) :
  encodable targs = true ->
  notNil (Streaming.ctx c) = true -> url_Parse S (Streaming.url c) = None ->
  Streaming_sendable S c targs args.
Proof.
  intros He Hc Hu. repeat split; try assumption.
  apply marshalValue_total, He.
Qed.

Lemma InnerXml_sendable_encodable (S : Stack) (c : InnerXml.Client) (targs : Ty)
  (args : denote targs) :
  encodable targs = true -> url_Parse S (InnerXml.url c) = None ->
  InnerXml_sendable S c targs args.
Proof.
  intros He Hu. split; [assumption|]. apply marshalValue_total, He.
Qed.


(** The response to [getBookmarks] of a conforming service, as the
    decoder reads it: the bookmark set lies in its own name space. *)
Definition getBookmarksResponseNode (attrs bsAttrs : list Attr) (bookmarks : list Node)
  : Node :=
  Elem (mkName daisyNS "getBookmarksResponse") attrs
       [Elem (mkName bookmarkNS "bookmarkSet") bsAttrs bookmarks].

Lemma unmarshal_getBookmarksResponseNode (attrs bsAttrs : list Attr)
  (bookmarks : list Node) :
  unmarshal Streaming.getBookmarksResponse_T (zero Streaming.getBookmarksResponse_T)
            (mkName daisyNS "getBookmarksResponse") attrs
            [Elem (mkName bookmarkNS "bookmarkSet") bsAttrs bookmarks]
  = ((mkName daisyNS "getBookmarksResponse", (zero BookmarkSet_T, tt)), None).
Proof.
  unfold Streaming.getBookmarksResponse_T. rewrite unmarshal_struct_eq.
  change (getTypeInfo _ _) with (@None error).
  cbn [xname xmlns Local Space]. rewrite !String.eqb_refl. cbn [negb andb].
  rewrite assignAttrs_noAttrFields by reflexivity.
  reflexivity.
Qed.

(** The bookmark set of a conforming response is dropped: the
    operation returns an empty set and no error, whatever bookmarks
    the service sent. *)
Theorem conforming_bookmarks_are_dropped (S : Stack) (w : World S) (resp : Response)
  (c : Streaming.Client) (contentID : string)
  (pre post : list Node) (eattrs : list Attr) (before : list Node) (bn : Name)
  (battrs attrs bsAttrs : list Attr) (bookmarks sibs after : list Node) :
  notNil (Streaming.ctx c) = true ->
  url_Parse S (Streaming.url c) = None ->
  answers S w resp ->
  StatusCode resp = http_StatusOK ->
  yieldsEnvelope resp pre
    (envelopeNode eattrs before bn battrs
       (getBookmarksResponseNode attrs bsAttrs bookmarks :: sibs) after) post ->
  leaves pre -> Local bn = "Body" -> noBody before -> noBody after ->
  fst (Streaming.GetBookmarks S c contentID w) = (Some (zero BookmarkSet_T), None).
Proof.
  intros Hc Hu Hans Hst Hy Hpre Hbn Hb Ha.
  assert (Hs : Streaming_sendable S c Streaming.getBookmarks_T
                 (zeroName, (contentID, tt)))
    by (apply Streaming_sendable_encodable; [reflexivity | assumption | assumption]).
  pose proof (Streaming_call_answered "getBookmarks" Streaming.getBookmarksResponse_T
                (zero Streaming.getBookmarksResponse_T) Hs Hans) as Hcall.
  rewrite (Streaming_receive_ok _ _ _ _ _ _ _ _ _ _ _ Hst Hy Hpre Hbn Hb Ha) in Hcall.
  unfold getBookmarksResponseNode in Hcall. cbn [firstElem] in Hcall.
  rewrite unmarshal_getBookmarksResponseNode in Hcall.
  unfold Streaming.GetBookmarks, bind.
  destruct (Streaming.call _ _ _ _ _ _ _ w) as [[r e] w'].
  cbn [fst] in Hcall. inversion Hcall; subst. reflexivity.
Qed.

(** The text of such a response: the response and the bookmark set
    each declare their name space as the default one. *)
Definition bookmarksText : Node :=
  soapEnvelope
    [Elem (mkName "" "getBookmarksResponse") [xmlnsAttr daisyNS]
       [Elem (mkName "" "bookmarkSet") [xmlnsAttr bookmarkNS]
          [Elem (mkName "" "title") [] [Elem (mkName "" "text") [] [Text "A book"]];
           Elem (mkName "" "uid") [] [Text "book-1"]]]].

Definition bookmarksAnswer : Response := plainResponse 200 "200 OK" [bookmarksText].

Lemma conforming_bookmarks_are_dropped_witness :
  fst (Streaming.GetBookmarks (fixedService bookmarksAnswer) streamingClient "book-1"
         (startWorld bookmarksAnswer))
  = (Some (zero BookmarkSet_T), None).
Proof.
  apply (conforming_bookmarks_are_dropped (fixedService bookmarksAnswer)
           (startWorld bookmarksAnswer) bookmarksAnswer streamingClient "book-1"
           [] [] [soapPrefix] [] (mkName soapNS "Body") []
           [xmlnsAttr daisyNS] [xmlnsAttr bookmarkNS]
           [Elem (mkName bookmarkNS "title") []
                 [Elem (mkName bookmarkNS "text") [] [Text "A book"]];
            Elem (mkName bookmarkNS "uid") [] [Text "book-1"]] [] []).
  - reflexivity.
  - reflexivity.
  - apply fixedService_answers.
  - reflexivity.
  - apply (plainResponse_yields 200 "200 OK" bookmarksText).
  - reflexivity.
  - reflexivity.
  - reflexivity.
  - reflexivity.
Defined.

(** ** The facade: how the error of a call is reported *)

(** An operation reports the error of its call wrapped with the name of
    the operation, and reports none when the call reports none. *)
Definition reportsWrapped {S : Stack} {A B : Type} (action : string)
  (inner : M S (B * option error)) (m : M S (A * option error)) : Prop :=
  forall w, snd (fst (m w))
            = option_map (Wrapped (action ++ " operation: ")) (snd (fst (inner w))).

(** An operation reports the error of its call as it is. *)
Definition reportsUnchanged {S : Stack} {A B : Type}
  (inner : M S (B * option error)) (m : M S (A * option error)) : Prop :=
  forall w, snd (fst (m w)) = snd (fst (inner w)).

(** The error of an operation that returns or panics. *)
Definition outcomeError {A : Type} (out : Outcome (A * option error))
  : Outcome (option error) :=
  match out with
  | Returned (_, e) => Returned e
  | Panicked v => Panicked v
  end.

Definition reportsUnchangedReturned {S : Stack} {A B : Type}
  (inner : M S (Outcome (B * option error))) (m : M S (Outcome (A * option error)))
  : Prop :=
  forall w, outcomeError (fst (m w)) = outcomeError (fst (inner w)).

Ltac facade_reports :=
  intros w; unfold bind;
  match goal with
  | |- context [?call ?S ?c ?action ?targs ?args ?trs ?rs w] =>
    destruct (call S c action targs args trs rs w) as [[resp [e|]] w']
  end; reflexivity.

Ltac facade_reports_returned :=
  intros w; unfold bind;
  match goal with
  | |- context [?call ?S ?c ?action ?targs ?args ?trs ?rs w] =>
    destruct (call S c action targs args trs rs w) as [[[resp [e|]]|v] w']
  end; reflexivity.

(** Every operation of the streaming revision reports the error of its
    call wrapped with the prefix [<action> operation: ], and no error
    when the call reports none.  The wrapping keeps the cause
    reachable: the message is the prefix followed by the message of the
    cause, and [errors.As] finds in the wrapped error the fault it
    finds in the cause. *)
Theorem streaming_operations_wrap_the_error (S : Stack) :
  (forall (c : Streaming.Client) (username : string) (password : string),
     reportsWrapped "logOn"
       (Streaming.call S c "logOn" (Streaming.logOn_T) (zeroName, (username, (password, tt))) Streaming.logOnResponse_T (zero Streaming.logOnResponse_T))
       (Streaming.LogOn S c username password))
  /\
  (forall (c : Streaming.Client),
     reportsWrapped "logOff"
       (Streaming.call S c "logOff" (Streaming.logOff_T) (zeroName, tt) Streaming.logOffResponse_T (zero Streaming.logOffResponse_T))
       (Streaming.LogOff S c))
  /\
  (forall (c : Streaming.Client),
     reportsWrapped "getServiceAttributes"
       (Streaming.call S c "getServiceAttributes" (Streaming.getServiceAttributes_T) (zeroName, tt) Streaming.getServiceAttributesResponse_T (zero Streaming.getServiceAttributesResponse_T))
       (Streaming.GetServiceAttributes S c))
  /\
  (forall (c : Streaming.Client) (readingSystemAttributes : option (denote ReadingSystemAttributes_T)),
     reportsWrapped "setReadingSystemAttributes"
       (Streaming.call S c "setReadingSystemAttributes" (Streaming.setReadingSystemAttributes_T) (zeroName, (readingSystemAttributes, tt)) Streaming.setReadingSystemAttributesResponse_T (zero Streaming.setReadingSystemAttributesResponse_T))
       (Streaming.SetReadingSystemAttributes S c readingSystemAttributes))
  /\
  (forall (c : Streaming.Client) (id : string) (firstItem : Z) (lastItem : Z),
     reportsWrapped "getContentList"
       (Streaming.call S c "getContentList" (Streaming.getContentList_T) (zeroName, (id, (firstItem, (lastItem, tt)))) Streaming.getContentListResponse_T (zero Streaming.getContentListResponse_T))
       (Streaming.GetContentList S c id firstItem lastItem))
  /\
  (forall (c : Streaming.Client) (contentID : string),
     reportsWrapped "getContentMetadata"
       (Streaming.call S c "getContentMetadata" (Streaming.getContentMetadata_T) (zeroName, (contentID, tt)) Streaming.getContentMetadataResponse_T (zero Streaming.getContentMetadataResponse_T))
       (Streaming.GetContentMetadata S c contentID))
  /\
  (forall (c : Streaming.Client) (contentID : string),
     reportsWrapped "getContentResources"
       (Streaming.call S c "getContentResources" (Streaming.getContentResources_T) (zeroName, (contentID, tt)) Streaming.getContentResourcesResponse_T (zero Streaming.getContentResourcesResponse_T))
       (Streaming.GetContentResources S c contentID))
  /\
  (forall (c : Streaming.Client) (contentID : string),
     reportsWrapped "issueContent"
       (Streaming.call S c "issueContent" (Streaming.issueContent_T) (zeroName, (contentID, tt)) Streaming.issueContentResponse_T (zero Streaming.issueContentResponse_T))
       (Streaming.IssueContent S c contentID))
  /\
  (forall (c : Streaming.Client) (contentID : string),
     reportsWrapped "returnContent"
       (Streaming.call S c "returnContent" (Streaming.returnContent_T) (zeroName, (contentID, tt)) Streaming.returnContentResponse_T (zero Streaming.returnContentResponse_T))
       (Streaming.ReturnContent S c contentID))
  /\
  (forall (c : Streaming.Client) (userResponses : option (denote UserResponses_T)),
     reportsWrapped "getQuestions"
       (Streaming.call S c "getQuestions" (Streaming.getQuestions_T) (zeroName, (userResponses, tt)) Streaming.getQuestionsResponse_T (zero Streaming.getQuestionsResponse_T))
       (Streaming.GetQuestions S c userResponses))
  /\
  (forall (c : Streaming.Client),
     reportsWrapped "getServiceAnnouncements"
       (Streaming.call S c "getServiceAnnouncements" (Streaming.getServiceAnnouncements_T) (zeroName, tt) Streaming.getServiceAnnouncementsResponse_T (zero Streaming.getServiceAnnouncementsResponse_T))
       (Streaming.GetServiceAnnouncements S c))
  /\
  (forall (c : Streaming.Client) (contentID : string) (bookmarkSet : option (denote BookmarkSet_T)),
     reportsWrapped "setBookmarks"
       (Streaming.call S c "setBookmarks" (Streaming.setBookmarks_T) (zeroName, (contentID, (bookmarkSet, tt))) Streaming.setBookmarksResponse_T (zero Streaming.setBookmarksResponse_T))
       (Streaming.SetBookmarks S c contentID bookmarkSet))
  /\
  (forall (c : Streaming.Client) (contentID : string),
     reportsWrapped "getBookmarks"
       (Streaming.call S c "getBookmarks" (Streaming.getBookmarks_T) (zeroName, (contentID, tt)) Streaming.getBookmarksResponse_T (zero Streaming.getBookmarksResponse_T))
       (Streaming.GetBookmarks S c contentID))
  /\
  (forall (Read_T : Ty) (c : Streaming.Client) (read : option (denote Read_T)),
     reportsWrapped "markAnnouncementsAsRead"
       (Streaming.call S c "markAnnouncementsAsRead" (Streaming.markAnnouncementsAsRead_T Read_T) (zeroName, (read, tt)) Streaming.markAnnouncementsAsReadResponse_T (zero Streaming.markAnnouncementsAsReadResponse_T))
       (Streaming.MarkAnnouncementsAsRead S Read_T c read))
  /\
  (forall (action : string) (cause : error),
     Error (Wrapped (action ++ " operation: ") cause)
     = (action ++ " operation: ") ++ Error cause
     /\ errors_As_Fault (Wrapped (action ++ " operation: ") cause)
        = errors_As_Fault cause).
Proof.
  repeat match goal with |- _ /\ _ => split end;
    try (intros; unfold Streaming.LogOn, Streaming.LogOff, Streaming.GetServiceAttributes,
           Streaming.SetReadingSystemAttributes, Streaming.GetContentList,
           Streaming.GetContentMetadata, Streaming.GetContentResources,
           Streaming.IssueContent, Streaming.ReturnContent, Streaming.GetQuestions,
           Streaming.GetServiceAnnouncements, Streaming.SetBookmarks,
           Streaming.GetBookmarks, Streaming.MarkAnnouncementsAsRead;
         facade_reports).
  intros action cause. split; reflexivity.
Qed.

(** The operations of the two other revisions report the error of
    their call as it is: a fault stays a fault, and the message is the
    one [call] gave.  An operation of the earliest revision panics
    exactly when its call does. *)
Theorem other_operations_pass_the_error (S : Stack) :
  (forall (c : InnerXml.Client) (username : string) (password : string),
     reportsUnchanged
       (InnerXml.call S c "logOn" (InnerXml.logOn_T) (zeroName, (username, (password, tt))) InnerXml.logOnResponse_T (zero InnerXml.logOnResponse_T))
       (InnerXml.LogOn S c username password))
  /\
  (forall (c : InnerXml.Client),
     reportsUnchanged
       (InnerXml.call S c "logOff" (InnerXml.logOff_T) (zeroName, tt) InnerXml.logOffResponse_T (zero InnerXml.logOffResponse_T))
       (InnerXml.LogOff S c))
  /\
  (forall (c : InnerXml.Client),
     reportsUnchanged
       (InnerXml.call S c "getServiceAttributes" (InnerXml.getServiceAttributes_T) (zeroName, tt) InnerXml.getServiceAttributesResponse_T (zero InnerXml.getServiceAttributesResponse_T))
       (InnerXml.GetServiceAttributes S c))
  /\
  (forall (c : InnerXml.Client) (readingSystemAttributes : option (denote ReadingSystemAttributes_T)),
     reportsUnchanged
       (InnerXml.call S c "setReadingSystemAttributes" (InnerXml.setReadingSystemAttributes_T) (zeroName, (readingSystemAttributes, tt)) InnerXml.setReadingSystemAttributesResponse_T (zero InnerXml.setReadingSystemAttributesResponse_T))
       (InnerXml.SetReadingSystemAttributes S c readingSystemAttributes))
  /\
  (forall (c : InnerXml.Client) (id : string) (firstItem : Z) (lastItem : Z),
     reportsUnchanged
       (InnerXml.call S c "getContentList" (InnerXml.getContentList_T) (zeroName, (id, (firstItem, (lastItem, tt)))) InnerXml.getContentListResponse_T (zero InnerXml.getContentListResponse_T))
       (InnerXml.GetContentList S c id firstItem lastItem))
  /\
  (forall (c : InnerXml.Client) (contentID : string),
     reportsUnchanged
       (InnerXml.call S c "getContentMetadata" (InnerXml.getContentMetadata_T) (zeroName, (contentID, tt)) InnerXml.getContentMetadataResponse_T (zero InnerXml.getContentMetadataResponse_T))
       (InnerXml.GetContentMetadata S c contentID))
  /\
  (forall (c : InnerXml.Client) (contentID : string),
     reportsUnchanged
       (InnerXml.call S c "getContentResources" (InnerXml.getContentResources_T) (zeroName, (contentID, tt)) InnerXml.getContentResourcesResponse_T (zero InnerXml.getContentResourcesResponse_T))
       (InnerXml.GetContentResources S c contentID))
  /\
  (forall (c : InnerXml.Client) (contentID : string),
     reportsUnchanged
       (InnerXml.call S c "issueContent" (InnerXml.issueContent_T) (zeroName, (contentID, tt)) InnerXml.issueContentResponse_T (zero InnerXml.issueContentResponse_T))
       (InnerXml.IssueContent S c contentID))
  /\
  (forall (c : InnerXml.Client) (contentID : string),
     reportsUnchanged
       (InnerXml.call S c "returnContent" (InnerXml.returnContent_T) (zeroName, (contentID, tt)) InnerXml.returnContentResponse_T (zero InnerXml.returnContentResponse_T))
       (InnerXml.ReturnContent S c contentID))
  /\
  (forall (c : InnerXml.Client) (userResponses : option (denote UserResponses_T)),
     reportsUnchanged
       (InnerXml.call S c "getQuestions" (InnerXml.getQuestions_T) (zeroName, (userResponses, tt)) InnerXml.getQuestionsResponse_T (zero InnerXml.getQuestionsResponse_T))
       (InnerXml.GetQuestions S c userResponses))
  /\
  (forall (c : InnerXml.Client),
     reportsUnchanged
       (InnerXml.call S c "getServiceAnnouncements" (InnerXml.getServiceAnnouncements_T) (zeroName, tt) InnerXml.getServiceAnnouncementsResponse_T (zero InnerXml.getServiceAnnouncementsResponse_T))
       (InnerXml.GetServiceAnnouncements S c))
  /\
  (forall (c : Legacy.Client) (username : string) (password : string),
     reportsUnchangedReturned
       (Legacy.call S c "logOn" (Legacy.LogOn_T) (zeroName, (username, (password, tt))) Legacy.LogOnResponse_T (zero Legacy.LogOnResponse_T))
       (Legacy.LogOn S c username password))
  /\
  (forall (c : Legacy.Client),
     reportsUnchangedReturned
       (Legacy.call S c "logOff" (Legacy.LogOff_T) (zeroName, tt) Legacy.LogOffResponse_T (zero Legacy.LogOffResponse_T))
       (Legacy.LogOff S c))
  /\
  (forall (c : Legacy.Client),
     reportsUnchangedReturned
       (Legacy.call S c "getServiceAttributes" (Legacy.GetServiceAttributes_T) (zeroName, tt) Legacy.GetServiceAttributesResponse_T (zero Legacy.GetServiceAttributesResponse_T))
       (Legacy.GetServiceAttributes S c))
  /\
  (forall (c : Legacy.Client) (readingSystemAttributes : option (denote ReadingSystemAttributes_T)),
     reportsUnchangedReturned
       (Legacy.call S c "setReadingSystemAttributes" (Legacy.SetReadingSystemAttributes_T) (zeroName, (readingSystemAttributes, tt)) Legacy.SetReadingSystemAttributesResponse_T (zero Legacy.SetReadingSystemAttributesResponse_T))
       (Legacy.SetReadingSystemAttributes S c readingSystemAttributes))
  /\
  (forall (c : Legacy.Client) (id : string) (firstItem : Z) (lastItem : Z),
     reportsUnchangedReturned
       (Legacy.call S c "getContentList" (Legacy.GetContentList_T) (zeroName, (id, (firstItem, (lastItem, tt)))) Legacy.GetContentListResponse_T (zero Legacy.GetContentListResponse_T))
       (Legacy.GetContentList S c id firstItem lastItem))
  /\
  (forall (c : Legacy.Client) (contentID : string),
     reportsUnchangedReturned
       (Legacy.call S c "getContentMetadata" (Legacy.GetContentMetadata_T) (zeroName, (contentID, tt)) Legacy.GetContentMetadataResponse_T (zero Legacy.GetContentMetadataResponse_T))
       (Legacy.GetContentMetadata S c contentID))
  /\
  (forall (c : Legacy.Client) (contentID : string),
     reportsUnchangedReturned
       (Legacy.call S c "getContentResources" (Legacy.GetContentResources_T) (zeroName, (contentID, tt)) Legacy.GetContentResourcesResponse_T (zero Legacy.GetContentResourcesResponse_T))
       (Legacy.GetContentResources S c contentID))
  /\
  (forall (c : Legacy.Client) (contentID : string),
     reportsUnchangedReturned
       (Legacy.call S c "issueContent" (Legacy.IssueContent_T) (zeroName, (contentID, tt)) Legacy.IssueContentResponse_T (zero Legacy.IssueContentResponse_T))
       (Legacy.IssueContent S c contentID))
  /\
  (forall (c : Legacy.Client) (contentID : string),
     reportsUnchangedReturned
       (Legacy.call S c "returnContent" (Legacy.ReturnContent_T) (zeroName, (contentID, tt)) Legacy.ReturnContentResponse_T (zero Legacy.ReturnContentResponse_T))
       (Legacy.ReturnContent S c contentID))
  /\
  (forall (c : Legacy.Client) (userResponses : option (denote UserResponses_T)),
     reportsUnchangedReturned
       (Legacy.call S c "getQuestions" (Legacy.GetQuestions_T) (zeroName, (userResponses, tt)) Legacy.GetQuestionsResponse_T (zero Legacy.GetQuestionsResponse_T))
       (Legacy.GetQuestions S c userResponses))
  /\
  (forall (c : Legacy.Client),
     reportsUnchangedReturned
       (Legacy.call S c "getServiceAnnouncements" (Legacy.GetServiceAnnouncements_T) (zeroName, tt) Legacy.GetServiceAnnouncementsResponse_T (zero Legacy.GetServiceAnnouncementsResponse_T))
       (Legacy.GetServiceAnnouncements S c)).
Proof.
  repeat match goal with |- _ /\ _ => split end; intros;
    first [ unfold InnerXml.LogOn, InnerXml.LogOff, InnerXml.GetServiceAttributes,
              InnerXml.SetReadingSystemAttributes, InnerXml.GetContentList,
              InnerXml.GetContentMetadata, InnerXml.GetContentResources,
              InnerXml.IssueContent, InnerXml.ReturnContent, InnerXml.GetQuestions,
              InnerXml.GetServiceAnnouncements; facade_reports
          | unfold Legacy.LogOn, Legacy.LogOff, Legacy.GetServiceAttributes,
              Legacy.SetReadingSystemAttributes, Legacy.GetContentList,
              Legacy.GetContentMetadata, Legacy.GetContentResources,
              Legacy.IssueContent, Legacy.ReturnContent, Legacy.GetQuestions,
              Legacy.GetServiceAnnouncements; facade_reports_returned ].
Qed.

(** ** The facade: a nil result and an error come together *)

Definition nilOnlyWithError {S : Stack} {A : Type} (m : M S (option A * option error))
  : Prop :=
  forall w, fst (fst (m w)) = None <-> snd (fst (m w)) <> None.

Definition nilOnlyWithErrorReturned {S : Stack} {A : Type}
  (m : M S (Outcome (option A * option error))) : Prop :=
  forall w r e, fst (m w) = Returned (r, e) -> (r = None <-> e <> None).

Ltac facade_nil :=
  intros w; unfold bind;
  match goal with
  | |- context [?call ?S ?c ?action ?targs ?args ?trs ?rs w] =>
    destruct (call S c action targs args trs rs w) as [[resp [e|]] w']
  end; simpl; split; intros H; congruence.

Ltac facade_nil_returned :=
  intros w r e; unfold bind;
  match goal with
  | |- context [?call ?S ?c ?action ?targs ?args ?trs ?rs w] =>
    destruct (call S c action targs args trs rs w) as [[[resp [e'|]]|v] w']
  end; simpl; intros H; inversion H; subst; split; intros H'; congruence.

(** An operation that returns a pointer returns nil exactly when it
    returns an error: a caller that finds no error can follow the
    pointer, even when the response did not hold the element. *)
Theorem nil_result_only_with_error (S : Stack) :
  (forall (c : Streaming.Client),
     nilOnlyWithError (Streaming.GetServiceAttributes S c))
  /\
  (forall (c : Streaming.Client) (id : string) (firstItem : Z) (lastItem : Z),
     nilOnlyWithError (Streaming.GetContentList S c id firstItem lastItem))
  /\
  (forall (c : Streaming.Client) (contentID : string),
     nilOnlyWithError (Streaming.GetContentMetadata S c contentID))
  /\
  (forall (c : Streaming.Client) (contentID : string),
     nilOnlyWithError (Streaming.GetContentResources S c contentID))
  /\
  (forall (c : Streaming.Client) (userResponses : option (denote UserResponses_T)),
     nilOnlyWithError (Streaming.GetQuestions S c userResponses))
  /\
  (forall (c : Streaming.Client),
     nilOnlyWithError (Streaming.GetServiceAnnouncements S c))
  /\
  (forall (c : Streaming.Client) (contentID : string),
     nilOnlyWithError (Streaming.GetBookmarks S c contentID))
  /\
  (forall (c : InnerXml.Client),
     nilOnlyWithError (InnerXml.GetServiceAttributes S c))
  /\
  (forall (c : InnerXml.Client) (id : string) (firstItem : Z) (lastItem : Z),
     nilOnlyWithError (InnerXml.GetContentList S c id firstItem lastItem))
  /\
  (forall (c : InnerXml.Client) (contentID : string),
     nilOnlyWithError (InnerXml.GetContentMetadata S c contentID))
  /\
  (forall (c : InnerXml.Client) (contentID : string),
     nilOnlyWithError (InnerXml.GetContentResources S c contentID))
  /\
  (forall (c : InnerXml.Client) (userResponses : option (denote UserResponses_T)),
     nilOnlyWithError (InnerXml.GetQuestions S c userResponses))
  /\
  (forall (c : InnerXml.Client),
     nilOnlyWithError (InnerXml.GetServiceAnnouncements S c))
  /\
  (forall (c : Legacy.Client),
     nilOnlyWithErrorReturned (Legacy.GetServiceAttributes S c))
  /\
  (forall (c : Legacy.Client) (id : string) (firstItem : Z) (lastItem : Z),
     nilOnlyWithErrorReturned (Legacy.GetContentList S c id firstItem lastItem))
  /\
  (forall (c : Legacy.Client) (contentID : string),
     nilOnlyWithErrorReturned (Legacy.GetContentMetadata S c contentID))
  /\
  (forall (c : Legacy.Client) (contentID : string),
     nilOnlyWithErrorReturned (Legacy.GetContentResources S c contentID))
  /\
  (forall (c : Legacy.Client) (userResponses : option (denote UserResponses_T)),
     nilOnlyWithErrorReturned (Legacy.GetQuestions S c userResponses))
  /\
  (forall (c : Legacy.Client),
     nilOnlyWithErrorReturned (Legacy.GetServiceAnnouncements S c)).
Proof.
  repeat match goal with |- _ /\ _ => split end; intros;
    first [ unfold Streaming.GetServiceAttributes, Streaming.GetContentList,
              Streaming.GetContentMetadata, Streaming.GetContentResources,
              Streaming.GetQuestions, Streaming.GetServiceAnnouncements,
              Streaming.GetBookmarks; facade_nil
          | unfold InnerXml.GetServiceAttributes, InnerXml.GetContentList,
              InnerXml.GetContentMetadata, InnerXml.GetContentResources,
              InnerXml.GetQuestions, InnerXml.GetServiceAnnouncements; facade_nil
          | unfold Legacy.GetServiceAttributes, Legacy.GetContentList,
              Legacy.GetContentMetadata, Legacy.GetContentResources,
              Legacy.GetQuestions, Legacy.GetServiceAnnouncements; facade_nil_returned ].
Qed.


(** ** The facade: no operation fails to encode its request *)

(** A computation that hands one request for [url] to the HTTP client
    and after it at most releases the idle connections. *)
Definition sendsOne {S : Stack} {A : Type} (url : string) (m : M S A) : Prop :=
  forall w, exists req rest,
    trace (snd (m w)) = app (trace w) (EvDo req :: rest)
    /\ URL req = url /\ forallb isRelease rest = true.

Lemma Streaming_call_sendsOne (S : Stack) (c : Streaming.Client) (action : string)
  (targs : Ty) (args : denote targs) (trs : Ty) (rs : denote trs) :
  encodable targs = true ->
  notNil (Streaming.ctx c) = true -> url_Parse S (Streaming.url c) = None ->
  forall w, exists req,
    trace (snd (Streaming.call S c action targs args trs rs w)) = app (trace w) [EvDo req]
    /\ URL req = Streaming.url c.
Proof.
  intros He Hc Hu w.
  destruct (Streaming_call_trace S c action targs args trs rs w) as (sent & Ht & Hone & Hne).
  specialize (Hne (Streaming_sendable_encodable S c targs args He Hc Hu)).
  destruct Hone as [->|(req & -> & _ & Hurl & _)]; [now contradiction Hne|].
  now exists req.
Qed.

Lemma InnerXml_call_sendsOne (S : Stack) (c : InnerXml.Client) (action : string)
  (targs : Ty) (args : denote targs) (trs : Ty) (rs : denote trs) :
  encodable targs = true -> url_Parse S (InnerXml.url c) = None ->
  forall w, exists req,
    trace (snd (InnerXml.call S c action targs args trs rs w)) = app (trace w) [EvDo req]
    /\ URL req = InnerXml.url c.
Proof.
  intros He Hu w.
  destruct (InnerXml_call_trace S c action targs args trs rs w) as (sent & Ht & Hone & Hne).
  specialize (Hne (InnerXml_sendable_encodable S c targs args He Hu)).
  destruct Hone as [->|(req & -> & _ & Hurl & _)]; [now contradiction Hne|].
  now exists req.
Qed.

Ltac facade_sends call_sendsOne He :=
  intros w; unfold bind;
  match goal with
  | |- context [?call ?S ?c ?action ?targs ?args ?trs ?rs w] =>
    let H := fresh "H" in
    pose proof (call_sendsOne S c action targs args trs rs He) as H;
    repeat (specialize (H ltac:(assumption)));
    destruct H as (req & H & Hurl);
    destruct (call S c action targs args trs rs w) as [[resp [e|]] w'];
    cbn [fst snd] in H |- *; exists req;
    first [ exists []; cbn; repeat split; assumption
          | exists [EvCloseIdleConnections]; cbn; rewrite H, <- app_assoc;
            repeat split; assumption ]
  end.

(** Whatever its arguments, an operation of the two later revisions
    builds its request and hands it to the HTTP client, once, provided
    the client has a context and its URL can be parsed: encoding the
    request never fails.  Only sign-off adds anything after the
    request, the release of the idle connections. *)
Theorem every_operation_sends_its_request (S : Stack) (c : Streaming.Client)
  (c2 : InnerXml.Client) :
  notNil (Streaming.ctx c) = true ->
  url_Parse S (Streaming.url c) = None ->
  url_Parse S (InnerXml.url c2) = None ->
  (forall (username : string) (password : string),
     sendsOne (Streaming.url c) (Streaming.LogOn S c username password))
  /\
  sendsOne (Streaming.url c) (Streaming.LogOff S c)
  /\
  sendsOne (Streaming.url c) (Streaming.GetServiceAttributes S c)
  /\
  (forall (readingSystemAttributes : option (denote ReadingSystemAttributes_T)),
     sendsOne (Streaming.url c) (Streaming.SetReadingSystemAttributes S c readingSystemAttributes))
  /\
  (forall (id : string) (firstItem : Z) (lastItem : Z),
     sendsOne (Streaming.url c) (Streaming.GetContentList S c id firstItem lastItem))
  /\
  (forall (contentID : string),
     sendsOne (Streaming.url c) (Streaming.GetContentMetadata S c contentID))
  /\
  (forall (contentID : string),
     sendsOne (Streaming.url c) (Streaming.GetContentResources S c contentID))
  /\
  (forall (contentID : string),
     sendsOne (Streaming.url c) (Streaming.IssueContent S c contentID))
  /\
  (forall (contentID : string),
     sendsOne (Streaming.url c) (Streaming.ReturnContent S c contentID))
  /\
  (forall (userResponses : option (denote UserResponses_T)),
     sendsOne (Streaming.url c) (Streaming.GetQuestions S c userResponses))
  /\
  sendsOne (Streaming.url c) (Streaming.GetServiceAnnouncements S c)
  /\
  (forall (contentID : string) (bookmarkSet : option (denote BookmarkSet_T)),
     sendsOne (Streaming.url c) (Streaming.SetBookmarks S c contentID bookmarkSet))
  /\
  (forall (contentID : string),
     sendsOne (Streaming.url c) (Streaming.GetBookmarks S c contentID))
  /\
  (forall (Read_T : Ty) (read : option (denote Read_T)),
     encodable (Streaming.markAnnouncementsAsRead_T Read_T) = true ->
     sendsOne (Streaming.url c) (Streaming.MarkAnnouncementsAsRead S Read_T c read))
  /\
  (forall (username : string) (password : string),
     sendsOne (InnerXml.url c2) (InnerXml.LogOn S c2 username password))
  /\
  sendsOne (InnerXml.url c2) (InnerXml.LogOff S c2)
  /\
  sendsOne (InnerXml.url c2) (InnerXml.GetServiceAttributes S c2)
  /\
  (forall (readingSystemAttributes : option (denote ReadingSystemAttributes_T)),
     sendsOne (InnerXml.url c2) (InnerXml.SetReadingSystemAttributes S c2 readingSystemAttributes))
  /\
  (forall (id : string) (firstItem : Z) (lastItem : Z),
     sendsOne (InnerXml.url c2) (InnerXml.GetContentList S c2 id firstItem lastItem))
  /\
  (forall (contentID : string),
     sendsOne (InnerXml.url c2) (InnerXml.GetContentMetadata S c2 contentID))
  /\
  (forall (contentID : string),
     sendsOne (InnerXml.url c2) (InnerXml.GetContentResources S c2 contentID))
  /\
  (forall (contentID : string),
     sendsOne (InnerXml.url c2) (InnerXml.IssueContent S c2 contentID))
  /\
  (forall (contentID : string),
     sendsOne (InnerXml.url c2) (InnerXml.ReturnContent S c2 contentID))
  /\
  (forall (userResponses : option (denote UserResponses_T)),
     sendsOne (InnerXml.url c2) (InnerXml.GetQuestions S c2 userResponses))
  /\
  sendsOne (InnerXml.url c2) (InnerXml.GetServiceAnnouncements S c2).
Proof.
  intros Hc Hu Hu2.
  repeat match goal with |- _ /\ _ => split end; intros;
    first [ unfold Streaming.LogOn, Streaming.LogOff, Streaming.GetServiceAttributes,
              Streaming.SetReadingSystemAttributes, Streaming.GetContentList,
              Streaming.GetContentMetadata, Streaming.GetContentResources,
              Streaming.IssueContent, Streaming.ReturnContent, Streaming.GetQuestions,
              Streaming.GetServiceAnnouncements, Streaming.SetBookmarks,
              Streaming.GetBookmarks, Streaming.MarkAnnouncementsAsRead;
            (facade_sends Streaming_call_sendsOne (@eq_refl bool true)
             || (match goal with H : encodable _ = true |- _ =>
                   facade_sends Streaming_call_sendsOne H end))
          | unfold InnerXml.LogOn, InnerXml.LogOff, InnerXml.GetServiceAttributes,
              InnerXml.SetReadingSystemAttributes, InnerXml.GetContentList,
              InnerXml.GetContentMetadata, InnerXml.GetContentResources,
              InnerXml.IssueContent, InnerXml.ReturnContent, InnerXml.GetQuestions,
              InnerXml.GetServiceAnnouncements;
            facade_sends InnerXml_call_sendsOne (@eq_refl bool true) ].
Qed.

Lemma every_operation_sends_its_request_witness :
  sendsOne serviceURL
    (Streaming.LogOn (fixedService signedOn) streamingClient "u" "p").
Proof.
  apply (proj1 (every_operation_sends_its_request (fixedService signedOn)
                  streamingClient innerXmlClient eq_refl eq_refl eq_refl)).
Defined.


Lemma Legacy_call_returns (S : Stack) (c : Legacy.Client) (method : string)
  (targs : Ty) (args : denote targs) (trs : Ty) (rs : denote trs) (w : World S) :
  encodable targs = true ->
  exists r, fst (Legacy.call S c method targs args trs rs w) = Returned r.
Proof.
  intros He. destruct (marshalValue_total targs He args contentField) as [nodes Hn].
  unfold Legacy.call, Legacy.Marshal_envelope. cbn [Legacy.Content Legacy.Body].
  rewrite Hn. cbv iota.
  destruct (http_NewRequest _ _ _ _) as [err|req]; [eexists; reflexivity|].
  unfold bind, httpClient_Do.
  destruct (RoundTrip S (net w) _) as [[err|resp] n']; [eexists; reflexivity|].
  destruct (negb _); [eexists; reflexivity|].
  destruct (Legacy.Decode_envelopeResponse _ _) as [[envresp [err|]] d'];
    eexists; reflexivity.
Qed.

Ltac facade_returns :=
  intros w; unfold bind;
  match goal with
  | |- context [?call ?S ?c ?action ?targs ?args ?trs ?rs w] =>
    let H := fresh "H" in
    destruct (Legacy_call_returns S c action targs args trs rs w eq_refl) as [r H];
    destruct (call S c action targs args trs rs w) as [out w'];
    cbn [fst] in H; subst out; destruct r as [resp [e|]]; eexists; reflexivity
  end.

(** The earliest revision panics when [xml.Marshal] fails.  For the
    operations whose request is declared in full in the file of the
    revision (it holds strings and numbers only) this never happens:
    whatever the arguments and the answer of the service, the
    operation returns. *)
Theorem first_revision_never_panics (S : Stack) :
  (forall (c : Legacy.Client) (username : string) (password : string) (w : World S),
     exists r, fst (Legacy.LogOn S c username password w) = Returned r)
  /\
  (forall (c : Legacy.Client) (w : World S),
     exists r, fst (Legacy.LogOff S c w) = Returned r)
  /\
  (forall (c : Legacy.Client) (w : World S),
     exists r, fst (Legacy.GetServiceAttributes S c w) = Returned r)
  /\
  (forall (c : Legacy.Client) (id : string) (firstItem : Z) (lastItem : Z) (w : World S),
     exists r, fst (Legacy.GetContentList S c id firstItem lastItem w) = Returned r)
  /\
  (forall (c : Legacy.Client) (contentID : string) (w : World S),
     exists r, fst (Legacy.GetContentMetadata S c contentID w) = Returned r)
  /\
  (forall (c : Legacy.Client) (contentID : string) (w : World S),
     exists r, fst (Legacy.GetContentResources S c contentID w) = Returned r)
  /\
  (forall (c : Legacy.Client) (contentID : string) (w : World S),
     exists r, fst (Legacy.IssueContent S c contentID w) = Returned r)
  /\
  (forall (c : Legacy.Client) (contentID : string) (w : World S),
     exists r, fst (Legacy.ReturnContent S c contentID w) = Returned r)
  /\
  (forall (c : Legacy.Client) (w : World S),
     exists r, fst (Legacy.GetServiceAnnouncements S c w) = Returned r).
Proof.
  repeat match goal with |- _ /\ _ => split end; intros c;
    unfold Legacy.LogOn, Legacy.LogOff, Legacy.GetServiceAttributes,
      Legacy.GetContentList, Legacy.GetContentMetadata, Legacy.GetContentResources,
      Legacy.IssueContent, Legacy.ReturnContent, Legacy.GetServiceAnnouncements;
    intros; revert w; facade_returns.
Qed.

(** ** Calls that fail before an answer arrives *)

(** A client without a context sends nothing: [http.NewRequestWithContext]
    refuses the nil context, and [call] returns its error with the
    destination untouched.  [NewClient] always supplies a context. *)
Theorem nil_context_sends_nothing (S : Stack) (c : Streaming.Client) (action : string)
  (targs : Ty) (args : denote targs) (trs : Ty) (rs : denote trs) (w : World S) :
  encodable targs = true ->
  Streaming.ctx c = None ->
  Streaming.call S c action targs args trs rs w
  = ((rs, Some (RequestError "net/http: nil Context")), w)
  /\ forall url timeout, Streaming.ctx (Streaming.NewClient url timeout) <> None.
Proof.
  intros He Hc. split; [|discriminate].
  destruct (marshalValue_total targs He args contentField) as [nodes Hn].
  unfold Streaming.call, Streaming.Encode_envelope.
  cbn [Streaming.set_Body Streaming.set_Content Streaming.Body Streaming.Content].
  rewrite Hn. cbv iota. unfold http_NewRequestWithContext. rewrite Hc. reflexivity.
Qed.

Lemma nil_context_sends_nothing_witness :
  Streaming.call (fixedService signedOn)
    (Streaming.NewClientWithContext None serviceURL 0) "logOn"
    Streaming.logOn_T logOnRequest Streaming.logOnResponse_T
    (zero Streaming.logOnResponse_T) (startWorld signedOn)
  = ((zero Streaming.logOnResponse_T, Some (RequestError "net/http: nil Context")),
     startWorld signedOn).
Proof.
  apply (proj1 (nil_context_sends_nothing (fixedService signedOn)
                  (Streaming.NewClientWithContext None serviceURL 0) "logOn"
                  Streaming.logOn_T logOnRequest Streaming.logOnResponse_T
                  (zero Streaming.logOnResponse_T) (startWorld signedOn)
                  eq_refl eq_refl)).
Defined.

(** When the URL of the client cannot be parsed no request is made:
    every revision of [call] returns the error of [http.NewRequest],
    leaves the destination untouched and hands nothing to the HTTP
    client. *)
Theorem bad_url_sends_nothing (S : Stack) (action : string) (targs : Ty)
  (args : denote targs) (trs : Ty) (rs : denote trs) (w : World S) (err : error) :
  encodable targs = true ->
  (forall c : Streaming.Client,
     notNil (Streaming.ctx c) = true -> url_Parse S (Streaming.url c) = Some err ->
     Streaming.call S c action targs args trs rs w = ((rs, Some err), w))
  /\
  (forall c : InnerXml.Client,
     url_Parse S (InnerXml.url c) = Some err ->
     InnerXml.call S c action targs args trs rs w = ((rs, Some err), w))
  /\
  (forall c : Legacy.Client,
     url_Parse S (Legacy.url c) = Some err ->
     Legacy.call S c action targs args trs rs w = (Returned (rs, Some err), w)).
Proof.
  intros He. destruct (marshalValue_total targs He args contentField) as [nodes Hn].
  repeat split.
  - intros c Hc Hu. unfold Streaming.call, Streaming.Encode_envelope.
    cbn [Streaming.set_Body Streaming.set_Content Streaming.Body Streaming.Content].
    rewrite Hn. cbv iota. unfold http_NewRequestWithContext.
    destruct (Streaming.ctx c); [|discriminate]. now rewrite Hu.
  - intros c Hu. unfold InnerXml.call, InnerXml.Encode_envelope.
    cbn [InnerXml.Body InnerXml.Content]. rewrite Hn. cbv iota.
    unfold http_NewRequest, http_NewRequestWithContext. now rewrite Hu.
  - intros c Hu. unfold Legacy.call, Legacy.Marshal_envelope.
    cbn [Legacy.Body Legacy.Content]. rewrite Hn. cbv iota.
    unfold http_NewRequest, http_NewRequestWithContext. now rewrite Hu.
Qed.

(** A service behind an HTTP client that refuses every URL without a
    scheme separator, and otherwise answers with [resp]. *)
Definition missingScheme : error := RequestError "missing protocol scheme".

Definition pickyService (resp : Response) : Stack :=
  mkStack unit (fun _ _ => (inr resp, tt)) (fun n => n)
          (fun u => match cutColon u with
                    | Some _ => None
                    | None => Some missingScheme
                    end).

Lemma bad_url_sends_nothing_witness :
  InnerXml.call (pickyService signedOn) (InnerXml.NewClient "service.example" 0) "logOn"
    InnerXml.logOn_T logOnRequest InnerXml.logOnResponse_T
    (zero InnerXml.logOnResponse_T) (mkWorld (pickyService signedOn) tt [])
  = ((zero InnerXml.logOnResponse_T, Some missingScheme),
     mkWorld (pickyService signedOn) tt []).
Proof.
  apply (proj1 (proj2 (bad_url_sends_nothing (pickyService signedOn) "logOn"
                         InnerXml.logOn_T logOnRequest InnerXml.logOnResponse_T
                         (zero InnerXml.logOnResponse_T)
                         (mkWorld (pickyService signedOn) tt []) missingScheme eq_refl))
               (InnerXml.NewClient "service.example" 0)).
  reflexivity.
Defined.

(** When the HTTP client fails (no connection, a time limit, a
    cancelled context) [call] returns the error of [Do] as it is, after
    exactly one request, and reads no response. *)
Theorem transport_error_is_returned (S : Stack) (action : string) (targs : Ty)
  (args : denote targs) (trs : Ty) (rs : denote trs) (w : World S) (err : error) :
  encodable targs = true ->
  (forall req, fst (RoundTrip S (net w) req) = inl err) ->
  (forall c : Streaming.Client,
     notNil (Streaming.ctx c) = true -> url_Parse S (Streaming.url c) = None ->
     fst (Streaming.call S c action targs args trs rs w) = (rs, Some err)
     /\ exists req, trace (snd (Streaming.call S c action targs args trs rs w))
                    = app (trace w) [EvDo req])
  /\
  (forall c : InnerXml.Client,
     url_Parse S (InnerXml.url c) = None ->
     fst (InnerXml.call S c action targs args trs rs w) = (rs, Some err)
     /\ exists req, trace (snd (InnerXml.call S c action targs args trs rs w))
                    = app (trace w) [EvDo req])
  /\
  (forall c : Legacy.Client,
     url_Parse S (Legacy.url c) = None ->
     fst (Legacy.call S c action targs args trs rs w) = Returned (rs, Some err)
     /\ exists req, trace (snd (Legacy.call S c action targs args trs rs w))
                    = app (trace w) [EvDo req]).
Proof.
  intros He Hdo. destruct (marshalValue_total targs He args contentField) as [nodes Hn].
  repeat split.
  - unfold Streaming.call, Streaming.Encode_envelope.
    cbn [Streaming.set_Body Streaming.set_Content Streaming.Body Streaming.Content].
    rewrite Hn. cbv iota. unfold http_NewRequestWithContext.
    destruct (Streaming.ctx c); [|discriminate]. rewrite H0.
    unfold bind, httpClient_Do.
    match goal with |- context [RoundTrip S (net w) ?r] =>
      pose proof (Hdo r) as Hr; destruct (RoundTrip S (net w) r) as [x n'] end.
    cbn [fst] in Hr. subst x. reflexivity.
  - unfold Streaming.call, Streaming.Encode_envelope.
    cbn [Streaming.set_Body Streaming.set_Content Streaming.Body Streaming.Content].
    rewrite Hn. cbv iota. unfold http_NewRequestWithContext.
    destruct (Streaming.ctx c); [|discriminate]. rewrite H0.
    unfold bind, httpClient_Do.
    match goal with |- context [RoundTrip S (net w) ?r] =>
      pose proof (Hdo r) as Hr; destruct (RoundTrip S (net w) r) as [x n'] end.
    cbn [fst] in Hr. subst x. eexists. reflexivity.
  - unfold InnerXml.call, InnerXml.Encode_envelope.
    cbn [InnerXml.Body InnerXml.Content]. rewrite Hn. cbv iota.
    unfold http_NewRequest, http_NewRequestWithContext. rewrite H.
    unfold bind, httpClient_Do.
    match goal with |- context [RoundTrip S (net w) ?r] =>
      pose proof (Hdo r) as Hr; destruct (RoundTrip S (net w) r) as [x n'] end.
    cbn [fst] in Hr. subst x. reflexivity.
  - unfold InnerXml.call, InnerXml.Encode_envelope.
    cbn [InnerXml.Body InnerXml.Content]. rewrite Hn. cbv iota.
    unfold http_NewRequest, http_NewRequestWithContext. rewrite H.
    unfold bind, httpClient_Do.
    match goal with |- context [RoundTrip S (net w) ?r] =>
      pose proof (Hdo r) as Hr; destruct (RoundTrip S (net w) r) as [x n'] end.
    cbn [fst] in Hr. subst x. eexists. reflexivity.
  - unfold Legacy.call, Legacy.Marshal_envelope.
    cbn [Legacy.Body Legacy.Content]. rewrite Hn. cbv iota.
    unfold http_NewRequest, http_NewRequestWithContext. rewrite H.
    unfold bind, httpClient_Do.
    match goal with |- context [RoundTrip S (net w) ?r] =>
      pose proof (Hdo r) as Hr; destruct (RoundTrip S (net w) r) as [x n'] end.
    cbn [fst] in Hr. subst x. reflexivity.
  - unfold Legacy.call, Legacy.Marshal_envelope.
    cbn [Legacy.Body Legacy.Content]. rewrite Hn. cbv iota.
    unfold http_NewRequest, http_NewRequestWithContext. rewrite H.
    unfold bind, httpClient_Do.
    match goal with |- context [RoundTrip S (net w) ?r] =>
      pose proof (Hdo r) as Hr; destruct (RoundTrip S (net w) r) as [x n'] end.
    cbn [fst] in Hr. subst x. eexists. reflexivity.
Qed.

(** A service that cannot be reached. *)
Definition connectionRefused : error := TransportError "connection refused".

Definition deadService : Stack :=
  mkStack unit (fun _ _ => (inl connectionRefused, tt)) (fun n => n) (fun _ => None).

Lemma transport_error_is_returned_witness :
  fst (Streaming.call deadService streamingClient "logOn"
         Streaming.logOn_T logOnRequest Streaming.logOnResponse_T
         (zero Streaming.logOnResponse_T) (mkWorld deadService tt []))
  = (zero Streaming.logOnResponse_T, Some connectionRefused).
Proof.
  apply (proj1 (proj1 (transport_error_is_returned deadService "logOn"
                         Streaming.logOn_T logOnRequest Streaming.logOnResponse_T
                         (zero Streaming.logOnResponse_T) (mkWorld deadService tt [])
                         connectionRefused eq_refl (fun _ => eq_refl))
                      streamingClient eq_refl eq_refl)).
Defined.

(** ** The session initialization sequence *)

(** The action a request announces in its [SOAPAction] header. *)
Definition actionOf (e : Event) : option string :=
  match e with
  | EvDo req => Some (Header_Get (ReqHeader req) "SOAPAction")
  | EvCloseIdleConnections => None
  end.

Definition succeeded {A : Type} (out : Outcome (A * option error)) : bool :=
  match out with
  | Returned (_, None) => true
  | _ => false
  end.

(** What a step of the sequence does to the trace: it adds the request
    of [action], or nothing, and it succeeds only after a request. *)
Definition step {S : Stack} {A : Type} (action : string)
  (m : M S (Outcome (A * option error))) : Prop :=
  forall w,
    (trace (snd (m w)) = trace w /\ succeeded (fst (m w)) = false)
    \/ exists req, trace (snd (m w)) = app (trace w) [EvDo req]
                   /\ actionOf (EvDo req) = Some ("/" ++ action).

Lemma Legacy_call_step (S : Stack) (c : Legacy.Client) (action : string)
  (targs : Ty) (args : denote targs) (trs : Ty) (rs : denote trs) :
  step action (Legacy.call S c action targs args trs rs).
Proof.
  intros w. unfold Legacy.call.
  destruct (Legacy.Marshal_envelope _) as [err|doc]; [left; split; reflexivity|].
  unfold http_NewRequest, http_NewRequestWithContext.
  destruct (url_Parse S (Legacy.url c)); [left; split; reflexivity|].
  right. unfold bind, httpClient_Do.
  destruct (RoundTrip S (net w) _) as [[err|resp] n']; [eexists; split; reflexivity|].
  destruct (negb _); [eexists; split; reflexivity|].
  destruct (Legacy.Decode_envelopeResponse _ _) as [[envresp [err|]] d'];
    eexists; split; reflexivity.
Qed.

Ltac facade_step :=
  intros w; unfold bind;
  match goal with
  | |- context [?call ?S ?c ?action ?targs ?args ?trs ?rs w] =>
    let H := fresh "H" in
    pose proof (Legacy_call_step S c action targs args trs rs w) as H;
    destruct (call S c action targs args trs rs w) as [[[resp [e|]]|v] w'];
    cbn [fst snd succeeded] in H |- *; exact H
  end.

Lemma Legacy_LogOn_step (S : Stack) (c : Legacy.Client) (username password : string) :
  step "logOn" (Legacy.LogOn S c username password).
Proof.
  unfold Legacy.LogOn. facade_step.
Qed.

Lemma Legacy_GetServiceAttributes_step (S : Stack) (c : Legacy.Client) :
  step "getServiceAttributes" (Legacy.GetServiceAttributes S c).
Proof.
  unfold Legacy.GetServiceAttributes. facade_step.
Qed.

Lemma Legacy_SetReadingSystemAttributes_step (S : Stack) (c : Legacy.Client)
  (rsa : option (denote ReadingSystemAttributes_T)) :
  step "setReadingSystemAttributes" (Legacy.SetReadingSystemAttributes S c rsa).
Proof.
  unfold Legacy.SetReadingSystemAttributes. facade_step.
Qed.

Definition authenticationActions : list (option string) :=
  [Some "/logOn"; Some "/getServiceAttributes"; Some "/setReadingSystemAttributes"].

(** [Authentication] runs sign-on, the retrieval of the service
    attributes and the announcement of the reading system attributes,
    in this order, each at most once, and stops at the first step that
    fails: the requests it makes are a prefix of the three.  It returns
    no error only after all three requests, and then with the service
    attributes; when sign-on fails it ends with the error of sign-on. *)
Theorem Authentication_runs_in_order (S : Stack) (client : Legacy.Client)
  (rsa : option (denote ReadingSystemAttributes_T)) (username password : string)
  (w : World S) :
  let run := Legacy.Authentication S client rsa username password w in
  (exists sent k,
     trace (snd run) = app (trace w) sent
     /\ map actionOf sent = firstn k authenticationActions
     /\ (succeeded (fst run) = true -> k = 3))
  /\ (forall sa, fst run = Returned (sa, None) -> sa <> None)
  /\ (forall b e, fst (Legacy.LogOn S client username password w) = Returned (b, Some e) ->
        run = (Returned (None, Some e), snd (Legacy.LogOn S client username password w))).
Proof.
  cbv zeta. unfold Legacy.Authentication, bind. repeat split.
  - pose proof (Legacy_LogOn_step S client username password w) as H1.
    destruct (Legacy.LogOn S client username password w) as [[[b [e|]]|v] w1];
      unfold ret; cbn [fst snd succeeded] in *;
      try (destruct H1 as [[-> _]|(r1 & -> & A1)];
           [exists [], 0 | exists [EvDo r1], 1];
           (split; [now rewrite ?app_nil_r|]); (split; [|discriminate]);
           [reflexivity | cbn [map firstn authenticationActions]; now rewrite A1]).
    destruct H1 as [[_ H1]|(r1 & T1 & A1)]; [discriminate H1|].
    pose proof (Legacy_GetServiceAttributes_step S client w1) as H2.
    destruct (Legacy.GetServiceAttributes S client w1) as [[[sa [e|]]|v] w2];
      unfold ret; cbn [fst snd succeeded] in *;
      try (destruct H2 as [[-> _]|(r2 & -> & A2)]; rewrite T1;
           [exists [EvDo r1], 1 | exists [EvDo r1; EvDo r2], 2];
           (split; [now rewrite <- ?app_assoc|]); (split; [|discriminate]);
           cbn [map firstn authenticationActions]; now rewrite ?A1, ?A2).
    destruct H2 as [[_ H2]|(r2 & T2 & A2)]; [discriminate H2|].
    pose proof (Legacy_SetReadingSystemAttributes_step S client rsa w2) as H3.
    destruct (Legacy.SetReadingSystemAttributes S client rsa w2) as [[[ok [e|]]|v] w3];
      unfold ret; cbn [fst snd succeeded] in *;
      try (destruct H3 as [[-> _]|(r3 & -> & A3)]; rewrite T2, T1;
           [exists [EvDo r1; EvDo r2], 2 | exists [EvDo r1; EvDo r2; EvDo r3], 3];
           (split; [now rewrite <- ?app_assoc|]); (split; [|discriminate]);
           cbn [map firstn authenticationActions]; now rewrite ?A1, ?A2, ?A3).
    destruct H3 as [[_ H3]|(r3 & T3 & A3)]; [discriminate H3|].
    rewrite T3, T2, T1. exists [EvDo r1; EvDo r2; EvDo r3], 3.
    split; [now rewrite <- !app_assoc|]. split; [|reflexivity].
    cbn [map firstn authenticationActions]. now rewrite A1, A2, A3.
  - intros sa.
    destruct (Legacy.LogOn S client username password w) as [[[b [e|]]|v] w1];
      unfold ret; cbn [fst]; try discriminate.
    unfold Legacy.GetServiceAttributes, bind.
    destruct (Legacy.call S client _ _ _ _ _ w1) as [[[resp [e|]]|v] w2];
      unfold ret; cbn [fst]; try discriminate.
    destruct (Legacy.SetReadingSystemAttributes S client rsa w2) as [[[ok [e|]]|v] w3];
      unfold ret; cbn [fst]; try discriminate.
    intros H. inversion H. subst. discriminate.
  - intros b e H.
    destruct (Legacy.LogOn S client username password w) as [out w1].
    cbn [fst snd] in *. subst out. reflexivity.
Qed.

(** ** Answers

    [bodyHolds resp inner]: what the decoder of the response reads from
    [resp] is, after a prolog without elements, an envelope in the SOAP
    name space with a single [Body], which holds [inner]; anything may
    follow the envelope.  [bodyHoldsRaw] is the same for the earliest
    revision, which reads the body as it is.

    [bodyText resp inner]: the text of [resp] is, after a prolog
    without elements, an element [Envelope] with a single [Body], in
    whatever name space; [inner] is the text of the body.
    [bodyTextRaw] is the same for the earliest revision. *)
Definition bodyHolds (resp : Response) (inner : list Node) : Prop :=
  exists pre post eattrs before bn battrs after,
    yieldsEnvelope resp pre (envelopeNode eattrs before bn battrs inner after) post
    /\ leaves pre /\ Local bn = "Body" /\ noBody before /\ noBody after.

Definition bodyHoldsRaw (resp : Response) (inner : list Node) : Prop :=
  exists pre post eattrs before bn battrs after,
    yieldsEnvelopeRaw resp pre (envelopeNode eattrs before bn battrs inner after) post
    /\ leaves pre /\ Local bn = "Body" /\ noBody before /\ noBody after.

Definition bodyText (resp : Response) (inner : list Node) : Prop :=
  exists pre post en eattrs before bn battrs after,
    yieldsText resp (pre ++ envelopeText en eattrs before bn battrs inner after :: post)
    /\ leaves pre /\ Local en = "Envelope" /\ Local bn = "Body"
    /\ noBody before /\ noBody after.

Definition bodyTextRaw (resp : Response) (inner : list Node) : Prop :=
  exists pre post en eattrs before bn battrs after,
    yieldsTextRaw resp (pre ++ envelopeText en eattrs before bn battrs inner after :: post)
    /\ leaves pre /\ Local en = "Envelope" /\ Local bn = "Body"
    /\ noBody before /\ noBody after.

(** The text behind a body that the decoder reads. *)
Lemma bodyHolds_text (resp : Response) (inner : list Node) :
  bodyHolds resp inner ->
  exists ns winner, bodyText resp winner /\ map (resolve ns) winner = inner.
Proof.
  intros (pre & post & ea & before & bn & ba & after & (written & Hy & Hw)
          & H1 & H2 & H3 & H4).
  destruct (envelopeNode_text _ _ _ _ _ _ _ _ _ Hw H1 H2 H3 H4)
    as (wpre & wpost & en & wea & wbefore & wbn & wba & winner & wafter
        & -> & H5 & H6 & H7 & H8 & H9 & H10 & _).
  exists (declare (declare [] wea) wba), winner. split; [|exact H10].
  exists wpre, wpost, en, wea, wbefore, wbn, wba, wafter. now repeat split.
Qed.

Lemma bodyHoldsRaw_text (resp : Response) (inner : list Node) :
  bodyHoldsRaw resp inner ->
  exists ns winner, bodyTextRaw resp winner /\ map (resolve ns) winner = inner.
Proof.
  intros (pre & post & ea & before & bn & ba & after & (written & Hy & Hw)
          & H1 & H2 & H3 & H4).
  destruct (envelopeNode_text _ _ _ _ _ _ _ _ _ Hw H1 H2 H3 H4)
    as (wpre & wpost & en & wea & wbefore & wbn & wba & winner & wafter
        & -> & H5 & H6 & H7 & H8 & H9 & H10 & _).
  exists (declare (declare [] wea) wba), winner. split; [|exact H10].
  exists wpre, wpost, en, wea, wbefore, wbn, wba, wafter. now repeat split.
Qed.

(** The text behind the first element of a body: its name is written
    with the same local name. *)
Lemma first_text (ns : Bindings) (winner : list Node) (n : Name) (a : list Attr)
  (ch sibs : list Node) :
  map (resolve ns) winner = Elem n a ch :: sibs ->
  exists wn wa wch wsibs, winner = Elem wn wa wch :: wsibs /\ Local wn = Local n.
Proof.
  destruct winner as [|w ws]; [discriminate|]. cbn [map]. intros H.
  injection H as Hw _.
  apply resolve_Elem_inv in Hw as (wn & wa & wch & -> & Hn & _ & _).
  exists wn, wa, wch, ws. split; [reflexivity|]. now rewrite <- Hn, translate_Local.
Qed.

Lemma plainResponse_bodyHolds (code : Z) (status : string) (inner : list Node) :
  bodyHolds (plainResponse code status [soapEnvelope inner])
            (map (resolve soapBindings) inner).
Proof.
  exists [], [], [soapPrefix], [], (mkName soapNS "Body"), [], [].
  repeat split. apply (plainResponse_yields code status (soapEnvelope inner)).
Qed.

Lemma plainResponse_bodyHoldsRaw (code : Z) (status : string) (inner : list Node) :
  bodyHoldsRaw (plainResponse code status [soapEnvelope inner])
               (map (resolve soapBindings) inner).
Proof.
  exists [], [], [soapPrefix], [], (mkName soapNS "Body"), [], [].
  repeat split. exists [soapEnvelope inner].
  split; [apply plainResponse_textRaw | reflexivity].
Qed.

Lemma plainResponse_bodyText (code : Z) (status : string) (inner : list Node) :
  bodyText (plainResponse code status [soapEnvelope inner]) inner.
Proof.
  exists [], [], (mkName "SOAP-ENV" "Envelope"), [soapPrefix], [],
         (mkName "SOAP-ENV" "Body"), [], [].
  repeat split. apply (plainResponse_text code status [soapEnvelope inner]).
Qed.

Lemma plainResponse_bodyTextRaw (code : Z) (status : string) (inner : list Node) :
  bodyTextRaw (plainResponse code status [soapEnvelope inner]) inner.
Proof.
  exists [], [], (mkName "SOAP-ENV" "Envelope"), [soapPrefix], [],
         (mkName "SOAP-ENV" "Body"), [], [].
  repeat split. apply (plainResponse_textRaw code status [soapEnvelope inner]).
Qed.

(** What each revision makes of the first element of the body. *)
Definition firstOf {A : Type} (inner : list Node) (none : A)
  (some : Name -> list Attr -> list Node -> A) : A :=
  match firstElem inner with
  | None => none
  | Some (n, a, ch, _) => some n a ch
  end.

(** The text of a body as [xml.Unmarshal] reads it: on its own. *)
Definition reread (inner : list Node) : list Node := map (resolve []) inner.

Lemma Streaming_call_200 (S : Stack) (c : Streaming.Client) (action : string)
  (targs : Ty) (args : denote targs) (trs : Ty) (rs : denote trs) (w : World S)
  (resp : Response) (inner : list Node) :
  Streaming_sendable S c targs args -> answers S w resp ->
  StatusCode resp = http_StatusOK -> bodyHolds resp inner ->
  fst (Streaming.call S c action targs args trs rs w)
  = firstOf inner (rs, None) (unmarshal trs rs).
Proof.
  intros Hs Hans Hst (pre & post & ea & before & bn & ba & after & Hy & H1 & H2 & H3 & H4).
  rewrite (Streaming_call_answered action trs rs Hs Hans).
  rewrite (Streaming_receive_ok _ _ _ _ _ _ _ _ _ _ _ Hst Hy H1 H2 H3 H4).
  unfold firstOf. now destruct (firstElem inner) as [[[[n a] ch] sibs]|].
Qed.

Lemma InnerXml_call_200 (S : Stack) (c : InnerXml.Client) (action : string)
  (targs : Ty) (args : denote targs) (trs : Ty) (rs : denote trs) (w : World S)
  (resp : Response) (inner : list Node) :
  InnerXml_sendable S c targs args -> answers S w resp ->
  StatusCode resp = http_StatusOK -> bodyText resp inner ->
  fst (InnerXml.call S c action targs args trs rs w)
  = firstOf (reread inner) (rs, Some EOF) (unmarshal trs rs).
Proof.
  intros Hs Hans Hst
         (pre & post & en & ea & before & bn & ba & after & Hy & H1 & H2 & H3 & H4 & H5).
  rewrite (InnerXml_call_answered action trs rs Hs Hans).
  rewrite (InnerXml_receive_ok _ _ _ _ _ _ _ _ _ _ _ _ Hst Hy H1 H2 H3 H4 H5).
  unfold firstOf, reread.
  now destruct (firstElem (map (resolve []) inner)) as [[[[n a] ch] sibs]|].
Qed.

Lemma Legacy_call_200 (S : Stack) (c : Legacy.Client) (action : string)
  (targs : Ty) (args : denote targs) (trs : Ty) (rs : denote trs) (w : World S)
  (resp : Response) (inner : list Node) :
  Legacy_sendable S c targs args -> answers S w resp ->
  StatusCode resp = http_StatusOK -> bodyTextRaw resp inner ->
  fst (Legacy.call S c action targs args trs rs w)
  = Returned (firstOf (reread inner) (rs, Some EOF) (unmarshal trs rs)).
Proof.
  intros Hs Hans Hst
         (pre & post & en & ea & before & bn & ba & after & Hy & H1 & H2 & H3 & H4 & H5).
  rewrite (Legacy_call_answered action trs rs Hs Hans).
  rewrite (Legacy_receive_ok _ _ _ _ _ _ _ _ _ _ _ _ Hst Hy H1 H2 H3 H4 H5).
  unfold firstOf, reread.
  now destruct (firstElem (map (resolve []) inner)) as [[[[n a] ch] sibs]|].
Qed.

(** The fault a status other than 200 is turned into. *)
Definition faultOf (wrap : error -> error) (n : Name) (a : list Attr) (ch : list Node)
  : error :=
  match unmarshal Fault_T (zero Fault_T) n a ch with
  | (_, Some e) => e
  | (v, None) => wrap (FaultError (Fault_of v))
  end.

Lemma Streaming_call_other (S : Stack) (c : Streaming.Client) (action : string)
  (targs : Ty) (args : denote targs) (trs : Ty) (rs : denote trs) (w : World S)
  (resp : Response) (inner : list Node) :
  Streaming_sendable S c targs args -> answers S w resp ->
  (StatusCode resp =? http_StatusOK)%Z = false -> bodyHolds resp inner ->
  fst (Streaming.call S c action targs args trs rs w)
  = (rs, Some (firstOf inner (Wrapped "fault: " (FaultError (Fault_of (zero Fault_T))))
                       (faultOf (Wrapped "fault: ")))).
Proof.
  intros Hs Hans Hst (pre & post & ea & before & bn & ba & after & Hy & H1 & H2 & H3 & H4).
  rewrite (Streaming_call_answered action trs rs Hs Hans).
  rewrite (Streaming_receive_other_status resp _ _ Hst). f_equal. f_equal.
  destruct (yieldsEnvelope_decoder _ _ _ _ Hy) as (r & ts & e & Hr & Hdec).
  unfold Streaming_decodeFault. rewrite Hr. cbv zeta. rewrite Hdec.
  match goal with |- context [Streaming.Decode_envelope ?d ?env] =>
    pose proof (Decode_envelope_document env
                  (pre ++ envelopeNode ea before bn ba inner after :: post) ts e
                  (firstElem_leaves pre _ _ _ post H1)) as Hd;
    destruct (Streaming.Decode_envelope d env) as [[env' err] d'] end.
  cbn -[zero unmarshal decodeRoot] in Hd. unfold decodeRoot in Hd.
  cbn -[zero unmarshal decodeBodies] in Hd.
  rewrite decodeBodies_single in Hd by assumption.
  unfold extract in Hd. cbn [Streaming.Content] in Hd.
  unfold firstOf, faultOf. destruct (firstElem inner) as [[[[n a] ch] sibs]|].
  - destruct (unmarshal Fault_T (zero Fault_T) n a ch) as [v' [e'|]];
      inversion Hd; subst; reflexivity.
  - inversion Hd; subst. reflexivity.
Qed.

Lemma InnerXml_call_other (S : Stack) (c : InnerXml.Client) (action : string)
  (targs : Ty) (args : denote targs) (trs : Ty) (rs : denote trs) (w : World S)
  (resp : Response) (inner : list Node) :
  InnerXml_sendable S c targs args -> answers S w resp ->
  (StatusCode resp =? http_StatusOK)%Z = false -> bodyText resp inner ->
  fst (InnerXml.call S c action targs args trs rs w)
  = (rs, Some (firstOf (reread inner) EOF (faultOf (fun e => e)))).
Proof.
  intros Hs Hans Hst
         (pre & post & en & ea & before & bn & ba & after & Hy & H1 & H2 & H3 & H4 & H5).
  rewrite (InnerXml_call_answered action trs rs Hs Hans).
  rewrite (InnerXml_receive_other_status resp _ _ Hst). f_equal. f_equal.
  destruct Hy as (ts & e & Hr).
  unfold InnerXml_decodeFault. rewrite Hr.
  unfold xml_NewDecoder_saving. cbn [content readErr].
  match goal with |- context [InnerXml.Decode_envelopeResponse ?d ?env] =>
    pose proof (InnerXml_Decode_document env
                  (pre ++ envelopeText en ea before bn ba inner after :: post) ts e
                  (firstElem_leaves pre _ _ _ post H1) H2) as Hd;
    destruct (InnerXml.Decode_envelopeResponse d env) as [[env' err] d'] end.
  cbn [fst] in Hd. rewrite lastBody_single in Hd by assumption. cbn [fst snd] in Hd.
  apply pair_equal_spec in Hd as [-> ->]. cbn [InnerXml.Body_Content].
  rewrite xml_Unmarshal_nodes.
  unfold firstOf, faultOf, reread.
  destruct (firstElem (map (resolve []) inner)) as [[[[n a] ch] sibs]|].
  - now destruct (unmarshal Fault_T (zero Fault_T) n a ch) as [v' [e'|]].
  - reflexivity.
Qed.

(** ** An empty body *)

(** A body without elements.  With status 200 [call] of the revision
    that keeps the body as raw XML, and of the earliest revision,
    fails with [io.EOF]: [xml.Unmarshal] finds no element.  With another
    status the streaming revision reports a fault with an empty
    message, and the revision that keeps the body as raw XML reports
    [io.EOF]. *)
Theorem empty_body_in_each_revision (S : Stack) (w : World S) (resp : Response)
  (action : string) (targs : Ty) (args : denote targs) (trs : Ty) (rs : denote trs)
  (inner : list Node) :
  answers S w resp ->
  leaves inner ->
  (forall c, InnerXml_sendable S c targs args ->
     StatusCode resp = http_StatusOK -> bodyHolds resp inner ->
     fst (InnerXml.call S c action targs args trs rs w) = (rs, Some EOF))
  /\
  (forall c, Legacy_sendable S c targs args ->
     StatusCode resp = http_StatusOK -> bodyHoldsRaw resp inner ->
     fst (Legacy.call S c action targs args trs rs w) = Returned (rs, Some EOF))
  /\
  (forall c, Streaming_sendable S c targs args ->
     (StatusCode resp =? http_StatusOK)%Z = false -> bodyHolds resp inner ->
     exists e,
       fst (Streaming.call S c action targs args trs rs w) = (rs, Some e)
       /\ Error e = "fault: "
       /\ option_map Fault_Error (errors_As_Fault e) = Some "")
  /\
  (forall c, InnerXml_sendable S c targs args ->
     (StatusCode resp =? http_StatusOK)%Z = false -> bodyHolds resp inner ->
     fst (InnerXml.call S c action targs args trs rs w) = (rs, Some EOF)).
Proof.
  intros Hans Hl. pose proof (firstElem_none inner Hl) as Hnone.
  assert (Hre : forall ns winner,
             map (resolve ns) winner = inner -> firstElem (reread winner) = None).
  { intros ns winner Hw. apply firstElem_none, leaves_resolve.
    apply (leaves_resolve ns). now rewrite Hw. }
  repeat split.
  - intros c Hs Hst Hb. destruct (bodyHolds_text _ _ Hb) as (ns & winner & Ht & Hw).
    rewrite (InnerXml_call_200 _ _ _ _ _ _ _ _ _ _ Hs Hans Hst Ht).
    unfold firstOf. now rewrite (Hre ns winner Hw).
  - intros c Hs Hst Hb. destruct (bodyHoldsRaw_text _ _ Hb) as (ns & winner & Ht & Hw).
    rewrite (Legacy_call_200 _ _ _ _ _ _ _ _ _ _ Hs Hans Hst Ht).
    unfold firstOf. now rewrite (Hre ns winner Hw).
  - intros c Hs Hst Hb. rewrite (Streaming_call_other _ _ _ _ _ _ _ _ _ _ Hs Hans Hst Hb).
    unfold firstOf. rewrite Hnone. eexists. repeat split.
  - intros c Hs Hst Hb. destruct (bodyHolds_text _ _ Hb) as (ns & winner & Ht & Hw).
    rewrite (InnerXml_call_other _ _ _ _ _ _ _ _ _ _ Hs Hans Hst Ht).
    unfold firstOf. now rewrite (Hre ns winner Hw).
Qed.

Lemma empty_body_in_each_revision_witness :
  fst (InnerXml.call (fixedService emptyAnswer) innerXmlClient "logOn"
         InnerXml.logOn_T logOnRequest InnerXml.logOnResponse_T
         (zero InnerXml.logOnResponse_T) (startWorld emptyAnswer))
  = (zero InnerXml.logOnResponse_T, Some EOF).
Proof.
  apply (proj1 (empty_body_in_each_revision (fixedService emptyAnswer)
                  (startWorld emptyAnswer) emptyAnswer "logOn"
                  InnerXml.logOn_T logOnRequest InnerXml.logOnResponse_T
                  (zero InnerXml.logOnResponse_T) [Text " "]
                  (fixedService_answers emptyAnswer) eq_refl)
               innerXmlClient).
  - apply InnerXml_sendable_encodable; reflexivity.
  - reflexivity.
  - apply (plainResponse_bodyHolds 200 "200 OK" [Text " "]).
Defined.

(** ** An element the destination does not expect *)

Lemma unmarshal_unexpected (g : string) (x : XMLNameTag) (fs : Fields)
  (v : denote (TStruct g x fs)) (n : Name) (a : list Attr) (ch : list Node) :
  getTypeInfo x fs = None ->
  String.eqb (xname x) "" = false ->
  String.eqb (xname x) (Local n) = false ->
  unmarshal (TStruct g x fs) v n a ch
  = (v, Some (UnmarshalError ("expected element type <" ++ xname x
                               ++ "> but have <" ++ Local n ++ ">"))).
Proof.
  intros Hg H1 H2. rewrite unmarshal_struct_eq, Hg, H1, H2. reflexivity.
Qed.

Lemma unmarshal_foreign (g : string) (x : XMLNameTag) (fs : Fields)
  (v : denote (TStruct g x fs)) (n : Name) (a : list Attr) (ch : list Node) :
  getTypeInfo x fs = None ->
  String.eqb (xmlns x) "" = false ->
  String.eqb (xmlns x) (Space n) = false ->
  exists msg, unmarshal (TStruct g x fs) v n a ch = (v, Some (UnmarshalError msg)).
Proof.
  intros Hg H1 H2. rewrite unmarshal_struct_eq, Hg, H1, H2.
  destruct (negb _ && negb _); eexists; reflexivity.
Qed.

(** When the first element of the body is not the one the destination
    is declared for, a call with status 200 fails with the error of
    [encoding/xml] that names both elements, and leaves the destination
    untouched: a fault sent with status 200 is reported this way, not
    as a fault.  This holds for the three revisions and every
    destination that is a struct with a named [XMLName]. *)
Theorem unexpected_element_is_refused (S : Stack) (w : World S) (resp : Response)
  (action : string) (targs : Ty) (args : denote targs)
  (g : string) (x : XMLNameTag) (fs : Fields) (rs : denote (TStruct g x fs))
  (n : Name) (a : list Attr) (ch sibs : list Node) :
  answers S w resp ->
  StatusCode resp = http_StatusOK ->
  getTypeInfo x fs = None ->
  String.eqb (xname x) "" = false ->
  String.eqb (xname x) (Local n) = false ->
  let refusal := UnmarshalError ("expected element type <" ++ xname x
                                  ++ "> but have <" ++ Local n ++ ">") in
  (forall c, Streaming_sendable S c targs args ->
     bodyHolds resp (Elem n a ch :: sibs) ->
     fst (Streaming.call S c action targs args (TStruct g x fs) rs w) = (rs, Some refusal))
  /\
  (forall c, InnerXml_sendable S c targs args ->
     bodyHolds resp (Elem n a ch :: sibs) ->
     fst (InnerXml.call S c action targs args (TStruct g x fs) rs w) = (rs, Some refusal))
  /\
  (forall c, Legacy_sendable S c targs args ->
     bodyHoldsRaw resp (Elem n a ch :: sibs) ->
     fst (Legacy.call S c action targs args (TStruct g x fs) rs w)
     = Returned (rs, Some refusal)).
Proof.
  intros Hans Hst Hg H1 H2. cbv zeta. repeat split; intros c Hs Hb.
  - rewrite (Streaming_call_200 _ _ _ _ _ _ _ _ _ _ Hs Hans Hst Hb).
    unfold firstOf. cbn [firstElem]. now apply unmarshal_unexpected.
  - destruct (bodyHolds_text _ _ Hb) as (ns & winner & Ht & Hw).
    destruct (first_text _ _ _ _ _ _ Hw) as (wn & wa & wch & wsibs & -> & Hn).
    rewrite (InnerXml_call_200 _ _ _ _ _ _ _ _ _ _ Hs Hans Hst Ht).
    unfold firstOf, reread. cbn [map resolve firstElem]. rewrite <- Hn in *.
    rewrite (unmarshal_unexpected g x fs rs _ _ _ Hg H1)
      by now rewrite translate_Local.
    now rewrite translate_Local.
  - destruct (bodyHoldsRaw_text _ _ Hb) as (ns & winner & Ht & Hw).
    destruct (first_text _ _ _ _ _ _ Hw) as (wn & wa & wch & wsibs & -> & Hn).
    rewrite (Legacy_call_200 _ _ _ _ _ _ _ _ _ _ Hs Hans Hst Ht).
    unfold firstOf, reread. cbn [map resolve firstElem]. rewrite <- Hn in *.
    rewrite (unmarshal_unexpected g x fs rs _ _ _ Hg H1)
      by now rewrite translate_Local.
    now rewrite translate_Local.
Qed.

Lemma unexpected_element_is_refused_witness :
  fst (InnerXml.call (fixedService acceptedFault) innerXmlClient "logOn"
         InnerXml.logOn_T logOnRequest InnerXml.logOnResponse_T
         (zero InnerXml.logOnResponse_T) (startWorld acceptedFault))
  = (zero InnerXml.logOnResponse_T,
     Some (UnmarshalError "expected element type <logOnResponse> but have <Fault>")).
Proof.
  apply (proj1 (proj2 (unexpected_element_is_refused (fixedService acceptedFault)
                  (startWorld acceptedFault) acceptedFault "logOn"
                  InnerXml.logOn_T logOnRequest
                  "logOnResponse" (mkXMLName "" "logOnResponse")
                  (fld "LogOnResult" (tagged "logOnResult" fElement false) TBool FNil)
                  (zero InnerXml.logOnResponse_T)
                  (mkName "" "Fault") []
                  [Elem (mkName "" "faultstring") [] [Text "Invalid credentials"]] []
                  (fixedService_answers acceptedFault) eq_refl eq_refl eq_refl eq_refl))
               innerXmlClient).
  - apply InnerXml_sendable_encodable; reflexivity.
  - apply (plainResponse_bodyHolds 200 "200 OK" [invalidCredentials]).
Defined.

(** The streaming revision declares the name space of every response.
    A response element with the right name outside that name space is
    refused, and the destination stays untouched. *)
Theorem foreign_name_space_is_refused (S : Stack) (w : World S) (resp : Response)
  (c : Streaming.Client) (action : string) (targs : Ty) (args : denote targs)
  (g : string) (x : XMLNameTag) (fs : Fields) (rs : denote (TStruct g x fs))
  (n : Name) (a : list Attr) (ch sibs : list Node) :
  Streaming_sendable S c targs args ->
  answers S w resp ->
  StatusCode resp = http_StatusOK ->
  bodyHolds resp (Elem n a ch :: sibs) ->
  getTypeInfo x fs = None ->
  String.eqb (xmlns x) "" = false ->
  String.eqb (xmlns x) (Space n) = false ->
  exists msg,
    fst (Streaming.call S c action targs args (TStruct g x fs) rs w)
    = (rs, Some (UnmarshalError msg)).
Proof.
  intros Hs Hans Hst Hb Hg H1 H2.
  rewrite (Streaming_call_200 _ _ _ _ _ _ _ _ _ _ Hs Hans Hst Hb).
  unfold firstOf. cbn [firstElem]. now apply unmarshal_foreign.
Qed.

(** A sign-on result outside every name space. *)
Definition bareLogOnResponse : Node :=
  Elem (mkName "" "logOnResponse") [] [Elem (mkName "" "logOnResult") [] [Text "true"]].

Definition bareSignedOn : Response :=
  plainResponse 200 "200 OK" [soapEnvelope [bareLogOnResponse]].

Lemma foreign_name_space_is_refused_witness :
  exists msg,
    fst (Streaming.call (fixedService bareSignedOn) streamingClient "logOn"
           Streaming.logOn_T logOnRequest Streaming.logOnResponse_T
           (zero Streaming.logOnResponse_T) (startWorld bareSignedOn))
    = (zero Streaming.logOnResponse_T, Some (UnmarshalError msg)).
Proof.
  apply (foreign_name_space_is_refused (fixedService bareSignedOn)
           (startWorld bareSignedOn) bareSignedOn streamingClient "logOn"
           Streaming.logOn_T logOnRequest
           "logOnResponse" (mkXMLName daisyNS "logOnResponse")
           (fld "LogOnResult" (tagged "logOnResult" fElement false) TBool FNil)
           (zero Streaming.logOnResponse_T)
           (mkName "" "logOnResponse") []
           [Elem (mkName "" "logOnResult") [] [Text "true"]] []).
  - apply Streaming_sendable_encodable; reflexivity.
  - apply fixedService_answers.
  - reflexivity.
  - apply (plainResponse_bodyHolds 200 "200 OK" [bareLogOnResponse]).
  - reflexivity.
  - reflexivity.
  - reflexivity.
Defined.

(** ** The result of sign-on *)











(** ** The fault of a refused call *)

(** The fault string of a [Fault] element: the text of its last
    [faultstring] child, whatever its name space; [cur] when it has
    none. *)
Fixpoint faultString (cur : string) (children : list Node) : string :=
  match children with
  | [] => cur
  | Elem cn _ cch :: rest =>
    if String.eqb "faultstring" (Local cn) then faultString (charData cch) rest
    else faultString cur rest
  | _ :: rest => faultString cur rest
  end.

Definition noFaultstring (ns : list Node) : Prop :=
  forallb (fun n => match n with
                    | Elem m _ _ => negb (String.eqb "faultstring" (Local m))
                    | _ => true
                    end) ns = true.

Lemma faultString_none (ns : list Node) (cur : string) :
  noFaultstring ns -> faultString cur ns = cur.
Proof.
  unfold noFaultstring. induction ns as [|n ns IH]; simpl; intros H; [reflexivity|].
  apply andb_true_iff in H as [H1 H2].
  destruct n as [m a ch| | | |]; auto.
  apply negb_true_iff in H1. rewrite H1. auto.
Qed.

Lemma faultString_last (pre post : list Node) (fsn : Name) (fa : list Attr)
  (msg cur : string) :
  Local fsn = "faultstring" -> noFaultstring post ->
  faultString cur (pre ++ Elem fsn fa [Text msg] :: post) = msg.
Proof.
  intros Hn Hpost. revert cur. induction pre as [|n pre IH]; intros cur.
  - cbn [app faultString]. rewrite Hn, String.eqb_refl. cbn [charData].
    rewrite append_empty_r. now apply faultString_none.
  - cbn [app faultString]. destruct n as [m a ch| | | |]; auto.
    destruct (String.eqb _ _); auto.
Qed.

Lemma Fault_children (ch : list Node) (cur : string) :
  childrenLoop (unmarshalPath (mkXMLName "" "Fault")
                  (FCons (mkField "Faultstring" (Some (mkTag "faultstring" fElement false)))
                         TString FNil)) ch (cur, tt)
  = ((faultString cur ch, tt), None).
Proof.
  revert cur. induction ch as [|c rest IH]; intros cur; [reflexivity|].
  destruct c as [cn ca cch| | | |]; try apply IH.
  cbn [childrenLoop faultString unmarshalPath finfoOf tag tagMode tagName omitEmpty
       xmlns fi_mode fi_xmlns fi_name FieldMode_eqb andb].
  change (String.eqb "" "") with true. cbn [orb andb].
  destruct (String.eqb "faultstring" (Local cn)).
  - cbn [unmarshal copyScalar fst snd]. apply IH.
  - cbn [unmarshalPath fst snd]. apply IH.
Qed.

Lemma unmarshal_Fault (n : Name) (a : list Attr) (ch : list Node) :
  Local n = "Fault" ->
  unmarshal Fault_T (zero Fault_T) n a ch = ((n, (faultString "" ch, tt)), None).
Proof.
  intros Hn. unfold Fault_T. rewrite unmarshal_struct_eq.
  change (getTypeInfo _ _) with (@None error).
  cbn [xname xmlns]. rewrite Hn, String.eqb_refl. cbn [negb andb].
  change (String.eqb "" "") with true. cbn [negb andb].
  rewrite assignAttrs_noAttrFields by reflexivity.
  cbn [zero zeroFields snd]. now rewrite Fault_children.
Qed.

(** The fault string does not depend on how names are resolved. *)
Lemma charData_resolve (ns : Bindings) (ch : list Node) :
  charData (map (resolve ns) ch) = charData ch.
Proof.
  induction ch as [|c ch IH]; [reflexivity|].
  destruct c; cbn [map resolve charData]; now rewrite ?IH.
Qed.

Lemma faultString_resolve (ns : Bindings) (ch : list Node) :
  forall cur, faultString cur (map (resolve ns) ch) = faultString cur ch.
Proof.
  induction ch as [|c ch IH]; intros cur; [reflexivity|].
  destruct c as [cn ca cch| | | |]; cbn [map resolve faultString]; auto.
  rewrite translate_Local, charData_resolve. now destruct (String.eqb _ _).
Qed.

(** With a status other than 200 the two later revisions read the
    fault from the first element of the body when it is named [Fault],
    in whatever name space and with whatever attributes: the message
    is the text of its last [faultstring] child, and its other
    children (a fault code, a detail) are skipped.  The fault of the
    streaming revision carries the name of the element as the decoder
    of the response resolves it.  The revision that keeps the body as
    raw XML reads the text of the body on its own: its fault carries
    the name as it is resolved with the declarations of the element
    itself and no others. *)
Theorem fault_message_is_the_faultstring (S : Stack) (w : World S) (resp : Response)
  (action : string) (targs : Ty) (args : denote targs) (trs : Ty) (rs : denote trs)
  (n : Name) (a : list Attr) (ch sibs : list Node) :
  answers S w resp ->
  (StatusCode resp =? http_StatusOK)%Z = false ->
  Local n = "Fault" ->
  (forall c, Streaming_sendable S c targs args ->
     bodyHolds resp (Elem n a ch :: sibs) ->
     fst (Streaming.call S c action targs args trs rs w)
     = (rs, Some (Wrapped "fault: " (FaultError (mkFault n (faultString "" ch))))))
  /\
  (forall c, InnerXml_sendable S c targs args ->
     bodyText resp (Elem n a ch :: sibs) ->
     fst (InnerXml.call S c action targs args trs rs w)
     = (rs, Some (FaultError (mkFault (translate (declare [] a) true n)
                                      (faultString "" ch)))))
  /\
  (forall pre post fsn fa msg,
     ch = app pre (Elem fsn fa [Text msg] :: post) ->
     Local fsn = "faultstring" -> noFaultstring post ->
     Fault_Error (mkFault n (faultString "" ch)) = msg).
Proof.
  intros Hans Hst Hn. repeat split.
  - intros c Hs Hb. rewrite (Streaming_call_other _ _ _ _ _ _ _ _ _ _ Hs Hans Hst Hb).
    unfold firstOf, faultOf. cbn [firstElem]. now rewrite unmarshal_Fault.
  - intros c Hs Hb. rewrite (InnerXml_call_other _ _ _ _ _ _ _ _ _ _ Hs Hans Hst Hb).
    unfold firstOf, faultOf, reread. cbn [map resolve firstElem].
    rewrite unmarshal_Fault by now rewrite translate_Local.
    now rewrite faultString_resolve.
  - intros pre post fsn fa msg -> Hf Hp. now apply faultString_last.
Qed.

(** The text of a fault as SOAP 1.1 services write it, under the
    prefix of the envelope. *)
Definition soapFault : Node :=
  Elem (mkName "SOAP-ENV" "Fault") []
       [Elem (mkName "" "faultcode") [] [Text "SOAP-ENV:Client"];
        Elem (mkName "" "faultstring") [] [Text "Session has not been initialized"];
        Elem (mkName "" "detail") []
             [Elem (mkName "" "noActiveSessionFault") [xmlnsAttr daisyNS] []]].

Definition noSession : Response :=
  plainResponse 500 "500 Internal Server Error" [soapEnvelope [soapFault]].

(** The revision that keeps the body as raw XML does not know the
    prefix of the envelope when it reads the fault: the prefix stays
    in the place of the name space. *)
Lemma fault_message_is_the_faultstring_witness :
  fst (InnerXml.call (fixedService noSession) innerXmlClient "getServiceAttributes"
         InnerXml.getServiceAttributes_T (zeroName, tt)
         InnerXml.getServiceAttributesResponse_T
         (zero InnerXml.getServiceAttributesResponse_T) (startWorld noSession))
  = (zero InnerXml.getServiceAttributesResponse_T,
     Some (FaultError (mkFault (mkName "SOAP-ENV" "Fault")
                               "Session has not been initialized"))).
Proof.
  apply (proj1 (proj2 (fault_message_is_the_faultstring (fixedService noSession)
                         (startWorld noSession) noSession "getServiceAttributes"
                         InnerXml.getServiceAttributes_T (zeroName, tt)
                         InnerXml.getServiceAttributesResponse_T
                         (zero InnerXml.getServiceAttributesResponse_T)
                         (mkName "SOAP-ENV" "Fault") []
                         [Elem (mkName "" "faultcode") [] [Text "SOAP-ENV:Client"];
                          Elem (mkName "" "faultstring") []
                               [Text "Session has not been initialized"];
                          Elem (mkName "" "detail") []
                               [Elem (mkName "" "noActiveSessionFault")
                                     [xmlnsAttr daisyNS] []]] []
                         (fixedService_answers noSession) eq_refl eq_refl))
               innerXmlClient).
  - apply InnerXml_sendable_encodable; reflexivity.
  - apply (plainResponse_bodyText 500 "500 Internal Server Error" [soapFault]).
Defined.

(** With a status other than 200, a body whose first element is not
    named [Fault] does not give a fault: the two later revisions return
    the error of [encoding/xml] that names the element, and [errors.As]
    finds no fault in it. *)
Theorem other_element_is_no_fault (S : Stack) (w : World S) (resp : Response)
  (action : string) (targs : Ty) (args : denote targs) (trs : Ty) (rs : denote trs)
  (n : Name) (a : list Attr) (ch sibs : list Node) :
  answers S w resp ->
  (StatusCode resp =? http_StatusOK)%Z = false ->
  bodyHolds resp (Elem n a ch :: sibs) ->
  String.eqb "Fault" (Local n) = false ->
  let refusal := UnmarshalError ("expected element type <Fault> but have <"
                                  ++ Local n ++ ">") in
  (forall c, Streaming_sendable S c targs args ->
     fst (Streaming.call S c action targs args trs rs w) = (rs, Some refusal))
  /\
  (forall c, InnerXml_sendable S c targs args ->
     fst (InnerXml.call S c action targs args trs rs w) = (rs, Some refusal))
  /\ errors_As_Fault refusal = None.
Proof.
  intros Hans Hst Hb Hn. cbv zeta.
  assert (Hu : forall v n' a' ch',
             Local n' = Local n ->
             unmarshal Fault_T v n' a' ch'
             = (v, Some (UnmarshalError ("expected element type <Fault> but have <"
                                          ++ Local n ++ ">")))).
  { intros v n' a' ch' Hl. rewrite <- Hl.
    apply (unmarshal_unexpected "Fault" (mkXMLName "" "Fault")); try reflexivity.
    cbn [xname]. now rewrite Hl. }
  repeat split.
  - intros c Hs. rewrite (Streaming_call_other _ _ _ _ _ _ _ _ _ _ Hs Hans Hst Hb).
    unfold firstOf, faultOf. cbn [firstElem]. now rewrite (Hu _ _ _ _ eq_refl).
  - intros c Hs. destruct (bodyHolds_text _ _ Hb) as (ns & winner & Ht & Hw).
    destruct (first_text _ _ _ _ _ _ Hw) as (wn & wa & wch & wsibs & -> & Hwn).
    rewrite (InnerXml_call_other _ _ _ _ _ _ _ _ _ _ Hs Hans Hst Ht).
    unfold firstOf, faultOf, reread. cbn [map resolve firstElem].
    now rewrite Hu by now rewrite translate_Local.
Qed.

(** Status 500 with the result of a sign-on in the body. *)
Definition refusedWithResult : Response :=
  plainResponse 500 "500 Internal Server Error" [soapEnvelope [logOnResponseNode "true"]].

Lemma other_element_is_no_fault_witness :
  fst (Streaming.call (fixedService refusedWithResult) streamingClient "logOn"
         Streaming.logOn_T logOnRequest Streaming.logOnResponse_T
         (zero Streaming.logOnResponse_T) (startWorld refusedWithResult))
  = (zero Streaming.logOnResponse_T,
     Some (UnmarshalError "expected element type <Fault> but have <logOnResponse>")).
Proof.
  apply (proj1 (other_element_is_no_fault (fixedService refusedWithResult)
                  (startWorld refusedWithResult) refusedWithResult "logOn"
                  Streaming.logOn_T logOnRequest Streaming.logOnResponse_T
                  (zero Streaming.logOnResponse_T)
                  (mkName daisyNS "logOnResponse") [xmlnsAttr daisyNS]
                  [Elem (mkName daisyNS "logOnResult") [] [Text "true"]] []
                  (fixedService_answers refusedWithResult) eq_refl
                  (plainResponse_bodyHolds 500 "500 Internal Server Error"
                     [logOnResponseNode "true"])
                  eq_refl)
               streamingClient).
  apply Streaming_sendable_encodable; reflexivity.
Defined.

(** ** The root element *)

(** [rootIs resp n a ch]: the text of [resp] is, after a prolog without
    elements, an element written with the name [n], the attributes [a]
    and the content [ch]. *)
Definition rootIs (resp : Response) (n : Name) (a : list Attr) (ch : list Node) : Prop :=
  exists pre post, yieldsText resp (pre ++ Elem n a ch :: post) /\ leaves pre.

(** The name of the root as [Decoder.Token] resolves it, with the
    declarations of the root itself. *)
Definition rootName (n : Name) (a : list Attr) : Name := translate (declare [] a) true n.

Lemma Streaming_receive_root (trs : Ty) (rs : denote trs) (resp : Response)
  (n : Name) (a : list Attr) (ch : list Node) (err : error) :
  rootIs resp n a ch ->
  (forall (t : Ty) (env : Streaming.envelope t) (children : list Node),
     decodeRoot env (rootName n a) children = (env, Some err)) ->
  Streaming_receive trs rs resp = (rs, Some err).
Proof.
  intros (pre & post & (ts & e & Hr) & Hpre) Hroot.
  unfold Streaming_receive. rewrite Hr. cbv zeta.
  unfold xml_NewDecoder. rewrite resolved_document, map_app.
  cbn [map resolve content readErr].
  apply (leaves_resolve []) in Hpre.
  unfold rootName in Hroot.
  destruct (negb _);
    match goal with |- context [Streaming.Decode_envelope (NewDecoder (?doc ++ ?ts) ?e) ?env] =>
      pose proof (Decode_envelope_document env
                    (map (resolve []) pre
                     ++ Elem (translate (declare [] a) true n)
                             (map (translateAttr (declare [] a)) a)
                             (map (resolve (declare [] a)) ch)
                     :: map (resolve []) post) ts e
                    (firstElem_leaves _ _ _ _ (map (resolve []) post) Hpre)) as Hd;
      rewrite Hroot in Hd;
      destruct (Streaming.Decode_envelope (NewDecoder (doc ++ ts) e) env)
        as [[env' err'] d'] end;
    cbn [fst] in Hd; inversion Hd; subst; reflexivity.
Qed.

Lemma InnerXml_Decode_root (env : InnerXml.envelopeResponse) (pre post : list Node)
  (ts : list Token) (e : error) (n : Name) (a : list Attr) (ch : list Node) :
  leaves pre -> String.eqb "Envelope" (Local n) = false ->
  fst (InnerXml.Decode_envelopeResponse
         (NewDecoder (flattenAll (pre ++ Elem n a ch :: post) ++ ts) e) env)
  = (env, Some (UnmarshalError ("expected element type <Envelope> but have <"
                                 ++ Local n ++ ">"))).
Proof.
  intros Hpre Hn. unfold InnerXml.Decode_envelopeResponse, NewDecoder.
  rewrite findStart_nodes by exact I.
  rewrite (firstElem_leaves pre n a ch post Hpre). now rewrite Hn.
Qed.

(** The root element of an answer is checked before anything else is
    decoded.  An answer whose root is not named [Envelope] makes the
    two later revisions fail with the error of [encoding/xml] that
    names the element, whatever the status.  The streaming revision
    also insists on the name space of SOAP 1.1; the revision that
    keeps the body as raw XML accepts an envelope in any name space
    and decodes the first element of its body as [xml.Unmarshal] reads
    it from the text of the body alone. *)
Theorem envelope_is_checked (S : Stack) (w : World S) (resp : Response)
  (action : string) (targs : Ty) (args : denote targs) (trs : Ty) (rs : denote trs)
  (n : Name) (a : list Attr) (ch : list Node) :
  answers S w resp ->
  rootIs resp n a ch ->
  (String.eqb "Envelope" (Local n) = false ->
   let refusal := UnmarshalError ("expected element type <Envelope> but have <"
                                   ++ Local n ++ ">") in
   (forall c, Streaming_sendable S c targs args ->
      fst (Streaming.call S c action targs args trs rs w) = (rs, Some refusal))
   /\
   (forall c, InnerXml_sendable S c targs args ->
      fst (InnerXml.call S c action targs args trs rs w) = (rs, Some refusal)))
  /\
  (String.eqb "Envelope" (Local n) = true ->
   String.eqb soapNS (Space (rootName n a)) = false ->
   forall c, Streaming_sendable S c targs args ->
     exists msg,
       fst (Streaming.call S c action targs args trs rs w) = (rs, Some (UnmarshalError msg)))
  /\
  (String.eqb "Envelope" (Local n) = true -> StatusCode resp = http_StatusOK ->
   forall before bn battrs inner after,
     ch = app before (Elem bn battrs inner :: after) ->
     Local bn = "Body" -> noBody before -> noBody after ->
     forall c, InnerXml_sendable S c targs args ->
       fst (InnerXml.call S c action targs args trs rs w)
       = firstOf (reread inner) (rs, Some EOF) (unmarshal trs rs)).
Proof.
  intros Hans Hroot. repeat split.
  - intros c Hs. rewrite (Streaming_call_answered action trs rs Hs Hans).
    apply (Streaming_receive_root trs rs resp n a ch _ Hroot).
    intros t env children. unfold decodeRoot, rootName.
    now rewrite translate_Local, H.
  - intros c Hs. rewrite (InnerXml_call_answered action trs rs Hs Hans).
    destruct Hroot as (pre & post & (ts & e & Hr) & Hpre).
    unfold InnerXml_receive. rewrite Hr.
    unfold xml_NewDecoder_saving. cbn [content readErr].
    pose proof (InnerXml_Decode_root InnerXml.zero_envelopeResponse pre post ts e n a ch
                  Hpre H) as Hd.
    destruct (InnerXml.Decode_envelopeResponse _ _) as [[env' err] d'].
    cbn [fst] in Hd. inversion Hd; subst. reflexivity.
  - intros Hn Hns c Hs. eexists.
    rewrite (Streaming_call_answered action trs rs Hs Hans).
    apply (Streaming_receive_root trs rs resp n a ch _ Hroot).
    intros t env children. unfold decodeRoot.
    unfold rootName in *. rewrite translate_Local, Hn, Hns. reflexivity.
  - intros Hn Hst before bn battrs inner after -> Hbn Hb Ha c Hs.
    apply String.eqb_eq in Hn.
    destruct Hroot as (pre & post & Hy & Hpre).
    rewrite (InnerXml_call_answered action trs rs Hs Hans).
    rewrite (InnerXml_receive_ok trs rs resp pre post n a before bn battrs inner after
               Hst Hy Hpre (eq_sym Hn) Hbn Hb Ha).
    unfold firstOf, reread.
    now destruct (firstElem (map (resolve []) inner)) as [[[[n' a'] ch'] sibs]|].
Qed.

(** An answer that is a page of HTML. *)
Definition htmlPage : Response :=
  plainResponse 200 "200 OK"
    [NDirective "DOCTYPE html";
     Elem (mkName "" "html") [] [Elem (mkName "" "body") [] [Text "Service unavailable"]]].

(** An answer whose envelope is in no name space. *)
Definition bareEnvelope : Response :=
  plainResponse 200 "200 OK"
    [Elem (mkName "" "Envelope") []
          [Elem (mkName "" "Body") [] [logOnResponseNode "true"]]].

Lemma envelope_is_checked_witness :
  fst (Streaming.call (fixedService htmlPage) streamingClient "logOn"
         Streaming.logOn_T logOnRequest Streaming.logOnResponse_T
         (zero Streaming.logOnResponse_T) (startWorld htmlPage))
  = (zero Streaming.logOnResponse_T,
     Some (UnmarshalError "expected element type <Envelope> but have <html>"))
  /\
  fst (InnerXml.call (fixedService bareEnvelope) innerXmlClient "logOn"
         InnerXml.logOn_T logOnRequest InnerXml.logOnResponse_T
         (zero InnerXml.logOnResponse_T) (startWorld bareEnvelope))
  = ((mkName daisyNS "logOnResponse", (true, tt)), None).
Proof.
  split.
  - apply (proj1 (proj1 (envelope_is_checked (fixedService htmlPage) (startWorld htmlPage)
                           htmlPage "logOn" Streaming.logOn_T logOnRequest
                           Streaming.logOnResponse_T (zero Streaming.logOnResponse_T)
                           (mkName "" "html") []
                           [Elem (mkName "" "body") [] [Text "Service unavailable"]]
                           (fixedService_answers htmlPage)
                           (ex_intro _ [NDirective "DOCTYPE html"]
                              (ex_intro _ []
                                 (conj (plainResponse_text 200 "200 OK" _) eq_refl))))
                        eq_refl)
                 streamingClient).
    apply Streaming_sendable_encodable; reflexivity.
  - apply (proj2 (proj2 (envelope_is_checked (fixedService bareEnvelope)
                           (startWorld bareEnvelope) bareEnvelope "logOn"
                           InnerXml.logOn_T logOnRequest
                           InnerXml.logOnResponse_T (zero InnerXml.logOnResponse_T)
                           (mkName "" "Envelope") []
                           [Elem (mkName "" "Body") [] [logOnResponseNode "true"]]
                           (fixedService_answers bareEnvelope)
                           (ex_intro _ []
                              (ex_intro _ []
                                 (conj (plainResponse_text 200 "200 OK" _) eq_refl)))))
                 eq_refl eq_refl [] (mkName "" "Body") [] [logOnResponseNode "true"] []
                 eq_refl eq_refl eq_refl eq_refl innerXmlClient).
    apply InnerXml_sendable_encodable; reflexivity.
Defined.

(** ** Encoding and decoding

    What the encoder writes for a value, the decoder reads back: the
    encoder writes the text of an element, with the declarations of
    its name spaces and with the replacement character in the place
    of what XML cannot carry, and the decoder resolves the names of
    that text. *)

(** *** Numbers and flags *)

Fixpoint allChars (p : ascii -> bool) (s : string) : bool :=
  match s with
  | EmptyString => true
  | String c s' => p c && allChars p s'
  end.

Definition isDigit (c : ascii) : bool :=
  match nat_of_ascii c with
  | 48 | 49 | 50 | 51 | 52 | 53 | 54 | 55 | 56 | 57 => true
  | _ => false
  end.

(** The characters of a formatted number or flag; it ends with one that
    is no sign. *)
Definition isWord (c : ascii) : bool :=
  isDigit c || existsb (Ascii.eqb c) ["a"; "e"; "f"; "l"; "r"; "s"; "t"; "u"]%char.

Definition isNumeral (c : ascii) : bool := isWord c || Ascii.eqb c "-".

(** A character of ASCII that is no white space. *)
Definition solid (c : ascii) : bool :=
  (N_of_ascii c <? 128)%N && negb (IsSpace (N_of_ascii c)).

(** A printable character of ASCII. *)
Definition printable (c : ascii) : bool := between 32 126 (N_of_ascii c).

Lemma isNumeral_solid (c : ascii) : isNumeral c = true -> solid c = true.
Proof.
  destruct c as [[] [] [] [] [] [] [] []]; vm_compute; intros H;
    first [reflexivity | discriminate H].
Qed.

Lemma isNumeral_printable (c : ascii) : isNumeral c = true -> printable c = true.
Proof.
  destruct c as [[] [] [] [] [] [] [] []]; vm_compute; intros H;
    first [reflexivity | discriminate H].
Qed.

Lemma allChars_weaken (p q : ascii -> bool) (s : string) :
  (forall c, p c = true -> q c = true) -> allChars p s = true -> allChars q s = true.
Proof.
  intros Hpq. induction s as [|c s IH]; [reflexivity|].
  cbn [allChars]. intros H. apply andb_true_iff in H as [Hc Hs].
  now rewrite (Hpq c Hc), IH.
Qed.

Lemma DecodeRune_ascii (c : ascii) (s : string) :
  (N_of_ascii c <? 128)%N = true -> DecodeRuneInString (String c s) = (N_of_ascii c, 1).
Proof.
  intros H. unfold DecodeRuneInString. cbv zeta. now rewrite H.
Qed.

Lemma DecodeLastRune_ascii (c : ascii) (r : string) :
  (N_of_ascii c <? 128)%N = true -> DecodeLastRune (String c r) = (N_of_ascii c, 1).
Proof.
  intros H. unfold DecodeLastRune. cbv zeta. now rewrite H.
Qed.

Lemma revOnto_revOnto (s : string) :
  forall acc acc', revOnto (revOnto s acc) acc' = revOnto acc (s ++ acc').
Proof.
  induction s as [|c s IH]; intros acc acc'; [reflexivity|].
  cbn [revOnto append]. now rewrite IH.
Qed.

Lemma reversed_reversed (s : string) : reversed (reversed s) = s.
Proof.
  unfold reversed. rewrite revOnto_revOnto. cbn [revOnto]. apply append_empty_r.
Qed.

Lemma allChars_revOnto (p : ascii -> bool) (s : string) :
  forall acc, allChars p s = true -> allChars p acc = true ->
              allChars p (revOnto s acc) = true.
Proof.
  induction s as [|c s IH]; intros acc Hs Hacc; [exact Hacc|].
  cbn [allChars revOnto] in *. apply andb_true_iff in Hs as [Hc Hs].
  apply IH; [exact Hs|]. cbn [allChars]. now rewrite Hc.
Qed.

(** [strings.TrimSpace] leaves a text without white space as it is. *)
Lemma trimLeft_solid (fuel : nat) (s : string) :
  allChars solid s = true -> trimLeft fuel s = s.
Proof.
  intros H. destruct fuel as [|f]; [reflexivity|].
  destruct s as [|c s]; [reflexivity|].
  cbn [allChars] in H. apply andb_true_iff in H as [Hc _].
  unfold solid in Hc. apply andb_true_iff in Hc as [H1 H2]. apply negb_true_iff in H2.
  cbn [trimLeft]. rewrite (DecodeRune_ascii c s H1). now rewrite H2.
Qed.

Lemma trimRight_solid (fuel : nat) (r : string) :
  allChars solid r = true -> trimRight fuel r = r.
Proof.
  intros H. destruct fuel as [|f]; [reflexivity|].
  destruct r as [|c r]; [reflexivity|].
  cbn [allChars] in H. apply andb_true_iff in H as [Hc _].
  unfold solid in Hc. apply andb_true_iff in Hc as [H1 H2]. apply negb_true_iff in H2.
  cbn [trimRight]. rewrite (DecodeLastRune_ascii c r H1). now rewrite H2.
Qed.

Lemma TrimSpace_solid (s : string) : allChars solid s = true -> TrimSpace s = s.
Proof.
  intros H. unfold TrimSpace. cbv zeta. rewrite (trimLeft_solid _ s H).
  rewrite trimRight_solid; [apply reversed_reversed|].
  now apply allChars_revOnto.
Qed.

Lemma digits_numeral (d : Decimal.uint) :
  allChars isNumeral (DecimalString.NilEmpty.string_of_uint d) = true.
Proof.
  induction d; cbn [DecimalString.NilEmpty.string_of_uint allChars]; auto.
Qed.

Lemma uint_numeral (d : Decimal.uint) :
  allChars isNumeral (DecimalString.NilZero.string_of_uint d) = true.
Proof.
  destruct d; try reflexivity; apply digits_numeral.
Qed.

Lemma FormatInt_numeral (z : Z) : allChars isNumeral (FormatInt z) = true.
Proof.
  unfold FormatInt. destruct (Z.to_int z) as [d|d];
    cbn [DecimalString.NilZero.string_of_int allChars]; apply uint_numeral.
Qed.

Lemma FormatBool_numeral (b : bool) : allChars isNumeral (FormatBool b) = true.
Proof.
  now destruct b.
Qed.

Lemma FormatInt_solid (z : Z) : allChars solid (FormatInt z) = true.
Proof.
  apply (allChars_weaken isNumeral); [apply isNumeral_solid | apply FormatInt_numeral].
Qed.

(** The first character of a formatted number is a digit or the sign. *)
Definition startsPlain (s : string) : bool :=
  match s with
  | EmptyString => false
  | String c _ => isDigit c || Ascii.eqb c "-"
  end.

Lemma uint_startsPlain (d : Decimal.uint) :
  startsPlain (DecimalString.NilZero.string_of_uint d) = true.
Proof.
  destruct d; reflexivity.
Qed.

Lemma FormatInt_startsPlain (z : Z) : startsPlain (FormatInt z) = true.
Proof.
  unfold FormatInt. destruct (Z.to_int z) as [d|d];
    cbn [DecimalString.NilZero.string_of_int]; [apply uint_startsPlain | reflexivity].
Qed.

Lemma ParseInt_plain_start (s : string) (bits : Z) :
  startsPlain s = true ->
  ParseInt s bits
  = match DecimalString.NilZero.int_of_string s with
    | None => inl (NumError "ParseInt" s "invalid syntax")
    | Some d =>
      if inRange bits (Z.of_int d) then inr (Z.of_int d)
      else inl (NumError "ParseInt" s "value out of range")
    end.
Proof.
  destruct s as [|c s]; [discriminate|].
  destruct c as [[] [] [] [] [] [] [] []]; intros H; try reflexivity;
    vm_compute in H; discriminate H.
Qed.

Lemma to_int_proper (z : Z) :
  Z.to_int z <> Decimal.Pos Decimal.Nil /\ Z.to_int z <> Decimal.Neg Decimal.Nil.
Proof.
  destruct z as [|p|p]; cbn [Z.to_int]; split; try discriminate;
    intros H; injection H; apply DecimalPos.Unsigned.to_uint_nonnil.
Qed.

(** [strconv.ParseInt] reads back what [strconv.FormatInt] wrote,
    when the number fits the size of the destination. *)
Lemma ParseInt_FormatInt (z bits : Z) :
  inRange bits z = true -> ParseInt (TrimSpace (FormatInt z)) bits = inr z.
Proof.
  intros Hr. rewrite TrimSpace_solid by apply FormatInt_solid.
  rewrite ParseInt_plain_start by apply FormatInt_startsPlain.
  unfold FormatInt. destruct (to_int_proper z) as [H1 H2].
  rewrite DecimalString.NilZero.isi by assumption.
  now rewrite DecimalZ.of_to, Hr.
Qed.

Lemma ParseBool_FormatBool (b : bool) : ParseBool (TrimSpace (FormatBool b)) = inr b.
Proof.
  now destruct b.
Qed.

Lemma startsPlain_nonempty (s : string) : startsPlain s = true -> s <> "".
Proof.
  destruct s; [discriminate|]. discriminate.
Qed.

(** *** The text of a value

    A string is clean when the encoder writes it as it is: it is valid
    UTF-8 and holds no character that XML excludes. *)
Definition clean (s : string) : bool := String.eqb (EscapeText s) s.

Lemma clean_eq (s : string) : clean s = true -> EscapeText s = s.
Proof.
  apply String.eqb_eq.
Qed.

Lemma escaped_printable (s : string) :
  allChars printable s = true -> escaped (String.length s) s = s.
Proof.
  induction s as [|c s IH]; [reflexivity|].
  cbn [allChars]. intros H. apply andb_true_iff in H as [Hc Hs].
  assert (H1 : (N_of_ascii c <? 128)%N = true).
  { unfold printable, between in Hc. apply andb_true_iff in Hc as [_ Hc].
    apply N.leb_le in Hc. apply N.ltb_lt. lia. }
  assert (H2 : isInCharacterRange (N_of_ascii c) = true).
  { unfold isInCharacterRange. fold (printable c) in Hc.
    unfold printable, between in Hc. apply andb_true_iff in Hc as [Ha Hb].
    apply N.leb_le in Ha, Hb.
    assert (between 32 55295 (N_of_ascii c) = true)
      by (unfold between; apply andb_true_iff; split; apply N.leb_le; lia).
    rewrite H. now rewrite !orb_true_r. }
  assert (H3 : (N_of_ascii c =? RuneError)%N = false).
  { apply N.eqb_neq. apply N.ltb_lt in H1. unfold RuneError. lia. }
  cbn [String.length escaped]. rewrite (DecodeRune_ascii c s H1), H2, H3.
  cbn [negb orb andb takeBytes dropBytes append]. now rewrite (IH Hs).
Qed.

Lemma numeral_clean (s : string) : allChars isNumeral s = true -> clean s = true.
Proof.
  intros H. apply String.eqb_eq. apply escaped_printable.
  exact (allChars_weaken isNumeral printable s isNumeral_printable H).
Qed.

(** A name that is written as it is and read as a local name: it has
    no colon and is not [xmlns]. *)
Definition plainName (l : string) : bool :=
  isNil (cutColon l) && negb (String.eqb l "xmlns") && negb (String.eqb l "").

Lemma plainName_nsname (l : string) : plainName l = true -> nsname l = mkName "" l.
Proof.
  unfold plainName, nsname. destruct (cutColon l); [discriminate|reflexivity].
Qed.

Definition plainAttr (a : Attr) : bool :=
  String.eqb (Space (AttrName a)) "" && plainName (Local (AttrName a))
  && clean (AttrValue a).

(** An element whose names and strings are written as they are. *)
Fixpoint wellWritten (n : Node) : bool :=
  match n with
  | Elem nm attrs children =>
    plainName (Local nm) && forallb plainAttr attrs && forallb wellWritten children
  | Text s => clean s
  | _ => true
  end.

(** What a decoder reads back from an element the encoder wrote.  The
    encoder declares [xmlns] on every element whose name has a name
    space; an element written without one lies in the default name
    space [dflt] of its parent.  The decoder reports the declaration as
    an attribute and resolves every element name. *)
Fixpoint wire (dflt : string) (n : Node) : Node :=
  match n with
  | Elem nm attrs children =>
    match Space nm with
    | EmptyString => Elem (mkName dflt (Local nm)) attrs (map (wire dflt) children)
    | ns => Elem nm (xmlnsAttr ns :: attrs) (map (wire ns) children)
    end
  | other => other
  end.

(** The default name space of some bindings. *)
Definition defaultSpace (ns : Bindings) : string :=
  match lookupNs ns "" with
  | Some uri => uri
  | None => ""
  end.

Lemma declare_plain (ns : Bindings) (attrs : list Attr) :
  forallb plainAttr attrs = true -> declare ns (map printAttr attrs) = ns.
Proof.
  induction attrs as [|a attrs IH]; [reflexivity|].
  cbn [forallb map declare]. intros H. apply andb_true_iff in H as [Ha Hrest].
  unfold plainAttr in Ha. apply andb_true_iff in Ha as [Ha Hv].
  apply andb_true_iff in Ha as [Hs Hl].
  unfold printAttr. cbn [AttrName AttrValue]. rewrite (plainName_nsname _ Hl).
  cbn [Space Local]. change (String.eqb "" "xmlns") with false.
  change (String.eqb "" "") with true. cbn [andb].
  unfold plainName in Hl. apply andb_true_iff in Hl as [Hl _].
  apply andb_true_iff in Hl as [_ Hl].
  apply negb_true_iff in Hl. rewrite Hl. now apply IH.
Qed.

Lemma translateAttr_plain (ns : Bindings) (attrs : list Attr) :
  forallb plainAttr attrs = true ->
  map (translateAttr ns) (map printAttr attrs) = attrs.
Proof.
  induction attrs as [|a attrs IH]; [reflexivity|].
  cbn [forallb map]. intros H. apply andb_true_iff in H as [Ha Hrest].
  rewrite (IH Hrest). f_equal.
  unfold plainAttr in Ha. apply andb_true_iff in Ha as [Ha Hv].
  apply andb_true_iff in Ha as [Hs Hl]. apply String.eqb_eq in Hs.
  unfold printAttr, translateAttr. cbn [AttrName AttrValue].
  rewrite (plainName_nsname _ Hl), (clean_eq _ Hv).
  unfold translate. cbn [Space Local]. change (String.eqb "" "xmlns") with false.
  change (String.eqb "" "") with true. cbn [andb negb].
  destruct a as [[sp l] v]. cbn [AttrName AttrValue Space Local] in *. now subst sp.
Qed.

Lemma translate_plain (ns : Bindings) (l : string) :
  plainName l = true -> translate ns true (mkName "" l) = mkName (defaultSpace ns) l.
Proof.
  intros H. unfold plainName in H. apply andb_true_iff in H as [H _].
  apply andb_true_iff in H as [_ H].
  apply negb_true_iff in H. unfold translate, defaultSpace. cbn [Space Local].
  change (String.eqb "" "xmlns") with false. change (String.eqb "" "") with true.
  change (String.eqb "" "xml") with false. cbn [andb negb]. rewrite H.
  now destruct (lookupNs ns "").
Qed.

(** What the decoder reads of the text that the printer writes for a
    well-written element. *)
Lemma resolve_print (c : Node) :
  wellWritten c = true ->
  forall ns, resolve ns (print c) = wire (defaultSpace ns) c.
Proof.
  induction c as [nm attrs children IH|x|x|x y|x] using Node_ind'; intros Hw ns;
    try reflexivity.
  - cbn [wellWritten] in Hw. apply andb_true_iff in Hw as [Hw Hch].
    apply andb_true_iff in Hw as [Hnm Hattrs].
    assert (Hkids : forall ns', map (resolve ns') (map print children)
                                = map (wire (defaultSpace ns')) children).
    { intros ns'. induction IH as [|k ks Hk _ IHks]; [reflexivity|].
      cbn [forallb] in Hch. apply andb_true_iff in Hch as [Hk1 Hks].
      cbn [map]. now rewrite (Hk Hk1), (IHks Hks). }
    cbn [print resolve wire]. rewrite (plainName_nsname _ Hnm).
    destruct nm as [sp l]. cbn [Space Local] in *.
    destruct sp as [|c0 sp0].
    + cbn [String.eqb app]. rewrite declare_plain by assumption.
      rewrite translate_plain, translateAttr_plain, Hkids by assumption. reflexivity.
    + cbn [String.eqb app map declare]. unfold xmlnsAttr at 1 2.
      cbn [AttrName AttrValue Space Local].
      change (String.eqb "" "xmlns") with false. change (String.eqb "" "") with true.
      change (String.eqb "xmlns" "xmlns") with true. cbn [andb].
      rewrite declare_plain by assumption.
      rewrite translate_plain, translateAttr_plain, Hkids by assumption.
      unfold defaultSpace. cbn [lookupNs]. change (String.eqb "" "") with true.
      cbv iota. unfold translateAttr, translate. cbn [AttrName AttrValue Space Local].
      change (String.eqb "" "xmlns") with false. change (String.eqb "" "") with true.
      reflexivity.
  - cbn [wellWritten] in Hw. cbn [print resolve wire]. now rewrite (clean_eq _ Hw).
Qed.

Lemma map_resolve_print (cs : list Node) (ns : Bindings) :
  forallb wellWritten cs = true ->
  map (resolve ns) (map print cs) = map (wire (defaultSpace ns)) cs.
Proof.
  induction cs as [|c cs IH]; [reflexivity|].
  cbn [forallb map]. intros H. apply andb_true_iff in H as [Hc Hcs].
  now rewrite (resolve_print c Hc), (IH Hcs).
Qed.

(** A number that fits its size, a flag and a string are copied back
    from their text. *)
Definition sizedScalar (t : Ty) : denote t -> bool :=
  match t return denote t -> bool with
  | TInt bits => fun z => inRange bits z
  | _ => fun _ => true
  end.

Definition isScalar (t : Ty) : bool :=
  match t with
  | TString | TBool | TInt _ => true
  | _ => false
  end.

Lemma copyScalar_marshalSimple (t : Ty) (v v0 : denote t) (s : string) :
  isScalar t = true -> sizedScalar t v = true ->
  marshalSimple t v = inr s -> copyScalar t v0 s = (v, None).
Proof.
  destruct t; try discriminate; intros _ Hfit H; cbn [marshalSimple] in H;
    injection H as <-.
  - reflexivity.
  - cbn [copyScalar]. now destruct v.
  - cbn [copyScalar sizedScalar] in *.
    pose proof (startsPlain_nonempty _ (FormatInt_startsPlain v)) as Hne.
    destruct (FormatInt v) eqn:Hf; [now contradiction Hne|].
    rewrite <- Hf. now rewrite ParseInt_FormatInt.
Qed.

(** *** Values up to the names the decoder records

    The decoder stores the name of every element it decodes into a
    struct in the [XMLName] field of the struct; the encoder ignores
    that field when the tag of the field names the element.  [forget]
    erases the recorded names. *)
Fixpoint forget (t : Ty) : denote t -> denote t :=
  match t return denote t -> denote t with
  | TStruct _ _ fs => fun v => (zeroName, forgetFields fs (snd v))
  | TPtr t' => fun p => option_map (forget t') p
  | TSlice t' => fun l => map (forget t') l
  | TString => fun v => v
  | TBool => fun v => v
  | TInt _ => fun v => v
  end
with forgetFields (fs : Fields) : denoteFields fs -> denoteFields fs :=
  match fs return denoteFields fs -> denoteFields fs with
  | FNil => fun _ => tt
  | FCons _ t rest => fun vals => (forget t (fst vals), forgetFields rest (snd vals))
  end.

(** Every number of a value fits the size of its type, as it does in
    Go by the type of the field. *)
Fixpoint sized (t : Ty) : denote t -> bool :=
  match t return denote t -> bool with
  | TInt bits => fun z => inRange bits z
  | TStruct _ _ fs => fun v => sizedFields fs (snd v)
  | TPtr t' => fun p => match p with Some v => sized t' v | None => true end
  | TSlice t' => fun l => forallb (sized t') l
  | TString => fun _ => true
  | TBool => fun _ => true
  end
with sizedFields (fs : Fields) : denoteFields fs -> bool :=
  match fs return denoteFields fs -> bool with
  | FNil => fun _ => true
  | FCons _ t rest => fun vals => sized t (fst vals) && sizedFields rest (snd vals)
  end.

(** The elements of a list decoded one after the other into the same
    destination, as the loop of [Decoder.unmarshal] hands the children
    that one field accepts to that field. *)
Fixpoint decodeAll (t : Ty) (cs : list Node) (v : denote t) : denote t * option error :=
  match cs with
  | [] => (v, None)
  | Elem n a ch :: rest =>
    let (v', e) := unmarshal t v n a ch in
    match e with
    | Some err => (v', Some err)
    | None => decodeAll t rest v'
    end
  | _ :: rest => decodeAll t rest v
  end.

(** The names a struct gives its fields on the wire. *)
Fixpoint fieldNames (m : FieldMode) (enc : XMLNameTag) (fs : Fields) : list string :=
  match fs with
  | FNil => []
  | FCons d t rest =>
    let fi := finfoOf enc d t in
    if FieldMode_eqb (fi_mode fi) m then fi_name fi :: fieldNames m enc rest
    else fieldNames m enc rest
  end.

Fixpoint distinct (l : list string) : bool :=
  match l with
  | [] => true
  | s :: rest => negb (existsb (String.eqb s) rest) && distinct rest
  end.

(** The types whose values the decoder reads back from the elements
    the encoder wrote.  A struct names its element in the tag of [XMLName],
    its fields have different names, an attribute holds a string, a
    flag or a number and is not called [xmlns]; an element field holds
    a string, a flag, a number, a struct, a pointer to a struct or a
    slice of those, under a name that agrees with the [XMLName] of the
    struct and in a name space the field accepts; strings in a slice
    are not dropped when empty. *)
Definition nsFits (fi : fieldInfo) (x : XMLNameTag) : bool :=
  String.eqb (xmlns x) "" || String.eqb (fi_xmlns fi) ""
  || String.eqb (fi_xmlns fi) (xmlns x).

Definition structFits (fi : fieldInfo) (t : Ty) : bool :=
  match t with
  | TStruct _ x _ => String.eqb (fi_name fi) (xname x) && nsFits fi x
  | _ => false
  end.

Fixpoint decodable (t : Ty) : bool :=
  match t with
  | TStruct _ x fs =>
    isNil (getTypeInfo x fs) && negb (String.eqb (xname x) "")
    && distinct (fieldNames fElement x fs) && distinct (fieldNames fAttr x fs)
    && decodableFields x fs
  | _ => false
  end
with decodableFields (enc : XMLNameTag) (fs : Fields) : bool :=
  match fs with
  | FNil => true
  | FCons d t rest =>
    (let fi := finfoOf enc d t in
     match fi_mode fi with
     | fAttr => isScalar t && negb (String.eqb (fi_name fi) "xmlns")
     | fElement =>
       match t with
       | TString | TBool | TInt _ => true
       | TStruct _ _ _ => decodable t && structFits fi t
       | TPtr t' =>
         match t' with
         | TStruct _ _ _ => decodable t' && structFits fi t'
         | _ => false
         end
       | TSlice t' =>
         match t' with
         | TString | TBool | TInt _ => negb (fi_omitEmpty fi)
         | TStruct _ _ _ => decodable t' && structFits fi t'
         | _ => false
         end
       end
     end) && decodableFields enc rest
  end.

(** The names that the encoder writes for a type are written as they
    are: those of its structs and of their fields. *)
Fixpoint plainNames (t : Ty) : bool :=
  match t with
  | TStruct _ x fs => plainName (xname x) && plainNamesFields x fs
  | TPtr t' => plainNames t'
  | TSlice t' => plainNames t'
  | _ => true
  end
with plainNamesFields (enc : XMLNameTag) (fs : Fields) : bool :=
  match fs with
  | FNil => true
  | FCons d t rest =>
    plainName (fi_name (finfoOf enc d t)) && plainNames t && plainNamesFields enc rest
  end.

(** The types whose values survive being written and read. *)
Definition portable (t : Ty) : bool := decodable t && plainNames t.

(** The message types of the three revisions pass the check, except
    the request of [setBookmarks] and the response of [getBookmarks],
    whose bookmark set lies in a name space of its own. *)
Lemma message_types_portable :
  forallb portable
    [Streaming.logOn_T; Streaming.logOnResponse_T; Streaming.logOff_T;
     Streaming.logOffResponse_T; Streaming.getServiceAttributes_T;
     Streaming.getServiceAttributesResponse_T; Streaming.setReadingSystemAttributes_T;
     Streaming.setReadingSystemAttributesResponse_T; Streaming.getContentList_T;
     Streaming.getContentListResponse_T; Streaming.getContentMetadata_T;
     Streaming.getContentMetadataResponse_T; Streaming.getContentResources_T;
     Streaming.getContentResourcesResponse_T; Streaming.issueContent_T;
     Streaming.issueContentResponse_T; Streaming.returnContent_T;
     Streaming.returnContentResponse_T; Streaming.getQuestions_T;
     Streaming.getQuestionsResponse_T; Streaming.getServiceAnnouncements_T;
     Streaming.getServiceAnnouncementsResponse_T; Streaming.setBookmarksResponse_T;
     Streaming.getBookmarks_T; Streaming.markAnnouncementsAsReadResponse_T;
     BookmarkSet_T;
     InnerXml.logOn_T; InnerXml.logOnResponse_T; InnerXml.logOff_T;
     InnerXml.logOffResponse_T; InnerXml.getServiceAttributes_T;
     InnerXml.getServiceAttributesResponse_T; InnerXml.setReadingSystemAttributes_T;
     InnerXml.setReadingSystemAttributesResponse_T; InnerXml.getContentList_T;
     InnerXml.getContentListResponse_T; InnerXml.getContentMetadata_T;
     InnerXml.getContentMetadataResponse_T; InnerXml.getContentResources_T;
     InnerXml.getContentResourcesResponse_T; InnerXml.issueContent_T;
     InnerXml.issueContentResponse_T; InnerXml.returnContent_T;
     InnerXml.returnContentResponse_T; InnerXml.getQuestions_T;
     InnerXml.getQuestionsResponse_T; InnerXml.getServiceAnnouncements_T;
     InnerXml.getServiceAnnouncementsResponse_T;
     Legacy.GetServiceAnnouncements_T; Legacy.GetServiceAnnouncementsResponse_T;
     Legacy.GetQuestions_T; Legacy.GetQuestionsResponse_T; Legacy.ReturnContent_T;
     Legacy.ReturnContentResponse_T; Legacy.IssueContent_T;
     Legacy.IssueContentResponse_T; Legacy.GetContentResources_T;
     Legacy.GetContentResourcesResponse_T; Legacy.GetContentMetadata_T;
     Legacy.GetContentMetadataResponse_T; Legacy.GetContentList_T;
     Legacy.GetContentListResponse_T; Legacy.LogOn_T; Legacy.LogOnResponse_T;
     Legacy.GetServiceAttributes_T; Legacy.GetServiceAttributesResponse_T;
     Legacy.SetReadingSystemAttributes_T; Legacy.SetReadingSystemAttributesResponse_T;
     Legacy.LogOff_T; Legacy.LogOffResponse_T] = true
  /\ portable Streaming.setBookmarks_T = false
  /\ portable Streaming.getBookmarksResponse_T = false.
Proof.
  repeat split; vm_compute; reflexivity.
Qed.

(** *** Attributes *)

Lemma existsb_eqb_false (s : string) (l : list string) :
  existsb (String.eqb s) l = false -> forall s', In s' l -> s <> s'.
Proof.
  intros H s' Hin ->. 
  assert (existsb (String.eqb s') l = true)
    by (apply existsb_exists; exists s'; split; [assumption | apply String.eqb_refl]).
  congruence.
Qed.

(** An attribute that no attribute field of the struct is named after
    changes nothing. *)
Lemma assignAttr_stranger (enc : XMLNameTag) (fs : Fields) (a : Attr) :
  ~ In (Local (AttrName a)) (fieldNames fAttr enc fs) ->
  forall vals : denoteFields fs, assignAttr enc fs vals a = (vals, None).
Proof.
  induction fs as [|d t rest IH]; intros Hn vals; [reflexivity|].
  cbn [assignAttr]. cbn [fieldNames] in Hn.
  destruct (FieldMode_eqb (fi_mode (finfoOf enc d t)) fAttr) eqn:Hm.
  - assert (Hne : String.eqb (Local (AttrName a)) (fi_name (finfoOf enc d t)) = false).
    { apply String.eqb_neq. intros Heq. apply Hn. left. now symmetry. }
    rewrite Hne. cbn [andb].
    rewrite IH by (intros Hin; apply Hn; now right). now destruct vals.
  - cbn [andb]. rewrite IH by assumption. now destruct vals.
Qed.

Lemma assignAttrs_strangers (enc : XMLNameTag) (fs : Fields) (attrs : list Attr) :
  Forall (fun a => ~ In (Local (AttrName a)) (fieldNames fAttr enc fs)) attrs ->
  forall vals : denoteFields fs, assignAttrs enc fs vals attrs = (vals, None).
Proof.
  induction attrs as [|a rest IH]; intros H vals; [reflexivity|].
  inversion H; subst. cbn [assignAttrs].
  rewrite assignAttr_stranger by assumption. now apply IH.
Qed.

Lemma assignAttrs_app (enc : XMLNameTag) (fs : Fields) (l1 l2 : list Attr) :
  forall vals : denoteFields fs,
    assignAttrs enc fs vals (app l1 l2)
    = let (vals', e) := assignAttrs enc fs vals l1 in
      match e with
      | Some err => (vals', Some err)
      | None => assignAttrs enc fs vals' l2
      end.
Proof.
  induction l1 as [|a l1 IH]; intros vals; [reflexivity|].
  cbn [app assignAttrs].
  destruct (assignAttr enc fs vals a) as [vals' [err|]]; [reflexivity|]. apply IH.
Qed.

Lemma marshalAttr_cons (t : Ty) (v : denote t) (vs : list (denote t)) (nm : Name) :
  marshalAttr (TSlice t) (v :: vs) nm
  = match marshalAttr t v nm with
    | inl e => inl e
    | inr a =>
      match marshalAttr (TSlice t) vs nm with
      | inl e => inl e
      | inr b => inr (app a b)
      end
    end.
Proof.
  reflexivity.
Qed.

(** The attributes of a field carry the name of the field. *)
Lemma marshalAttr_names (t : Ty) (nm : Name) :
  forall (v : denote t) (l : list Attr),
    marshalAttr t v nm = inr l -> Forall (fun a => AttrName a = nm) l.
Proof.
  induction t as [| |bits|g x fs|t IH|t IH]; intros v l H.
  - injection H as <-. now repeat constructor.
  - injection H as <-. now repeat constructor.
  - injection H as <-. now repeat constructor.
  - discriminate.
  - destruct v as [v|]; [now apply (IH v) | injection H as <-; constructor].
  - revert l H. induction v as [|v vs IHv]; intros l H.
    + injection H as <-. constructor.
    + rewrite marshalAttr_cons in H.
      destruct (marshalAttr t v nm) as [e|a] eqn:Ha; [discriminate|].
      destruct (marshalAttr (TSlice t) vs nm) as [e|b] eqn:Hb; [discriminate|].
      injection H as <-. apply Forall_app. split; [now apply (IH v) | now apply IHv].
Qed.

Lemma marshalAttrs_names (enc : XMLNameTag) (fs : Fields) :
  forall (vals : denoteFields fs) (attrs : list Attr),
    marshalAttrs enc fs vals = inr attrs ->
    Forall (fun a => In (Local (AttrName a)) (fieldNames fAttr enc fs)) attrs.
Proof.
  induction fs as [|d t rest IH]; intros vals attrs H; cbn [marshalAttrs] in H.
  - injection H as <-. constructor.
  - cbn [fieldNames].
    destruct (FieldMode_eqb (fi_mode (finfoOf enc d t)) fAttr) eqn:Hm; cbn [andb] in H.
    + destruct (negb _).
      * destruct (marshalAttr t (fst vals) _) as [e|a] eqn:Ha; [discriminate|].
        destruct (marshalAttrs enc rest (snd vals)) as [e|b] eqn:Hb; [discriminate|].
        injection H as <-. apply Forall_app. split.
        -- apply marshalAttr_names in Ha.
           eapply Forall_impl; [|exact Ha]. intros a0 ->. now left.
        -- eapply Forall_impl; [|exact (IH _ _ Hb)]. intros a0 Hin. now right.
      * eapply Forall_impl; [|exact (IH _ _ H)]. intros a0 Hin. now right.
    + eapply Forall_impl; [|exact (IH _ _ H)]. intros a0 Hin. exact Hin.
Qed.

(** A field that is not an attribute, or that no attribute of the list
    is named after, is passed over. *)
Lemma assignAttrs_pass (enc : XMLNameTag) (d : FieldDecl) (t : Ty) (rest : Fields)
  (attrs : list Attr) :
  (FieldMode_eqb (fi_mode (finfoOf enc d t)) fAttr = false
   \/ Forall (fun a => Local (AttrName a) <> fi_name (finfoOf enc d t)) attrs) ->
  forall vals : denoteFields (FCons d t rest),
    assignAttrs enc (FCons d t rest) vals attrs
    = let (r, e) := assignAttrs enc rest (snd vals) attrs in ((fst vals, r), e).
Proof.
  intros Hpass. induction attrs as [|a l IH]; intros vals.
  - now destruct vals.
  - cbn [assignAttrs assignAttr].
    assert (Hc : FieldMode_eqb (fi_mode (finfoOf enc d t)) fAttr
                 && String.eqb (Local (AttrName a)) (fi_name (finfoOf enc d t))
                 && (String.eqb (fi_xmlns (finfoOf enc d t)) ""
                     || String.eqb (fi_xmlns (finfoOf enc d t)) (Space (AttrName a)))
                 = false).
    { destruct Hpass as [->|H]; [reflexivity|].
      inversion H; subst. apply String.eqb_neq in H2. rewrite H2.
      now rewrite andb_false_r. }
    rewrite Hc.
    destruct (assignAttr enc rest (snd vals) a) as [r [err|]]; [reflexivity|].
    rewrite IH.
    + reflexivity.
    + destruct Hpass as [H|H]; [now left | right; now inversion H].
Qed.

(** The attribute fields of [r] are those of [src], its other fields
    those of [start]. *)
Fixpoint attrsFrom (enc : XMLNameTag) (fs : Fields)
  : denoteFields fs -> denoteFields fs -> denoteFields fs -> Prop :=
  match fs return denoteFields fs -> denoteFields fs -> denoteFields fs -> Prop with
  | FNil => fun _ _ _ => True
  | FCons d t rest => fun r src start =>
    (if FieldMode_eqb (fi_mode (finfoOf enc d t)) fAttr
     then fst r = fst src else fst r = fst start)
    /\ attrsFrom enc rest (snd r) (snd src) (snd start)
  end.

(** The attribute fields of a struct are scalars with different names. *)
Fixpoint attrsOK (enc : XMLNameTag) (fs : Fields) : bool :=
  match fs with
  | FNil => true
  | FCons d t rest =>
    (if FieldMode_eqb (fi_mode (finfoOf enc d t)) fAttr then isScalar t else true)
    && attrsOK enc rest
  end.

Lemma unmarshalAttr_scalar (t : Ty) (v : denote t) (a : Attr) :
  isScalar t = true -> unmarshalAttr t v a = copyScalar t v (AttrValue a).
Proof.
  destruct t; try discriminate; reflexivity.
Qed.

Lemma marshalAttr_scalar (t : Ty) (v : denote t) (nm : Name) :
  isScalar t = true ->
  marshalAttr t v nm = match marshalSimple t v with
                       | inl e => inl e
                       | inr s => inr [mkAttr nm s]
                       end.
Proof.
  destruct t; try discriminate; reflexivity.
Qed.

Lemma isEmptyValue_zero (t : Ty) (v : denote t) :
  isScalar t = true -> isEmptyValue t v = true -> v = zero t.
Proof.
  destruct t; try discriminate; intros _; cbn [isEmptyValue zero].
  - apply String.eqb_eq.
  - now destruct v.
  - apply Z.eqb_eq.
Qed.

Lemma fits_scalar (t : Ty) (v : denote t) :
  isScalar t = true -> sized t v = sizedScalar t v.
Proof.
  destruct t; try discriminate; reflexivity.
Qed.


Lemma distinct_cons (s : string) (l : list string) :
  distinct (s :: l) = true -> ~ In s l /\ distinct l = true.
Proof.
  cbn [distinct]. intros H. apply andb_true_iff in H as [H1 H2]. split; [|assumption].
  apply negb_true_iff in H1. intros Hin.
  now apply (existsb_eqb_false s l H1 s Hin).
Qed.

(** The decoder reads the attributes of a struct back into its
    attribute fields, and leaves the other fields as they were. *)
Lemma attributes_read_back (enc : XMLNameTag) (fs : Fields) :
  attrsOK enc fs = true -> distinct (fieldNames fAttr enc fs) = true ->
  forall (src : denoteFields fs) (attrs : list Attr),
    sizedFields fs src = true ->
    marshalAttrs enc fs src = inr attrs ->
    exists r, assignAttrs enc fs (zeroFields fs) attrs = (r, None)
              /\ attrsFrom enc fs r src (zeroFields fs).
Proof.
  induction fs as [|d t rest IH]; intros Hok Hd src attrs Hfit Hm.
  - cbn [marshalAttrs] in Hm. injection Hm as <-. now exists tt.
  - destruct src as [s1 s2]. cbn [marshalAttrs fst snd] in Hm.
    cbn [attrsOK] in Hok. apply andb_true_iff in Hok as [Hsc Hok].
    cbn [sizedFields fst snd] in Hfit. apply andb_true_iff in Hfit as [Hf1 Hf2].
    cbn [fieldNames] in Hd. cbn [attrsFrom zeroFields fst snd].
    destruct (FieldMode_eqb (fi_mode (finfoOf enc d t)) fAttr) eqn:Hmode.
    + apply distinct_cons in Hd as [Hnotin Hd]. cbn [andb] in Hm.
      assert (Hrest : forall b, marshalAttrs enc rest s2 = inr b ->
                Forall (fun a => Local (AttrName a) <> fi_name (finfoOf enc d t)) b).
      { intros b Hb. eapply Forall_impl; [|exact (marshalAttrs_names enc rest s2 b Hb)].
        intros a Hin Heq. apply Hnotin. now rewrite <- Heq. }
      destruct (negb (fi_omitEmpty (finfoOf enc d t) && isEmptyValue t s1)) eqn:Homit.
      * rewrite marshalAttr_scalar in Hm by assumption.
        destruct (marshalSimple t s1) as [e|s] eqn:Hs; [discriminate|].
        destruct (marshalAttrs enc rest s2) as [e|b] eqn:Hb; [discriminate|].
        injection Hm as <-. cbn [app assignAttrs assignAttr].
        rewrite Hmode. cbn [AttrName Local Space AttrValue].
        rewrite !String.eqb_refl, orb_true_r. cbn [andb fst snd].
        rewrite unmarshalAttr_scalar by assumption. cbn [AttrValue].
        rewrite (copyScalar_marshalSimple t s1 (zero t) s Hsc) by
          (try assumption; now rewrite <- fits_scalar).
        rewrite assignAttr_stranger by assumption.
        rewrite (assignAttrs_pass enc d t rest b (or_intror (Hrest b eq_refl))).
        cbn [fst snd].
        destruct (IH Hok Hd s2 b Hf2 Hb) as (r & -> & Hr).
        exists (s1, r). now repeat split.
      * apply negb_false_iff, andb_true_iff in Homit as [_ Hempty].
        apply (isEmptyValue_zero t s1 Hsc) in Hempty. subst s1.
        rewrite (assignAttrs_pass enc d t rest attrs (or_intror (Hrest attrs Hm))).
        cbn [fst snd].
        destruct (IH Hok Hd s2 attrs Hf2 Hm) as (r & -> & Hr).
        exists (zero t, r). now repeat split.
    + cbn [andb] in Hm.
      rewrite (assignAttrs_pass enc d t rest attrs (or_introl Hmode)). cbn [fst snd].
      destruct (IH Hok Hd s2 attrs Hf2 Hm) as (r & -> & Hr).
      exists (zero t, r). now repeat split.
Qed.

(** *** Elements *)

Lemma childrenLoop_app {V : Type}
  (path : V -> Name -> list Attr -> list Node -> V * option error) (l1 l2 : list Node) :
  forall vals,
    childrenLoop path (app l1 l2) vals
    = let (vals', e) := childrenLoop path l1 vals in
      match e with
      | Some err => (vals', Some err)
      | None => childrenLoop path l2 vals'
      end.
Proof.
  induction l1 as [|c l1 IH]; intros vals; [reflexivity|].
  cbn [app childrenLoop]. destruct c as [n a ch| | | |]; try apply IH.
  destruct (path vals n a ch) as [vals' [err|]]; [reflexivity | apply IH].
Qed.

(** A child that the field [fi] accepts: an element with the name of
    the field, in the name space of the field if it has one. *)
Definition belongsTo (fi : fieldInfo) (c : Node) : bool :=
  match c with
  | Elem cn _ _ =>
    (String.eqb (fi_xmlns fi) "" || String.eqb (fi_xmlns fi) (Space cn))
    && String.eqb (fi_name fi) (Local cn)
  | _ => false
  end.

(** A child that is not named after the field. *)
Definition namedOtherwise (fi : fieldInfo) (c : Node) : Prop :=
  match c with
  | Elem cn _ _ => Local cn <> fi_name fi
  | _ => True
  end.

Lemma unmarshalPath_cons (enc : XMLNameTag) (d : FieldDecl) (t : Ty) (rest : Fields)
  (vals : denoteFields (FCons d t rest)) (cn : Name) (ca : list Attr) (cch : list Node) :
  unmarshalPath enc (FCons d t rest) vals cn ca cch
  = if FieldMode_eqb (fi_mode (finfoOf enc d t)) fElement
       && (String.eqb (fi_xmlns (finfoOf enc d t)) ""
           || String.eqb (fi_xmlns (finfoOf enc d t)) (Space cn))
       && String.eqb (fi_name (finfoOf enc d t)) (Local cn)
    then let (v', e) := unmarshal t (fst vals) cn ca cch in ((v', snd vals), e)
    else let (r, e) := unmarshalPath enc rest (snd vals) cn ca cch in
         ((fst vals, r), e).
Proof.
  reflexivity.
Qed.

(** The children that the first field accepts are decoded into it. *)
Lemma childrenLoop_own (enc : XMLNameTag) (d : FieldDecl) (t : Ty) (rest : Fields)
  (cs : list Node) :
  FieldMode_eqb (fi_mode (finfoOf enc d t)) fElement = true ->
  Forall (fun c => belongsTo (finfoOf enc d t) c = true) cs ->
  forall vals : denoteFields (FCons d t rest),
    childrenLoop (unmarshalPath enc (FCons d t rest)) cs vals
    = let (a, e) := decodeAll t cs (fst vals) in ((a, snd vals), e).
Proof.
  intros Hm. induction cs as [|c cs IH]; intros H vals.
  - now destruct vals.
  - inversion H as [|? ? Hc Hcs]; subst. destruct c as [cn ca cch| | | |]; try discriminate.
    cbn [childrenLoop decodeAll]. rewrite unmarshalPath_cons. cbn [belongsTo] in Hc.
    rewrite Hm. cbn [andb]. rewrite Hc.
    destruct (unmarshal t (fst vals) cn ca cch) as [v' [err|]]; [reflexivity|].
    rewrite (IH Hcs). reflexivity.
Qed.

(** The children that are not named after the first field are left to
    the other fields. *)
Lemma childrenLoop_pass (enc : XMLNameTag) (d : FieldDecl) (t : Ty) (rest : Fields)
  (cs : list Node) :
  (FieldMode_eqb (fi_mode (finfoOf enc d t)) fElement = false
   \/ Forall (namedOtherwise (finfoOf enc d t)) cs) ->
  forall vals : denoteFields (FCons d t rest),
    childrenLoop (unmarshalPath enc (FCons d t rest)) cs vals
    = let (r, e) := childrenLoop (unmarshalPath enc rest) cs (snd vals) in
      ((fst vals, r), e).
Proof.
  intros Hpass. induction cs as [|c cs IH]; intros vals.
  - now destruct vals.
  - assert (Hcs : FieldMode_eqb (fi_mode (finfoOf enc d t)) fElement = false
                  \/ Forall (namedOtherwise (finfoOf enc d t)) cs)
      by (destruct Hpass as [H|H]; [now left | right; now inversion H]).
    destruct c as [cn ca cch| | | |]; cbn [childrenLoop]; try (apply IH; assumption).
    rewrite unmarshalPath_cons.
    assert (Hc : FieldMode_eqb (fi_mode (finfoOf enc d t)) fElement
                 && (String.eqb (fi_xmlns (finfoOf enc d t)) ""
                     || String.eqb (fi_xmlns (finfoOf enc d t)) (Space cn))
                 && String.eqb (fi_name (finfoOf enc d t)) (Local cn) = false).
    { destruct Hpass as [->|H]; [reflexivity|].
      inversion H as [|? ? Hn ?]; subst. cbn [namedOtherwise] in Hn.
      assert (Hne : String.eqb (fi_name (finfoOf enc d t)) (Local cn) = false)
        by (apply String.eqb_neq; congruence).
      now rewrite Hne, andb_false_r. }
    rewrite Hc.
    destruct (unmarshalPath enc rest (snd vals) cn ca cch) as [r [err|]];
      [reflexivity|].
    rewrite (IH Hcs). reflexivity.
Qed.

Lemma marshalValue_cons (t : Ty) (v : denote t) (vs : list (denote t)) (fi : fieldInfo) :
  marshalValue (TSlice t) (v :: vs) fi
  = match marshalValue t v fi with
    | inl e => inl e
    | inr a =>
      match marshalValue (TSlice t) vs fi with
      | inl e => inl e
      | inr b => inr (app a b)
      end
    end.
Proof.
  cbn [marshalValue isEmptyValue]. rewrite andb_false_r.
  destruct vs as [|v' vs].
  - now destruct (fi_omitEmpty fi).
  - now rewrite andb_false_r.
Qed.

Lemma marshalValue_nil (t : Ty) (fi : fieldInfo) :
  marshalValue (TSlice t) [] fi = inr [].
Proof.
  cbn [marshalValue]. now destruct (_ && _).
Qed.

(** What the types of element fields are made of. *)
Definition isStruct (t : Ty) : bool :=
  match t with TStruct _ _ _ => true | _ => false end.

Definition valueOK (fi : fieldInfo) (t : Ty) : bool :=
  match t with
  | TString | TBool | TInt _ => true
  | TStruct _ _ _ => decodable t
  | TPtr t' => isStruct t' && decodable t'
  | TSlice t' =>
    match t' with
    | TString | TBool | TInt _ => negb (fi_omitEmpty fi)
    | _ => isStruct t' && decodable t'
    end
  end.

(** The name space an element field is written in. *)
Definition writtenSpace (fi : fieldInfo) (t : Ty) : string :=
  match t with
  | TStruct _ x _ => xmlns x
  | TPtr (TStruct _ x _) => xmlns x
  | TSlice (TStruct _ x _) => xmlns x
  | _ => fi_xmlns fi
  end.

Definition writtenAs (sp name : string) (c : Node) : Prop :=
  exists a ch, c = Elem (mkName sp name) a ch.

Lemma portable_named (g : string) (x : XMLNameTag) (fs : Fields) :
  decodable (TStruct g x fs) = true ->
  getTypeInfo x fs = None /\ String.eqb (xname x) "" = false
  /\ distinct (fieldNames fElement x fs) = true
  /\ distinct (fieldNames fAttr x fs) = true
  /\ decodableFields x fs = true.
Proof.
  cbn [decodable]. intros H.
  repeat (apply andb_true_iff in H as [H ?]).
  repeat split; try assumption.
  - now destruct (getTypeInfo x fs).
  - now apply negb_true_iff.
Qed.

(** A struct is written as one element, named by the tag of its
    [XMLName]. *)
Lemma marshalValue_struct (g : string) (x : XMLNameTag) (fs : Fields)
  (v : denote (TStruct g x fs)) (fi : fieldInfo) (cs : list Node) :
  decodable (TStruct g x fs) = true ->
  marshalValue (TStruct g x fs) v fi = inr cs ->
  exists attrs children,
    marshalAttrs x fs (snd v) = inr attrs
    /\ marshalFields x fs (snd v) = inr children
    /\ cs = [Elem (mkName (xmlns x) (xname x)) attrs children].
Proof.
  intros Hp H. apply portable_named in Hp as (Hg & Hn & _).
  cbn [marshalValue] in H. rewrite Hg, Hn in H. cbn [negb] in H.
  destruct (marshalAttrs x fs (snd v)) as [e|attrs]; [discriminate|].
  destruct (marshalFields x fs (snd v)) as [e|children]; [discriminate|].
  injection H as <-. now exists attrs, children.
Qed.

Lemma charData_textNodes (dflt s : string) :
  charData (map (wire dflt) (textNodes s)) = s.
Proof.
  destruct s; [reflexivity|]. cbn [textNodes map wire charData].
  apply append_empty_r.
Qed.

(** A string, a flag or a number is written as one element that holds
    its text, or not at all when it is empty and may be omitted. *)
Lemma marshalValue_scalar (t : Ty) (v : denote t) (fi : fieldInfo) :
  isScalar t = true ->
  exists s,
    marshalSimple t v = inr s
    /\ marshalValue t v fi
       = if fi_omitEmpty fi && isEmptyValue t v then inr []
         else inr [Elem (mkName (fi_xmlns fi) (fi_name fi)) [] (textNodes s)].
Proof.
  destruct t; try discriminate; intros _; eexists; (split; [reflexivity|]).
  - reflexivity.
  - cbn [marshalValue]. now destruct v.
  - cbn [marshalValue].
    pose proof (startsPlain_nonempty _ (FormatInt_startsPlain v)) as Hne.
    now destruct (FormatInt v).
Qed.

Lemma unmarshal_scalar (t : Ty) (v0 : denote t) (n : Name) (a : list Attr)
  (ch : list Node) :
  isScalar t = true -> unmarshal t v0 n a ch = copyScalar t v0 (charData ch).
Proof.
  destruct t; try discriminate; reflexivity.
Qed.

Lemma wire_elem (dflt sp name : string) (a : list Attr) (ch : list Node) :
  exists a' ch',
    wire dflt (Elem (mkName sp name) a ch)
    = Elem (mkName (if String.eqb sp "" then dflt else sp) name) a' ch'
    /\ a' = (if String.eqb sp "" then a else xmlnsAttr sp :: a)
    /\ ch' = map (wire (if String.eqb sp "" then dflt else sp)) ch.
Proof.
  destruct sp as [|c sp]; eexists; eexists; repeat split.
Qed.

(** What is written under the name of a field is accepted by the
    field, once read. *)
Lemma written_belongs (fi : fieldInfo) (dflt sp : string) (cs : list Node) :
  (String.eqb (fi_xmlns fi) ""
   || String.eqb (fi_xmlns fi) (if String.eqb sp "" then dflt else sp)) = true ->
  Forall (writtenAs sp (fi_name fi)) cs ->
  Forall (fun c => belongsTo fi c = true) (map (wire dflt) cs).
Proof.
  intros Hacc H. induction H as [|c cs (a & ch & ->) _ IH]; [constructor|].
  cbn [map]. constructor; [|exact IH].
  destruct (wire_elem dflt sp (fi_name fi) a ch) as (a' & ch' & -> & _).
  cbn [belongsTo Space Local]. now rewrite Hacc, String.eqb_refl.
Qed.

Lemma written_otherwise (fi : fieldInfo) (dflt sp name : string) (cs : list Node) :
  name <> fi_name fi ->
  Forall (writtenAs sp name) cs ->
  Forall (namedOtherwise fi) (map (wire dflt) cs).
Proof.
  intros Hne H. induction H as [|c cs (a & ch & ->) _ IH]; [constructor|].
  cbn [map]. constructor; [|exact IH].
  destruct (wire_elem dflt sp name a ch) as (a' & ch' & -> & _). exact Hne.
Qed.

(** The static facts about an element field of a decodable struct. *)
Definition fieldFacts (fi : fieldInfo) (t : Ty) : Prop :=
  valueOK fi t = true
  /\ forall g x fs,
       (t = TStruct g x fs \/ t = TPtr (TStruct g x fs) \/ t = TSlice (TStruct g x fs)) ->
       String.eqb (fi_name fi) (xname x) = true /\ nsFits fi x = true.

Lemma portableFields_cons (enc : XMLNameTag) (d : FieldDecl) (t : Ty) (rest : Fields) :
  decodableFields enc (FCons d t rest) = true ->
  decodableFields enc rest = true
  /\ (FieldMode_eqb (fi_mode (finfoOf enc d t)) fElement = true ->
      fieldFacts (finfoOf enc d t) t)
  /\ (FieldMode_eqb (fi_mode (finfoOf enc d t)) fAttr = true ->
      isScalar t = true
      /\ String.eqb (fi_name (finfoOf enc d t)) "xmlns" = false).
Proof.
  cbn [decodableFields]. intros H. apply andb_true_iff in H as [H Hrest].
  split; [assumption|].
  destruct (fi_mode (finfoOf enc d t)); (split; [intros Hm|intros Hm]);
    try discriminate Hm.
  - unfold fieldFacts, valueOK.
    destruct t as [| |bits|g x fs|t'|t'].
    + split; [reflexivity|]. intros g x fs [E|[E|E]]; discriminate E.
    + split; [reflexivity|]. intros g x fs [E|[E|E]]; discriminate E.
    + split; [reflexivity|]. intros g x fs [E|[E|E]]; discriminate E.
    + apply andb_true_iff in H as [Hp Hs]. split; [assumption|].
      intros g' x' fs' [E|[E|E]]; try discriminate E. injection E as <- <- <-.
      now apply andb_true_iff in Hs.
    + destruct t' as [| |bits|g x fs|t''|t'']; try discriminate H.
      apply andb_true_iff in H as [Hp Hs]. split; [exact Hp|].
      intros g' x' fs' [E|[E|E]]; try discriminate E. injection E as <- <- <-.
      now apply andb_true_iff in Hs.
    + destruct t' as [| |bits|g x fs|t''|t'']; try discriminate H.
      * split; [assumption|]. intros g x fs [E|[E|E]]; discriminate E.
      * split; [assumption|]. intros g x fs [E|[E|E]]; discriminate E.
      * split; [assumption|]. intros g x fs [E|[E|E]]; discriminate E.
      * apply andb_true_iff in H as [Hp Hs]. split; [exact Hp|].
        intros g' x' fs' [E|[E|E]]; try discriminate E. injection E as <- <- <-.
        now apply andb_true_iff in Hs.
  - apply andb_true_iff in H as [H1 H2]. split; [assumption|].
    now apply negb_true_iff.
Qed.

(** What a field writes carries the name of the field. *)
Lemma field_written (fi : fieldInfo) (t : Ty) :
  fieldFacts fi t ->
  forall (v : denote t) (cs : list Node),
    marshalValue t v fi = inr cs ->
    Forall (writtenAs (writtenSpace fi t) (fi_name fi)) cs.
Proof.
  intros [Hok Hst].
  assert (Hscalar : forall (t0 : Ty) (v : denote t0) cs,
             isScalar t0 = true -> marshalValue t0 v fi = inr cs ->
             Forall (writtenAs (fi_xmlns fi) (fi_name fi)) cs).
  { intros t0 v cs Hsc H.
    destruct (marshalValue_scalar t0 v fi Hsc) as (s & _ & Heq). rewrite Heq in H.
    destruct (_ && _); injection H as <-; [constructor|].
    constructor; [|constructor]. now eexists; eexists. }
  assert (Hstruct : forall g x fs (v : denote (TStruct g x fs)) cs,
             decodable (TStruct g x fs) = true ->
             String.eqb (fi_name fi) (xname x) = true ->
             marshalValue (TStruct g x fs) v fi = inr cs ->
             Forall (writtenAs (xmlns x) (fi_name fi)) cs).
  { intros g x fs v cs Hp Hn H.
    destruct (marshalValue_struct g x fs v fi cs Hp H) as (a & ch & _ & _ & ->).
    apply String.eqb_eq in Hn. rewrite Hn.
    constructor; [|constructor]. now eexists; eexists. }
  destruct t as [| |bits|g x fs|t'|t']; intros v cs H.
  - now apply (Hscalar TString v).
  - now apply (Hscalar TBool v).
  - now apply (Hscalar (TInt bits) v).
  - cbn [writtenSpace]. destruct (Hst g x fs (or_introl eq_refl)) as [Hn _].
    now apply (Hstruct g x fs v).
  - cbn [valueOK] in Hok. destruct t' as [| |bits|g x fs|t''|t'']; try discriminate Hok.
    cbn [writtenSpace]. destruct (Hst g x fs (or_intror (or_introl eq_refl))) as [Hn _].
    cbn [marshalValue] in H. destruct v as [v|]; [|injection H as <-; constructor].
    now apply (Hstruct g x fs v).
  - cbn [valueOK] in Hok.
    assert (Hall : forall sp,
               (forall (w : denote t') c, marshalValue t' w fi = inr c ->
                                          Forall (writtenAs sp (fi_name fi)) c) ->
               Forall (writtenAs sp (fi_name fi)) cs).
    { intros sp Hone. revert cs H. induction v as [|w ws IH]; intros cs H.
      - rewrite marshalValue_nil in H. injection H as <-. constructor.
      - rewrite marshalValue_cons in H.
        destruct (marshalValue t' w fi) as [e|c] eqn:Hc; [discriminate|].
        destruct (marshalValue (TSlice t') ws fi) as [e|b] eqn:Hb; [discriminate|].
        injection H as <-. apply Forall_app. split; [now apply (Hone w) | now apply IH]. }
    destruct t' as [| |bits|g x fs|t''|t'']; try discriminate Hok; cbn [writtenSpace].
    + apply Hall. intros w c. now apply (Hscalar TString w).
    + apply Hall. intros w c. now apply (Hscalar TBool w).
    + apply Hall. intros w c. now apply (Hscalar (TInt bits) w).
    + destruct (Hst g x fs (or_intror (or_intror eq_refl))) as [Hn _].
      apply Hall. intros w c. now apply (Hstruct g x fs w).
Qed.

(** A field accepts the name space it is written in, within a struct
    whose own name space, if it has one, is the default one. *)
Lemma field_accepts (enc : XMLNameTag) (d : FieldDecl) (t : Ty) (dflt : string) :
  (xmlns enc = "" \/ dflt = xmlns enc) ->
  FieldMode_eqb (fi_mode (finfoOf enc d t)) fElement = true ->
  fieldFacts (finfoOf enc d t) t ->
  let fi := finfoOf enc d t in
  (String.eqb (fi_xmlns fi) ""
   || String.eqb (fi_xmlns fi)
        (if String.eqb (writtenSpace fi t) "" then dflt else writtenSpace fi t)) = true.
Proof.
  intros Hctx Hm [Hok Hst]. cbv zeta.
  assert (Hns : forall x, nsFits (finfoOf enc d t) x = true ->
                   (xmlns x = "" -> fi_xmlns (finfoOf enc d t) = ""
                                    \/ fi_xmlns (finfoOf enc d t) = dflt) ->
                   (String.eqb (fi_xmlns (finfoOf enc d t)) ""
                    || String.eqb (fi_xmlns (finfoOf enc d t))
                         (if String.eqb (xmlns x) "" then dflt else xmlns x)) = true).
  { intros x Hfit Hdyn. destruct (String.eqb (xmlns x) "") eqn:Hx.
    - apply String.eqb_eq in Hx. destruct (Hdyn Hx) as [->| ->].
      + reflexivity.
      + rewrite String.eqb_refl. apply orb_true_r.
    - unfold nsFits in Hfit. rewrite Hx in Hfit. exact Hfit. }
  assert (Hdyn : forall x, lookupXMLName t = Some x \/ tag d <> None ->
                   xmlns x = "" ->
                   (tag d = None -> lookupXMLName t = Some x) ->
                   fi_xmlns (finfoOf enc d t) = "" \/ fi_xmlns (finfoOf enc d t) = dflt).
  { intros x _ Hx Hun. unfold finfoOf in *. destruct (tag d) as [tg|].
    - cbn [fi_mode fi_xmlns] in *. destruct (tagMode tg); [|discriminate Hm].
      destruct Hctx as [->| ->]; [now left | now right].
    - rewrite (Hun eq_refl). cbn [fi_xmlns]. now left. }
  assert (Hplain : lookupXMLName t = None -> writtenSpace (finfoOf enc d t) t
                                              = fi_xmlns (finfoOf enc d t) \/ True)
    by (intros _; now right).
  destruct t as [| |bits|g x fs|t'|t']; cbn [writtenSpace].
  1-3: destruct (String.eqb (fi_xmlns _) "") eqn:Hf; [reflexivity|];
       cbn [orb]; apply String.eqb_refl.
  - destruct (Hst g x fs (or_introl eq_refl)) as [_ Hfit].
    cbn [valueOK] in Hok. apply portable_named in Hok as (_ & Hname & _).
    assert (Hl : lookupXMLName (TStruct g x fs) = Some x)
      by (cbn [lookupXMLName]; now rewrite Hname).
    apply (Hns x Hfit). intros Hx.
    apply (Hdyn x); [now left | assumption | now intros _].
  - cbn [valueOK] in Hok. destruct t' as [| |bits|g x fs|t''|t'']; try discriminate Hok.
    destruct (Hst g x fs (or_intror (or_introl eq_refl))) as [_ Hfit].
    cbn [isStruct andb] in Hok. apply portable_named in Hok as (_ & Hname & _).
    assert (Hl : lookupXMLName (TPtr (TStruct g x fs)) = Some x)
      by (cbn [lookupXMLName]; now rewrite Hname).
    apply (Hns x Hfit). intros Hx.
    apply (Hdyn x); [now left | assumption | now intros _].
  - cbn [valueOK] in Hok.
    assert (Hslice : fi_xmlns (finfoOf enc d (TSlice t')) = ""
                     \/ fi_xmlns (finfoOf enc d (TSlice t')) = dflt).
    { unfold finfoOf in *. destruct (tag d) as [tg|].
      - cbn [fi_mode fi_xmlns] in *. destruct (tagMode tg); [|discriminate Hm].
        destruct Hctx as [->| ->]; [now left | now right].
      - cbn [lookupXMLName fi_xmlns]. now left. }
    destruct t' as [| |bits|g x fs|t''|t'']; try discriminate Hok.
    1-3: destruct (String.eqb (fi_xmlns _) "") eqn:Hf; [reflexivity|];
         cbn [orb]; apply String.eqb_refl.
    destruct (Hst g x fs (or_intror (or_intror eq_refl))) as [_ Hfit].
    apply (Hns x Hfit). intros _. exact Hslice.
Qed.

(** *** The round trip *)

Lemma decodeAll_app (t : Ty) (l1 l2 : list Node) :
  forall v : denote t,
    decodeAll t (app l1 l2) v
    = let (v', e) := decodeAll t l1 v in
      match e with
      | Some err => (v', Some err)
      | None => decodeAll t l2 v'
      end.
Proof.
  induction l1 as [|c l1 IH]; intros v; [reflexivity|].
  cbn [app decodeAll]. destruct c as [n a ch| | | |]; try apply IH.
  destruct (unmarshal t v n a ch) as [v' [err|]]; [reflexivity | apply IH].
Qed.

Lemma decodeAll_one (t : Ty) (v : denote t) (n : Name) (a : list Attr) (ch : list Node) :
  decodeAll t [Elem n a ch] v = unmarshal t v n a ch.
Proof.
  cbn [decodeAll]. now destruct (unmarshal t v n a ch) as [v' [err|]].
Qed.

(** The element fields of [r] are those of [src], up to the recorded
    names; its other fields are those of [start]. *)
Fixpoint elemsFrom (enc : XMLNameTag) (fs : Fields)
  : denoteFields fs -> denoteFields fs -> denoteFields fs -> Prop :=
  match fs return denoteFields fs -> denoteFields fs -> denoteFields fs -> Prop with
  | FNil => fun _ _ _ => True
  | FCons d t rest => fun r src start =>
    (if FieldMode_eqb (fi_mode (finfoOf enc d t)) fElement
     then forget t (fst r) = forget t (fst src) else fst r = fst start)
    /\ elemsFrom enc rest (snd r) (snd src) (snd start)
  end.

(** The element fields of [start] hold their zero values. *)
Fixpoint elemsZero (enc : XMLNameTag) (fs : Fields) : denoteFields fs -> Prop :=
  match fs return denoteFields fs -> Prop with
  | FNil => fun _ => True
  | FCons d t rest => fun start =>
    (FieldMode_eqb (fi_mode (finfoOf enc d t)) fElement = true -> fst start = zero t)
    /\ elemsZero enc rest (snd start)
  end.

Lemma attrsFrom_elemsZero (enc : XMLNameTag) (fs : Fields) :
  forall r src : denoteFields fs,
    attrsFrom enc fs r src (zeroFields fs) -> elemsZero enc fs r.
Proof.
  induction fs as [|d t rest IH]; intros r src H; [exact I|].
  cbn [attrsFrom elemsZero zeroFields fst snd] in *. destruct H as [H1 H2].
  split; [|now apply (IH _ (snd src))].
  intros Hm. destruct (fi_mode (finfoOf enc d t)); [exact H1 | discriminate Hm].
Qed.

Lemma forget_scalar (t : Ty) (v : denote t) : isScalar t = true -> forget t v = v.
Proof.
  destruct t; try discriminate; reflexivity.
Qed.

Lemma forgetFields_joined (enc : XMLNameTag) (fs : Fields) :
  attrsOK enc fs = true ->
  forall r1 r2 src : denoteFields fs,
    attrsFrom enc fs r1 src (zeroFields fs) -> elemsFrom enc fs r2 src r1 ->
    forgetFields fs r2 = forgetFields fs src.
Proof.
  induction fs as [|d t rest IH]; intros Hok r1 r2 src Ha He; [reflexivity|].
  cbn [attrsOK attrsFrom elemsFrom forgetFields zeroFields fst snd] in *.
  apply andb_true_iff in Hok as [Hsc Hok].
  destruct Ha as [Ha1 Ha2]. destruct He as [He1 He2].
  f_equal; [|now apply (IH Hok (snd r1))].
  destruct (fi_mode (finfoOf enc d t)); cbn [FieldMode_eqb] in *.
  - exact He1.
  - congruence.
Qed.

Lemma portableFields_attrsOK (enc : XMLNameTag) (fs : Fields) :
  decodableFields enc fs = true ->
  attrsOK enc fs = true /\ ~ In "xmlns" (fieldNames fAttr enc fs).
Proof.
  induction fs as [|d t rest IH]; intros H; [split; [reflexivity | intros []]|].
  apply portableFields_cons in H as (Hrest & _ & Hattr).
  destruct (IH Hrest) as [Hok Hno]. cbn [attrsOK fieldNames].
  destruct (FieldMode_eqb (fi_mode (finfoOf enc d t)) fAttr) eqn:Hm.
  - destruct (Hattr eq_refl) as [Hsc Hname]. rewrite Hsc, Hok. split; [reflexivity|].
    intros [Heq|Hin]; [|now apply Hno].
    rewrite Heq, String.eqb_refl in Hname. discriminate Hname.
  - now split.
Qed.

(** What the element fields of a struct write is named after them. *)
Lemma marshalFields_otherwise (enc : XMLNameTag) (fs : Fields) :
  decodableFields enc fs = true ->
  forall (fi : fieldInfo) (dflt : string) (vals : denoteFields fs) (cs : list Node),
    marshalFields enc fs vals = inr cs ->
    ~ In (fi_name fi) (fieldNames fElement enc fs) ->
    Forall (namedOtherwise fi) (map (wire dflt) cs).
Proof.
  induction fs as [|d t rest IH]; intros Hp fi dflt vals cs H Hn.
  - injection H as <-. constructor.
  - apply portableFields_cons in Hp as (Hrest & Helem & _).
    cbn [marshalFields] in H. cbn [fieldNames] in Hn.
    destruct (FieldMode_eqb (fi_mode (finfoOf enc d t)) fElement) eqn:Hm.
    + destruct (marshalValue t (fst vals) (finfoOf enc d t)) as [e|a] eqn:Ha;
        [discriminate|].
      destruct (marshalFields enc rest (snd vals)) as [e|b] eqn:Hb; [discriminate|].
      injection H as <-. rewrite map_app. apply Forall_app. split.
      * apply (written_otherwise fi dflt (writtenSpace (finfoOf enc d t) t)
                                 (fi_name (finfoOf enc d t))).
        -- intros Heq. apply Hn. now left.
        -- exact (field_written _ t (Helem eq_refl) _ _ Ha).
      * apply (IH Hrest fi dflt (snd vals) b Hb). intros Hin. apply Hn. now right.
    + now apply (IH Hrest fi dflt (snd vals)).
Qed.

(** A value of the type, written as the content of a field, is read
    back into an empty destination. *)
Definition readsBack (t : Ty) : Prop :=
  forall fi : fieldInfo, valueOK fi t = true ->
  forall (v : denote t) (dflt : string) (cs : list Node),
    sized t v = true -> marshalValue t v fi = inr cs ->
    exists v', decodeAll t (map (wire dflt) cs) (zero t) = (v', None)
               /\ forget t v' = forget t v.

Definition fieldsReadBack (fs : Fields) : Prop :=
  forall enc : XMLNameTag,
    decodableFields enc fs = true -> distinct (fieldNames fElement enc fs) = true ->
  forall dflt : string, (xmlns enc = "" \/ dflt = xmlns enc) ->
  forall (src start : denoteFields fs) (cs : list Node),
    sizedFields fs src = true -> marshalFields enc fs src = inr cs ->
    elemsZero enc fs start ->
    exists r, childrenLoop (unmarshalPath enc fs) (map (wire dflt) cs) start = (r, None)
              /\ elemsFrom enc fs r src start.

Lemma scalar_readsBack (t : Ty) : isScalar t = true -> readsBack t.
Proof.
  intros Hsc fi _ v dflt cs Hfit H.
  destruct (marshalValue_scalar t v fi Hsc) as (s & Hs & Heq). rewrite Heq in H.
  destruct (fi_omitEmpty fi && isEmptyValue t v) eqn:Homit; injection H as <-.
  - apply andb_true_iff in Homit as [_ Hempty].
    apply (isEmptyValue_zero t v Hsc) in Hempty. subst v.
    now exists (zero t).
  - exists v. split; [|reflexivity]. cbn [map].
    destruct (wire_elem dflt (fi_xmlns fi) (fi_name fi) [] (textNodes s))
      as (a' & ch' & -> & _ & ->).
    rewrite decodeAll_one, unmarshal_scalar, charData_textNodes by assumption.
    apply copyScalar_marshalSimple; try assumption. now rewrite <- fits_scalar.
Qed.

(** A struct whose fields read back reads back: the element the
    encoder writes for it passes the checks of the name, its attributes
    fill the attribute fields and its children the element fields. *)
Lemma struct_reads_back (g : string) (x : XMLNameTag) (fs : Fields) :
  decodable (TStruct g x fs) = true -> fieldsReadBack fs ->
  forall (v : denote (TStruct g x fs)) (fi : fieldInfo) (dflt : string) (cs : list Node),
    sizedFields fs (snd v) = true ->
    marshalValue (TStruct g x fs) v fi = inr cs ->
    exists n a ch r,
      map (wire dflt) cs = [Elem n a ch]
      /\ unmarshal (TStruct g x fs) (zero (TStruct g x fs)) n a ch = ((n, r), None)
      /\ forgetFields fs r = forgetFields fs (snd v).
Proof.
  intros Hp IH v fi dflt cs Hfit H.
  destruct (marshalValue_struct g x fs v fi cs Hp H) as (attrs & children & Ha & Hc & ->).
  apply portable_named in Hp as (Hg & Hname & Hde & Hda & Hpf).
  destruct (portableFields_attrsOK x fs Hpf) as [Hok Hnox].
  destruct (attributes_read_back x fs Hok Hda (snd v) attrs Hfit Ha) as (r1 & Hr1 & Hfrom).
  set (sp := if String.eqb (xmlns x) "" then dflt else xmlns x).
  assert (Hctx : xmlns x = "" \/ sp = xmlns x).
  { subst sp. destruct (String.eqb (xmlns x) "") eqn:Hx;
      [left; now apply String.eqb_eq | now right]. }
  destruct (IH x Hpf Hde sp Hctx (snd v) r1 children Hfit Hc
               (attrsFrom_elemsZero x fs r1 (snd v) Hfrom)) as (r2 & Hr2 & Helems).
  destruct (wire_elem dflt (xmlns x) (xname x) attrs children) as (a' & ch' & Hw & Ha' & Hch').
  fold sp in Hw, Hch'.
  exists (mkName sp (xname x)), a', ch', r2. cbn [map]. rewrite Hw.
  split; [reflexivity|]. split; [|exact (forgetFields_joined x fs Hok r1 r2 (snd v) Hfrom Helems)].
  rewrite unmarshal_struct_eq, Hg. cbn [Local Space].
  rewrite String.eqb_refl, andb_false_r.
  assert (Hns : negb (String.eqb (xmlns x) "") && negb (String.eqb (xmlns x) sp) = false).
  { subst sp. destruct (String.eqb (xmlns x) "") eqn:Hx; [reflexivity|].
    cbn [negb andb]. now rewrite String.eqb_refl. }
  rewrite Hns. cbn [zero snd].
  assert (Hattrs : assignAttrs x fs (zeroFields fs) a' = (r1, None)).
  { subst a'. destruct (String.eqb (xmlns x) ""); [exact Hr1|].
    cbn [assignAttrs]. rewrite assignAttr_stranger by exact Hnox. exact Hr1. }
  rewrite Hattrs. subst ch'. now rewrite Hr2.
Qed.

(** The decoder reads back what the encoder writes for a decodable
    type, up to the names it records. *)
Lemma portable_readsBack (t : Ty) : readsBack t.
Proof.
  induction t using Ty_Fields_ind with (P0 := fieldsReadBack).
  - now apply scalar_readsBack.
  - now apply scalar_readsBack.
  - now apply scalar_readsBack.
  - intros fi Hok v dflt cs Hfit H. cbn [valueOK] in Hok. cbn [sized] in Hfit.
    destruct (struct_reads_back goType x fs Hok IHt v fi dflt cs Hfit H)
      as (n & a & ch & r & -> & Hu & Hr).
    exists (n, r). rewrite decodeAll_one. split; [exact Hu|].
    cbn [forget snd]. now rewrite Hr.
  - intros fi Hok v dflt cs Hfit H. cbn [valueOK] in Hok.
    apply andb_true_iff in Hok as [Hst Hp].
    destruct t as [| |bits|g x fs|t'|t']; try discriminate Hst.
    destruct v as [w|].
    + cbn [marshalValue] in H. cbn [sized] in Hfit.
      destruct (IHt fi Hp w dflt cs Hfit H) as (w' & Hd & Hw).
      destruct (marshalValue_struct g x fs w fi cs Hp H) as (a0 & c0 & _ & _ & ->).
      cbn [map] in *.
      destruct (wire_elem dflt (xmlns x) (xname x) a0 c0) as (a' & ch' & Hwire & _).
      rewrite Hwire in *. rewrite decodeAll_one in *.
      exists (Some w'). cbn [unmarshal zero] in *. rewrite Hd. split; [reflexivity|].
      change (Some (forget (TStruct g x fs) w') = Some (forget (TStruct g x fs) w)).
      now f_equal.
    + cbn [marshalValue] in H. injection H as <-. now exists None.
  - intros fi Hok v dflt cs Hfit H.
    assert (Hone : forall w c, sized t w = true -> marshalValue t w fi = inr c ->
               exists n a ch w', map (wire dflt) c = [Elem n a ch]
                                 /\ unmarshal t (zero t) n a ch = (w', None)
                                 /\ forget t w' = forget t w).
    { intros w c Hw Hc. cbn [valueOK] in Hok.
      assert (Hscalar : isScalar t = true -> fi_omitEmpty fi = false ->
                exists n a ch w', map (wire dflt) c = [Elem n a ch]
                                  /\ unmarshal t (zero t) n a ch = (w', None)
                                  /\ forget t w' = forget t w).
      { intros Hsc Hno.
        destruct (IHt fi ltac:(now destruct t) w dflt c Hw Hc) as (w' & Hd & Hf).
        destruct (marshalValue_scalar t w fi Hsc) as (s & _ & Heq).
        rewrite Heq, Hno in Hc. cbn [andb] in Hc. injection Hc as <-. cbn [map] in *.
        destruct (wire_elem dflt (fi_xmlns fi) (fi_name fi) [] (textNodes s))
          as (a' & ch' & Hwire & _).
        rewrite Hwire in *. rewrite decodeAll_one in Hd.
        now exists (mkName (if String.eqb (fi_xmlns fi) "" then dflt else fi_xmlns fi)
                           (fi_name fi)), a', ch', w'. }
      destruct t as [| |bits|g x fs|t'|t']; try discriminate Hok.
      - apply Hscalar; [reflexivity | now apply negb_true_iff].
      - apply Hscalar; [reflexivity | now apply negb_true_iff].
      - apply Hscalar; [reflexivity | now apply negb_true_iff].
      - cbn [isStruct andb] in Hok.
        destruct (IHt fi Hok w dflt c Hw Hc) as (w' & Hd & Hf).
        destruct (marshalValue_struct g x fs w fi c Hok Hc) as (a0 & c0 & _ & _ & ->).
        cbn [map] in *.
        destruct (wire_elem dflt (xmlns x) (xname x) a0 c0) as (a' & ch' & Hwire & _).
        rewrite Hwire in *. rewrite decodeAll_one in Hd.
        now exists (mkName (if String.eqb (xmlns x) "" then dflt else xmlns x) (xname x)),
                   a', ch', w'. }
    assert (Hall : forall acc, exists l,
               decodeAll (TSlice t) (map (wire dflt) cs) acc = (app acc l, None)
               /\ map (forget t) l = map (forget t) v).
    { clear Hok. revert cs H Hfit. induction v as [|w ws IHv]; intros cs H Hfit acc.
      - rewrite marshalValue_nil in H. injection H as <-. exists [].
        now rewrite app_nil_r.
      - rewrite marshalValue_cons in H. cbn [sized forallb] in Hfit.
        apply andb_true_iff in Hfit as [Hw Hws].
        destruct (marshalValue t w fi) as [e|c] eqn:Hc; [discriminate|].
        destruct (marshalValue (TSlice t) ws fi) as [e|b] eqn:Hb; [discriminate|].
        injection H as <-.
        destruct (Hone w c Hw Hc) as (n & a & ch & w' & Hmap & Hu & Hf).
        rewrite map_app, decodeAll_app, Hmap, decodeAll_one.
        cbn [unmarshal]. rewrite Hu.
        destruct (IHv b eq_refl Hws (app acc [w'])) as (l & Hl & Hfl).
        exists (w' :: l). rewrite Hl, <- app_assoc. split; [reflexivity|].
        cbn [map]. now rewrite Hf, Hfl. }
    destruct (Hall []) as (l & Hl & Hfl). exists l. split; [exact Hl | exact Hfl].
  - intros enc _ _ dflt _ src start cs _ H _. injection H as <-. now exists start.
  - intros enc Hp Hd dflt Hctx src start cs Hfit H Hz.
    apply portableFields_cons in Hp as (Hrest & Helem & _).
    cbn [marshalFields] in H. cbn [fieldNames] in Hd.
    cbn [sizedFields] in Hfit. apply andb_true_iff in Hfit as [Hf1 Hf2].
    cbn [elemsZero] in Hz. destruct Hz as [Hz1 Hz2]. cbn [elemsFrom].
    destruct (FieldMode_eqb (fi_mode (finfoOf enc d t)) fElement) eqn:Hm.
    + apply distinct_cons in Hd as [Hnotin Hd].
      destruct (marshalValue t (fst src) (finfoOf enc d t)) as [e|a] eqn:Ha;
        [discriminate|].
      destruct (marshalFields enc rest (snd src)) as [e|b] eqn:Hb; [discriminate|].
      injection H as <-.
      destruct (Helem eq_refl) as [Hok Hst].
      destruct (IHt (finfoOf enc d t) Hok (fst src) dflt a Hf1 Ha) as (v' & Hv' & Hfv).
      destruct (IHt0 enc Hrest Hd dflt Hctx (snd src) (snd start) b Hf2 Hb Hz2)
        as (r & Hr & Hfr).
      exists (v', r). rewrite map_app, childrenLoop_app.
      rewrite (childrenLoop_own enc d t rest (map (wire dflt) a) Hm).
      * rewrite (Hz1 eq_refl), Hv'.
        rewrite (childrenLoop_pass enc d t rest (map (wire dflt) b)).
        -- cbn [fst snd]. rewrite Hr. now repeat split.
        -- right. now apply (marshalFields_otherwise enc rest Hrest _ dflt (snd src)).
      * apply (written_belongs _ dflt (writtenSpace (finfoOf enc d t) t)).
        -- exact (field_accepts enc d t dflt Hctx Hm (Helem eq_refl)).
        -- exact (field_written _ t (Helem eq_refl) _ _ Ha).
    + destruct (IHt0 enc Hrest Hd dflt Hctx (snd src) (snd start) cs Hf2 H Hz2)
        as (r & Hr & Hfr).
      exists (fst start, r).
      rewrite (childrenLoop_pass enc d t rest (map (wire dflt) cs) (or_introl Hm)).
      rewrite Hr. now repeat split.
Qed.

(** A decodable type can always be written. *)
Lemma portable_encodable (t : Ty) (fi : fieldInfo) :
  valueOK fi t = true -> encodable t = true.
Proof.
  revert fi.
  induction t using Ty_Fields_ind
    with (P0 := fun fs => forall enc, decodableFields enc fs = true ->
                                      encodableFields enc fs = true);
    intros.
  - reflexivity.
  - reflexivity.
  - reflexivity.
  - cbn [valueOK] in H. apply portable_named in H as (Hg & _ & _ & _ & Hpf).
    cbn [encodable]. rewrite Hg. now apply IHt.
  - cbn [valueOK] in H. apply andb_true_iff in H as [Hst Hp].
    destruct t as [| |bits|g x fs|t'|t']; try discriminate Hst.
    cbn [encodable]. now apply (IHt fi).
  - cbn [valueOK] in H. destruct t as [| |bits|g x fs|t'|t']; try discriminate H;
      try reflexivity.
    cbn [isStruct andb] in H. now apply (IHt fi).
  - reflexivity.
  - apply portableFields_cons in H as (Hrest & Helem & Hattr).
    cbn [encodableFields]. rewrite (IHt0 enc Hrest), andb_true_r.
    destruct (fi_mode (finfoOf enc d t)) eqn:Hm.
    + destruct (Helem eq_refl) as [Hok _]. now apply (IHt (finfoOf enc d t)).
    + destruct (Hattr eq_refl) as [Hsc _]. now destruct t.
Qed.

(** *** What the encoder writes is well written *)

(** Every string of a value is clean. *)
Fixpoint spelled (t : Ty) : denote t -> bool :=
  match t return denote t -> bool with
  | TString => fun s => clean s
  | TStruct _ _ fs => fun v => spelledFields fs (snd v)
  | TPtr t' => fun p => match p with Some v => spelled t' v | None => true end
  | TSlice t' => fun l => forallb (spelled t') l
  | TBool => fun _ => true
  | TInt _ => fun _ => true
  end
with spelledFields (fs : Fields) : denoteFields fs -> bool :=
  match fs return denoteFields fs -> bool with
  | FNil => fun _ => true
  | FCons _ t rest => fun vals => spelled t (fst vals) && spelledFields rest (snd vals)
  end.

(** A value that the encoder writes as it is: every number fits the
    size of its type, as it does in Go by the type of the field, and
    every string is valid UTF-8 without a character that XML excludes. *)
Definition fits (t : Ty) (v : denote t) : bool := sized t v && spelled t v.

Lemma marshalSimple_clean (t : Ty) (v : denote t) (s : string) :
  isScalar t = true -> spelled t v = true -> marshalSimple t v = inr s -> clean s = true.
Proof.
  destruct t; try discriminate; intros _ Hsp H; cbn [marshalSimple] in H;
    injection H as <-.
  - exact Hsp.
  - apply numeral_clean, FormatBool_numeral.
  - apply numeral_clean, FormatInt_numeral.
Qed.

Lemma textNodes_wellWritten (s : string) :
  clean s = true -> forallb wellWritten (textNodes s) = true.
Proof.
  intros H. destruct s; [reflexivity|]. cbn [textNodes forallb wellWritten].
  now rewrite H.
Qed.

Lemma forallb_app_true {A : Type} (p : A -> bool) (l1 l2 : list A) :
  forallb p l1 = true -> forallb p l2 = true -> forallb p (app l1 l2) = true.
Proof.
  intros H1 H2. rewrite forallb_app. now rewrite H1, H2.
Qed.

(** The mode of a field of attribute kind leaves it without a name
    space. *)
Lemma finfoOf_attr (enc : XMLNameTag) (d : FieldDecl) (t : Ty) :
  FieldMode_eqb (fi_mode (finfoOf enc d t)) fAttr = true ->
  fi_xmlns (finfoOf enc d t) = "".
Proof.
  unfold finfoOf. destruct (tag d) as [tg|].
  - cbn [fi_mode fi_xmlns]. now destruct (tagMode tg).
  - destruct (lookupXMLName t); discriminate.
Qed.

Definition writesWell (t : Ty) : Prop :=
  forall fi : fieldInfo,
    valueOK fi t = true -> plainNames t = true ->
    (isStruct t = false -> plainName (fi_name fi) = true) ->
    forall (v : denote t) (cs : list Node),
      spelled t v = true -> marshalValue t v fi = inr cs ->
      forallb wellWritten cs = true.

Definition fieldsWriteWell (fs : Fields) : Prop :=
  forall enc : XMLNameTag,
    decodableFields enc fs = true -> plainNamesFields enc fs = true ->
    forall vals : denoteFields fs,
      spelledFields fs vals = true ->
      (forall cs, marshalFields enc fs vals = inr cs -> forallb wellWritten cs = true)
      /\ (forall a, marshalAttrs enc fs vals = inr a -> forallb plainAttr a = true).

Lemma scalar_writesWell (t : Ty) : isScalar t = true -> writesWell t.
Proof.
  intros Hsc fi _ _ Hname v cs Hsp H.
  destruct (marshalValue_scalar t v fi Hsc) as (s & Hs & Heq). rewrite Heq in H.
  destruct (_ && _); injection H as <-; [reflexivity|].
  cbn [forallb wellWritten Local]. rewrite Hname by now destruct t.
  rewrite (textNodes_wellWritten s (marshalSimple_clean t v s Hsc Hsp Hs)).
  reflexivity.
Qed.

Lemma struct_writesWell (g : string) (x : XMLNameTag) (fs : Fields) :
  fieldsWriteWell fs -> writesWell (TStruct g x fs).
Proof.
  intros IH fi Hok Hpl _ v cs Hsp H. cbn [valueOK] in Hok.
  destruct (marshalValue_struct g x fs v fi cs Hok H) as (attrs & children & Ha & Hc & ->).
  apply portable_named in Hok as (_ & _ & _ & _ & Hpf).
  cbn [plainNames] in Hpl. apply andb_true_iff in Hpl as [Hn Hfs].
  cbn [spelled] in Hsp.
  destruct (IH x Hpf Hfs (snd v) Hsp) as [Hkids Hattrs].
  cbn [forallb wellWritten Local].
  now rewrite Hn, (Hattrs attrs Ha), (Hkids children Hc).
Qed.

Lemma everything_writesWell (t : Ty) : writesWell t.
Proof.
  induction t using Ty_Fields_ind with (P0 := fieldsWriteWell).
  - now apply scalar_writesWell.
  - now apply scalar_writesWell.
  - now apply scalar_writesWell.
  - now apply struct_writesWell.
  - intros fi Hok Hpl _ v cs Hsp H. cbn [valueOK] in Hok.
    apply andb_true_iff in Hok as [Hst Hp].
    destruct t as [| |bits|g x fs|t'|t']; try discriminate Hst.
    destruct v as [w|]; cbn [marshalValue] in H.
    + now apply (IHt fi Hp Hpl ltac:(discriminate) w cs Hsp H).
    + now injection H as <-.
  - intros fi Hok Hpl Hname v cs Hsp H. cbn [plainNames] in Hpl.
    assert (Hone : forall w c, spelled t w = true -> marshalValue t w fi = inr c ->
                               forallb wellWritten c = true).
    { intros w c Hw Hc. cbn [valueOK] in Hok.
      destruct t as [| |bits|g x fs|t'|t']; try discriminate Hok.
      - now apply (IHt fi eq_refl Hpl (fun _ => Hname eq_refl) w c).
      - now apply (IHt fi eq_refl Hpl (fun _ => Hname eq_refl) w c).
      - now apply (IHt fi eq_refl Hpl (fun _ => Hname eq_refl) w c).
      - cbn [isStruct andb] in Hok.
        now apply (IHt fi Hok Hpl ltac:(discriminate) w c). }
    clear Hok. revert cs H Hsp. induction v as [|w ws IHv]; intros cs H Hsp.
    + rewrite marshalValue_nil in H. now injection H as <-.
    + rewrite marshalValue_cons in H. cbn [spelled forallb] in Hsp.
      apply andb_true_iff in Hsp as [Hw Hws].
      destruct (marshalValue t w fi) as [e|c] eqn:Hc; [discriminate|].
      destruct (marshalValue (TSlice t) ws fi) as [e|b] eqn:Hb; [discriminate|].
      injection H as <-. apply forallb_app_true.
      * now apply (Hone w c).
      * now apply (IHv b eq_refl).
  - intros enc _ _ vals _. split; intros l H; now injection H as <-.
  - intros enc Hp Hpl vals Hsp.
    apply portableFields_cons in Hp as (Hrest & Helem & Hattr).
    cbn [plainNamesFields] in Hpl. apply andb_true_iff in Hpl as [Hpl Hplrest].
    apply andb_true_iff in Hpl as [Hname Hplt].
    cbn [spelledFields] in Hsp. apply andb_true_iff in Hsp as [Hsp1 Hsp2].
    destruct (IHt0 enc Hrest Hplrest (snd vals) Hsp2) as [Hkids Hattrs].
    split.
    + intros cs H. cbn [marshalFields] in H.
      destruct (FieldMode_eqb (fi_mode (finfoOf enc d t)) fElement) eqn:Hm;
        [|now apply Hkids].
      destruct (marshalValue t (fst vals) (finfoOf enc d t)) as [e|a] eqn:Ha;
        [discriminate|].
      destruct (marshalFields enc rest (snd vals)) as [e|b] eqn:Hb; [discriminate|].
      injection H as <-. apply forallb_app_true; [|now apply Hkids].
      destruct (Helem eq_refl) as [Hok _].
      now apply (IHt (finfoOf enc d t) Hok Hplt (fun _ => Hname) (fst vals) a).
    + intros al H. cbn [marshalAttrs] in H.
      destruct (FieldMode_eqb (fi_mode (finfoOf enc d t)) fAttr) eqn:Hm;
        cbn [andb] in H; [|now apply Hattrs].
      destruct (negb _); [|now apply Hattrs].
      destruct (Hattr eq_refl) as [Hsc _].
      rewrite (marshalAttr_scalar t (fst vals) _ Hsc) in H.
      destruct (marshalSimple t (fst vals)) as [e|s0] eqn:Hs; [discriminate|].
      destruct (marshalAttrs enc rest (snd vals)) as [e|b] eqn:Hb; [discriminate|].
      injection H as <-. cbn [app forallb]. rewrite (Hattrs b eq_refl), andb_true_r.
      unfold plainAttr. cbn [AttrName AttrValue Space Local].
      rewrite (finfoOf_attr enc d t Hm), Hname.
      now rewrite (marshalSimple_clean t (fst vals) s0 Hsc Hsp1 Hs).
Qed.

Lemma portable_decodable (t : Ty) :
  portable t = true -> decodable t = true /\ plainNames t = true.
Proof.
  unfold portable. intros H. now apply andb_true_iff in H.
Qed.

Lemma fits_sized (t : Ty) (v : denote t) :
  fits t v = true -> sized t v = true /\ spelled t v = true.
Proof.
  unfold fits. intros H. now apply andb_true_iff in H.
Qed.

(** What the encoder writes for a value of a portable type. *)
Lemma portable_wellWritten (t : Ty) (v : denote t) (fi : fieldInfo) (cs : list Node) :
  portable t = true -> fits t v = true -> marshalValue t v fi = inr cs ->
  forallb wellWritten cs = true.
Proof.
  intros Hp Hfit H. apply portable_decodable in Hp as [Hd Hpl].
  apply fits_sized in Hfit as [_ Hsp].
  destruct t as [| |bits|g x fs|t'|t']; try discriminate Hd.
  now apply (everything_writesWell (TStruct g x fs) fi Hd Hpl ltac:(discriminate) v cs).
Qed.

(** The element written for a value of a portable type, and what the
    decoder makes of it. *)
Lemma portable_written (t : Ty) (v : denote t) (fi : fieldInfo) (dflt : string)
  (cs : list Node) :
  portable t = true -> fits t v = true -> marshalValue t v fi = inr cs ->
  exists n a ch v',
    map (wire dflt) cs = [Elem n a ch]
    /\ unmarshal t (zero t) n a ch = (v', None)
    /\ forget t v' = forget t v.
Proof.
  intros Hp Hfit H. apply portable_decodable in Hp as [Hp _].
  apply fits_sized in Hfit as [Hfit _].
  destruct t as [| |bits|g x fs|t'|t']; try discriminate Hp.
  destruct (portable_readsBack (TStruct g x fs) fi Hp v dflt cs Hfit H) as (v' & Hd & Hf).
  destruct (marshalValue_struct g x fs v fi cs Hp H) as (a0 & c0 & _ & _ & ->).
  cbn [map] in *.
  destruct (wire_elem dflt (xmlns x) (xname x) a0 c0) as (a' & ch' & Hwire & _).
  rewrite Hwire in *. rewrite decodeAll_one in Hd.
  now exists (mkName (if String.eqb (xmlns x) "" then dflt else xmlns x) (xname x)),
             a', ch', v'.
Qed.

(** The same on the text: what the decoder reads, under the bindings
    [ns], of the text that the encoder writes for the value. *)
Lemma portable_read (t : Ty) (v : denote t) (fi : fieldInfo) (ns : Bindings)
  (cs : list Node) :
  portable t = true -> fits t v = true -> marshalValue t v fi = inr cs ->
  exists n a ch v',
    map (resolve ns) (map print cs) = [Elem n a ch]
    /\ unmarshal t (zero t) n a ch = (v', None)
    /\ forget t v' = forget t v.
Proof.
  intros Hp Hfit H.
  rewrite (map_resolve_print cs ns (portable_wellWritten t v fi cs Hp Hfit H)).
  now apply (portable_written t v fi (defaultSpace ns) cs).
Qed.


(** A content list of two titles, the first with a spoken label. *)
Definition noAudio : denote Audio_T := (zeroName, ("", (0, (0, (0, tt)))))%Z.

Definition spoken (lang text uri : string) (size : Z) : denote Label_T :=
  (zeroName, (lang, ("ltr", (text, ((zeroName, (uri, (0, (size, (size, tt)))))%Z, tt))))).

Definition written (lang text : string) : denote Label_T :=
  (zeroName, (lang, ("", (text, (noAudio, tt))))).

Definition issuedList : denote Streaming.getContentListResponse_T :=
  (zeroName,
   ((zeroName,
     (2, (0, (1, ("issued",
       (written "en" "Issued",
        ([(zeroName, ("book-1", ("2024-02-29", (spoken "en" "Moby-Dick" "a.mp3" 4096, tt))));
          (zeroName, ("book-2", ("", (written "de" "", tt))))],
         tt)))))))%Z,
    tt)).




(** *** The envelope *)

(** The prolog that [call] writes before the envelope. *)
Definition prolog : list Node :=
  [NProcInst "xml" ("version=" ++ dq ++ "1.0" ++ dq ++ " encoding=" ++ dq ++ "UTF-8" ++ dq);
   Text (String (ascii_of_nat 10) EmptyString)].

(** The text of an envelope that is read as an envelope in the SOAP
    name space whose body holds what the encoder wrote for a value of
    a portable type, is decoded into that value. *)
Lemma written_envelope_decodes (t : Ty) (v : denote t) (cs pre : list Node) (root : Node)
  (eattrs battrs : list Attr) (ns : Bindings) :
  portable t = true -> fits t v = true ->
  marshalValue t v contentField = inr cs ->
  leaves pre ->
  resolve [] root
  = envelopeNode eattrs [] (mkName soapNS "Body") battrs
                 (map (resolve ns) (map print cs)) [] ->
  exists env' v',
    fst (Streaming.Decode_envelope
           (xml_NewDecoder (mkReader (app (flattenAll pre) (flatten root)) EOF))
           (Streaming.mkEnvelope zeroName (Streaming.mkBody t zeroName (Some (zero t)))))
    = (env', None)
    /\ Streaming.Content (Streaming.Body env') = Some v'
    /\ forget t v' = forget t v.
Proof.
  intros Hp Hfit Hcs Hpre Hroot.
  destruct (portable_read t v contentField ns cs Hp Hfit Hcs)
    as (en & a & ch & v' & Hmap & Hu & Hf).
  rewrite Hmap in Hroot.
  assert (Hdoc : app (flattenAll pre) (flatten root)
                 = app (flattenAll (app pre [root])) []).
  { unfold flattenAll. rewrite flat_map_app. cbn [flat_map].
    now rewrite !app_nil_r. }
  unfold xml_NewDecoder. rewrite Hdoc, resolved_document, map_app.
  cbn [map content readErr resolved resolveTokens]. rewrite Hroot.
  apply (leaves_resolve []) in Hpre.
  rewrite (Decode_envelope_document _
             (app (map (resolve []) pre)
                  [envelopeNode eattrs [] (mkName soapNS "Body") battrs [Elem en a ch] []])
             [] EOF (firstElem_leaves _ _ _ _ [] Hpre)).
  unfold decodeRoot. cbn [Local Space].
  change (negb (String.eqb "Envelope" "Envelope")) with false.
  rewrite String.eqb_refl. cbn [negb].
  rewrite (decodeBodies_single _ [] (mkName soapNS "Body") battrs [Elem en a ch] []
             eq_refl eq_refl eq_refl).
  unfold extract. cbn [firstElem Streaming.Content Streaming.Body]. rewrite Hu.
  eexists. exists v'. cbn [Streaming.set_Content Streaming.Content Streaming.Body].
  now repeat split.
Qed.

(** What the decoder reads of the envelope of the streaming revision. *)
Lemma streaming_envelope_read (cs : list Node) :
  forallb wellWritten cs = true ->
  resolve [] (print (Elem (mkName soapNS "Envelope") [] [Elem (mkName "" "Body") [] cs]))
  = envelopeNode [xmlnsAttr soapNS] [] (mkName soapNS "Body") []
                 (map (resolve [("", soapNS)]) (map print cs)) [].
Proof.
  intros H. rewrite resolve_print.
  - rewrite (map_resolve_print cs _ H). reflexivity.
  - cbn [wellWritten forallb Local]. now rewrite H.
Qed.

(** What the decoder reads of the envelope of [client.go]. *)
Lemma client_envelope_read (cs : list Node) :
  resolve [] (print (Elem (mkName "" "SOAP-ENV:Envelope")
                          [mkAttr (mkName "" "xmlns:SOAP-ENV") soapNS]
                          [Elem (mkName "" "SOAP-ENV:Body")
                                [mkAttr (mkName "" "xmlns") daisyNS] cs]))
  = envelopeNode [mkAttr (mkName "xmlns" "SOAP-ENV") soapNS] []
                 (mkName soapNS "Body") [xmlnsAttr daisyNS]
                 (map (resolve [("", daisyNS); ("SOAP-ENV", soapNS)]) (map print cs)) [].
Proof.
  reflexivity.
Qed.



(** *** The payloads of the operations *)

(** The request and response types of the operations, in the streaming
    revision and in [client.go], but for the request of [setBookmarks]
    and the response of [getBookmarks], which hold a bookmark set, and
    the request of [markAnnouncementsAsRead], which holds a value of a
    type that the package takes from elsewhere. *)
Definition payloadTypes : list Ty :=
  [Streaming.logOn_T; Streaming.logOnResponse_T; Streaming.logOff_T;
   Streaming.logOffResponse_T; Streaming.getServiceAttributes_T;
   Streaming.getServiceAttributesResponse_T; Streaming.setReadingSystemAttributes_T;
   Streaming.setReadingSystemAttributesResponse_T; Streaming.getContentList_T;
   Streaming.getContentListResponse_T; Streaming.getContentMetadata_T;
   Streaming.getContentMetadataResponse_T; Streaming.getContentResources_T;
   Streaming.getContentResourcesResponse_T; Streaming.issueContent_T;
   Streaming.issueContentResponse_T; Streaming.returnContent_T;
   Streaming.returnContentResponse_T; Streaming.getQuestions_T;
   Streaming.getQuestionsResponse_T; Streaming.getServiceAnnouncements_T;
   Streaming.getServiceAnnouncementsResponse_T; Streaming.setBookmarksResponse_T;
   Streaming.getBookmarks_T; Streaming.markAnnouncementsAsReadResponse_T;
   InnerXml.logOn_T; InnerXml.logOnResponse_T; InnerXml.logOff_T;
   InnerXml.logOffResponse_T; InnerXml.getServiceAttributes_T;
   InnerXml.getServiceAttributesResponse_T; InnerXml.setReadingSystemAttributes_T;
   InnerXml.setReadingSystemAttributesResponse_T; InnerXml.getContentList_T;
   InnerXml.getContentListResponse_T; InnerXml.getContentMetadata_T;
   InnerXml.getContentMetadataResponse_T; InnerXml.getContentResources_T;
   InnerXml.getContentResourcesResponse_T; InnerXml.issueContent_T;
   InnerXml.issueContentResponse_T; InnerXml.returnContent_T;
   InnerXml.returnContentResponse_T; InnerXml.getQuestions_T;
   InnerXml.getQuestionsResponse_T; InnerXml.getServiceAnnouncements_T;
   InnerXml.getServiceAnnouncementsResponse_T].

Lemma payloadTypes_portable (t : Ty) : In t payloadTypes -> portable t = true.
Proof.
  assert (H : forallb portable payloadTypes = true) by (vm_compute; reflexivity).
  rewrite forallb_forall in H. apply H.
Qed.

Lemma xml_Header_prolog : xml_Header = flattenAll prolog.
Proof.
  reflexivity.
Qed.

(** A fresh destination for a payload of the type [t]. *)
Definition freshEnvelope (t : Ty) : Streaming.envelope t :=
  Streaming.mkEnvelope zeroName (Streaming.mkBody t zeroName (Some (zero t))).

(** C4, as the code has it.  A payload of an operation that is written
    by the envelope codec of either revision, after the XML
    declaration, and decoded by the body extractor into a fresh
    destination of the same type comes back without an error and equal
    to the original up to the element names that the decoder records
    in the [XMLName] fields, which the original leaves empty.  This
    holds for the payload types but the three that [payloadTypes]
    leaves out, and for the values whose numbers fit their types and
    whose strings are valid UTF-8 without a character that XML
    excludes. *)
Theorem payload_is_read_back_up_to_names (t : Ty) (v : denote t) (n bn : Name) :
  In t payloadTypes -> fits t v = true ->
  (exists doc env' v',
     Streaming.Encode_envelope
       (Streaming.mkEnvelope n (Streaming.mkBody t bn (Some v))) = inr doc
     /\ fst (Streaming.Decode_envelope
               (xml_NewDecoder (mkReader (app xml_Header doc) EOF)) (freshEnvelope t))
        = (env', None)
     /\ Streaming.Content (Streaming.Body env') = Some v'
     /\ forget t v' = forget t v)
  /\
  (exists doc env' v',
     InnerXml.Encode_envelope
       (InnerXml.mkEnvelope n soapNS (InnerXml.mkBody t bn daisyNS (Some v))) = inr doc
     /\ fst (Streaming.Decode_envelope
               (xml_NewDecoder (mkReader (app xml_Header doc) EOF)) (freshEnvelope t))
        = (env', None)
     /\ Streaming.Content (Streaming.Body env') = Some v'
     /\ forget t v' = forget t v).
Proof.
  intros Hin Hfit. pose proof (payloadTypes_portable t Hin) as Hp.
  assert (Henc : encodable t = true).
  { destruct (portable_decodable t Hp) as [Hd _].
    destruct t as [| |bits|g x fs|t'|t']; try discriminate Hd.
    now apply (portable_encodable _ contentField). }
  destruct (marshalValue_total t Henc v contentField) as [cs Hcs].
  rewrite xml_Header_prolog. split.
  - unfold Streaming.Encode_envelope. cbn [Streaming.Content Streaming.Body]. rewrite Hcs.
    destruct (written_envelope_decodes t v cs prolog _ _ _ _ Hp Hfit Hcs eq_refl
                (streaming_envelope_read cs (portable_wellWritten t v _ cs Hp Hfit Hcs)))
      as (env' & v' & Hd & Hc & Hf).
    eexists. exists env', v'. split; [reflexivity|]. now repeat split.
  - unfold InnerXml.Encode_envelope.
    cbn [InnerXml.Content InnerXml.Body InnerXml.NS InnerXml.body_NS]. rewrite Hcs.
    destruct (written_envelope_decodes t v cs prolog _ _ _ _ Hp Hfit Hcs eq_refl
                (client_envelope_read cs))
      as (env' & v' & Hd & Hc & Hf).
    eexists. exists env', v'. split; [reflexivity|]. now repeat split.
Qed.

Lemma payload_is_read_back_up_to_names_witness :
  exists doc env' v',
    Streaming.Encode_envelope
      (Streaming.mkEnvelope zeroName
         (Streaming.mkBody Streaming.getContentListResponse_T zeroName (Some issuedList)))
    = inr doc
    /\ fst (Streaming.Decode_envelope
              (xml_NewDecoder (mkReader (app xml_Header doc) EOF))
              (freshEnvelope Streaming.getContentListResponse_T))
       = (env', None)
    /\ Streaming.Content (Streaming.Body env') = Some v'
    /\ forget Streaming.getContentListResponse_T v'
       = forget Streaming.getContentListResponse_T issuedList.
Proof.
  apply (proj1 (payload_is_read_back_up_to_names Streaming.getContentListResponse_T
                  issuedList zeroName zeroName
                  ltac:(vm_compute; tauto) eq_refl)).
Defined.

(** A request to store bookmarks for a book. *)
Definition someBookmarks : denote BookmarkSet_T :=
  let '(n, (title, (_, rest))) := zero BookmarkSet_T in (n, (title, ("book-1", rest))).

Definition storeRequest : denote Streaming.setBookmarks_T :=
  (zeroName, ("book-1", (Some someBookmarks, tt))).

(** A user name that holds the character U+0000. *)
Definition oddRequest : denote Streaming.logOn_T :=
  (zeroName, (String (ascii_of_nat 0) EmptyString, ("p", tt))).

(** What is read back is not always what was written.  The bookmark
    set of a request to store bookmarks is written in its own name
    space, which the field of the request does not accept: the request
    is read back without it, and without an error.  The name of the
    element is recorded in the request that is read back, where the
    request that was written has none.  A character that XML excludes
    is read back as U+FFFD.  In the first and in the last case the two
    requests differ in more than the recorded names. *)
Lemma payload_is_not_read_back :
  (exists doc env',
     Streaming.Encode_envelope
       (Streaming.mkEnvelope zeroName
          (Streaming.mkBody Streaming.setBookmarks_T zeroName (Some storeRequest))) = inr doc
     /\ fst (Streaming.Decode_envelope
               (xml_NewDecoder (mkReader (app xml_Header doc) EOF))
               (freshEnvelope Streaming.setBookmarks_T))
        = (env', None)
     /\ Streaming.Content (Streaming.Body env')
        = Some (mkName daisyNS "setBookmarks", ("book-1", (None, tt)))
     /\ forget Streaming.setBookmarks_T
          (mkName daisyNS "setBookmarks", ("book-1", (None, tt)))
        <> forget Streaming.setBookmarks_T storeRequest)
  /\
  (exists doc env',
     Streaming.Encode_envelope
       (Streaming.mkEnvelope zeroName
          (Streaming.mkBody Streaming.logOn_T zeroName (Some logOnRequest))) = inr doc
     /\ fst (Streaming.Decode_envelope
               (xml_NewDecoder (mkReader (app xml_Header doc) EOF))
               (freshEnvelope Streaming.logOn_T))
        = (env', None)
     /\ Streaming.Content (Streaming.Body env')
        = Some (mkName daisyNS "logOn", ("u", ("p", tt)))
     /\ logOnRequest <> (mkName daisyNS "logOn", ("u", ("p", tt))))
  /\
  (exists doc env',
     Streaming.Encode_envelope
       (Streaming.mkEnvelope zeroName
          (Streaming.mkBody Streaming.logOn_T zeroName (Some oddRequest))) = inr doc
     /\ fst (Streaming.Decode_envelope
               (xml_NewDecoder (mkReader (app xml_Header doc) EOF))
               (freshEnvelope Streaming.logOn_T))
        = (env', None)
     /\ Streaming.Content (Streaming.Body env')
        = Some (mkName daisyNS "logOn", (replacementChar, ("p", tt)))
     /\ forget Streaming.logOn_T (mkName daisyNS "logOn", (replacementChar, ("p", tt)))
        <> forget Streaming.logOn_T oddRequest).
Proof.
  split; [|split].
  - eexists. eexists. split; [reflexivity|]. split; [vm_compute; reflexivity|].
    split; [vm_compute; reflexivity | vm_compute; discriminate].
  - eexists. eexists. split; [reflexivity|]. split; [vm_compute; reflexivity|].
    split; [vm_compute; reflexivity | discriminate].
  - eexists. eexists. split; [reflexivity|]. split; [vm_compute; reflexivity|].
    split; [vm_compute; reflexivity | vm_compute; discriminate].
Qed.
